(** * log_analyzer: the log-to-statistics pipeline of [log_analyzer.py]

    A shallow embedding of [find_last_log_file], [process_line], [parse_log],
    [calculate_statistics] and the ranking step of [main], together with the
    parts of the Python runtime they call: binary64 arithmetic, [round],
    [sum], [max], [statistics.median], [sorted], [float], [re.match] and
    [datetime.strptime].

    Conventions.
    - A Python [float] is a [spec_float] at precision 53 and [emax] 1024
      (the executable IEEE-754 binary64 model of the Standard Library).
    - A Python [int] is a [Z].
    - A Python [str] is a [string]; a character is a code point below 256,
      so the character classes below are Python's restricted to U+0000..U+00FF.
    - A [dict] is an association list in insertion order, which is the
      iteration order of Python dictionaries.
    - A call that may raise returns a [result]. *)

From Stdlib Require Import ZArith List Bool String Ascii Lia Permutation Sorted.
From Stdlib Require Import Floats.SpecFloat.
Import ListNotations.

Local Open Scope string_scope.
Local Open Scope list_scope.
Local Open Scope Z_scope.

(** ** Exceptions *)

Inductive exn : Type :=
| ErrorsLimitExceedError (errors_limit cur_errors_limit : spec_float)
| ZeroDivisionError
| OverflowError
| ValueError
| TypeError
| StatisticsError
| OSError              (* [open], [gzip.open]; [gzip.BadGzipFile] is one *)
| EOFError             (* a compressed file that ends too early *)
| ZlibError            (* [zlib.error]: damaged compressed data *)
| UnicodeDecodeError.  (* bytes that are no text in the encoding *)

Inductive result (A : Type) : Type :=
| Ok (a : A)
| Raise (e : exn).

Arguments Ok {A} a.
Arguments Raise {A} e.

Definition bind {A B : Type} (r : result A) (k : A -> result B) : result B :=
  match r with
  | Ok a => k a
  | Raise e => Raise e
  end.

Notation "x <- r ;; k" := (bind r (fun x => k))
  (at level 61, r at next level, right associativity).

(** ** Binary64 arithmetic as Python exposes it *)

Module PyFloat.

Definition prec : Z := 53.
Definition emax : Z := 1024.

Definition float : Type := spec_float.

Definition zero : float := S754_zero false.

Definition add : float -> float -> float := SFadd prec emax.
Definition sub : float -> float -> float := SFsub prec emax.
Definition mul : float -> float -> float := SFmul prec emax.
Definition ltb : float -> float -> bool := SFltb.
Definition leb : float -> float -> bool := SFleb.
Definition eqb : float -> float -> bool := SFeqb.
Definition abs : float -> float := SFabs.

Definition is_zero (x : float) : bool :=
  match x with S754_zero _ => true | _ => false end.

Definition is_nan (x : float) : bool :=
  match x with S754_nan => true | _ => false end.

Definition is_infinity (x : float) : bool :=
  match x with S754_infinity _ => true | _ => false end.

Definition is_finite (x : float) : bool :=
  match x with S754_zero _ | S754_finite _ _ _ => true | _ => false end.

(** The binary64 value nearest to [n / d] (ties to even), with sign [s];
    an infinity when the quotient is beyond the largest finite value. *)
Definition of_ratio (s : bool) (n d : positive) : float :=
  let '(mz, ez, lz) := SFdiv_core_binary prec emax (Zpos n) 0 (Zpos d) 0 in
  binary_round_aux prec emax s mz ez lz.

(** [float(i)] for an int, as the right operand of a float operation:
    correctly rounded, [OverflowError] when out of range. *)
Definition of_int (i : Z) : result float :=
  let f := binary_normalize prec emax i 0 false in
  if is_infinity f then Raise OverflowError else Ok f.

(** [a / b] on two ints. *)
Definition int_truediv (a b : Z) : result float :=
  match a, b with
  | _, Z0 => Raise ZeroDivisionError
  | Z0, _ => Ok (S754_zero (b <? 0))
  | Zpos n, Zpos d | Zneg n, Zneg d =>
      let f := of_ratio false n d in
      if is_infinity f then Raise OverflowError else Ok f
  | Zpos n, Zneg d | Zneg n, Zpos d =>
      let f := of_ratio true n d in
      if is_infinity f then Raise OverflowError else Ok f
  end.

(** [x / y] on two floats. *)
Definition truediv (x y : float) : result float :=
  if is_zero y then Raise ZeroDivisionError else Ok (SFdiv prec emax x y).

(** [x / i] and [x * i] with an int on the right. *)
Definition truediv_int (x : float) (i : Z) : result float :=
  y <- of_int i ;; truediv x y.

Definition mul_int (x : float) (i : Z) : result float :=
  y <- of_int i ;; Ok (mul x y).

(** [x >= 0] *)
Definition nonneg (x : float) : bool := leb zero x.

(** Truth value of a float: [bool(x)] is [x != 0.0]. *)
Definition truthy (x : float) : bool :=
  match x with S754_zero _ => false | _ => true end.

(** Round a non-negative rational [n / d] to the nearest integer, ties to
    even. *)
Definition round_half_even (n : Z) (d : Z) : Z :=
  let q := n / d in
  let r := n mod d in
  match 2 * r ?= d with
  | Lt => q
  | Gt => q + 1
  | Eq => if Z.even q then q else q + 1
  end.

(** [round(x, ndigits)] for [0 <= ndigits]: the decimal expansion of [x]
    correctly rounded to [ndigits] places (ties to even on the exact value),
    read back as the nearest binary64 value. *)
Definition round (x : float) (ndigits : Z) : result float :=
  match x with
  | S754_finite s m e =>
      let p := 10 ^ ndigits in
      let q :=
        match e with
        | Zneg k => round_half_even (Zpos m * p) (2 ^ Zpos k)
        | _ => Zpos m * 2 ^ e * p
        end in
      match q, p with
      | Zpos qn, Zpos pd =>
          let f := of_ratio s qn pd in
          if is_infinity f then Raise OverflowError else Ok f
      | _, _ => Ok (S754_zero s)
      end
  | _ => Ok x
  end.

End PyFloat.

Import PyFloat.

(** ** Python builtins used by the pipeline *)

Module Py.

(** *** [sum]

    [sum(data)] starts from the int [0]; the first item is added by the
    generic [0 + x], which is [0.0 + x]. What follows depends on the
    interpreter: up to CPython 3.11 the remaining items are added left to
    right; from 3.12 on they go through Neumaier's compensated summation.
    The source runs on both, so the model takes the choice as a parameter. *)

Inductive sum_impl : Type := SumLeftFold | SumCompensated.

Definition cs_add (total : float * float) (x : float) : float * float :=
  let '(hi, lo) := total in
  let t := add hi x in
  if leb (abs x) (abs hi)
  then (t, add lo (add (sub hi t) x))
  else (t, add lo (add (sub x t) hi)).

Definition cs_to_double (total : float * float) : float :=
  let '(hi, lo) := total in
  if truthy lo && is_finite lo then add hi lo else hi.

Definition sum (impl : sum_impl) (data : list float) : float :=
  match impl with
  | SumLeftFold => fold_left add data zero
  | SumCompensated =>
      match data with
      | [] => zero
      | x :: rest => cs_to_double (fold_left cs_add rest (add zero x, zero))
      end
  end.

(** *** [max]: the first item, replaced by each later item that compares
    greater. *)

Definition max (data : list float) : result float :=
  match data with
  | [] => Raise ValueError
  | x :: rest => Ok (fold_left (fun m y => if ltb m y then y else m) rest x)
  end.

(** *** [sorted]

    A stable sort that only asks [<]; with [reverse=True] the list is
    reversed, sorted and reversed again, which keeps equal keys in their
    original order. On keys that [<] orders totally every stable sort
    returns the same list, so insertion stands for the interpreter's
    algorithm. *)

Section Sorting.
Context {A : Type} (lt : A -> A -> bool).

Fixpoint insert (x : A) (l : list A) : list A :=
  match l with
  | [] => [x]
  | y :: l' => if lt y x then y :: insert x l' else x :: y :: l'
  end.

Definition sort (l : list A) : list A := fold_right insert [] l.

Definition sorted (l : list A) (reverse : bool) : list A :=
  if reverse then rev (sort (rev l)) else sort l.
End Sorting.

(** *** [statistics.median] *)

Definition median (data : list float) : result float :=
  let data := sorted ltb data false in
  let n := List.length data in
  match n with
  | O => Raise StatisticsError
  | _ =>
      if Nat.odd n then Ok (nth (Nat.div n 2) data zero)
      else
        let i := Nat.div n 2 in
        truediv_int (add (nth (i - 1) data zero) (nth i data zero)) 2
  end.

(** *** The slice [l[:n]] *)

Definition slice_to {A : Type} (l : list A) (n : Z) : list A :=
  if n <? 0 then firstn (Z.to_nat (Z.of_nat (List.length l) + n)) l
  else firstn (Z.to_nat n) l.

End Py.

(** ** [calculate_statistics] *)

(** One item of the stream [log_parser(file_path)]: [None] or
    [(url, request_time)]. *)
Definition parsed_line : Type := option (string * float).

(** The dictionary [statistics]: url to the list of its request times. *)
Definition stats_dict : Type := list (string * list float).

(** [statistics.setdefault(url, []).append(request_time)] *)
Fixpoint setdefault_append (url : string) (request_time : float)
    (d : stats_dict) : stats_dict :=
  match d with
  | [] => [(url, [request_time])]
  | (k, v) :: d' =>
      if String.eqb k url then (k, v ++ [request_time]) :: d'
      else (k, v) :: setdefault_append url request_time d'
  end.

(** The loop variables. [processed_request_time] starts as the int [0] and
    is a float from the first addition on ([0 + x] is [0.0 + x]); it is only
    read after at least one addition. *)
Record loop_state : Type := {
  total : Z;
  processed : Z;
  processed_request_time : float;
  statistics : stats_dict
}.

Definition loop_init : loop_state :=
  {| total := 0; processed := 0; processed_request_time := zero;
     statistics := [] |}.

Definition loop_step (st : loop_state) (parsed : parsed_line) : loop_state :=
  match parsed with
  | Some (url, request_time) =>
      {| total := total st + 1;
         processed := processed st + 1;
         processed_request_time :=
           add (processed_request_time st) request_time;
         statistics := setdefault_append url request_time (statistics st) |}
  | None =>
      {| total := total st + 1;
         processed := processed st;
         processed_request_time := processed_request_time st;
         statistics := statistics st |}
  end.

Definition loop (stream : list parsed_line) : loop_state :=
  fold_left loop_step stream loop_init.

(** The errors gate after the loop. *)
Definition errors_gate (errors_limit : option float) (st : loop_state)
    : result unit :=
  match errors_limit with
  | Some limit =>
      if total st >? 0 then
        cur_errors_limit <- int_truediv (total st - processed st) (total st) ;;
        if truthy cur_errors_limit
        then Raise (ErrorsLimitExceedError limit cur_errors_limit)
        else Ok tt
      else Ok tt
  | None => Ok tt
  end.

(** One value of [enriched_statistics]. *)
Record entry : Type := {
  url : string;
  count : Z;
  count_perc : float;
  time_sum : float;
  time_perc : float;
  time_avg : float;
  time_max : float;
  time_med : float
}.

(** The body of the enrichment loop for one item of [statistics.items()]. *)
Definition enrich (impl : Py.sum_impl) (all_count : Z) (all_time_sum : float)
    (item : string * list float) : result entry :=
  let '(u, data) := item in
  let cnt := Z.of_nat (List.length data) in
  cnt_perc <- int_truediv cnt all_count ;;
  let t_sum := Py.sum impl data in
  t_perc <- truediv t_sum all_time_sum ;;
  t_avg <- truediv_int t_sum cnt ;;
  t_max <- Py.max data ;;
  t_med <- Py.median data ;;
  cnt_perc100 <- mul_int cnt_perc 100 ;;
  r_count_perc <- round cnt_perc100 3 ;;
  r_time_sum <- round t_sum 3 ;;
  t_perc100 <- mul_int t_perc 100 ;;
  r_time_perc <- round t_perc100 3 ;;
  r_time_avg <- round t_avg 3 ;;
  r_time_max <- round t_max 3 ;;
  r_time_med <- round t_med 3 ;;
  Ok {| url := u; count := cnt; count_perc := r_count_perc;
        time_sum := r_time_sum; time_perc := r_time_perc;
        time_avg := r_time_avg; time_max := r_time_max;
        time_med := r_time_med |}.

(** The enrichment loop. The keys of [statistics] are pairwise different, so
    each assignment [enriched_statistics[url] = ...] adds a new key at the
    end: the result lists one entry per item, in the same order. *)
Fixpoint enrich_all (impl : Py.sum_impl) (all_count : Z) (all_time_sum : float)
    (items : stats_dict) : result (list entry) :=
  match items with
  | [] => Ok []
  | item :: rest =>
      e <- enrich impl all_count all_time_sum item ;;
      es <- enrich_all impl all_count all_time_sum rest ;;
      Ok (e :: es)
  end.

(** [calculate_statistics(file_path, log_parser, errors_limit)], on the
    stream that [log_parser(file_path)] yields. The result is the list of
    values of [enriched_statistics] in iteration order (each value carries
    its key in [url]). *)
Definition calculate_statistics (impl : Py.sum_impl)
    (stream : list parsed_line) (errors_limit : option float)
    : result (list entry) :=
  let st := loop stream in
  _ <- errors_gate errors_limit st ;;
  let all_count := processed st in
  let all_time_sum := processed_request_time st in
  enrich_all impl all_count all_time_sum (statistics st).

(** The ranking step of [main]:
    [sorted(statistics.values(), key=lambda x: x["time_sum"], reverse=True)[:REPORT_SIZE]] *)
Definition top_statistics (values : list entry) (report_size : Z)
    : list entry :=
  Py.slice_to
    (Py.sorted (fun x y => ltb (time_sum x) (time_sum y)) values true)
    report_size.

(** The defaults of [DEFAULT_CONFIG] that the pipeline reads. *)
Definition DEFAULT_REPORT_SIZE : Z := 10.

(** ** [re.match]: a backtracking matcher for the constructs of the two
    patterns *)

Module Re.

Inductive cclass : Type :=
| Any                 (* .   every character but the newline *)
| Digit               (* \d *)
| Space               (* \s *)
| Lit (c : ascii).    (* a literal character *)

Definition is_digit (a : ascii) : bool :=
  let n := nat_of_ascii a in (48 <=? n)%nat && (n <=? 57)%nat.

Definition is_space (a : ascii) : bool :=
  let n := nat_of_ascii a in
  ((9 <=? n)%nat && (n <=? 13)%nat) || ((28 <=? n)%nat && (n <=? 32)%nat)
  || (n =? 133)%nat || (n =? 160)%nat.

Definition cclass_matches (c : cclass) (a : ascii) : bool :=
  match c with
  | Any => negb (Ascii.eqb a "010"%char)
  | Digit => is_digit a
  | Space => is_space a
  | Lit c => Ascii.eqb a c
  end.

Inductive regex : Type :=
| Eps
| Chr (c : cclass)
| Star (c : cclass) (greedy : bool)   (* c*  and  c*? *)
| Upto (n : nat) (c : cclass)         (* c{0,n} *)
| Seq (r1 r2 : regex)
| Opt (r : regex)                     (* (r)? *)
| Group (name : string) (r : regex)   (* (?P<name>r) *)
| Eol.                                (* $ *)

(** [c+] and [c+?] *)
Definition Plus (c : cclass) (greedy : bool) : regex :=
  Seq (Chr c) (Star c greedy).

(** [c{n}] *)
Fixpoint Rep (n : nat) (c : cclass) : regex :=
  match n with
  | O => Eps
  | S n' => Seq (Chr c) (Rep n' c)
  end.

(** A literal string. *)
Fixpoint Str (s : string) : regex :=
  match s with
  | EmptyString => Eps
  | String a s' => Seq (Chr (Lit a)) (Str s')
  end.

(** A sequence of patterns. *)
Fixpoint Cat (rs : list regex) : regex :=
  match rs with
  | [] => Eps
  | [r] => r
  | r :: rs' => Seq r (Cat rs')
  end.

(** Group name to matched text; the most recent binding first. *)
Definition captures : Type := list (string * string).

Fixpoint group (caps : captures) (name : string) : option string :=
  match caps with
  | [] => None
  | (n, v) :: caps' => if String.eqb n name then Some v else group caps' name
  end.

(** The text between the position [s] and the later position [s'] (both are
    the rest of the subject string from that position on). *)
Definition consumed (s s' : string) : string :=
  substring 0 (String.length s - String.length s') s.

Section Run.
Context {R : Type}.

Fixpoint star_greedy (c : cclass) (s : string) (k : string -> option R)
    : option R :=
  match s with
  | String a s' =>
      if cclass_matches c a then
        match star_greedy c s' k with
        | Some r => Some r
        | None => k s
        end
      else k s
  | EmptyString => k s
  end.

Fixpoint star_lazy (c : cclass) (s : string) (k : string -> option R)
    : option R :=
  match k s with
  | Some r => Some r
  | None =>
      match s with
      | String a s' => if cclass_matches c a then star_lazy c s' k else None
      | EmptyString => None
      end
  end.

Fixpoint upto (n : nat) (c : cclass) (s : string) (k : string -> option R)
    : option R :=
  match n with
  | O => k s
  | S n' =>
      match s with
      | String a s' =>
          if cclass_matches c a then
            match upto n' c s' k with
            | Some r => Some r
            | None => k s
            end
          else k s
      | EmptyString => k s
      end
  end.

(** [run r s caps k]: match [r] at [s], trying the alternatives in the
    order of the backtracking engine, and hand the rest of the string and
    the captures to [k]; the first alternative that [k] accepts wins. *)
Fixpoint run (r : regex) (s : string) (caps : captures)
    (k : string -> captures -> option R) : option R :=
  match r with
  | Eps => k s caps
  | Chr c =>
      match s with
      | String a s' => if cclass_matches c a then k s' caps else None
      | EmptyString => None
      end
  | Star c true => star_greedy c s (fun s' => k s' caps)
  | Star c false => star_lazy c s (fun s' => k s' caps)
  | Upto n c => upto n c s (fun s' => k s' caps)
  | Seq r1 r2 => run r1 s caps (fun s' caps' => run r2 s' caps' k)
  | Opt r' =>
      match run r' s caps k with
      | Some x => Some x
      | None => k s caps
      end
  | Group name r' =>
      run r' s caps (fun s' caps' => k s' ((name, consumed s s') :: caps'))
  | Eol =>
      match s with
      | EmptyString => k s caps
      | String a EmptyString =>
          if Ascii.eqb a "010"%char then k s caps else None
      | _ => None
      end
  end.
End Run.

(** [re.match(r, s)]: the captures of the first match of [r] at the start
    of [s], where [^] holds. *)
Definition match_ (r : regex) (s : string) : option captures :=
  run r s [] (fun _ caps => Some caps).

End Re.

Import Re.

(** ** The two patterns of the source *)

Definition dquote : ascii := "034"%char.

(** [^nginx-access-ui\.log-(?P<date>\d{8})(\.gz)?$]; the unnamed group is
    keyed by its number. *)
Definition FILE_NAME_REGEXP : regex :=
  Cat [ Str "nginx-access-ui"; Chr (Lit "."%char); Str "log-";
        Group "date" (Rep 8 Digit);
        Opt (Group "2" (Seq (Chr (Lit "."%char)) (Str "gz")));
        Eol ].

(** The pattern of the last group: [\d+\.?\d*]. *)
Definition request_time_pattern : regex :=
  Cat [ Plus Digit true; Opt (Chr (Lit "."%char)); Star Digit true ].

(** [NGINX_LOG_FORMAT_REGEXP] up to the blanks before the last group. *)
Definition line_fields : list regex :=
  [ Group "ipaddress"
      (Cat [ Chr Digit; Upto 2 Digit; Chr (Lit "."%char);
             Chr Digit; Upto 2 Digit; Chr (Lit "."%char);
             Chr Digit; Upto 2 Digit; Chr (Lit "."%char);
             Chr Digit; Upto 2 Digit ]);
    Plus Space true;
    Group "remote_user" (Star Any false); Plus Space true;
    Group "http_x_real_ip" (Star Any false); Plus Space true;
    Chr (Lit "["%char); Group "time_local" (Star Any false);
    Chr (Lit "]"%char); Plus Space true;
    Chr (Lit dquote); Group "request_method" (Star Any false);
    Plus Space true;
    Group "path" (Star Any false);
    Opt (Group "request_version"
           (Cat [ Plus Space true; Str "HTTP/"; Star Any true ]));
    Chr (Lit dquote); Plus Space true;
    Group "status" (Star Any false); Plus Space true;
    Group "body_bytes_sent" (Star Any false); Plus Space true;
    Chr (Lit dquote); Group "http_referer" (Star Any false);
    Chr (Lit dquote); Plus Space true;
    Chr (Lit dquote); Group "user_agent" (Star Any false);
    Chr (Lit dquote); Plus Space true;
    Chr (Lit dquote); Group "http_x_forwarded_for" (Star Any false);
    Chr (Lit dquote); Plus Space true;
    Chr (Lit dquote); Group "http_X_REQUEST_ID" (Star Any false);
    Chr (Lit dquote); Plus Space true;
    Chr (Lit dquote); Group "http_X_RB_USER" (Star Any true);
    Chr (Lit dquote); Plus Space true ].

Definition NGINX_LOG_FORMAT_REGEXP : regex :=
  Cat (line_fields ++ [Group "request_time" request_time_pattern]).

(** ** [float(s)]

    Modelled on the strings that the group [request_time] can hold: one or
    more digits, an optional point, digits. The value is the binary64
    nearest to the decimal, an infinity when it is too large. Every other
    string is answered with [ValueError], though Python's [float] reads more
    (signs, exponents, blanks around the number, [inf], [nan]). *)

Definition digit_value (a : ascii) : Z := Z.of_nat (nat_of_ascii a) - 48.

Fixpoint read_digits (s : string) (acc : Z) (n : nat) : Z * nat * string :=
  match s with
  | String a s' =>
      if is_digit a then read_digits s' (10 * acc + digit_value a) (S n)
      else (acc, n, s)
  | EmptyString => (acc, n, s)
  end.

Definition float_of_str (s : string) : result float :=
  let '(i, ni, s1) := read_digits s 0 0 in
  match ni with
  | O => Raise ValueError
  | _ =>
      let s2 :=
        match s1 with
        | String a s' => if Ascii.eqb a "."%char then s' else s1
        | EmptyString => s1
        end in
      let '(num, nf, s3) := read_digits s2 i 0 in
      match s3 with
      | EmptyString =>
          match num with
          | Zpos p => Ok (of_ratio false p (Z.to_pos (10 ^ Z.of_nat nf)))
          | _ => Ok zero
          end
      | _ => Raise ValueError
      end
  end.

(** ** [process_line] and [parse_log] *)

(** [result.group(name)] of a group that did not take part in the match is
    [None], and [float(None)] raises [TypeError]. *)
Definition process_line (line : string) : result parsed_line :=
  match match_ NGINX_LOG_FORMAT_REGEXP line with
  | Some caps =>
      match group caps "path", group caps "request_time" with
      | Some u, Some t =>
          request_time <- float_of_str t ;;
          Ok (Some (u, request_time))
      | _, _ => Raise TypeError
      end
  | None => Ok None
  end.

(** The items that [parse_log(file_path)] yields, for the lines of the file
    (each with its line end, as iteration over a text file gives them). An
    exception raised for a line reaches the consumer of the generator. The
    lines are those that [open] or [gzip.open] has read and decoded: what
    opening, decompressing and decoding can raise is no part of this
    function, see [Reading] for a file that may fail to be read. *)
Fixpoint parse_log (lines : list string) : result (list parsed_line) :=
  match lines with
  | [] => Ok []
  | line :: rest =>
      p <- process_line line ;;
      ps <- parse_log rest ;;
      Ok (p :: ps)
  end.

(** ** [find_last_log_file] *)

(** [datetime.date] *)
Record date : Type := { year : Z; month : Z; day : Z }.

(** [d1 > d2] on dates: by year, then month, then day. *)
Definition date_gtb (d1 d2 : date) : bool :=
  (year d2 <? year d1)
  || ((year d2 =? year d1)
      && ((month d2 <? month d1)
          || ((month d2 =? month d1) && (day d2 <? day d1)))).

Definition is_leap (y : Z) : bool :=
  (y mod 4 =? 0) && (negb (y mod 100 =? 0) || (y mod 400 =? 0)).

Definition days_in_month (y m : Z) : Z :=
  if m =? 2 then (if is_leap y then 29 else 28)
  else if (m =? 4) || (m =? 6) || (m =? 9) || (m =? 11) then 30
  else 31.

Fixpoint all_digits (s : string) : bool :=
  match s with
  | EmptyString => true
  | String a s' => is_digit a && all_digits s'
  end.

Definition number (s : string) : Z := fst (fst (read_digits s 0 0)).

(** [datetime.datetime.strptime(s, "%Y%m%d").date()] on a string of eight
    digits, which is what the group [date] holds; [None] stands for
    [ValueError]. The directive [%Y] takes four digits, [%m] a month
    [01]..[12] and [%d] a day [01]..[31]; a month or day outside these leaves
    the string unmatched or partly unread, which is a [ValueError], and so
    are the year 0 and a day beyond the end of its month. The digits are the
    ASCII digits [0]..[9], the only decimal digits among the 8-bit
    characters of a [string]; a name with other Unicode decimal digits,
    which [\d] and [%Y] read as well, is outside of these strings. *)
Definition strptime_Ymd (s : string) : option date :=
  if (String.length s =? 8)%nat && all_digits s then
    let y := number (substring 0 4 s) in
    let m := number (substring 4 2 s) in
    let d := number (substring 6 2 s) in
    if (1 <=? y) && (1 <=? m) && (m <=? 12) && (1 <=? d)
       && (d <=? days_in_month y m)
    then Some {| year := y; month := m; day := d |}
    else None
  else None.

(** [os.path.join(a, b)] on POSIX. *)
Definition ends_with_slash (s : string) : bool :=
  match String.length s with
  | O => false
  | S n => String.eqb (substring n 1 s) "/"
  end.

Definition path_join (a b : string) : string :=
  if String.prefix "/" b then b
  else if (String.length a =? 0)%nat || ends_with_slash a then (a ++ b)%string
  else (a ++ "/" ++ b)%string.

Record LogInfo : Type := { file_path : string; log_date : date }.

(** The body of the loop over [os.listdir(dir_path)]. *)
Definition scan_step (dir_path : string) (last_log_info : option LogInfo)
    (file_name : string) : option LogInfo :=
  match match_ FILE_NAME_REGEXP file_name with
  | Some caps =>
      match group caps "date" with
      | Some text =>
          match strptime_Ymd text with
          | Some d =>
              match last_log_info with
              | None =>
                  Some {| file_path := path_join dir_path file_name;
                          log_date := d |}
              | Some last =>
                  if date_gtb d (log_date last)
                  then Some {| file_path := path_join dir_path file_name;
                               log_date := d |}
                  else last_log_info
              end
          | None => last_log_info
          end
      | None => last_log_info
      end
  | None => last_log_info
  end.

(** [find_last_log_file(dir_path)]. The file system is given by the answer
    of [os.path.isdir(dir_path)] and, for a directory, the list that
    [os.listdir(dir_path)] returns, in its order. *)
Definition find_last_log_file (isdir : bool) (listdir : list string)
    (dir_path : string) : option LogInfo :=
  if negb isdir then None
  else fold_left (scan_step dir_path) listdir None.

(** ** Views of a stream and of a dictionary used to state the properties *)

(** The records of a stream: its items that are not [None], in order. *)
Fixpoint records (stream : list parsed_line) : list (string * float) :=
  match stream with
  | [] => []
  | Some r :: rest => r :: records rest
  | None :: rest => records rest
  end.

(** The request times recorded for [u], in order of arrival. *)
Definition samples (stream : list parsed_line) (u : string) : list float :=
  map snd (filter (fun r => String.eqb (fst r) u) (records stream)).

(** The request times of all records, added from left to right. *)
Definition total_latency (stream : list parsed_line) : float :=
  fold_left add (map snd (records stream)) zero.

(** [d.get(u)] *)
Fixpoint dict_get {V : Type} (d : list (string * V)) (u : string) : option V :=
  match d with
  | [] => None
  | (k, v) :: d' => if String.eqb k u then Some v else dict_get d' u
  end.

(** [d.get(u, [])] *)
Definition accumulator (d : stats_dict) (u : string) : list float :=
  match dict_get d u with
  | Some v => v
  | None => []
  end.

(** The date that [find_last_log_file] reads from a file name: [None] when
    the name does not match or the eight digits are not a date. *)
Definition candidate_date (file_name : string) : option date :=
  match match_ FILE_NAME_REGEXP file_name with
  | Some caps =>
      match group caps "date" with
      | Some text => strptime_Ymd text
      | None => None
      end
  | None => None
  end.

(** The entry that the scan holds after a part of the listing. *)
Definition first_greatest (dir_path : string) (names : list string)
    (info : LogInfo) : Prop :=
  exists before name after,
    names = before ++ name :: after
    /\ candidate_date name = Some (log_date info)
    /\ file_path info = path_join dir_path name
    /\ (forall n d, In n before -> candidate_date n = Some d ->
          date_gtb (log_date info) d = true)
    /\ (forall n d, In n after -> candidate_date n = Some d ->
          date_gtb d (log_date info) = false).

(** A float that is not a NaN as three integers whose lexicographic order
    is the order of the floats: the class, then the exponent, then the
    mantissa, the last two negated for a negative float. *)
Definition rank (x : float) : Z * Z * Z :=
  match x with
  | S754_zero _ => (0, 0, 0)
  | S754_infinity s => (if s then -2 else 2, 0, 0)
  | S754_nan => (0, 0, 0)
  | S754_finite s m e =>
      if s then (-1, - e, - Zpos m) else (1, e, Zpos m)
  end.

(** For a comparison [lt]: [a] is not after [b], and [a] and [b] have the
    same place in the order. *)
Definition not_after {A : Type} (lt : A -> A -> bool) (a b : A) : Prop :=
  lt b a = false.

Definition same_key {A : Type} (lt : A -> A -> bool) (a b : A) : bool :=
  negb (lt a b) && negb (lt b a).

(** ** What a pattern matches

    [matches r s caps s' caps']: [r] matches the text between the position
    [s] and the later position [s'], and turns the captures [caps] into
    [caps']. The relation lists every way to match; [Re.run] searches them
    in the order of the engine. *)
Inductive matches : regex -> string -> captures -> string -> captures -> Prop :=
| M_Eps s caps : matches Eps s caps s caps
| M_Chr c a s caps :
    cclass_matches c a = true -> matches (Chr c) (String a s) caps s caps
| M_Star_stop c g s caps : matches (Star c g) s caps s caps
| M_Star_more c g a s s' caps :
    cclass_matches c a = true ->
    matches (Star c g) s caps s' caps ->
    matches (Star c g) (String a s) caps s' caps
| M_Upto_stop n c s caps : matches (Upto n c) s caps s caps
| M_Upto_more n c a s s' caps :
    cclass_matches c a = true ->
    matches (Upto n c) s caps s' caps ->
    matches (Upto (S n) c) (String a s) caps s' caps
| M_Seq r1 r2 s caps s1 caps1 s2 caps2 :
    matches r1 s caps s1 caps1 ->
    matches r2 s1 caps1 s2 caps2 ->
    matches (Seq r1 r2) s caps s2 caps2
| M_Opt_some r s caps s' caps' :
    matches r s caps s' caps' -> matches (Opt r) s caps s' caps'
| M_Opt_none r s caps : matches (Opt r) s caps s caps
| M_Group name r s caps s' caps' :
    matches r s caps s' caps' ->
    matches (Group name r) s caps s' ((name, consumed s s') :: caps')
| M_Eol_end caps : matches Eol EmptyString caps EmptyString caps
| M_Eol_newline caps :
    matches Eol (String "010"%char EmptyString) caps
      (String "010"%char EmptyString) caps.

(** [r] matches at the start of [s]. *)
Definition matches_at_start (r : regex) (s : string) : Prop :=
  exists s' caps, matches r s [] s' caps.

(** The group [name] is bound by every match of [r]. *)
Fixpoint defines (r : regex) (name : string) : bool :=
  match r with
  | Group n r' => String.eqb n name || defines r' name
  | Seq r1 r2 => defines r1 name || defines r2 name
  | _ => false
  end.

(** The texts that [float_of_str] reads: digits, an optional point,
    digits, with at least one digit in front. *)
Definition decimal_text (s : string) : Prop :=
  exists a ds ds',
    is_digit a = true /\ all_digits ds = true /\ all_digits ds' = true
    /\ (s = String a (ds ++ ds')%string
        \/ s = String a (ds ++ String "."%char ds')%string).

(** ** The statistics in the words of their description *)

(** [m] is a greatest element of [data]. *)
Definition is_maximum (m : float) (data : list float) : Prop :=
  In m data /\ forall x, In x data -> ltb m x = false.

(** [m] is the median of [data]: the middle element of [data] in ascending
    order, or the mean of the two middle elements when their number is
    even. *)
Definition is_median (m : float) (data : list float) : Prop :=
  exists ordered,
    Permutation ordered data
    /\ StronglySorted (not_after ltb) ordered
    /\ let n := List.length data in
       if Nat.odd n then m = nth (Nat.div n 2) ordered zero
       else truediv_int (add (nth (Nat.div n 2 - 1) ordered zero)
                             (nth (Nat.div n 2) ordered zero)) 2 = Ok m.

(** The number of lines that parsed. *)
Definition parsed_lines (stream : list parsed_line) : Z :=
  Z.of_nat (List.length (records stream)).

(** A share in percent, rounded: [round(x * 100, 3)]. *)
Definition percent (x : float) : result float :=
  p <- mul_int x 100 ;; round p 3.

(** The part of [main] from the lines of the log file to
    [top_statistics]. *)
Definition report (impl : Py.sum_impl) (lines : list string)
    (errors_limit : option float) (report_size : Z) : result (list entry) :=
  stream <- parse_log lines ;;
  values <- calculate_statistics impl stream errors_limit ;;
  Ok (top_statistics values report_size).

(** The comparison that [sorted] makes with [key=lambda x: x["time_sum"]]. *)
Definition by_time_sum (x y : entry) : bool := ltb (time_sum x) (time_sum y).

(** ** Sample inputs *)

Definition quoted (s : string) : string :=
  (String dquote s ++ String dquote EmptyString)%string.

Definition newline : string := String "010"%char EmptyString.

(** A log line in the format of the pattern, for a GET of [path] that took
    [request_time] seconds. *)
Definition log_line (path request_time : string) : string :=
  ("1.196.116.32 -  - [29/Jun/2017:03:50:22 +0300] "
   ++ quoted ("GET " ++ path ++ " HTTP/1.1") ++ " 200 927 "
   ++ quoted "-" ++ " " ++ quoted "Lynx/2.8.8dev.9 libwww-FM/2.14" ++ " "
   ++ quoted "-" ++ " " ++ quoted "1498697422-2190034393-4708-9752759" ++ " "
   ++ quoted "dc7161be3" ++ " " ++ request_time ++ newline)%string.

(** The float that a decimal literal denotes. *)
Definition decimal (s : string) : float :=
  match float_of_str s with
  | Ok f => f
  | Raise _ => S754_nan
  end.

(** ** The properties as the specification words them, where the code
    differs *)

(** The sum of the samples of the url of [e], before rounding. *)
Definition unrounded_time_sum (impl : Py.sum_impl) (stream : list parsed_line)
    (e : entry) : float :=
  Py.sum impl (samples stream (url e)).

(** The entries are in descending order of their unrounded sum. *)
Definition ranked_by_unrounded_sum (impl : Py.sum_impl)
    (stream : list parsed_line) (top : list entry) : Prop :=
  StronglySorted
    (fun a b => ltb (unrounded_time_sum impl stream a)
                    (unrounded_time_sum impl stream b) = false)
    top.

(** A parser that, for some notion of a valid line, returns a path that is
    not empty and a duration that is [>= 0] for every valid line, and [None]
    for every other line. *)
Definition parser_contract (valid : string -> Prop) : Prop :=
  (forall line, valid line ->
     exists path duration,
       process_line line = Ok (Some (path, duration))
       /\ path <> EmptyString /\ nonneg duration = true)
  /\ (forall line, ~ valid line -> process_line line = Ok None).

(** [round(100 * count / parsed_lines, 3)], the expression of the
    description read as Python reads it: the product is an int and the
    quotient of the two ints is rounded once. *)
Definition count_share_as_stated (cnt parsed : Z) : result float :=
  q <- int_truediv (100 * cnt) parsed ;; round q 3.

(** ** Values of floats as whole numbers

    Every finite binary64 value is a whole multiple of [2 ^ -1074]; [units x]
    is that multiple. It is meant for floats whose exponent is at least
    [-1074], which is the case of every float that an operation returns. *)
Definition units (x : float) : Z :=
  match x with
  | S754_finite s m e => (if s then -1 else 1) * (Zpos m * 2 ^ (e + 1074))
  | _ => 0
  end.

(** The value 1 in these units. *)
Definition unit_one : Z := 2 ^ 1074.

(** A zero, or a finite float whose exponent is at least [g]. *)
Definition ok (g : Z) (x : float) : Prop :=
  match x with
  | S754_zero _ => True
  | S754_finite _ _ e => g <= e
  | _ => False
  end.

(** A zero or a finite float in the range of binary64. *)
Definition fin (x : float) : Prop := ok (-1074) x.

(** The exact sum of a list of floats, in units. *)
Definition total_units (l : list float) : Z :=
  fold_right (fun x acc => units x + acc) 0 l.

(** A request time that is zero, or positive, finite and below
    [2 ^ 900]. *)
Definition plausible (t : float) : bool :=
  match t with
  | S754_zero _ => true
  | S754_finite false m e => (-1074 <=? e) && (Zdigits2 (Zpos m) + e <=? 900)
  | _ => false
  end.

(** A list of percentages adds up to 100 within 0.01 for each of them. *)
Definition within_tolerance (shares : list float) : Prop :=
  Forall fin shares
  /\ Z.abs (total_units shares - 100 * unit_one) * 100
     <= unit_one * Z.of_nat (List.length shares).


(** The sum of a list of whole numbers. *)
Definition sum_of (l : list Z) : Z := fold_right Z.add 0 l.

(** [n] zeros. *)
Fixpoint zeros (n : nat) : string :=
  match n with
  | O => EmptyString
  | S n' => String "0"%char (zeros n')
  end.

(** A request time of 310 digits, [1] and 309 zeros: more than the largest
    finite binary64 value. *)
Definition overlong_request_time : string := String "1"%char (zeros 309).

(** A finite float that is [>= 0] and at most [2 ^ 900]. *)
Definition good (x : float) : Prop :=
  fin x /\ 0 <= units x <= 2 ^ 1974.

(** ** Further views used by the properties of the pipeline *)

(** The different elements of a list of urls, each at the place of its
    first appearance. *)
Fixpoint first_occurrences (l : list string) : list string :=
  match l with
  | [] => []
  | u :: l' =>
      u :: filter (fun v => negb (String.eqb v u)) (first_occurrences l')
  end.

(** ** [render_template]: [string.Template.safe_substitute]

    The pattern of [Template] finds, at each [$]: [$$], an escape; [$name],
    a name being a letter or [_] followed by letters, digits and [_], as
    long as it can be; [${name}]; or nothing more than the [$]. The
    alternatives are tried in this order, and [safe_substitute] replaces an
    escape by [$], a name of the mapping by its value, and leaves everything
    else as it is. The text of a replacement is not read again. *)

Definition is_id_start (a : ascii) : bool :=
  let n := nat_of_ascii a in
  (n =? 95)%nat || ((65 <=? n)%nat && (n <=? 90)%nat)
  || ((97 <=? n)%nat && (n <=? 122)%nat).

Definition is_id_char (a : ascii) : bool := is_id_start a || is_digit a.

(** The longest run of identifier characters at the start of [s], and the
    rest of [s]. *)
Fixpoint span_id (s : string) : string * string :=
  match s with
  | String a s' =>
      if is_id_char a then
        let '(name, rest) := span_id s' in (String a name, rest)
      else (EmptyString, s)
  | EmptyString => (EmptyString, EmptyString)
  end.

(** What stands for the match of the pattern at a [$], given the text [s]
    after the [$]: its replacement, and the number of characters of [s] that
    the match takes. *)
Definition placeholder (mapping : string -> option string) (s : string)
    : string * nat :=
  match s with
  | String a s' =>
      if Ascii.eqb a "$"%char then ("$", 1%nat)
      else if is_id_start a then
        let name := fst (span_id s) in
        (match mapping name with
         | Some v => v
         | None => String "$"%char name
         end, String.length name)
      else if Ascii.eqb a "{"%char then
        let '(name, rest) := span_id s' in
        match name, rest with
        | String b _, String c _ =>
            if is_id_start b && Ascii.eqb c "}"%char then
              (match mapping name with
               | Some v => v
               | None => ("${" ++ name ++ "}")%string
               end, (String.length name + 2)%nat)
            else ("$", 0%nat)
        | _, _ => ("$", 0%nat)
        end
      else ("$", 0%nat)
  | EmptyString => ("$", 0%nat)
  end.

(** [pattern.sub(convert, template)]: [skip] counts the characters that
    belong to the match that was just replaced. *)
Fixpoint substitute (mapping : string -> option string) (skip : nat)
    (s : string) : string :=
  match s with
  | EmptyString => EmptyString
  | String a s' =>
      match skip with
      | S k => substitute mapping k s'
      | O =>
          if Ascii.eqb a "$"%char then
            let '(text, n) := placeholder mapping s' in
            (text ++ substitute mapping n s')%string
          else String a (substitute mapping 0 s')
      end
  end.

Definition safe_substitute (mapping : string -> option string)
    (template : string) : string :=
  substitute mapping 0 template.

(** The text that [render_template] writes to the report file, given the
    text of the template and the text [json.dumps(statistics)]:
    [Template(f.read()).safe_substitute(table_json=...)]. *)
Definition render_template (template table_json : string) : string :=
  safe_substitute
    (fun name => if String.eqb name "table_json" then Some table_json
                 else None)
    template.

(** A text without [$]. *)
Fixpoint no_dollar (s : string) : bool :=
  match s with
  | EmptyString => true
  | String a s' => negb (Ascii.eqb a "$"%char) && no_dollar s'
  end.

(** The text does not go on with a character of an identifier. *)
Definition ends_a_name (s : string) : bool :=
  match s with
  | String a _ => negb (is_id_char a)
  | EmptyString => true
  end.

(** ** The name of the report: [strftime] *)

Definition digit_char (n : Z) : ascii := ascii_of_nat (48 + Z.to_nat n).

Definition two_digits (n : Z) : string :=
  String (digit_char (n / 10)) (String (digit_char (n mod 10)) EmptyString).

(** [%Y] for a year of [1..9999]. The C library decides whether a year
    below 1000 is padded with zeros to four digits; [pad] says so. *)
Definition strftime_Y (pad : bool) (y : Z) : string :=
  let d1 := digit_char (y / 1000) in
  let d2 := digit_char (y / 100 mod 10) in
  let d3 := digit_char (y / 10 mod 10) in
  let d4 := digit_char (y mod 10) in
  if pad || (1000 <=? y) then
    String d1 (String d2 (String d3 (String d4 EmptyString)))
  else if 100 <=? y then String d2 (String d3 (String d4 EmptyString))
  else if 10 <=? y then String d3 (String d4 EmptyString)
  else String d4 EmptyString.

(** [d.strftime('%Y.%m.%d')] *)
Definition strftime_dotted (pad : bool) (d : date) : string :=
  (strftime_Y pad (year d) ++ "." ++ two_digits (month d) ++ "."
   ++ two_digits (day d))%string.

(** [f"report-{last_log_info.date.strftime('%Y.%m.%d')}.html"] *)
Definition report_file_name (pad : bool) (d : date) : string :=
  ("report-" ++ strftime_dotted pad d ++ ".html")%string.

(** ** Sizes of floats *)

(** A finite float that is [>= 0] and at most [2 ^ 946], in units. *)
Definition moderate (x : float) : Prop :=
  fin x /\ 0 <= units x <= 2 ^ 2020.

(** ** The text of the request time *)

(** [result.group("request_time")] for the match that [process_line] makes
    on [line]; [None] when the pattern does not match. *)
Definition request_time_text (line : string) : option string :=
  match match_ NGINX_LOG_FORMAT_REGEXP line with
  | Some caps => group caps "request_time"
  | None => None
  end.

(** ** The opener of [parse_log] *)

(** [s.endswith(suffix)] *)
Definition endswith (s suffix : string) : bool :=
  let n := String.length s in
  let k := String.length suffix in
  (k <=? n)%nat && String.eqb (substring (n - k) k s) suffix.

(** [file_open = gzip.open if file_path.endswith(".gz") else open]: whether
    [parse_log] reads the file through [gzip]. *)
Definition opens_with_gzip (file_path : string) : bool :=
  endswith file_path ".gz".

(** ** Lines of the documented format

    The fields of a line as the log format lists them: the client address,
    the remote user, the forwarded address, the time in brackets, the
    request ["METHOD PATH[ HTTP/version]"], the status, the size of the
    body, the quoted referer, user agent, forwarded-for header, request id
    and user header, and the request time; blanks go between them. *)

Fixpoint all_chars (p : ascii -> bool) (s : string) : bool :=
  match s with
  | EmptyString => true
  | String a s' => p a && all_chars p s'
  end.

Definition not_empty (s : string) : bool :=
  match s with EmptyString => false | String _ _ => true end.

(** One or more blanks. *)
Definition blanks (s : string) : bool := not_empty s && all_chars is_space s.

(** A token of an unquoted field: not empty, no blank and no double
    quote. *)
Definition token_char (a : ascii) : bool :=
  negb (is_space a) && negb (Ascii.eqb a dquote).

Definition token (s : string) : bool := not_empty s && all_chars token_char s.

(** The text of a quoted field: no double quote and no line end. *)
Definition quoted_char (a : ascii) : bool :=
  negb (Ascii.eqb a "010"%char) && negb (Ascii.eqb a dquote).

Definition quoted_text (s : string) : bool := all_chars quoted_char s.

(** The text between the brackets: no closing bracket and no line end. *)
Definition bracketed_char (a : ascii) : bool :=
  negb (Ascii.eqb a "010"%char) && negb (Ascii.eqb a "]"%char).

Definition bracketed_text (s : string) : bool := all_chars bracketed_char s.

(** One to three digits. *)
Definition octet (s : string) : bool :=
  not_empty s && all_digits s && (String.length s <=? 3)%nat.

Module Fields.

Record t : Type := {
  octets : string * string * string * string;
  remote_user : string;
  http_x_real_ip : string;
  time_local : string;
  request_method : string;
  path : string;
  request_version : option string;   (* the text after [HTTP/] *)
  status : string;
  body_bytes_sent : string;
  http_referer : string;
  user_agent : string;
  http_x_forwarded_for : string;
  http_X_REQUEST_ID : string;
  http_X_RB_USER : string;
  request_time : string
}.

End Fields.

(** The fields are of the documented kinds. *)
Definition documented (f : Fields.t) : Prop :=
  (let '(o1, o2, o3, o4) := Fields.octets f in
   octet o1 = true /\ octet o2 = true /\ octet o3 = true /\ octet o4 = true)
  /\ token (Fields.remote_user f) = true
  /\ token (Fields.http_x_real_ip f) = true
  /\ bracketed_text (Fields.time_local f) = true
  /\ token (Fields.request_method f) = true
  /\ token (Fields.path f) = true
  /\ match Fields.request_version f with
     | Some v => quoted_text v = true
     | None => True
     end
  /\ token (Fields.status f) = true
  /\ token (Fields.body_bytes_sent f) = true
  /\ quoted_text (Fields.http_referer f) = true
  /\ quoted_text (Fields.user_agent f) = true
  /\ quoted_text (Fields.http_x_forwarded_for f) = true
  /\ quoted_text (Fields.http_X_REQUEST_ID f) = true
  /\ quoted_text (Fields.http_X_RB_USER f) = true
  /\ decimal_text (Fields.request_time f).

(** The line of the fields [f], with the blanks [gap 0], [gap 1], ...
    between them, in the order of the line. *)
Definition documented_line (f : Fields.t) (gap : nat -> string) : string :=
  let '(o1, o2, o3, o4) := Fields.octets f in
  (o1 ++ "." ++ o2 ++ "." ++ o3 ++ "." ++ o4 ++ gap 0%nat
   ++ Fields.remote_user f ++ gap 1%nat
   ++ Fields.http_x_real_ip f ++ gap 2%nat
   ++ "[" ++ Fields.time_local f ++ "]" ++ gap 3%nat
   ++ String dquote
        (Fields.request_method f ++ gap 4%nat ++ Fields.path f
         ++ match Fields.request_version f with
            | Some v => gap 5%nat ++ "HTTP/" ++ v
            | None => ""
            end
         ++ String dquote
              (gap 6%nat ++ Fields.status f ++ gap 7%nat
               ++ Fields.body_bytes_sent f ++ gap 8%nat
               ++ quoted (Fields.http_referer f) ++ gap 9%nat
               ++ quoted (Fields.user_agent f) ++ gap 10%nat
               ++ quoted (Fields.http_x_forwarded_for f) ++ gap 11%nat
               ++ quoted (Fields.http_X_REQUEST_ID f) ++ gap 12%nat
               ++ quoted (Fields.http_X_RB_USER f) ++ gap 13%nat
               ++ Fields.request_time f)))%string.

(** The number of double quotes of a text, and the number that every match
    of a pattern takes. *)
Fixpoint count_quotes (s : string) : nat :=
  match s with
  | EmptyString => O
  | String a s' => ((if Ascii.eqb a dquote then 1 else 0) + count_quotes s')%nat
  end.

Fixpoint min_quotes (r : regex) : nat :=
  match r with
  | Chr (Lit c) => if Ascii.eqb c dquote then 1%nat else 0%nat
  | Seq r1 r2 => (min_quotes r1 + min_quotes r2)%nat
  | Group _ r' => min_quotes r'
  | _ => 0%nat
  end.

(** [s] is empty or starts with a character outside of [p]. *)
Definition starts_outside (p : ascii -> bool) (s : string) : Prop :=
  match s with
  | EmptyString => True
  | String a _ => p a = false
  end.

(** ** A request time near the top of the binary64 range *)


(** ** Reading the log file, and the size of the report

    What [parse_log] gets from the file: the lines that were read and
    decoded before the reading ended, and the exception that ended it, if
    any. [open] or [gzip.open] failing gives no line; a damaged archive or
    bytes that are no text give the lines before the damage. *)
Module Reading.

Record t : Type := { lines_read : list string; failure : option exn }.

End Reading.

(** [calculate_statistics(file_path, parse_log, errors_limit)] on a file
    that reads as [r]: the loop takes the items of the lines read, and an
    exception of the generator leaves the loop and the function. *)
Definition calculate_statistics_of (impl : Py.sum_impl) (r : Reading.t)
    (errors_limit : option float) : result (list entry) :=
  stream <- parse_log (Reading.lines_read r) ;;
  match Reading.failure r with
  | Some e => Raise e
  | None => calculate_statistics impl stream errors_limit
  end.

(** A value of the configuration as [json.load] gives it: [null], a
    boolean, an int, or something else (a float, a string, a list, an
    object). *)
Inductive config_value : Type :=
| CNull
| CBool (b : bool)
| CInt (n : Z)
| COther.

(** [l[:v]]: [None] takes the whole list, a boolean counts as [0] or [1],
    and what is no integer is a [TypeError]. *)
Definition slice_by {A : Type} (l : list A) (v : config_value)
    : result (list A) :=
  match v with
  | CNull => Ok l
  | CBool b => Ok (Py.slice_to l (if b then 1 else 0))
  | CInt n => Ok (Py.slice_to l n)
  | COther => Raise TypeError
  end.

(** The part of [main] from [calculate_statistics] to [top_statistics],
    for [config["REPORT_SIZE"]] as the configuration holds it. *)
Definition main_top_statistics (impl : Py.sum_impl) (r : Reading.t)
    (errors_limit : option float) (report_size : config_value)
    : result (list entry) :=
  values <- calculate_statistics_of impl r errors_limit ;;
  slice_by
    (Py.sorted (fun x y => ltb (time_sum x) (time_sum y)) values true)
    report_size.

(** * Facts about the binary64 model *)

Module FloatFacts.

Lemma iter_pos_iter {A : Type} (f : A -> A) (p : positive) (x : A) :
  iter_pos f p x = Pos.iter f x p.
Proof.
  revert x; induction p as [p IH | p IH |]; intro x; simpl.
  - rewrite !IH. rewrite <- !Pos.iter_swap. reflexivity.
  - rewrite !IH. reflexivity.
  - reflexivity.
Qed.

Lemma digits2_pos_size (p : positive) : digits2_pos p = Pos.size p.
Proof. induction p; simpl; congruence. Qed.

Lemma Zdigits2_log2 (m : Z) : 0 < m -> Zdigits2 m = Z.log2 m + 1.
Proof.
  destruct m as [| p | p]; try lia. intros _.
  unfold Zdigits2. rewrite digits2_pos_size.
  destruct p; simpl; lia.
Qed.

Lemma Zdigits2_nonneg (m : Z) : 0 <= Zdigits2 m.
Proof. destruct m; simpl; lia. Qed.

Lemma Zdigits2_pos (m : Z) : 0 < m -> 0 < Zdigits2 m.
Proof. destruct m; simpl; lia. Qed.

Lemma Zdigits2_bounds (m : Z) :
  0 < m -> 2 ^ (Zdigits2 m - 1) <= m < 2 ^ Zdigits2 m.
Proof.
  intro H. rewrite Zdigits2_log2 by assumption.
  replace (Z.log2 m + 1 - 1) with (Z.log2 m) by lia.
  replace (Z.log2 m + 1) with (Z.succ (Z.log2 m)) by lia.
  apply Z.log2_spec; assumption.
Qed.

Lemma Zdigits2_le (a b : Z) : 0 < a -> a <= b -> Zdigits2 a <= Zdigits2 b.
Proof.
  intros Ha Hab. rewrite !Zdigits2_log2 by lia.
  pose proof (Z.log2_le_mono a b Hab). lia.
Qed.

Lemma Zdigits2_div_pow2 (m k : Z) :
  0 < m -> 0 <= k < Zdigits2 m -> Zdigits2 (m / 2 ^ k) = Zdigits2 m - k.
Proof.
  intros Hm Hk.
  pose proof (Zdigits2_bounds m Hm) as [Hlo _].
  assert (Hq : 0 < m / 2 ^ k).
  { apply Z.div_str_pos. split; [apply Z.pow_pos_nonneg; lia |].
    eapply Z.le_trans; [| exact Hlo]. apply Z.pow_le_mono_r; lia. }
  rewrite !Zdigits2_log2 by assumption.
  rewrite <- Z.shiftr_div_pow2 by lia.
  rewrite Z.log2_shiftr by lia.
  rewrite Zdigits2_log2 in Hk by assumption. lia.
Qed.

Lemma shr_1_m (mrs : shr_record) :
  0 <= shr_m mrs -> shr_m (shr_1 mrs) = shr_m mrs / 2.
Proof.
  destruct mrs as [m r s]; simpl. intro Hm.
  destruct m as [| [p | p |] | p]; simpl shr_m; try lia; try reflexivity.
  - rewrite Pos2Z.inj_xI. apply Z.div_unique with (r := 1); lia.
  - rewrite Pos2Z.inj_xO. apply Z.div_unique with (r := 0); lia.
Qed.

Lemma shr_iter_m (p : positive) (mrs : shr_record) :
  0 <= shr_m mrs ->
  shr_m (iter_pos shr_1 p mrs) = shr_m mrs / 2 ^ Zpos p.
Proof.
  rewrite iter_pos_iter. revert mrs.
  induction p as [| p IH] using Pos.peano_ind; intros mrs Hm.
  - simpl Pos.iter. rewrite shr_1_m by assumption. reflexivity.
  - rewrite Pos.iter_succ, shr_1_m.
    + rewrite IH by assumption. rewrite Pos2Z.inj_succ, Z.pow_succ_r by lia.
      rewrite Z.div_div by (try apply Z.pow_pos_nonneg; lia).
      f_equal; lia.
    + rewrite IH by assumption. apply Z.div_pos; [assumption |].
      apply Z.pow_pos_nonneg; lia.
Qed.

(** The effect of [shr] on the mantissa and on the exponent. *)
Lemma shr_m_e (mrs : shr_record) (e n : Z) :
  0 <= shr_m mrs ->
  shr_m (fst (shr mrs e n)) = shr_m mrs / 2 ^ Z.max 0 n
  /\ snd (shr mrs e n) = e + Z.max 0 n.
Proof.
  intro Hm. destruct n as [| p | p]; simpl.
  - rewrite Z.div_1_r. split; [reflexivity | lia].
  - rewrite shr_iter_m by assumption. split; reflexivity.
  - rewrite Z.div_1_r. split; [reflexivity | lia].
Qed.

Lemma shr_record_of_loc_m (m : Z) (l : location) :
  shr_m (shr_record_of_loc m l) = m.
Proof. destruct l as [| []]; reflexivity. Qed.

Lemma shr_fexp_m_e (m e : Z) (l : location) :
  0 <= m ->
  let n := Z.max 0 (fexp prec emax (Zdigits2 m + e) - e) in
  shr_m (fst (shr_fexp prec emax m e l)) = m / 2 ^ n
  /\ snd (shr_fexp prec emax m e l) = e + n.
Proof.
  intros Hm n. unfold shr_fexp.
  pose proof (shr_m_e (shr_record_of_loc m l) e
                (fexp prec emax (Zdigits2 m + e) - e)) as H.
  rewrite shr_record_of_loc_m in H. apply H. assumption.
Qed.

Lemma round_nearest_even_range (m : Z) (l : location) :
  m <= round_nearest_even m l <= m + 1.
Proof.
  destruct l as [| []]; simpl; try lia. destruct (Z.even m); lia.
Qed.

Lemma fexp_eq (d : Z) : fexp prec emax d = Z.max (d - 53) (-1074).
Proof. reflexivity. Qed.

(** The three possible shapes of a rounded result. *)
Lemma binary_round_aux_cases (s : bool) (m e : Z) (l : location) :
  0 <= m ->
  binary_round_aux prec emax s m e l = S754_zero s
  \/ (exists m' e', binary_round_aux prec emax s m e l = S754_finite s m' e')
  \/ binary_round_aux prec emax s m e l = S754_infinity s.
Proof.
  intro Hm. unfold binary_round_aux.
  pose proof (shr_fexp_m_e m e l Hm) as [H1 _].
  destruct (shr_fexp prec emax m e l) as [mrs' e'] eqn:E1. simpl in H1.
  set (m2 := round_nearest_even (shr_m mrs') (loc_of_shr_record mrs')).
  assert (Hm2 : 0 <= m2).
  { pose proof (round_nearest_even_range (shr_m mrs') (loc_of_shr_record mrs')).
    assert (0 <= shr_m mrs').
    { rewrite H1. apply Z.div_pos; [assumption |].
      apply Z.pow_pos_nonneg; lia. }
    subst m2; lia. }
  pose proof (shr_fexp_m_e m2 e' loc_Exact Hm2) as [H2 _].
  destruct (shr_fexp prec emax m2 e' loc_Exact) as [mrs'' e''] eqn:E2.
  simpl in H2.
  assert (0 <= shr_m mrs'').
  { rewrite H2. apply Z.div_pos; [assumption |].
    apply Z.pow_pos_nonneg; lia. }
  destruct (shr_m mrs'') as [| p | p]; try lia.
  - left; reflexivity.
  - destruct (e'' <=? emax - prec).
    + right; left; eauto.
    + right; right; reflexivity.
Qed.

(** A positive mantissa whose value lies at or above the least subnormal
    never rounds to zero. *)
Lemma binary_round_aux_nonzero (s : bool) (m e : Z) (l : location) :
  0 < m -> -1074 < Zdigits2 m + e ->
  is_zero (binary_round_aux prec emax s m e l) = false.
Proof.
  intros Hm HD. unfold binary_round_aux.
  assert (Hm0 : 0 <= m) by lia.
  pose proof (shr_fexp_m_e m e l Hm0) as [H1 H1e].
  destruct (shr_fexp prec emax m e l) as [mrs' e'] eqn:E1.
  simpl in H1, H1e.
  set (n1 := Z.max 0 (fexp prec emax (Zdigits2 m + e) - e)) in *.
  assert (Hn1 : 0 <= n1 < Zdigits2 m).
  { subst n1. rewrite fexp_eq. pose proof (Zdigits2_pos m Hm). lia. }
  assert (Hd1 : Zdigits2 (shr_m mrs') = Zdigits2 m - n1).
  { rewrite H1. apply Zdigits2_div_pow2; assumption. }
  assert (Hm1 : 0 < shr_m mrs').
  { destruct (shr_m mrs') as [| p | p] eqn:Em; simpl in Hd1; try lia.
    assert (0 <= m / 2 ^ n1)
      by (apply Z.div_pos; [lia | apply Z.pow_pos_nonneg; lia]).
    lia. }
  set (m2 := round_nearest_even (shr_m mrs') (loc_of_shr_record mrs')).
  pose proof (round_nearest_even_range (shr_m mrs') (loc_of_shr_record mrs'))
    as Hr. fold m2 in Hr.
  assert (Hm2 : 0 < m2) by lia.
  assert (Hd2 : Zdigits2 m - n1 <= Zdigits2 m2).
  { rewrite <- Hd1. apply Zdigits2_le; lia. }
  assert (Hm20 : 0 <= m2) by lia.
  pose proof (shr_fexp_m_e m2 e' loc_Exact Hm20) as [H2 _].
  destruct (shr_fexp prec emax m2 e' loc_Exact) as [mrs'' e''] eqn:E2.
  simpl in H2.
  set (n2 := Z.max 0 (fexp prec emax (Zdigits2 m2 + e') - e')) in *.
  assert (Hn2 : 0 <= n2 < Zdigits2 m2).
  { subst n2. rewrite fexp_eq. pose proof (Zdigits2_pos m2 Hm2). lia. }
  assert (Hd3 : Zdigits2 (shr_m mrs'') = Zdigits2 m2 - n2).
  { rewrite H2. apply Zdigits2_div_pow2; assumption. }
  destruct (shr_m mrs'') as [| p | p] eqn:Em; simpl in Hd3; try lia.
  - destruct (e'' <=? emax - prec); reflexivity.
  - assert (0 <= m2 / 2 ^ n2)
      by (apply Z.div_pos; [lia | apply Z.pow_pos_nonneg; lia]).
    lia.
Qed.

Lemma pos_iter_xO (p d : positive) :
  Zpos (Pos.iter xO p d) = Zpos p * 2 ^ Zpos d.
Proof.
  induction d as [| d IH] using Pos.peano_ind.
  - simpl. lia.
  - rewrite Pos.iter_succ, Pos2Z.inj_xO, IH, Pos2Z.inj_succ,
      Z.pow_succ_r by lia. lia.
Qed.

Lemma shl_align_spec (mx : positive) (ex ex' : Z) :
  let '(mz, ez) := shl_align mx ex ex' in
  ez <= ex /\ Zpos mz = Zpos mx * 2 ^ (ex - ez) /\ ez = Z.min ex ex'.
Proof.
  unfold shl_align. destruct (ex' - ex) as [| d | d] eqn:E.
  - rewrite Z.sub_diag. simpl. lia.
  - rewrite Z.sub_diag. simpl. lia.
  - rewrite pos_iter_xO. replace (ex - ex') with (Zpos d) by lia. lia.
Qed.

Lemma Zdigits2_mul_pow2 (m k : Z) :
  0 < m -> 0 <= k -> Zdigits2 (m * 2 ^ k) = Zdigits2 m + k.
Proof.
  intros Hm Hk.
  assert (0 < m * 2 ^ k) by (apply Z.mul_pos_pos; [| apply Z.pow_pos_nonneg]; lia).
  rewrite !Zdigits2_log2 by assumption.
  rewrite Z.log2_mul_pow2 by lia. lia.
Qed.

(** The three possible shapes of [binary_round]. *)
Lemma binary_round_cases (s : bool) (m : positive) (e : Z) :
  (exists m' e', binary_round prec emax s m e = S754_finite s m' e')
  \/ binary_round prec emax s m e = S754_infinity s
  \/ (binary_round prec emax s m e = S754_zero s
      /\ Zdigits2 (Zpos m) + e <= -1074).
Proof.
  unfold binary_round.
  pose proof (shl_align_spec m e
                (fexp prec emax (Zpos (digits2_pos m) + e))) as H.
  destruct (shl_align m e (fexp prec emax (Z.pos (digits2_pos m) + e)))
    as [mz ez]. destruct H as (Hle & Hmz & _).
  assert (HD : Zdigits2 (Zpos mz) + ez = Zdigits2 (Zpos m) + e).
  { rewrite Hmz, Zdigits2_mul_pow2 by lia. lia. }
  destruct (Z_lt_le_dec (-1074) (Zdigits2 (Zpos m) + e)) as [Hbig | Hsmall].
  - pose proof (binary_round_aux_nonzero s (Zpos mz) ez loc_Exact) as Hnz.
    rewrite HD in Hnz. specialize (Hnz ltac:(lia) Hbig).
    destruct (binary_round_aux_cases s (Zpos mz) ez loc_Exact ltac:(lia))
      as [Hz | [Hf | Hi]].
    + rewrite Hz in Hnz. discriminate.
    + left; exact Hf.
    + right; left; exact Hi.
  - destruct (binary_round_aux_cases s (Zpos mz) ez loc_Exact ltac:(lia))
      as [Hz | [Hf | Hi]].
    + right; right; split; assumption.
    + left; exact Hf.
    + right; left; exact Hi.
Qed.

Lemma SFdiv_core_binary_spec (n d : positive) :
  let '(q, e', l) := SFdiv_core_binary prec emax (Zpos n) 0 (Zpos d) 0 in
  let dd := Zdigits2 (Zpos n) - Zdigits2 (Zpos d) in
  e' = Z.min (Z.max (dd - 53) (-1074)) 0
  /\ q = (Zpos n * 2 ^ (- e')) / Zpos d.
Proof.
  unfold SFdiv_core_binary.
  rewrite !Z.add_0_r, fexp_eq.
  change (0 - 0) with 0.
  set (dd := Zdigits2 (Z.pos n) - Zdigits2 (Z.pos d)).
  set (e' := Z.min (Z.max (dd - 53) (-1074)) 0).
  assert (He : e' <= 0) by (subst e'; lia).
  assert (Hm :
    match 0 - e' with
    | 0 => Z.pos n
    | Z.pos _ => Z.shiftl (Z.pos n) (0 - e')
    | Z.neg _ => 0
    end = Zpos n * 2 ^ (- e')).
  { rewrite Z.sub_0_l. destruct (- e') as [| p | p] eqn:E; try lia.
    rewrite Z.shiftl_mul_pow2 by lia. reflexivity. }
  rewrite Hm.
  destruct (Z.div_eucl (Z.pos n * 2 ^ (- e')) (Z.pos d)) as [q r] eqn:E.
  split; [reflexivity |].
  unfold Z.div. rewrite E. reflexivity.
Qed.

Lemma of_ratio_cases (s : bool) (n d : positive) :
  of_ratio s n d = S754_zero s
  \/ (exists m' e', of_ratio s n d = S754_finite s m' e')
  \/ of_ratio s n d = S754_infinity s.
Proof.
  unfold of_ratio.
  pose proof (SFdiv_core_binary_spec n d) as H.
  destruct (SFdiv_core_binary prec emax (Z.pos n) 0 (Z.pos d) 0)
    as [[q e'] l]. destruct H as [He Hq].
  apply binary_round_aux_cases. rewrite Hq.
  apply Z.div_pos; [| lia].
  apply Z.mul_nonneg_nonneg; [lia |]. apply Z.pow_nonneg; lia.
Qed.

(** A quotient of two positive integers is not rounded to zero unless the
    denominator is more than 1073 bits longer than the numerator. *)
Lemma of_ratio_nonzero (s : bool) (n d : positive) :
  Zdigits2 (Zpos d) - Zdigits2 (Zpos n) <= 1073 ->
  is_zero (of_ratio s n d) = false.
Proof.
  intro Hdd. unfold of_ratio.
  pose proof (SFdiv_core_binary_spec n d) as H.
  destruct (SFdiv_core_binary prec emax (Z.pos n) 0 (Z.pos d) 0)
    as [[q e'] l]. destruct H as [He Hq].
  set (dn := Zdigits2 (Zpos n)) in *. set (dd := Zdigits2 (Zpos d)) in *.
  assert (Hdn : 0 < dn) by (apply Zdigits2_pos; lia).
  assert (Hddp : 0 < dd) by (apply Zdigits2_pos; lia).
  pose proof (Zdigits2_bounds (Zpos n) ltac:(lia)) as [Hnlo _].
  pose proof (Zdigits2_bounds (Zpos d) ltac:(lia)) as [_ Hdhi].
  fold dn in Hnlo. fold dd in Hdhi.
  set (k := dn - 1 - e' - dd).
  assert (Hk : 0 <= k) by (subst k; lia).
  assert (Hq2 : 2 ^ k <= q).
  { rewrite Hq. apply Z.div_le_lower_bound; [lia |].
    apply Z.le_trans with (2 ^ dd * 2 ^ k).
    - apply Z.mul_le_mono_nonneg_r; [apply Z.pow_nonneg; lia | lia].
    - rewrite <- Z.pow_add_r by lia.
      replace (dd + k) with ((dn - 1) + (- e')) by (subst k; lia).
      rewrite Z.pow_add_r by lia.
      apply Z.mul_le_mono_nonneg_r; [apply Z.pow_nonneg; lia | lia]. }
  assert (Hqpos : 0 < q).
  { pose proof (Z.pow_pos_nonneg 2 k ltac:(lia) Hk). lia. }
  apply binary_round_aux_nonzero; [assumption |].
  assert (k + 1 <= Zdigits2 q).
  { rewrite Zdigits2_log2 by assumption.
    pose proof (Z.log2_le_mono _ _ Hq2) as Hl.
    rewrite Z.log2_pow2 in Hl by lia. lia. }
  subst k. lia.
Qed.

Lemma nonneg_cases (x : float) :
  nonneg x = true <->
  (exists s, x = S754_zero s) \/ (exists m e, x = S754_finite false m e)
  \/ x = S754_infinity false.
Proof.
  destruct x as [s | s | | s m e]; unfold nonneg, leb, SFleb; simpl.
  - split; eauto.
  - destruct s; split; intro H; try discriminate; auto.
    destruct H as [[? H] | [(? & ? & H) | H]]; discriminate.
  - split; [discriminate |].
    intros [[? H] | [(? & ? & H) | H]]; discriminate.
  - destruct s; split; intro H; try discriminate; eauto.
    destruct H as [[? H] | [(? & ? & H) | H]]; discriminate.
Qed.

Lemma of_ratio_nonneg (n d : positive) : nonneg (of_ratio false n d) = true.
Proof.
  apply nonneg_cases.
  destruct (of_ratio_cases false n d) as [H | [(m & e & H) | H]];
    rewrite H; eauto.
Qed.

Lemma nonneg_not_nan (x : float) : nonneg x = true -> is_nan x = false.
Proof. destruct x; simpl; try reflexivity; discriminate. Qed.

(** The sum of two floats that are [>= 0] is [>= 0]. *)
Lemma add_nonneg (x y : float) :
  nonneg x = true -> nonneg y = true -> nonneg (add x y) = true.
Proof.
  intros Hx Hy. apply nonneg_cases in Hx, Hy. apply nonneg_cases.
  destruct Hx as [[sx ->] | [(mx & ex & ->) | ->]];
    destruct Hy as [[sy ->] | [(my & ey & ->) | ->]];
    unfold add; simpl; eauto.
  - destruct sx, sy; eauto.
  - simpl. set (ez := Z.min ex ey).
    pose proof (shl_align_spec mx ex ez) as H1.
    pose proof (shl_align_spec my ey ez) as H2.
    destruct (shl_align mx ex ez) as [m1 e1], (shl_align my ey ez) as [m2 e2].
    simpl fst.
    change (Z.pos m1 + Z.pos m2) with (Zpos (m1 + m2)).
    unfold binary_normalize.
    destruct (binary_round_cases false (m1 + m2) ez)
      as [(m & e & H) | [H | [H _]]]; rewrite H; eauto.
Qed.

(** Adding a finite float never turns a number into a NaN. *)
Lemma add_finite_not_nan (x y : float) :
  is_nan x = false -> is_finite y = true -> is_nan (add x y) = false.
Proof.
  intros Hx Hy.
  destruct x as [sx | sx | | sx mx ex]; try discriminate;
    destruct y as [sy | sy | | sy my ey]; try discriminate;
    unfold add; simpl; try reflexivity.
  - destruct sx, sy; reflexivity.
  - match goal with |- is_nan (binary_normalize _ _ ?m _ _) = _ =>
      destruct m as [| p | p] end; simpl; try reflexivity.
    + destruct (binary_round_cases false p (Z.min ex ey))
        as [(? & ? & H) | [H | [H _]]]; rewrite H; reflexivity.
    + destruct (binary_round_cases true p (Z.min ex ey))
        as [(? & ? & H) | [H | [H _]]]; rewrite H; reflexivity.
Qed.

(** [float(i)] of a positive int is a positive finite float, unless it
    overflows. *)
Lemma of_int_pos (i : Z) :
  0 < i ->
  of_int i = Raise OverflowError
  \/ exists m e, of_int i = Ok (S754_finite false m e).
Proof.
  intro Hi. destruct i as [| p | p]; try lia.
  unfold of_int, binary_normalize.
  destruct (binary_round_cases false p 0) as [(m & e & H) | [H | [H Hd]]];
    rewrite H; simpl; eauto.
  pose proof (Zdigits2_pos (Zpos p)). lia.
Qed.

Lemma Zdigits2_le_iff (m k : Z) :
  0 <= m -> 0 <= k -> (Zdigits2 m <= k <-> m < 2 ^ k).
Proof.
  intros Hm Hk. destruct (Z.eq_dec m 0) as [-> | Hne].
  - simpl. pose proof (Z.pow_pos_nonneg 2 k). lia.
  - pose proof (Zdigits2_bounds m ltac:(lia)) as [Hlo Hhi].
    pose proof (Zdigits2_pos m ltac:(lia)) as Hd. split; intro H.
    + eapply Z.lt_le_trans; [exact Hhi |]. apply Z.pow_le_mono_r; lia.
    + destruct (Z_le_gt_dec (Zdigits2 m) k) as [Hle | Hgt]; [assumption |].
      assert (2 ^ k <= 2 ^ (Zdigits2 m - 1)) by (apply Z.pow_le_mono_r; lia).
      lia.
Qed.

Lemma Zdigits2_succ_le (m m' : Z) :
  0 <= m -> 0 <= m' <= m + 1 -> Zdigits2 m' <= Zdigits2 m + 1.
Proof.
  intros Hm Hm'. pose proof (Zdigits2_nonneg m) as Hd.
  apply Zdigits2_le_iff; [lia | lia |].
  assert (m < 2 ^ Zdigits2 m) by (apply Zdigits2_le_iff; lia).
  rewrite Z.pow_add_r by lia. change (2 ^ 1) with 2. lia.
Qed.

Lemma Zdigits2_div_pow2_le (m k : Z) :
  0 <= m -> 0 <= k -> Zdigits2 (m / 2 ^ k) <= Z.max 0 (Zdigits2 m - k).
Proof.
  intros Hm Hk.
  assert (Hp : 0 < 2 ^ k) by (apply Z.pow_pos_nonneg; lia).
  assert (Hq : 0 <= m / 2 ^ k) by (apply Z.div_pos; lia).
  apply Zdigits2_le_iff; [assumption | lia |].
  pose proof (Zdigits2_nonneg m) as Hd.
  assert (Hlt : m < 2 ^ Zdigits2 m) by (apply Zdigits2_le_iff; lia).
  apply Z.div_lt_upper_bound; [assumption |].
  eapply Z.lt_le_trans; [exact Hlt |].
  rewrite <- Z.pow_add_r by lia. apply Z.pow_le_mono_r; lia.
Qed.

(** A bound on the exponent of a rounded result: no overflow while the
    input is below [2 ^ 1023]. *)
Lemma binary_round_aux_no_overflow (s : bool) (m e : Z) (l : location) :
  0 <= m -> e <= 971 -> Zdigits2 m + e <= 1023 ->
  is_infinity (binary_round_aux prec emax s m e l) = false.
Proof.
  intros Hm He HD. unfold binary_round_aux.
  pose proof (shr_fexp_m_e m e l Hm) as [H1 H1e].
  destruct (shr_fexp prec emax m e l) as [mrs' e'] eqn:E1.
  simpl in H1, H1e.
  set (n1 := Z.max 0 (fexp prec emax (Zdigits2 m + e) - e)) in *.
  assert (Hm1 : 0 <= shr_m mrs').
  { rewrite H1. apply Z.div_pos; [assumption | apply Z.pow_pos_nonneg; lia]. }
  assert (Hd1 : Zdigits2 (shr_m mrs') <= Z.max 0 (Zdigits2 m - n1)).
  { rewrite H1. apply Zdigits2_div_pow2_le; lia. }
  set (m2 := round_nearest_even (shr_m mrs') (loc_of_shr_record mrs')).
  pose proof (round_nearest_even_range (shr_m mrs') (loc_of_shr_record mrs'))
    as Hr. fold m2 in Hr.
  assert (Hm2 : 0 <= m2) by lia.
  pose proof (Zdigits2_succ_le (shr_m mrs') m2 Hm1 ltac:(lia)) as Hd2.
  pose proof (shr_fexp_m_e m2 e' loc_Exact Hm2) as [H2 H2e].
  destruct (shr_fexp prec emax m2 e' loc_Exact) as [mrs'' e''] eqn:E2.
  simpl in H2, H2e.
  assert (He'' : e'' <= 971).
  { rewrite H2e, H1e. subst n1. rewrite !fexp_eq in *. lia. }
  destruct (shr_m mrs'') as [| p | p]; try reflexivity.
  change (emax - prec) with 971.
  destruct (Z.leb_spec e'' 971); [reflexivity | lia].
Qed.

(** A quotient of at most one is finite. *)
Lemma of_ratio_le_one_finite (s : bool) (n d : positive) :
  (n <= d)%positive -> is_infinity (of_ratio s n d) = false.
Proof.
  intro Hnd. unfold of_ratio.
  pose proof (SFdiv_core_binary_spec n d) as H.
  destruct (SFdiv_core_binary prec emax (Z.pos n) 0 (Z.pos d) 0)
    as [[q e'] l]. destruct H as [He Hq].
  assert (Hdd : Zdigits2 (Zpos n) <= Zdigits2 (Zpos d))
    by (apply Zdigits2_le; lia).
  assert (He' : e' <= -53) by lia.
  assert (Hp : 0 < 2 ^ (- e')) by (apply Z.pow_pos_nonneg; lia).
  assert (Hq0 : 0 <= q).
  { rewrite Hq. apply Z.div_pos; [| lia]. apply Z.mul_nonneg_nonneg; lia. }
  assert (Hq1 : q <= 2 ^ (- e')).
  { rewrite Hq. apply Z.div_le_upper_bound; [lia |].
    apply Z.mul_le_mono_nonneg_r; lia. }
  apply binary_round_aux_no_overflow; [assumption | lia |].
  assert (Zdigits2 q <= - e' + 1); [| lia].
  apply Zdigits2_le_iff; [assumption | lia |].
  rewrite Z.pow_add_r by lia. change (2 ^ 1) with 2. lia.
Qed.

(** [a / b] for [0 < a <= b]: a non-zero finite float, as long as [b] has
    at most 1074 bits. *)
Lemma int_truediv_fraction (a b : Z) :
  0 < a <= b -> b < 2 ^ 1074 ->
  exists m e, int_truediv a b = Ok (S754_finite false m e).
Proof.
  intros Hab Hb. destruct a as [| n | n]; try lia.
  destruct b as [| d | d]; try lia. simpl.
  rewrite of_ratio_le_one_finite by lia.
  assert (Hnz : is_zero (of_ratio false n d) = false).
  { apply of_ratio_nonzero.
    assert (Zdigits2 (Zpos d) <= 1074) by (apply Zdigits2_le_iff; lia).
    pose proof (Zdigits2_pos (Zpos n)). lia. }
  destruct (of_ratio_cases false n d) as [H | [(m & e & H) | H]];
    rewrite H in *; try discriminate; eauto.
  pose proof (of_ratio_le_one_finite false n d ltac:(lia)) as Hi.
  rewrite H in Hi. discriminate.
Qed.

End FloatFacts.

(** * The aggregation loop *)

Module Loop.

Lemma loop_snoc (stream : list parsed_line) (line : parsed_line) :
  loop (stream ++ [line]) = loop_step (loop stream) line.
Proof. unfold loop. rewrite fold_left_app. reflexivity. Qed.

Lemma records_app (s1 s2 : list parsed_line) :
  records (s1 ++ s2) = records s1 ++ records s2.
Proof.
  induction s1 as [| [r |] s1 IH]; simpl; [reflexivity | f_equal; exact IH | exact IH].
Qed.

Lemma samples_snoc_some (stream : list parsed_line) (u v : string) (t : float) :
  samples (stream ++ [Some (u, t)]) v =
  if String.eqb u v then samples stream v ++ [t] else samples stream v.
Proof.
  unfold samples. rewrite records_app. simpl.
  rewrite filter_app, map_app. simpl.
  destruct (String.eqb u v); simpl; [reflexivity | apply app_nil_r].
Qed.

Lemma samples_snoc_none (stream : list parsed_line) (v : string) :
  samples (stream ++ [None]) v = samples stream v.
Proof.
  unfold samples. rewrite records_app. simpl. rewrite app_nil_r. reflexivity.
Qed.

(** What one [setdefault(url, []).append(request_time)] does to each key. *)
Lemma accumulator_setdefault_append (d : stats_dict) (u v : string) (t : float) :
  accumulator (setdefault_append u t d) v =
  if String.eqb u v then accumulator d v ++ [t] else accumulator d v.
Proof.
  unfold accumulator. induction d as [| [k w] d IH]; simpl.
  - destruct (String.eqb u v); reflexivity.
  - destruct (String.eqb k u) eqn:Eku; simpl.
    + apply String.eqb_eq in Eku. subst k.
      destruct (String.eqb u v); reflexivity.
    + destruct (String.eqb k v) eqn:Ekv.
      * apply String.eqb_eq in Ekv. subst k. rewrite String.eqb_sym in Eku.
        rewrite Eku. reflexivity.
      * exact IH.
Qed.

Lemma keys_setdefault_append (d : stats_dict) (u : string) (t : float) :
  map fst (setdefault_append u t d) =
  if existsb (String.eqb u) (map fst d) then map fst d else map fst d ++ [u].
Proof.
  induction d as [| [k w] d IH]; simpl; [reflexivity |].
  destruct (String.eqb k u) eqn:Eku; simpl.
  - rewrite String.eqb_sym, Eku. reflexivity.
  - rewrite String.eqb_sym, Eku. simpl. rewrite IH.
    destruct (existsb (String.eqb u) (map fst d)); reflexivity.
Qed.

(** The state after the loop, in terms of the stream. *)
Lemma loop_state_spec (stream : list parsed_line) :
  let st := loop stream in
  total st = Z.of_nat (List.length stream)
  /\ processed st = Z.of_nat (List.length (records stream))
  /\ processed_request_time st = total_latency stream
  /\ (forall u, accumulator (statistics st) u = samples stream u).
Proof.
  induction stream as [| line stream IH] using rev_ind.
  - simpl. repeat split; reflexivity.
  - rewrite loop_snoc. destruct IH as (Ht & Hp & Hl & Ha).
    rewrite length_app, records_app, length_app. simpl List.length.
    unfold total_latency in *. rewrite records_app, map_app, fold_left_app.
    destruct line as [[u t] |]; simpl.
    + rewrite Ht, Hp, Hl. repeat split; try lia.
      intro v. rewrite accumulator_setdefault_append, samples_snoc_some, Ha.
      reflexivity.
    + rewrite Ht, Hp, Hl. repeat split; try lia.
      intro v. rewrite samples_snoc_none. apply Ha.
Qed.

Lemma records_length_le (stream : list parsed_line) :
  (List.length (records stream) <= List.length stream)%nat.
Proof.
  induction stream as [| [r |] stream IH]; simpl; lia.
Qed.

(** Every key of [statistics] has a non-empty list, and no key occurs
    twice. *)
Lemma loop_statistics_wf (stream : list parsed_line) :
  NoDup (map fst (statistics (loop stream)))
  /\ Forall (fun item => snd item <> []) (statistics (loop stream)).
Proof.
  induction stream as [| line stream IH] using rev_ind.
  - simpl. split; constructor.
  - rewrite loop_snoc. destruct IH as [Hnd Hne].
    destruct line as [[u t] |]; simpl; [| split; assumption].
    generalize dependent (statistics (loop stream)). clear.
    intro d. induction d as [| [k w] d IH]; simpl; intros Hnd Hne.
    + split; repeat constructor; [intros [] | discriminate].
    + inversion Hnd as [| ? ? Hk Hnd']; subst.
      inversion Hne as [| ? ? Hw Hne']; subst.
      destruct (String.eqb k u) eqn:Eku; simpl.
      * split; [constructor; assumption |].
        constructor; [| assumption]. simpl. destruct w; discriminate.
      * destruct (IH Hnd' Hne') as [IH1 IH2].
        split; [| constructor; assumption].
        constructor; [| assumption].
        rewrite keys_setdefault_append.
        destruct (existsb (String.eqb u) (map fst d)); [assumption |].
        rewrite in_app_iff. intros [H | [H | []]]; [contradiction |].
        subst k. rewrite String.eqb_refl in Eku. discriminate.
Qed.

End Loop.

(** C8. After the fold of [calculate_statistics] over a stream, [total] is
    the number of lines and [processed] the number of lines that parsed;
    [processed <= total] holds after every prefix of the stream; a line that
    parsed adds one to both counters, appends its request time to the list of
    its own url, leaves every other list as it was and adds the request time
    to [processed_request_time]; a line that did not parse adds one to
    [total] and changes nothing else. *)
Theorem loop_counts_and_accumulators (stream : list parsed_line) :
  (total (loop stream) = Z.of_nat (List.length stream)
   /\ processed (loop stream) = Z.of_nat (List.length (records stream))
   /\ processed_request_time (loop stream) = total_latency stream
   /\ forall u, accumulator (statistics (loop stream)) u = samples stream u)
  /\ (forall n, processed (loop (firstn n stream))
                <= total (loop (firstn n stream)))
  /\ (forall pre u t,
        let st := loop pre in
        let st' := loop (pre ++ [Some (u, t)]) in
        total st' = total st + 1
        /\ processed st' = processed st + 1
        /\ processed_request_time st' = add (processed_request_time st) t
        /\ accumulator (statistics st') u = accumulator (statistics st) u ++ [t]
        /\ forall v, v <> u ->
             accumulator (statistics st') v = accumulator (statistics st) v)
  /\ (forall pre,
        let st := loop pre in
        let st' := loop (pre ++ [None]) in
        total st' = total st + 1
        /\ processed st' = processed st
        /\ processed_request_time st' = processed_request_time st
        /\ statistics st' = statistics st).
Proof.
  split; [apply Loop.loop_state_spec |].
  split.
  { intro n. destruct (Loop.loop_state_spec (firstn n stream)) as (Ht & Hp & _).
    rewrite Ht, Hp.
    pose proof (Loop.records_length_le (firstn n stream)). lia. }
  split.
  - intros pre u t. cbv zeta. rewrite Loop.loop_snoc. simpl.
    repeat split; try reflexivity.
    + rewrite Loop.accumulator_setdefault_append, String.eqb_refl. reflexivity.
    + intros v Hv. rewrite Loop.accumulator_setdefault_append.
      destruct (String.eqb u v) eqn:E; [| reflexivity].
      apply String.eqb_eq in E. congruence.
  - intro pre. cbv zeta. rewrite Loop.loop_snoc. simpl.
    repeat split; reflexivity.
Qed.

(** * Which calls raise what *)

Module Raises.

Lemma bind_ok {A B : Type} (r : result A) (k : A -> result B) (b : B) :
  bind r k = Ok b -> exists a, r = Ok a /\ k a = Ok b.
Proof. destruct r; simpl; [eauto | discriminate]. Qed.

Lemma bind_raise {A B : Type} (r : result A) (k : A -> result B) (e : exn) :
  bind r k = Raise e -> r = Raise e \/ exists a, r = Ok a /\ k a = Raise e.
Proof.
  destruct r; simpl; [eauto | intro H; left; inversion H; reflexivity].
Qed.

Lemma int_truediv_raise (a b : Z) (e : exn) :
  int_truediv a b = Raise e ->
  (e = ZeroDivisionError /\ b = 0) \/ e = OverflowError.
Proof.
  unfold int_truediv.
  destruct a, b; try (intro H; inversion H; auto; fail);
    destruct (is_infinity _); intro H; inversion H; auto.
Qed.

Lemma truediv_raise (x y : float) (e : exn) :
  truediv x y = Raise e -> e = ZeroDivisionError /\ is_zero y = true.
Proof.
  unfold truediv. destruct (is_zero y); intro H; inversion H; auto.
Qed.

Lemma of_int_raise (i : Z) (e : exn) :
  of_int i = Raise e -> e = OverflowError.
Proof.
  unfold of_int. destruct (is_infinity _); intro H; inversion H; auto.
Qed.

Lemma truediv_int_raise (x : float) (i : Z) (e : exn) :
  0 < i -> truediv_int x i = Raise e -> e = OverflowError.
Proof.
  intros Hi H. unfold truediv_int in H.
  destruct (FloatFacts.of_int_pos i Hi) as [Ho | (m & ex & Ho)];
    rewrite Ho in H; simpl in H; inversion H; reflexivity.
Qed.

Lemma mul_int_raise (x : float) (i : Z) (e : exn) :
  mul_int x i = Raise e -> e = OverflowError.
Proof.
  unfold mul_int. intro H. apply bind_raise in H.
  destruct H as [H | (a & _ & H)]; [eapply of_int_raise; eauto | discriminate].
Qed.

Lemma round_raise (x : float) (n : Z) (e : exn) :
  round x n = Raise e -> e = OverflowError.
Proof.
  unfold round. destruct x; try discriminate.
  destruct (match e0 with Z.neg _ => _ | _ => _ end); try discriminate.
  destruct (10 ^ n); try discriminate.
  destruct (is_infinity _); intro H; inversion H; reflexivity.
Qed.

Lemma insert_length {A : Type} (lt : A -> A -> bool) (x : A) (l : list A) :
  List.length (Py.insert lt x l) = S (List.length l).
Proof.
  induction l as [| y l IH]; simpl; [reflexivity |].
  destruct (lt y x); simpl; [rewrite IH |]; reflexivity.
Qed.

Lemma sort_length {A : Type} (lt : A -> A -> bool) (l : list A) :
  List.length (Py.sort lt l) = List.length l.
Proof.
  induction l as [| x l IH]; simpl; [reflexivity |].
  rewrite insert_length, IH. reflexivity.
Qed.

Lemma truediv_int_2 (x : float) :
  truediv_int x 2
  = Ok (SFdiv prec emax x (S754_finite false 4503599627370496 (-51))).
Proof.
  unfold truediv_int.
  replace (of_int 2) with (Ok (S754_finite false 4503599627370496 (-51)))
    by (vm_compute; reflexivity).
  reflexivity.
Qed.

Lemma max_nonempty (data : list float) :
  data <> [] -> exists m, Py.max data = Ok m.
Proof. destruct data; [congruence | simpl; eauto]. Qed.

Lemma median_nonempty (data : list float) :
  data <> [] -> exists m, Py.median data = Ok m.
Proof.
  intro Hne. unfold Py.median, Py.sorted.
  rewrite sort_length.
  destruct data as [| x data]; [congruence |].
  simpl List.length.
  destruct (Nat.odd (S (List.length data))); [eauto |].
  rewrite truediv_int_2. eauto.
Qed.

(** The enrichment of one item raises nothing but [OverflowError], or
    [ZeroDivisionError] when the total request time is zero. *)
Lemma enrich_raise (impl : Py.sum_impl) (all_count : Z) (all_time_sum : float)
    (u : string) (data : list float) (e : exn) :
  0 < all_count -> data <> [] ->
  enrich impl all_count all_time_sum (u, data) = Raise e ->
  e = OverflowError
  \/ (e = ZeroDivisionError /\ is_zero all_time_sum = true).
Proof.
  intros Hc Hd H. unfold enrich in H.
  assert (Hlen : 0 < Z.of_nat (List.length data))
    by (destruct data; [congruence | simpl; lia]).
  destruct (max_nonempty data Hd) as [mx Hmx].
  destruct (median_nonempty data Hd) as [md Hmd].
  rewrite Hmx, Hmd in H.
  repeat match type of H with
  | bind ?r _ = Raise _ =>
      apply bind_raise in H; destruct H as [H | (? & _ & H)]
  end;
  try (apply int_truediv_raise in H; destruct H as [[_ H] | H]; [lia | auto; fail]);
  try (apply truediv_raise in H; auto; fail);
  try (apply truediv_int_raise in H; auto; fail);
  try (apply mul_int_raise in H; auto; fail);
  try (apply round_raise in H; auto; fail);
  try discriminate.
Qed.

Lemma enrich_all_raise (impl : Py.sum_impl) (all_count : Z)
    (all_time_sum : float) (items : stats_dict) (e : exn) :
  0 < all_count -> Forall (fun item => snd item <> []) items ->
  enrich_all impl all_count all_time_sum items = Raise e ->
  e = OverflowError
  \/ (e = ZeroDivisionError /\ is_zero all_time_sum = true).
Proof.
  intros Hc Hne. induction items as [| [u data] items IH]; simpl.
  - discriminate.
  - inversion Hne as [| ? ? Hd Hne']; subst. intro H.
    apply bind_raise in H. destruct H as [H | (a & _ & H)].
    + simpl in Hd.
      exact (enrich_raise impl all_count all_time_sum u data e Hc Hd H).
    + apply bind_raise in H. destruct H as [H | (b & _ & H)]; [| discriminate].
      apply IH; assumption.
Qed.

(** A dictionary whose lists are non-empty is empty as soon as every
    accumulator is. *)
Lemma statistics_of_no_record (stream : list parsed_line) :
  records stream = [] -> statistics (loop stream) = [].
Proof.
  intro Hr.
  destruct (Loop.loop_state_spec stream) as (_ & _ & _ & Ha).
  destruct (Loop.loop_statistics_wf stream) as [_ Hne].
  destruct (statistics (loop stream)) as [| [k w] d]; [reflexivity |].
  exfalso. inversion Hne as [| ? ? Hw _]; subst. apply Hw. simpl.
  specialize (Ha k). unfold accumulator, samples in Ha. simpl in Ha.
  rewrite String.eqb_refl, Hr in Ha. exact Ha.
Qed.

Lemma statistics_nonempty_processed (stream : list parsed_line) :
  statistics (loop stream) <> [] -> 0 < processed (loop stream).
Proof.
  intro Hne. destruct (Loop.loop_state_spec stream) as (_ & Hp & _).
  rewrite Hp. destruct (records stream) eqn:E; [| simpl; lia].
  apply statistics_of_no_record in E. contradiction.
Qed.

Lemma records_all_iff (stream : list parsed_line) :
  List.length (records stream) = List.length stream <-> ~ In None stream.
Proof.
  induction stream as [| [r |] stream IH]; simpl.
  - tauto.
  - split.
    + intros H [Hc | Hc]; [discriminate |]. apply IH; [lia | assumption].
    + intro H. f_equal. apply IH. tauto.
  - pose proof (Loop.records_length_le stream). split; [lia | tauto].
Qed.

Lemma records_short (stream : list parsed_line) :
  List.length (records stream) <> List.length stream -> In None stream.
Proof.
  induction stream as [| [r |] stream IH]; simpl.
  - congruence.
  - intro H. right. apply IH. lia.
  - intros _. left. reflexivity.
Qed.

End Raises.

(** C1. With an errors limit configured and at least one line read,
    [calculate_statistics] raises [ErrorsLimitExceedError] exactly when some
    line did not parse, whatever the limit is; without a limit, or on an
    empty stream, it never raises it. The stream is taken to have fewer than
    [2 ^ 1074] lines: the test of the source is the truth value of the
    binary64 quotient [(total - processed) / total], which is zero for no
    smaller [total]. *)
Theorem errors_limit_fires_iff_some_line_fails (impl : Py.sum_impl)
    (stream : list parsed_line)
    (Hsize : Z.of_nat (List.length stream) < 2 ^ 1074) :
  (stream <> [] ->
   forall limit : float,
     (exists cur, calculate_statistics impl stream (Some limit)
                  = Raise (ErrorsLimitExceedError limit cur))
     <-> In None stream)
  /\ (forall limit cur,
        calculate_statistics impl stream None
        <> Raise (ErrorsLimitExceedError limit cur))
  /\ (forall errors_limit limit cur,
        calculate_statistics impl [] errors_limit
        <> Raise (ErrorsLimitExceedError limit cur)).
Proof.
  assert (Henrich : forall s limit cur,
    enrich_all impl (processed (loop s)) (processed_request_time (loop s))
      (statistics (loop s)) <> Raise (ErrorsLimitExceedError limit cur)).
  { intros s limit cur H.
    destruct (statistics (loop s)) eqn:Es; [discriminate |].
    rewrite <- Es in H.
    apply Raises.enrich_all_raise in H.
    - destruct H as [H | [H _]]; discriminate.
    - apply Raises.statistics_nonempty_processed. congruence.
    - apply Loop.loop_statistics_wf. }
  split; [| split].
  - intros Hne limit.
    destruct (Loop.loop_state_spec stream) as (Ht & Hp & _).
    pose proof (Loop.records_length_le stream) as Hle.
    assert (Hlen : (0 < List.length stream)%nat)
      by (destruct stream; [congruence | simpl; lia]).
    unfold calculate_statistics, errors_gate.
    rewrite Ht, Hp.
    destruct (Z.gtb_spec (Z.of_nat (List.length stream)) 0) as [_ | Hc];
      [| lia].
    destruct (Nat.eq_dec (List.length (records stream)) (List.length stream))
      as [Heq | Hneq].
    + (* every line parsed: the quotient is 0 / total *)
      rewrite Heq, Z.sub_diag.
      destruct (Z.of_nat (List.length stream)) eqn:El; try lia.
      simpl. split.
      * intros [cur H]. exfalso. eapply Henrich.
        rewrite Hp, Heq, El. exact H.
      * intro Hin. apply Raises.records_all_iff in Heq. contradiction.
    + (* some line failed: the quotient is a non-zero float *)
      destruct (FloatFacts.int_truediv_fraction
                  (Z.of_nat (List.length stream)
                   - Z.of_nat (List.length (records stream)))
                  (Z.of_nat (List.length stream)) ltac:(lia) Hsize)
        as (m & e & Hq).
      rewrite Hq. simpl. split.
      * intros _. apply Raises.records_short. exact Hneq.
      * intros _. eexists. reflexivity.
  - intros limit cur. unfold calculate_statistics. simpl. apply Henrich.
  - intros errors_limit limit cur.
    unfold calculate_statistics. destruct errors_limit; discriminate.
Qed.

Lemma errors_limit_fires_witness :
  let stream := [Some ("/a", zero); None] in
  Z.of_nat (List.length stream) < 2 ^ 1074
  /\ ((exists cur, calculate_statistics Py.SumLeftFold stream (Some zero)
                   = Raise (ErrorsLimitExceedError zero cur))
      <-> In None stream).
Proof.
  split; [vm_compute; reflexivity |].
  apply (proj1 (errors_limit_fires_iff_some_line_fails Py.SumLeftFold
                  [Some ("/a", zero); None] ltac:(vm_compute; reflexivity))).
  discriminate.
Defined.

Module Division.

Lemma errors_gate_raise (errors_limit : option float) (st : loop_state)
    (e : exn) :
  errors_gate errors_limit st = Raise e ->
  e = OverflowError
  \/ exists limit cur, e = ErrorsLimitExceedError limit cur.
Proof.
  unfold errors_gate. destruct errors_limit as [limit |]; [| discriminate].
  destruct (Z.gtb_spec (total st) 0) as [Hpos | _]; [| discriminate].
  intro H. apply Raises.bind_raise in H. destruct H as [H | (cur & _ & H)].
  - apply Raises.int_truediv_raise in H. destruct H as [[_ H] | H]; [lia | auto].
  - destruct (truthy cur); inversion H; eauto.
Qed.

Lemma samples_length_le (stream : list parsed_line) (u : string) :
  (List.length (samples stream u) <= List.length (records stream))%nat.
Proof.
  unfold samples. rewrite length_map. apply filter_length_le.
Qed.

Lemma dict_head_accumulator (k : string) (w : list float) (d : stats_dict) :
  accumulator ((k, w) :: d) k = w.
Proof. unfold accumulator. simpl. rewrite String.eqb_refl. reflexivity. Qed.

End Division.

(** C10. When no line of the stream parses, [calculate_statistics] does
    nothing after the errors gate but return the empty dictionary. It raises
    [ZeroDivisionError] only when at least one record parsed and the sum of
    all request times is zero; and once the gate is passed, it does raise it
    in that case. *)
Theorem division_by_zero_only_on_zero_total (impl : Py.sum_impl)
    (stream : list parsed_line) (errors_limit : option float) :
  (records stream = [] ->
   calculate_statistics impl stream errors_limit
   = (_ <- errors_gate errors_limit (loop stream) ;; Ok []))
  /\ (calculate_statistics impl stream errors_limit = Raise ZeroDivisionError ->
      records stream <> [] /\ is_zero (total_latency stream) = true)
  /\ (errors_gate errors_limit (loop stream) = Ok tt ->
      records stream <> [] -> is_zero (total_latency stream) = true ->
      calculate_statistics impl stream errors_limit = Raise ZeroDivisionError).
Proof.
  destruct (Loop.loop_state_spec stream) as (Ht & Hp & Hl & Ha).
  destruct (Loop.loop_statistics_wf stream) as [Hnd Hne].
  split; [| split].
  - intro Hr. unfold calculate_statistics.
    rewrite (Raises.statistics_of_no_record stream Hr). reflexivity.
  - intro H. unfold calculate_statistics in H.
    apply Raises.bind_raise in H. destruct H as [H | ([] & _ & H)].
    + apply Division.errors_gate_raise in H.
      destruct H as [H | (? & ? & H)]; discriminate.
    + destruct (statistics (loop stream)) eqn:Es; [discriminate |].
      rewrite <- Es in *.
      assert (Hpos : 0 < processed (loop stream))
        by (apply Raises.statistics_nonempty_processed; congruence).
      apply Raises.enrich_all_raise in H; try assumption.
      destruct H as [H | [_ H]]; [discriminate |].
      rewrite Hl in H. split; [| exact H].
      intro Hr. rewrite Hp, Hr in Hpos. simpl in Hpos. lia.
  - intros Hgate Hr Hz. unfold calculate_statistics. rewrite Hgate. simpl.
    destruct (statistics (loop stream)) as [| [k w] d] eqn:Es.
    + exfalso. destruct (records stream) as [| [u t] rs] eqn:Er; [congruence |].
      specialize (Ha u). unfold samples in Ha.
      rewrite Er in Ha. simpl in Ha. rewrite String.eqb_refl in Ha.
      discriminate.
    + inversion Hne as [| ? ? Hw _]; subst. simpl in Hw.
      pose proof (Ha k) as Hk. rewrite Division.dict_head_accumulator in Hk.
      pose proof (Division.samples_length_le stream k) as Hle.
      rewrite <- Hk in Hle.
      simpl. rewrite Hp, Hl.
      assert (Hlen : (0 < List.length w)%nat)
        by (destruct w; [congruence | simpl; lia]).
      destruct (Z.of_nat (List.length w)) as [| n | n] eqn:En; try lia.
      destruct (Z.of_nat (List.length (records stream))) as [| dd | dd] eqn:Ed;
        try lia.
      simpl. rewrite FloatFacts.of_ratio_le_one_finite by lia. simpl.
      unfold truediv. rewrite Hz. reflexivity.
Qed.

(** * [find_last_log_file] *)

Module LogFile.

Ltac date_order :=
  unfold date_gtb in *;
  repeat match goal with
  | H : _ = true |- _ =>
      first [ rewrite Bool.orb_true_iff in H | rewrite Bool.andb_true_iff in H
            | rewrite Z.ltb_lt in H | rewrite Z.eqb_eq in H ]
  | H : _ = false |- _ =>
      first [ rewrite Bool.orb_false_iff in H | rewrite Bool.andb_false_iff in H
            | rewrite Z.ltb_ge in H | rewrite Z.eqb_neq in H ]
  | |- _ = true =>
      first [ rewrite Bool.orb_true_iff | rewrite Bool.andb_true_iff
            | rewrite Z.ltb_lt | rewrite Z.eqb_eq ]
  | |- _ = false =>
      first [ rewrite Bool.orb_false_iff | rewrite Bool.andb_false_iff
            | rewrite Z.ltb_ge | rewrite Z.eqb_neq ]
  end;
  lia.

Lemma date_gtb_trans (a b c : date) :
  date_gtb a b = true -> date_gtb b c = true -> date_gtb a c = true.
Proof. intros H1 H2. date_order. Qed.

Lemma date_gtb_after_not_gtb (a b c : date) :
  date_gtb a b = true -> date_gtb c b = false -> date_gtb a c = true.
Proof. intros H1 H2. date_order. Qed.

Lemma date_gtb_irrefl (a : date) : date_gtb a a = false.
Proof. date_order. Qed.

Lemma scan_step_candidate (dir_path : string) (last : option LogInfo)
    (file_name : string) :
  scan_step dir_path last file_name =
  match candidate_date file_name with
  | Some d =>
      match last with
      | None => Some {| file_path := path_join dir_path file_name;
                        log_date := d |}
      | Some l =>
          if date_gtb d (log_date l)
          then Some {| file_path := path_join dir_path file_name;
                       log_date := d |}
          else last
      end
  | None => last
  end.
Proof.
  unfold scan_step, candidate_date.
  destruct (match_ FILE_NAME_REGEXP file_name) as [caps |]; [| reflexivity].
  destruct (group caps "date") as [text |]; reflexivity.
Qed.

Lemma scan_invariant (dir_path : string) (names : list string) :
  match fold_left (scan_step dir_path) names None with
  | None => forall n, In n names -> candidate_date n = None
  | Some info => first_greatest dir_path names info
  end.
Proof.
  induction names as [| x names IH] using rev_ind.
  - simpl. intros n [].
  - rewrite fold_left_app. simpl. rewrite scan_step_candidate.
    destruct (candidate_date x) as [d |] eqn:Ex.
    + destruct (fold_left (scan_step dir_path) names None) as [info |].
      * destruct IH as (before & name & after & Hn & Hc & Hp & Hb & Ha).
        destruct (date_gtb d (log_date info)) eqn:Eg.
        -- exists names, x, []. simpl. repeat split; try assumption.
           ++ intros n d' Hin Hd'. subst names.
              apply in_app_iff in Hin. destruct Hin as [Hin | [<- | Hin]].
              ** eapply date_gtb_trans; [exact Eg | eapply Hb; eauto].
              ** rewrite Hc in Hd'. inversion Hd'; subst. exact Eg.
              ** eapply date_gtb_after_not_gtb; [exact Eg | eapply Ha; eauto].
           ++ intros n d' [].
        -- exists before, name, (after ++ [x]). repeat split; try assumption.
           ++ subst names. rewrite <- app_assoc. reflexivity.
           ++ intros n d' Hin Hd'. apply in_app_iff in Hin.
              destruct Hin as [Hin | [<- | []]]; [eapply Ha; eauto |].
              rewrite Ex in Hd'. inversion Hd'; subst. exact Eg.
      * exists names, x, []. simpl. repeat split; try assumption.
        -- intros n d' Hin Hd'. rewrite (IH n Hin) in Hd'. discriminate.
        -- intros n d' [].
    + destruct (fold_left (scan_step dir_path) names None) as [info |].
      * destruct IH as (before & name & after & Hn & Hc & Hp & Hb & Ha).
        exists before, name, (after ++ [x]). repeat split; try assumption.
        -- subst names. rewrite <- app_assoc. reflexivity.
        -- intros n d' Hin Hd'. apply in_app_iff in Hin.
           destruct Hin as [Hin | [<- | []]]; [eapply Ha; eauto |].
           rewrite Ex in Hd'. discriminate.
      * intros n Hin. apply in_app_iff in Hin.
        destruct Hin as [Hin | [<- | []]]; [apply IH; assumption | exact Ex].
Qed.

(** No entry is returned exactly when the directory is missing or no name
    in it carries a date. *)
Lemma find_last_log_file_none_iff (isdir : bool) (listdir : list string)
    (dir_path : string) :
  find_last_log_file isdir listdir dir_path = None
  <-> isdir = false \/ forall n, In n listdir -> candidate_date n = None.
Proof.
  unfold find_last_log_file. destruct isdir; simpl.
  - pose proof (scan_invariant dir_path listdir) as H.
    destruct (fold_left (scan_step dir_path) listdir None) as [info |].
    + split; [discriminate |]. intros [Hc | Hall]; [discriminate |].
      destruct H as (before & name & after & Hn & Hc & _).
      rewrite Hall in Hc; [discriminate |].
      subst listdir. apply in_app_iff. right. left. reflexivity.
    + split; auto.
  - split; auto.
Qed.

End LogFile.

(** C9. The entry that [find_last_log_file] returns is the first name of
    the listing that carries the greatest date: every candidate listed
    before it has a strictly earlier date, and no candidate listed after it
    has a later one, so a later file of the same date never replaces it. *)
Theorem find_last_log_file_keeps_first_greatest (listdir : list string)
    (dir_path : string) (info : LogInfo) :
  find_last_log_file true listdir dir_path = Some info ->
  exists before name after,
    listdir = before ++ name :: after
    /\ candidate_date name = Some (log_date info)
    /\ file_path info = path_join dir_path name
    /\ (forall n d, In n before -> candidate_date n = Some d ->
          date_gtb (log_date info) d = true)
    /\ (forall n d, In n after -> candidate_date n = Some d ->
          date_gtb d (log_date info) = false).
Proof.
  unfold find_last_log_file. simpl. intro H.
  pose proof (LogFile.scan_invariant dir_path listdir) as Hinv.
  rewrite H in Hinv. exact Hinv.
Qed.

Lemma find_last_log_file_keeps_first_greatest_witness :
  let listdir :=
    [ "nginx-access-ui.log-20230101"; "nginx-access-ui.log-20230215.gz";
      "nginx-access-ui.log-20230215"; "nginx-access-ui.log-bad" ] in
  let info :=
    {| file_path := "./logs/nginx-access-ui.log-20230215.gz";
       log_date := {| year := 2023; month := 2; day := 15 |} |} in
  find_last_log_file true listdir "./logs" = Some info
  /\ first_greatest "./logs" listdir info.
Proof.
  split; [vm_compute; reflexivity |].
  apply find_last_log_file_keeps_first_greatest. vm_compute. reflexivity.
Defined.

(** * The order of floats and the sort *)

Module Order.

(** A float that is not a NaN, placed in three integers read in
    lexicographic order: the order of [<] on floats. *)
Lemma ltb_rank (x y : float) :
  is_nan x = false -> is_nan y = false ->
  (ltb x y = true <->
   let '(a1, a2, a3) := rank x in
   let '(b1, b2, b3) := rank y in
   a1 < b1 \/ (a1 = b1 /\ (a2 < b2 \/ (a2 = b2 /\ a3 < b3)))).
Proof.
  intros Hx Hy.
  destruct x as [sx | sx | | sx mx ex]; try discriminate;
    destruct y as [sy | sy | | sy my ey]; try discriminate;
    unfold ltb, SFltb; simpl;
    try (destruct sx); try (destruct sy); simpl;
    try (split; [discriminate | lia]);
    try (split; [intros _; lia | reflexivity]).
  - rewrite Pos.compare_cont_spec. simpl.
    destruct (Z.compare_spec ex ey) as [He | He | He];
      destruct (Pos.compare_spec mx my) as [Hm | Hm | Hm];
      simpl; split; intro Hc; try discriminate; try reflexivity; lia.
  - rewrite Pos.compare_cont_spec. simpl.
    destruct (Z.compare_spec ex ey) as [He | He | He];
      destruct (Pos.compare_spec mx my) as [Hm | Hm | Hm];
      simpl; split; intro Hc; try discriminate; try reflexivity; lia.
Qed.

Ltac by_rank :=
  repeat match goal with
  | H : ltb ?a ?b = true |- _ => apply ltb_rank in H; [| assumption ..]
  | H : ltb ?a ?b = false |- _ =>
      apply Bool.not_true_iff_false in H;
      rewrite ltb_rank in H by assumption
  | |- ltb ?a ?b = true => apply ltb_rank; [assumption .. |]
  | |- ltb ?a ?b = false =>
      apply Bool.not_true_iff_false; rewrite ltb_rank by assumption
  end;
  repeat match goal with
  | |- context [rank ?a] => destruct (rank a) as [[? ?] ?]
  | H : context [rank ?a] |- _ => destruct (rank a) as [[? ?] ?]
  end;
  lia.

Lemma ltb_asym (x y : float) :
  is_nan x = false -> is_nan y = false -> ltb x y = true -> ltb y x = false.
Proof. intros Hx Hy H. by_rank. Qed.

Lemma ltb_negtrans (x y z : float) :
  is_nan x = false -> is_nan y = false -> is_nan z = false ->
  ltb y x = false -> ltb z y = false -> ltb z x = false.
Proof. intros Hx Hy Hz H1 H2. by_rank. Qed.

Lemma ltb_trans (x y z : float) :
  is_nan x = false -> is_nan y = false -> is_nan z = false ->
  ltb x y = true -> ltb y z = true -> ltb x z = true.
Proof. intros Hx Hy Hz H1 H2. by_rank. Qed.

Lemma ltb_le_trans (x y z : float) :
  is_nan x = false -> is_nan y = false -> is_nan z = false ->
  ltb x y = true -> ltb z y = false -> ltb x z = true.
Proof. intros Hx Hy Hz H1 H2. by_rank. Qed.

Lemma le_ltb_trans (x y z : float) :
  is_nan x = false -> is_nan y = false -> is_nan z = false ->
  ltb y x = false -> ltb y z = true -> ltb x z = true.
Proof. intros Hx Hy Hz H1 H2. by_rank. Qed.

(** ** The stable insertion sort *)

Section Sort.
Context {A : Type} (lt : A -> A -> bool) (P : A -> Prop).
Hypothesis lt_asym : forall a b, P a -> P b -> lt a b = true -> lt b a = false.
Hypothesis lt_negtrans : forall a b c, P a -> P b -> P c ->
  lt b a = false -> lt c b = false -> lt c a = false.

Lemma insert_perm (x : A) (l : list A) : Permutation (Py.insert lt x l) (x :: l).
Proof.
  induction l as [| y l IH]; simpl; [reflexivity |].
  destruct (lt y x); [| reflexivity].
  rewrite IH. apply perm_swap.
Qed.

Lemma sort_perm (l : list A) : Permutation (Py.sort lt l) l.
Proof.
  induction l as [| x l IH]; simpl; [reflexivity |].
  rewrite insert_perm. constructor. exact IH.
Qed.

Lemma sorted_perm (l : list A) (reverse : bool) :
  Permutation (Py.sorted lt l reverse) l.
Proof.
  unfold Py.sorted. destruct reverse; [| apply sort_perm].
  rewrite <- Permutation_rev, sort_perm, <- Permutation_rev. reflexivity.
Qed.

Lemma insert_sorted (x : A) (l : list A) :
  P x -> Forall P l -> StronglySorted (not_after lt) l ->
  StronglySorted (not_after lt) (Py.insert lt x l).
Proof.
  intros Hx HP Hs. induction Hs as [| y l Hs IH Hy]; simpl.
  - repeat constructor.
  - inversion HP as [| ? ? Py HP']; subst.
    destruct (lt y x) eqn:E.
    + constructor; [apply IH; assumption |].
      eapply Permutation_Forall; [symmetry; apply insert_perm |].
      constructor; [| assumption]. unfold not_after. apply lt_asym; assumption.
    + constructor; [constructor; assumption |].
      constructor; [exact E |].
      rewrite Forall_forall in *. intros z Hz. unfold not_after in *.
      eapply lt_negtrans with (b := y); auto.
Qed.

Lemma sort_sorted (l : list A) :
  Forall P l -> StronglySorted (not_after lt) (Py.sort lt l).
Proof.
  induction l as [| x l IH]; simpl; intro HP; [constructor |].
  inversion HP; subst.
  apply insert_sorted; [assumption | | apply IH; assumption].
  eapply Permutation_Forall; [symmetry; apply sort_perm | assumption].
Qed.

Lemma StronglySorted_app (R : A -> A -> Prop) (l1 l2 : list A) :
  StronglySorted R l1 -> StronglySorted R l2 ->
  (forall a b, In a l1 -> In b l2 -> R a b) ->
  StronglySorted R (l1 ++ l2).
Proof.
  intros H1 H2 H12. induction H1 as [| x l1 Hs IH Hx]; simpl; [assumption |].
  constructor.
  - apply IH. intros a b Ha Hb. apply H12; [right |]; assumption.
  - apply Forall_app. split; [assumption |].
    rewrite Forall_forall. intros b Hb. apply H12; [left; reflexivity | assumption].
Qed.

Lemma StronglySorted_rev (R : A -> A -> Prop) (l : list A) :
  StronglySorted R l -> StronglySorted (fun a b => R b a) (rev l).
Proof.
  induction 1 as [| x l Hs IH Hx]; simpl; [constructor |].
  apply StronglySorted_app; [assumption | repeat constructor |].
  intros a b Ha [<- | []]. rewrite Forall_forall in Hx.
  apply Hx. apply in_rev. assumption.
Qed.

(** With [reverse=True] the result is in descending order: no element is
    less than a later one. *)
Lemma sorted_reverse_descending (l : list A) :
  Forall P l ->
  StronglySorted (fun a b => lt a b = false) (Py.sorted lt l true).
Proof.
  intro HP. unfold Py.sorted.
  apply (StronglySorted_rev (not_after lt)). apply sort_sorted.
  eapply Permutation_Forall; [apply Permutation_rev | assumption].
Qed.

(** ** Stability *)

Hypothesis lt_le_trans : forall a b c, P a -> P b -> P c ->
  lt a b = true -> lt c b = false -> lt a c = true.

Lemma insert_filter_other (p : A -> bool) (x : A) (l : list A) :
  p x = false -> filter p (Py.insert lt x l) = filter p l.
Proof.
  intro Hx. induction l as [| y l IH]; simpl; [rewrite Hx; reflexivity |].
  destruct (lt y x); simpl; [rewrite IH | rewrite Hx]; reflexivity.
Qed.

Lemma insert_filter_same (k x : A) (l : list A) :
  P k -> P x -> Forall P l -> same_key lt k x = true ->
  filter (same_key lt k) (Py.insert lt x l) = x :: filter (same_key lt k) l.
Proof.
  intros Hk Hx HP Hkx. induction l as [| y l IH]; simpl.
  - rewrite Hkx. reflexivity.
  - inversion HP as [| ? ? Py HP']; subst.
    destruct (lt y x) eqn:E; simpl.
    + assert (Hy : same_key lt k y = false).
      { unfold same_key in *. apply Bool.andb_true_iff in Hkx.
        destruct Hkx as [Hxk _]. apply Bool.negb_true_iff in Hxk.
        rewrite (lt_le_trans y x k) by assumption.
        apply Bool.andb_false_r. }
      rewrite Hy. apply IH. assumption.
    + rewrite Hkx. reflexivity.
Qed.

Lemma sort_stable (k : A) (l : list A) :
  P k -> Forall P l ->
  filter (same_key lt k) (Py.sort lt l) = filter (same_key lt k) l.
Proof.
  intros Hk HP. induction l as [| x l IH]; simpl; [reflexivity |].
  inversion HP as [| ? ? Px HP']; subst.
  assert (HPs : Forall P (Py.sort lt l))
    by (eapply Permutation_Forall; [symmetry; apply sort_perm | assumption]).
  destruct (same_key lt k x) eqn:E.
  - rewrite insert_filter_same by assumption. f_equal. apply IH. assumption.
  - rewrite insert_filter_other by assumption. apply IH. assumption.
Qed.

Lemma filter_rev (p : A -> bool) (l : list A) :
  filter p (rev l) = rev (filter p l).
Proof.
  induction l as [| x l IH]; simpl; [reflexivity |].
  rewrite filter_app, IH. simpl. destruct (p x); simpl;
    [reflexivity | apply app_nil_r].
Qed.

(** The elements of equal key come out in the order in which they went in,
    also with [reverse=True]. *)
Lemma sorted_stable (k : A) (l : list A) (reverse : bool) :
  P k -> Forall P l ->
  filter (same_key lt k) (Py.sorted lt l reverse) = filter (same_key lt k) l.
Proof.
  intros Hk HP. unfold Py.sorted. destruct reverse.
  - rewrite filter_rev, sort_stable, filter_rev, rev_involutive;
      [reflexivity | assumption |].
    eapply Permutation_Forall; [apply Permutation_rev | assumption].
  - apply sort_stable; assumption.
Qed.

End Sort.

End Order.

(** * The matcher and [process_line] *)

Module ReFacts.

(** ** The matcher finds a match exactly when there is one *)

Lemma star_greedy_sound {R : Type} (c : cclass) (s : string)
    (k : string -> option R) (x : R) (caps : captures) (g : bool) :
  star_greedy c s k = Some x ->
  exists s', matches (Star c g) s caps s' caps /\ k s' = Some x.
Proof.
  induction s as [| a s IH]; simpl.
  - intro H. exists EmptyString. split; [constructor | exact H].
  - destruct (cclass_matches c a) eqn:Ea.
    + destruct (star_greedy c s k) as [y |] eqn:Es.
      * intro H. inversion H; subst y.
        destruct (IH eq_refl) as (s' & Hm & Hk).
        exists s'. split; [constructor; assumption | exact Hk].
      * intro H. exists (String a s). split; [constructor | exact H].
    + intro H. exists (String a s). split; [constructor | exact H].
Qed.

Lemma star_lazy_sound {R : Type} (c : cclass) (s : string)
    (k : string -> option R) (x : R) (caps : captures) (g : bool) :
  star_lazy c s k = Some x ->
  exists s', matches (Star c g) s caps s' caps /\ k s' = Some x.
Proof.
  induction s as [| a s IH]; simpl.
  - destruct (k EmptyString) eqn:Ek; [| discriminate].
    intro H. exists EmptyString. split; [constructor | congruence].
  - destruct (k (String a s)) eqn:Ek.
    + intro H. exists (String a s). split; [constructor | congruence].
    + destruct (cclass_matches c a) eqn:Ea; [| discriminate].
      intro H. destruct (IH H) as (s' & Hm & Hk).
      exists s'. split; [constructor; assumption | exact Hk].
Qed.

Lemma upto_sound {R : Type} (n : nat) (c : cclass) (s : string)
    (k : string -> option R) (x : R) (caps : captures) :
  upto n c s k = Some x ->
  exists s', matches (Upto n c) s caps s' caps /\ k s' = Some x.
Proof.
  revert s. induction n as [| n IH]; intro s; simpl.
  - intro H. exists s. split; [constructor | exact H].
  - destruct s as [| a s].
    + intro H. exists EmptyString. split; [constructor | exact H].
    + destruct (cclass_matches c a) eqn:Ea.
      * destruct (upto n c s k) as [y |] eqn:Es.
        -- intro H. inversion H; subst y.
           destruct (IH s Es) as (s' & Hm & Hk).
           exists s'. split; [constructor; assumption | exact Hk].
        -- intro H. exists (String a s). split; [constructor | exact H].
      * intro H. exists (String a s). split; [constructor | exact H].
Qed.

Lemma run_sound {R : Type} (r : regex) :
  forall (s : string) (caps : captures)
         (k : string -> captures -> option R) (x : R),
    run r s caps k = Some x ->
    exists s' caps', matches r s caps s' caps' /\ k s' caps' = Some x.
Proof.
  induction r as [| c | c g | n c | r1 IH1 r2 IH2 | r IH | name r IH |];
    intros s caps k x H; simpl in H.
  - exists s, caps. split; [constructor | exact H].
  - destruct s as [| a s]; [discriminate |].
    destruct (cclass_matches c a) eqn:Ea; [| discriminate].
    exists s, caps. split; [constructor; assumption | exact H].
  - destruct g.
    + apply (star_greedy_sound c s _ x caps true) in H.
      destruct H as (s' & Hm & Hk). eauto.
    + apply (star_lazy_sound c s _ x caps false) in H.
      destruct H as (s' & Hm & Hk). eauto.
  - apply (upto_sound n c s _ x caps) in H.
    destruct H as (s' & Hm & Hk). eauto.
  - apply IH1 in H. destruct H as (s1 & caps1 & Hm1 & H).
    apply IH2 in H. destruct H as (s2 & caps2 & Hm2 & H).
    exists s2, caps2. split; [econstructor; eassumption | exact H].
  - destruct (run r s caps k) as [y |] eqn:Er.
    + inversion H; subst y. apply IH in Er.
      destruct Er as (s' & caps' & Hm & Hk).
      exists s', caps'. split; [constructor; assumption | exact Hk].
    + exists s, caps. split; [apply M_Opt_none | exact H].
  - apply IH in H. destruct H as (s' & caps' & Hm & Hk).
    eexists _, _. split; [constructor; eassumption | exact Hk].
  - destruct s as [| a [| b s]].
    + exists EmptyString, caps. split; [constructor | exact H].
    + destruct (Ascii.eqb a "010") eqn:Ea; [| discriminate].
      apply Ascii.eqb_eq in Ea. subst a.
      eexists _, caps. split; [constructor | exact H].
    + discriminate.
Qed.

Lemma run_complete {R : Type} (r : regex) (s : string) (caps : captures)
    (s' : string) (caps' : captures) :
  matches r s caps s' caps' ->
  forall k : string -> captures -> option R,
    k s' caps' <> None -> run r s caps k <> None.
Proof.
  intro Hm.
  induction Hm as [ s caps | c a s caps Ha | c g s caps
                  | c g a s s' caps Ha Hm IH | n c s caps
                  | n c a s s' caps Ha Hm IH
                  | r1 r2 s caps s1 caps1 s2 caps2 Hm1 IH1 Hm2 IH2
                  | r s caps s' caps' Hm IH | r s caps
                  | name r s caps s' caps' Hm IH | caps | caps ];
    intros k Hk; simpl.
  - exact Hk.
  - rewrite Ha. exact Hk.
  - destruct g.
    + destruct s as [| a s]; simpl; [exact Hk |].
      destruct (cclass_matches c a); [| exact Hk].
      destruct (star_greedy c s _); [discriminate | exact Hk].
    + destruct s as [| a s]; simpl.
      * destruct (k EmptyString caps); [discriminate | contradiction].
      * destruct (k (String a s) caps); [discriminate | contradiction].
  - specialize (IH k Hk). simpl in IH. destruct g; simpl.
    + rewrite Ha. destruct (star_greedy c s _); [discriminate | contradiction].
    + destruct (k (String a s) caps); [discriminate |].
      rewrite Ha. exact IH.
  - destruct n; simpl; [exact Hk |]. destruct s as [| a s]; [exact Hk |].
    destruct (cclass_matches c a); [| exact Hk].
    destruct (upto n c s _); [discriminate | exact Hk].
  - specialize (IH k Hk). simpl in IH. rewrite Ha.
    destruct (upto n c s _); [discriminate | contradiction].
  - apply IH1. apply IH2. exact Hk.
  - specialize (IH k Hk). destruct (run r s caps k); [discriminate | contradiction].
  - destruct (run r s caps k); [discriminate | exact Hk].
  - apply IH. exact Hk.
  - exact Hk.
  - exact Hk.
Qed.

(** [re.match] succeeds exactly when the pattern matches at the start. *)
Lemma match_some_iff (r : regex) (s : string) :
  match_ r s <> None <-> matches_at_start r s.
Proof.
  unfold match_, matches_at_start. split.
  - intro H. destruct (run r s [] _) as [caps |] eqn:E; [| contradiction].
    apply run_sound in E. destruct E as (s' & caps' & Hm & _). eauto.
  - intros (s' & caps & Hm). eapply run_complete; [exact Hm | discriminate].
Qed.

Lemma match_sound (r : regex) (s : string) (caps : captures) :
  match_ r s = Some caps -> exists s', matches r s [] s' caps.
Proof.
  unfold match_. intro H. apply run_sound in H.
  destruct H as (s' & caps' & Hm & Hk). inversion Hk; subst. eauto.
Qed.

(** ** Strings *)

Lemma append_assoc (a b c : string) :
  ((a ++ b) ++ c = a ++ (b ++ c))%string.
Proof. induction a as [| x a IH]; simpl; [reflexivity | rewrite IH; reflexivity]. Qed.

Lemma append_nil_r (a : string) : (a ++ "")%string = a.
Proof. induction a as [| x a IH]; simpl; [reflexivity | rewrite IH; reflexivity]. Qed.

Lemma length_append (a b : string) :
  String.length (a ++ b) = (String.length a + String.length b)%nat.
Proof. induction a as [| x a IH]; simpl; [reflexivity | rewrite IH; reflexivity]. Qed.

Lemma substring_prefix (w s : string) :
  substring 0 (String.length w) (w ++ s) = w.
Proof.
  induction w as [| x w IH]; simpl.
  - destruct s; reflexivity.
  - rewrite IH. reflexivity.
Qed.

Lemma consumed_append (w s : string) : consumed (w ++ s)%string s = w.
Proof.
  unfold consumed. rewrite length_append.
  replace (String.length w + String.length s - String.length s)%nat
    with (String.length w) by lia.
  apply substring_prefix.
Qed.

(** ** The text and the captures of a match *)

Lemma matches_word (r : regex) (s : string) (caps : captures) (s' : string)
    (caps' : captures) :
  matches r s caps s' caps' -> exists w, s = (w ++ s')%string.
Proof.
  induction 1 as [ s caps | c a s caps Ha | c g s caps
                 | c g a s s' caps Ha Hm IH | n c s caps
                 | n c a s s' caps Ha Hm IH
                 | r1 r2 s caps s1 caps1 s2 caps2 Hm1 IH1 Hm2 IH2
                 | r s caps s' caps' Hm IH | r s caps
                 | name r s caps s' caps' Hm IH | caps | caps ];
    try (exists EmptyString; reflexivity).
  - exists (String a EmptyString). reflexivity.
  - destruct IH as [w ->]. exists (String a w). reflexivity.
  - destruct IH as [w ->]. exists (String a w). reflexivity.
  - destruct IH1 as [w1 ->], IH2 as [w2 ->]. exists (w1 ++ w2)%string.
    apply eq_sym, append_assoc.
  - exact IH.
  - exact IH.
Qed.

Lemma matches_keeps_groups (r : regex) (s : string) (caps : captures)
    (s' : string) (caps' : captures) (name : string) :
  matches r s caps s' caps' ->
  group caps name <> None -> group caps' name <> None.
Proof.
  induction 1; intro Hg; auto.
  simpl. destruct (String.eqb name0 name); [discriminate | auto].
Qed.

Lemma matches_defines (r : regex) (s : string) (caps : captures)
    (s' : string) (caps' : captures) (name : string) :
  matches r s caps s' caps' ->
  defines r name = true -> group caps' name <> None.
Proof.
  induction 1 as [ s caps | c a s caps Ha | c g s caps
                 | c g a s s' caps Ha Hm IH | n c s caps
                 | n c a s s' caps Ha Hm IH
                 | r1 r2 s caps s1 caps1 s2 caps2 Hm1 IH1 Hm2 IH2
                 | r s caps s' caps' Hm IH | r s caps
                 | nm r s caps s' caps' Hm IH | caps | caps ];
    simpl; try discriminate.
  - intro Hd. apply Bool.orb_true_iff in Hd. destruct Hd as [Hd | Hd].
    + eapply matches_keeps_groups; [exact Hm2 | apply IH1; exact Hd].
    + apply IH2; exact Hd.
  - intro Hd. destruct (String.eqb nm name); [discriminate |].
    apply IH. exact Hd.
Qed.

Lemma matches_Cat_snoc (rs : list regex) (r : regex) (s : string)
    (caps : captures) (s' : string) (caps' : captures) :
  matches (Cat (rs ++ [r])) s caps s' caps' ->
  exists s1 caps1,
    matches (Cat rs) s caps s1 caps1 /\ matches r s1 caps1 s' caps'.
Proof.
  revert s caps. induction rs as [| r0 rs IH]; intros s caps H.
  - exists s, caps. split; [constructor | exact H].
  - destruct rs as [| r1 rs].
    + simpl in H. inversion H; subst. eauto.
    + change (Cat ((r0 :: r1 :: rs) ++ [r]))
        with (Seq r0 (Cat ((r1 :: rs) ++ [r]))) in H.
      inversion H as [| | | | | | ? ? ? ? s0 caps0 ? ? Hm0 Hrest | | | | |];
        subst.
      apply IH in Hrest. destruct Hrest as (s1 & caps1 & Hm1 & Hr).
      exists s1, caps1. split; [| exact Hr].
      change (Cat (r0 :: r1 :: rs)) with (Seq r0 (Cat (r1 :: rs))).
      econstructor; eassumption.
Qed.

Lemma matches_star_digits (g : bool) (s : string) (caps : captures)
    (s' : string) (caps' : captures) :
  matches (Star Digit g) s caps s' caps' ->
  caps' = caps /\ exists w, s = (w ++ s')%string /\ all_digits w = true.
Proof.
  intro H. remember (Star Digit g) as r eqn:Er.
  induction H as [ | | c g' s caps | c g' a s s' caps Ha Hm IH
                 | | | | | | | | ]; try discriminate.
  - split; [reflexivity |]. exists EmptyString. split; reflexivity.
  - inversion Er; subst. destruct (IH eq_refl) as [_ (w & -> & Hw)].
    split; [reflexivity |]. exists (String a w). simpl in *.
    rewrite Ha, Hw. split; reflexivity.
Qed.

Lemma matches_request_time (s : string) (caps : captures) (s' : string)
    (caps' : captures) :
  matches request_time_pattern s caps s' caps' ->
  caps' = caps /\ decimal_text (consumed s s').
Proof.
  unfold request_time_pattern, Plus. simpl. intro H.
  inversion H as [| | | | | | ? ? ? ? s1 caps1 ? ? Hplus Hrest | | | | |]; subst.
  inversion Hplus as [| | | | | | ? ? ? ? s0 caps0 ? ? Hd Hds | | | | |]; subst.
  inversion Hd as [| ? a ? ? Ha | | | | | | | | | |]; subst.
  apply matches_star_digits in Hds. destruct Hds as [-> (ds & -> & Hds)].
  inversion Hrest as [| | | | | | ? ? ? ? s2 caps2 ? ? Hopt Hds' | | | | |];
    subst.
  apply matches_star_digits in Hds'. destruct Hds' as [-> (ds' & -> & Hds')].
  simpl in Ha.
  inversion Hopt as [| | | | | | | ? ? ? ? ? Hdot | | | |]; subst.
  - inversion Hdot as [| ? b ? ? Hb | | | | | | | | | |]; subst.
    simpl in Hb. apply Ascii.eqb_eq in Hb. subst b.
    split; [reflexivity |].
    replace (String a (ds ++ String "." (ds' ++ s')))%string
      with ((String a (ds ++ String "." ds')) ++ s')%string
      by (simpl; rewrite append_assoc; reflexivity).
    rewrite consumed_append.
    exists a, ds, ds'. auto.
  - split; [reflexivity |].
    replace (String a (ds ++ (ds' ++ s')))%string
      with ((String a (ds ++ ds')) ++ s')%string
      by (simpl; rewrite append_assoc; reflexivity).
    rewrite consumed_append.
    exists a, ds, ds'. auto.
Qed.

(** ** [float_of_str] on the text of [request_time] *)

Lemma digit_value_nonneg (a : ascii) : is_digit a = true -> 0 <= digit_value a.
Proof.
  unfold is_digit, digit_value. intro H.
  apply Bool.andb_true_iff in H. destruct H as [H _].
  apply Nat.leb_le in H. lia.
Qed.

Lemma read_digits_app (ds rest : string) (acc : Z) (n : nat) :
  all_digits ds = true -> 0 <= acc ->
  exists acc', 0 <= acc' /\
    read_digits (ds ++ rest) acc n
    = read_digits rest acc' (String.length ds + n).
Proof.
  revert acc n. induction ds as [| a ds IH]; intros acc n Hd Hacc;
    cbn [read_digits String.append String.length].
  - exists acc. split; [assumption | reflexivity].
  - simpl in Hd. apply Bool.andb_true_iff in Hd. destruct Hd as [Ha Hd].
    rewrite Ha. pose proof (digit_value_nonneg a Ha).
    destruct (IH (10 * acc + digit_value a) (S n) Hd ltac:(lia))
      as (acc' & Hacc' & E).
    exists acc'. split; [assumption |]. rewrite E. f_equal. lia.
Qed.

Lemma read_digits_all (ds : string) (acc : Z) (n : nat) :
  all_digits ds = true -> 0 <= acc ->
  exists acc', 0 <= acc' /\
    read_digits ds acc n = (acc', (String.length ds + n)%nat, EmptyString).
Proof.
  intros Hd Hacc.
  destruct (read_digits_app ds EmptyString acc n Hd Hacc) as (acc' & H & E).
  rewrite append_nil_r in E. exists acc'. split; [assumption | exact E].
Qed.

Lemma all_digits_append (a b : string) :
  all_digits a = true -> all_digits b = true -> all_digits (a ++ b) = true.
Proof.
  induction a as [| x a IH]; simpl; intros Ha Hb; [assumption |].
  apply Bool.andb_true_iff in Ha. destruct Ha as [Hx Ha].
  rewrite Hx, IH; auto.
Qed.

Lemma float_of_str_final (num : Z) (nf : nat) :
  0 <= num ->
  exists f,
    match num with
    | Z.pos p => Ok (of_ratio false p (Z.to_pos (10 ^ Z.of_nat nf)))
    | _ => Ok zero
    end = Ok f /\ nonneg f = true.
Proof.
  intro H. destruct num as [| p | p]; try lia.
  - exists zero. split; reflexivity.
  - eexists. split; [reflexivity | apply FloatFacts.of_ratio_nonneg].
Qed.

Lemma float_of_str_decimal (s : string) :
  decimal_text s -> exists f, float_of_str s = Ok f /\ nonneg f = true.
Proof.
  intros (a & ds & ds' & Ha & Hds & Hds' & [-> | ->]); unfold float_of_str.
  - cbn [read_digits]. rewrite Ha.
    pose proof (digit_value_nonneg a Ha) as Hv.
    destruct (read_digits_all (ds ++ ds') (10 * 0 + digit_value a) 1
                (all_digits_append _ _ Hds Hds') ltac:(lia))
      as (i & Hi & E).
    rewrite E. rewrite Nat.add_comm. cbn [Nat.add].
    cbn [read_digits].
    apply float_of_str_final. assumption.
  - cbn [read_digits]. rewrite Ha.
    pose proof (digit_value_nonneg a Ha) as Hv.
    destruct (read_digits_app ds (String "." ds') (10 * 0 + digit_value a) 1
                Hds ltac:(lia)) as (i & Hi & E).
    rewrite E. cbn [read_digits].
    replace (is_digit ".") with false by reflexivity.
    rewrite Nat.add_comm. cbn [Nat.add].
    replace (Ascii.eqb "." ".") with true by reflexivity.
    destruct (read_digits_all ds' i 0 Hds' Hi) as (num & Hnum & E').
    rewrite E'. apply float_of_str_final. assumption.
Qed.

(** ** [process_line] *)

(** The captures of a match of the line pattern hold a path and a request
    time that reads as a decimal number. *)
Lemma matches_line_captures (s s' : string) (caps : captures) :
  matches NGINX_LOG_FORMAT_REGEXP s [] s' caps ->
  exists u t,
    group caps "path" = Some u /\ group caps "request_time" = Some t
    /\ decimal_text t.
Proof.
  assert (Hdef : defines (Cat line_fields) "path" = true) by reflexivity.
  unfold NGINX_LOG_FORMAT_REGEXP. intro H.
  apply matches_Cat_snoc in H. destruct H as (s1 & caps1 & Hpre & Hgrp).
  inversion Hgrp as [| | | | | | | | | ? ? ? ? ? caps2 Hrt | |]; subst.
  apply matches_request_time in Hrt. destruct Hrt as [-> Hdec].
  pose proof (matches_defines _ _ _ _ _ "path" Hpre Hdef) as Hpath.
  simpl. destruct (group caps1 "path") as [u |]; [| contradiction].
  eauto.
Qed.

End ReFacts.

(** Every line gives [None] or a record whose request time is [>= 0];
    nothing is raised. *)
Lemma process_line_cases (line : string) :
  (process_line line = Ok None
   /\ ~ matches_at_start NGINX_LOG_FORMAT_REGEXP line)
  \/ (exists u t,
        process_line line = Ok (Some (u, t)) /\ nonneg t = true
        /\ matches_at_start NGINX_LOG_FORMAT_REGEXP line).
Proof.
  unfold process_line.
  destruct (match_ NGINX_LOG_FORMAT_REGEXP line) as [caps |] eqn:E.
  - right.
    assert (Hm : matches_at_start NGINX_LOG_FORMAT_REGEXP line)
      by (apply ReFacts.match_some_iff; congruence).
    apply ReFacts.match_sound in E. destruct E as (s' & E).
    apply ReFacts.matches_line_captures in E.
    destruct E as (u & t & -> & -> & Hdec).
    apply ReFacts.float_of_str_decimal in Hdec.
    destruct Hdec as (f & -> & Hf). simpl. eauto.
  - left. split; [reflexivity |].
    intro Hm. apply ReFacts.match_some_iff in Hm. contradiction.
Qed.

(** * The enrichment loop *)

Module Enrich.

Lemma enrich_all_Forall2 (impl : Py.sum_impl) (all_count : Z)
    (all_time_sum : float) (items : stats_dict) (values : list entry) :
  enrich_all impl all_count all_time_sum items = Ok values ->
  Forall2 (fun item e => enrich impl all_count all_time_sum item = Ok e)
    items values.
Proof.
  revert values. induction items as [| item items IH]; intros values H.
  - inversion H. constructor.
  - cbn [enrich_all] in H.
    apply Raises.bind_ok in H. destruct H as (e & He & H).
    apply Raises.bind_ok in H. destruct H as (es & Hes & H).
    inversion H; subst. constructor; [exact He | apply IH; exact Hes].
Qed.

(** The fields of one entry. *)
Lemma enrich_fields (impl : Py.sum_impl) (all_count : Z)
    (all_time_sum : float) (u : string) (data : list float) (e : entry) :
  enrich impl all_count all_time_sum (u, data) = Ok e ->
  url e = u
  /\ count e = Z.of_nat (List.length data)
  /\ (q <- int_truediv (count e) all_count ;; percent q) = Ok (count_perc e)
  /\ round (Py.sum impl data) 3 = Ok (time_sum e)
  /\ (q <- truediv (Py.sum impl data) all_time_sum ;; percent q)
     = Ok (time_perc e)
  /\ (q <- truediv_int (Py.sum impl data) (count e) ;; round q 3)
     = Ok (time_avg e)
  /\ (m <- Py.max data ;; round m 3) = Ok (time_max e)
  /\ (m <- Py.median data ;; round m 3) = Ok (time_med e).
Proof.
  unfold enrich, percent. intro H.
  repeat match type of H with
  | bind ?r _ = Ok _ =>
      let x := fresh "x" in let E := fresh "E" in
      apply Raises.bind_ok in H; destruct H as (x & E & H)
  end.
  injection H as <-. cbn [url count count_perc time_sum time_perc time_avg
                          time_max time_med].
  repeat split;
    repeat match goal with
    | E : ?r = Ok _ |- context [?r] => rewrite E; cbn [bind]
    end; reflexivity.
Qed.

Lemma fold_add_nonneg (data : list float) (acc : float) :
  nonneg acc = true -> Forall (fun x => nonneg x = true) data ->
  nonneg (fold_left add data acc) = true.
Proof.
  revert acc. induction data as [| x data IH]; intros acc Hacc Hd; simpl.
  - exact Hacc.
  - inversion Hd; subst. apply IH; [| assumption].
    apply FloatFacts.add_nonneg; assumption.
Qed.

Lemma cs_add_fst (data : list float) (hi lo : float) :
  fst (fold_left Py.cs_add data (hi, lo)) = fold_left add data hi.
Proof.
  revert hi lo. induction data as [| x data IH]; intros hi lo; simpl.
  - reflexivity.
  - destruct (leb (abs x) (abs hi)); apply IH.
Qed.

(** The sum of request times that are [>= 0] is not a NaN. *)
Lemma sum_not_nan (impl : Py.sum_impl) (data : list float) :
  Forall (fun x => nonneg x = true) data ->
  is_nan (Py.sum impl data) = false.
Proof.
  intro Hd. destruct impl; unfold Py.sum.
  - apply FloatFacts.nonneg_not_nan, fold_add_nonneg; [reflexivity | exact Hd].
  - destruct data as [| x data]; [reflexivity |].
    inversion Hd; subst.
    pose proof (cs_add_fst data (add zero x) zero) as Hfst.
    destruct (fold_left Py.cs_add data (add zero x, zero)) as [hi lo].
    cbn [fst] in Hfst. subst hi.
    assert (Hhi : nonneg (fold_left add data (add zero x)) = true).
    { apply fold_add_nonneg; [| assumption].
      apply FloatFacts.add_nonneg; [reflexivity | assumption]. }
    unfold Py.cs_to_double.
    destruct (truthy lo && is_finite lo) eqn:E.
    + apply Bool.andb_true_iff in E. destruct E as [_ E].
      apply FloatFacts.add_finite_not_nan;
        [apply FloatFacts.nonneg_not_nan |]; assumption.
    + apply FloatFacts.nonneg_not_nan. assumption.
Qed.

Lemma round_not_nan (x y : float) (n : Z) :
  is_nan x = false -> round x n = Ok y -> is_nan y = false.
Proof.
  unfold round. destruct x as [s | s | | s m e]; try discriminate;
    intros _ H; try (inversion H; reflexivity).
  destruct (match e with Z.neg _ => _ | _ => _ end) as [| q | q];
    try (inversion H; reflexivity).
  destruct (10 ^ n) as [| p | p]; try (inversion H; reflexivity).
  destruct (FloatFacts.of_ratio_cases s q p) as [E | [(m' & e' & E) | E]];
    rewrite E in H; simpl in H; inversion H; reflexivity.
Qed.

(** A key with its list is found by [get]. *)
Lemma dict_get_In {V : Type} (d : list (string * V)) (u : string) (v : V) :
  NoDup (map fst d) -> In (u, v) d -> dict_get d u = Some v.
Proof.
  induction d as [| [k w] d IH]; simpl; intros Hnd Hin; [contradiction |].
  inversion Hnd as [| ? ? Hk Hnd']; subst.
  destruct Hin as [Hin | Hin].
  - inversion Hin; subst. rewrite String.eqb_refl. reflexivity.
  - destruct (String.eqb k u) eqn:E.
    + apply String.eqb_eq in E. subst k. exfalso. apply Hk.
      apply in_map_iff. exists (u, v). split; [reflexivity | assumption].
    + apply IH; assumption.
Qed.

Lemma dict_get_Some_In {V : Type} (d : list (string * V)) (u : string) (v : V) :
  dict_get d u = Some v -> In (u, v) d.
Proof.
  induction d as [| [k w] d IH]; simpl; [discriminate |].
  destruct (String.eqb k u) eqn:E.
  - apply String.eqb_eq in E. subst k. intro H. inversion H; subst. auto.
  - intro H. right. apply IH. exact H.
Qed.

(** The items of [statistics] are the urls with their samples. *)
Lemma statistics_items (stream : list parsed_line) (u : string)
    (data : list float) :
  In (u, data) (statistics (loop stream)) <->
  data = samples stream u /\ data <> [].
Proof.
  destruct (Loop.loop_state_spec stream) as (_ & _ & _ & Ha).
  destruct (Loop.loop_statistics_wf stream) as [Hnd Hne].
  specialize (Ha u). unfold accumulator in Ha. split.
  - intro Hin. rewrite (dict_get_In _ _ _ Hnd Hin) in Ha.
    split; [exact Ha |].
    rewrite Forall_forall in Hne. apply (Hne (u, data) Hin).
  - intros [-> Hd].
    destruct (dict_get (statistics (loop stream)) u) as [v |] eqn:E.
    + subst v. apply dict_get_Some_In. exact E.
    + symmetry in Ha. contradiction.
Qed.

Lemma samples_nonneg (stream : list parsed_line) (u : string) :
  (forall v t, In (v, t) (records stream) -> nonneg t = true) ->
  Forall (fun x => nonneg x = true) (samples stream u).
Proof.
  intro H. unfold samples. rewrite Forall_forall. intros x Hx.
  apply in_map_iff in Hx. destruct Hx as ([v t] & <- & Hin).
  apply filter_In in Hin. destruct Hin as [Hin _]. eapply H. exact Hin.
Qed.

(** The entries of a result, all at once. *)
Lemma calculate_statistics_entries (impl : Py.sum_impl)
    (stream : list parsed_line) (errors_limit : option float)
    (values : list entry) :
  calculate_statistics impl stream errors_limit = Ok values ->
  Forall2 (fun item e =>
             enrich impl (parsed_lines stream) (total_latency stream) item
             = Ok e)
    (statistics (loop stream)) values.
Proof.
  unfold calculate_statistics. intro H.
  apply Raises.bind_ok in H. destruct H as ([] & _ & H).
  destruct (Loop.loop_state_spec stream) as (_ & Hp & Hl & _).
  rewrite Hp, Hl in H. apply enrich_all_Forall2. exact H.
Qed.

Lemma Forall2_In_r {A B : Type} (R : A -> B -> Prop) (l : list A)
    (l' : list B) (b : B) :
  Forall2 R l l' -> In b l' -> exists a, In a l /\ R a b.
Proof.
  induction 1 as [| a0 b0 l l' Hab Hrest IH]; simpl; [contradiction |].
  intros [<- | Hin]; [eauto |].
  destruct (IH Hin) as (a & Ha & Hr). eauto.
Qed.

Lemma Forall2_In_l {A B : Type} (R : A -> B -> Prop) (l : list A)
    (l' : list B) (a : A) :
  Forall2 R l l' -> In a l -> exists b, In b l' /\ R a b.
Proof.
  induction 1 as [| a0 b0 l l' Hab Hrest IH]; simpl; [contradiction |].
  intros [<- | Hin]; [eauto |].
  destruct (IH Hin) as (b & Hb & Hr). eauto.
Qed.

(** The key of the ranking is never a NaN. *)
Lemma time_sum_not_nan (impl : Py.sum_impl) (stream : list parsed_line)
    (errors_limit : option float) (values : list entry) :
  (forall v t, In (v, t) (records stream) -> nonneg t = true) ->
  calculate_statistics impl stream errors_limit = Ok values ->
  Forall (fun e => is_nan (time_sum e) = false) values.
Proof.
  intros Hnn H. apply calculate_statistics_entries in H.
  rewrite Forall_forall. intros e He.
  destruct (Forall2_In_r _ _ _ _ H He) as ([u data] & Hin & Hen).
  apply statistics_items in Hin. destruct Hin as [-> _].
  apply enrich_fields in Hen. destruct Hen as (_ & _ & _ & Hs & _).
  eapply round_not_nan; [| exact Hs].
  apply sum_not_nan, samples_nonneg, Hnn.
Qed.

(** [parse_log] yields request times that are [>= 0]. *)
Lemma parse_log_nonneg (lines : list string) (stream : list parsed_line) :
  parse_log lines = Ok stream ->
  forall v t, In (v, t) (records stream) -> nonneg t = true.
Proof.
  revert stream. induction lines as [| line lines IH]; intros stream H.
  - inversion H; subst. intros v t [].
  - cbn [parse_log] in H.
    apply Raises.bind_ok in H. destruct H as (p & Hp & H).
    apply Raises.bind_ok in H. destruct H as (ps & Hps & H).
    inversion H; subst. intros v t Hin.
    destruct p as [[u0 t0] |]; simpl in Hin.
    + destruct Hin as [Hin | Hin]; [| eapply IH; eauto].
      inversion Hin; subst.
      destruct (process_line_cases line) as [[E _] | (u & t' & E & Hn & _)];
        rewrite E in Hp; inversion Hp; subst. exact Hn.
    + eapply IH; eauto.
Qed.

(** [parse_log] never raises. *)
Lemma parse_log_total (lines : list string) :
  exists stream, parse_log lines = Ok stream
                 /\ List.length stream = List.length lines.
Proof.
  induction lines as [| line lines (stream & IH & Hl)]; simpl.
  - exists []. split; reflexivity.
  - destruct (process_line_cases line) as [[E _] | (u & t & E & _)];
      rewrite E, IH; simpl; eexists; split; try reflexivity; simpl; lia.
Qed.

End Enrich.

(** * [max] and [statistics.median] on floats that are not NaN *)

Module Stats.

Lemma fold_max_spec (rest : list float) (m0 : float) :
  is_nan m0 = false -> Forall (fun x => is_nan x = false) rest ->
  let r := fold_left (fun m y => if ltb m y then y else m) rest m0 in
  (r = m0 \/ In r rest) /\ ltb r m0 = false
  /\ forall y, In y rest -> ltb r y = false.
Proof.
  revert m0. induction rest as [| y rest IH]; intros m0 Hm0 Hrest; simpl.
  - repeat split; auto.
    + destruct m0; try discriminate; unfold ltb, SFltb; simpl;
        try (destruct s); try reflexivity.
      rewrite Z.compare_refl, Pos.compare_cont_refl. reflexivity.
      rewrite Z.compare_refl, Pos.compare_cont_refl. reflexivity.
    + intros y [].
  - inversion Hrest as [| ? ? Hy Hrest']; subst.
    set (m1 := if ltb m0 y then y else m0).
    assert (Hm1 : is_nan m1 = false) by (subst m1; destruct (ltb m0 y); assumption).
    specialize (IH m1 Hm1 Hrest'). cbv zeta in IH.
    set (r := fold_left (fun m y0 => if ltb m y0 then y0 else m) rest m1) in *.
    destruct IH as (Hin & Hr1 & Hall).
    assert (Hr : is_nan r = false).
    { destruct Hin as [-> | Hin]; [assumption |].
      rewrite Forall_forall in Hrest'. apply Hrest'. assumption. }
    subst m1. destruct (ltb m0 y) eqn:E.
    + repeat split.
      * destruct Hin as [-> | Hin]; auto.
      * clear Hall Hin. Order.by_rank.
      * intros z [<- | Hz]; [assumption | apply Hall; assumption].
    + repeat split.
      * destruct Hin as [-> | Hin]; auto.
      * assumption.
      * intros z [<- | Hz]; [| apply Hall; assumption].
        clear Hall Hin. Order.by_rank.
Qed.

Lemma max_spec (data : list float) (m : float) :
  Forall (fun x => is_nan x = false) data ->
  Py.max data = Ok m -> is_maximum m data.
Proof.
  intros Hd H. destruct data as [| x rest]; [discriminate |].
  simpl in H. inversion H as [Hm]. inversion Hd as [| ? ? Hx Hrest]; subst.
  destruct (fold_max_spec rest x Hx Hrest) as (Hin & Hr & Hall).
  split.
  - destruct Hin as [-> | Hin]; [left; reflexivity | right; assumption].
  - intros y [<- | Hy]; [assumption | apply Hall; assumption].
Qed.

Lemma median_spec (data : list float) (m : float) :
  Forall (fun x => is_nan x = false) data ->
  Py.median data = Ok m -> is_median m data.
Proof.
  intros Hd H. unfold Py.median, Py.sorted in H.
  rewrite Raises.sort_length in H.
  exists (Py.sort ltb data). split; [apply Order.sort_perm |].
  split.
  - apply (Order.sort_sorted ltb (fun x => is_nan x = false)).
    + intros a b Ha Hb. apply Order.ltb_asym; assumption.
    + intros a b c Ha Hb Hc. apply Order.ltb_negtrans; assumption.
    + assumption.
  - cbv zeta. destruct (List.length data) as [| n] eqn:En; [discriminate |].
    destruct (Nat.odd (S n)); [inversion H; reflexivity | exact H].
Qed.

Lemma nonneg_Forall_not_nan (data : list float) :
  Forall (fun x => nonneg x = true) data ->
  Forall (fun x => is_nan x = false) data.
Proof.
  apply Forall_impl. intros x. apply FloatFacts.nonneg_not_nan.
Qed.

End Stats.

(** * The report entries *)

(** C3. When [calculate_statistics] returns, every url with at least one
    sample has exactly one entry, and its fields are: [count], the number of
    its samples; [count_perc], [round(count / parsed_lines * 100, 3)];
    [time_sum], [round(sum, 3)] for the sum of its samples; [time_perc],
    [round(sum / total_latency * 100, 3)] on the unrounded sum; [time_avg],
    [round(sum / count, 3)]; [time_max], a greatest sample, rounded;
    [time_med], the median of the samples, rounded. Each quotient is rounded
    to binary64 before it is multiplied by 100. Request times are [>= 0],
    as [process_line] produces them. *)
Theorem entry_of_every_sampled_url (impl : Py.sum_impl)
    (stream : list parsed_line) (errors_limit : option float)
    (values : list entry)
    (Hnonneg : forall v t, In (v, t) (records stream) -> nonneg t = true)
    (Hok : calculate_statistics impl stream errors_limit = Ok values) :
  (forall e, In e values -> samples stream (url e) <> [])
  /\ forall u, samples stream u <> [] ->
     exists e,
       In e values /\ url e = u
       /\ (forall e', In e' values -> url e' = u -> e' = e)
       /\ count e = Z.of_nat (List.length (samples stream u))
       /\ (q <- int_truediv (count e) (parsed_lines stream) ;; percent q)
          = Ok (count_perc e)
       /\ round (Py.sum impl (samples stream u)) 3 = Ok (time_sum e)
       /\ (q <- truediv (Py.sum impl (samples stream u))
                  (total_latency stream) ;; percent q)
          = Ok (time_perc e)
       /\ (q <- truediv_int (Py.sum impl (samples stream u)) (count e) ;;
           round q 3)
          = Ok (time_avg e)
       /\ (exists m, is_maximum m (samples stream u)
                     /\ round m 3 = Ok (time_max e))
       /\ (exists m, is_median m (samples stream u)
                     /\ round m 3 = Ok (time_med e)).
Proof.
  pose proof (Enrich.calculate_statistics_entries _ _ _ _ Hok) as Hent.
  split.
  - intros e He.
    destruct (Enrich.Forall2_In_r _ _ _ _ Hent He) as ([u data] & Hin & Hen).
    apply Enrich.statistics_items in Hin. destruct Hin as [-> Hd].
    apply Enrich.enrich_fields in Hen. destruct Hen as (-> & _). exact Hd.
  - intros u Hu.
    assert (Hin : In (u, samples stream u) (statistics (loop stream)))
      by (apply Enrich.statistics_items; split; [reflexivity | assumption]).
    destruct (Enrich.Forall2_In_l _ _ _ _ Hent Hin) as (e & He & Hen).
    exists e. split; [exact He |].
    pose proof (Enrich.enrich_fields _ _ _ _ _ _ Hen)
      as (Hurl & Hcount & Hcp & Hts & Htp & Hta & Htmax & Htmed).
    pose proof (Stats.nonneg_Forall_not_nan _
                  (Enrich.samples_nonneg stream u Hnonneg)) as Hnn.
    split; [exact Hurl |]. split.
    { intros e' He' Hurl'.
      destruct (Enrich.Forall2_In_r _ _ _ _ Hent He')
        as ([u' data'] & Hin' & Hen').
      pose proof (Enrich.enrich_fields _ _ _ _ _ _ Hen') as (Hu' & _).
      assert (u' = u) by congruence. subst u'.
      apply Enrich.statistics_items in Hin'. destruct Hin' as [-> _].
      congruence. }
    repeat split; try assumption.
    + apply Raises.bind_ok in Htmax. destruct Htmax as (m & Hm & Hr).
      exists m. split; [apply Stats.max_spec; assumption | exact Hr].
    + apply Raises.bind_ok in Htmed. destruct Htmed as (m & Hm & Hr).
      exists m. split; [apply Stats.median_spec; assumption | exact Hr].
Qed.

Lemma entry_of_every_sampled_url_witness :
  let stream :=
    [Some ("/a", decimal "0.1"); None; Some ("/b", decimal "0.2");
     Some ("/a", decimal "0.3")] in
  exists values,
    calculate_statistics Py.SumLeftFold stream None = Ok values
    /\ exists e, In e values /\ url e = "/a"
                 /\ round (Py.sum Py.SumLeftFold (samples stream "/a")) 3
                    = Ok (time_sum e).
Proof.
  eexists. split; [vm_compute; reflexivity |].
  destruct (proj2 (entry_of_every_sampled_url Py.SumLeftFold
              [Some ("/a", decimal "0.1"); None; Some ("/b", decimal "0.2");
               Some ("/a", decimal "0.3")] None _
              ltac:(intros v t H; vm_compute in H;
                    repeat (destruct H as [H | H];
                            [inversion H; reflexivity |]);
                    contradiction)
              ltac:(vm_compute; reflexivity))
            "/a" ltac:(vm_compute; discriminate))
    as (e & Hin & Hurl & _ & _ & _ & Hts & _).
  exists e. split; [exact Hin |]. split; [exact Hurl | exact Hts].
Defined.

(** The description words [count_perc] as [100 * count / parsed_lines]
    rounded to three places. For 23 records of 320 that is 7.1875, rounded
    to 7.188; the code divides first, multiplies the rounded quotient by 100
    and obtains 7.187. *)
Lemma count_share_as_stated_differs :
  let stream :=
    repeat (Some ("/a", decimal "0.1")) 23
    ++ repeat (Some ("/b", decimal "0.1")) 297 in
  exists ea eb,
    calculate_statistics Py.SumLeftFold stream None = Ok [ea; eb]
    /\ count ea = 23 /\ parsed_lines stream = 320
    /\ count_perc ea = decimal "7.187"
    /\ count_share_as_stated (count ea) (parsed_lines stream)
       = Ok (decimal "7.188")
    /\ Ok (count_perc ea)
       <> count_share_as_stated (count ea) (parsed_lines stream).
Proof.
  eexists _, _. split; [vm_compute; reflexivity |].
  repeat split; try (vm_compute; reflexivity).
  vm_compute. discriminate.
Qed.

(** * The ranking *)

(** C2. The entries handed to the renderer are the values of the result in
    descending order of their [time_sum] field, which is the sum rounded to
    three places; entries whose rounded sums are equal keep the iteration
    order of the dictionary; the list is then cut to its first
    [REPORT_SIZE] entries. *)
Theorem top_statistics_ranked_by_reported_sum (impl : Py.sum_impl)
    (lines : list string) (stream : list parsed_line)
    (errors_limit : option float) (values : list entry) (report_size : Z)
    (Hparse : parse_log lines = Ok stream)
    (Hok : calculate_statistics impl stream errors_limit = Ok values) :
  let ranked := Py.sorted by_time_sum values true in
  report impl lines errors_limit report_size
  = Ok (top_statistics values report_size)
  /\ (0 <= report_size ->
      top_statistics values report_size
      = firstn (Z.to_nat report_size) ranked)
  /\ top_statistics values DEFAULT_REPORT_SIZE = firstn 10 ranked
  /\ Permutation ranked values
  /\ StronglySorted (fun a b => ltb (time_sum a) (time_sum b) = false) ranked
  /\ forall k, In k values ->
       filter (same_key by_time_sum k) ranked
       = filter (same_key by_time_sum k) values.
Proof.
  intro ranked.
  pose proof (Enrich.time_sum_not_nan impl stream errors_limit values
                (Enrich.parse_log_nonneg lines stream Hparse) Hok) as Hnn.
  split; [unfold report; rewrite Hparse; simpl; rewrite Hok; reflexivity |].
  split.
  { intro Hn. unfold top_statistics, Py.slice_to.
    destruct (Z.ltb_spec report_size 0); [lia | reflexivity]. }
  split; [reflexivity |].
  split; [apply Order.sorted_perm |].
  split.
  - apply (Order.sorted_reverse_descending by_time_sum
             (fun e => is_nan (time_sum e) = false)); [| | exact Hnn].
    + intros a b Ha Hb. apply Order.ltb_asym; assumption.
    + intros a b c Ha Hb Hc. apply Order.ltb_negtrans; assumption.
  - intros k Hk.
    apply (Order.sorted_stable by_time_sum
             (fun e => is_nan (time_sum e) = false)); [| | exact Hnn].
    + intros a b c Ha Hb Hc. apply Order.ltb_le_trans; assumption.
    + rewrite Forall_forall in Hnn. apply Hnn. exact Hk.
Qed.

Lemma top_statistics_ranked_by_reported_sum_witness :
  let lines :=
    [log_line "/a" "0.1"; log_line "/b" "0.5"; log_line "/a" "0.3"] in
  exists stream values,
    parse_log lines = Ok stream
    /\ calculate_statistics Py.SumLeftFold stream None = Ok values
    /\ StronglySorted (fun a b => ltb (time_sum a) (time_sum b) = false)
         (Py.sorted by_time_sum values true).
Proof.
  eexists _, _. split; [vm_compute; reflexivity |].
  split; [vm_compute; reflexivity |].
  match goal with
  | |- StronglySorted _ (Py.sorted _ ?v _) =>
      pose proof (top_statistics_ranked_by_reported_sum Py.SumLeftFold
                    [log_line "/a" "0.1"; log_line "/b" "0.5";
                     log_line "/a" "0.3"]
                    _ None v 10
                    ltac:(vm_compute; reflexivity)
                    ltac:(vm_compute; reflexivity)) as H
  end.
  apply H.
Defined.

(** The description ranks by the unrounded sum. Two urls with the sums
    0.1001 and 0.1004 both report 0.1, so they stay in the order of the
    dictionary, the smaller unrounded sum first. *)
Lemma ranking_by_unrounded_sum_fails :
  let lines := [log_line "/a" "0.1001"; log_line "/b" "0.1004"] in
  exists stream top,
    parse_log lines = Ok stream
    /\ report Py.SumLeftFold lines None DEFAULT_REPORT_SIZE = Ok top
    /\ map url top = ["/a"; "/b"]
    /\ ~ ranked_by_unrounded_sum Py.SumLeftFold stream top.
Proof.
  eexists _, _. split; [vm_compute; reflexivity |].
  split; [vm_compute; reflexivity |].
  split; [reflexivity |].
  intro H. inversion H as [| a l _ Hall]; subst.
  inversion Hall as [| b l' Hab _]; subst.
  vm_compute in Hab. discriminate.
Qed.

(** * The end-to-end example *)

(** C4. The three lines with /a at 0.1 and 0.3 seconds and /b at 0.2
    seconds, in any order, with [REPORT_SIZE] 10 and no errors limit, give
    two entries, /a first: /a with count 2, 66.667 percent of the requests,
    a sum of 0.4, a mean of 0.2, a maximum of 0.3 and a median of 0.2; /b
    with count 1, 33.333 percent of the requests and a sum of 0.2. *)
Theorem three_line_report (impl : Py.sum_impl) (lines : list string) :
  Permutation
    [log_line "/a" "0.1"; log_line "/a" "0.3"; log_line "/b" "0.2"] lines ->
  exists ea eb,
    report impl lines None 10 = Ok [ea; eb]
    /\ url ea = "/a" /\ count ea = 2
    /\ count_perc ea = decimal "66.667"
    /\ time_sum ea = decimal "0.4"
    /\ time_avg ea = decimal "0.2"
    /\ time_max ea = decimal "0.3"
    /\ time_med ea = decimal "0.2"
    /\ url eb = "/b" /\ count eb = 1
    /\ count_perc eb = decimal "33.333"
    /\ time_sum eb = decimal "0.2".
Proof.
  intro Hperm.
  pose proof (Permutation_length Hperm) as Hlen.
  destruct lines as [| x [| y [| z [| w lines]]]]; try discriminate Hlen.
  assert (Hx : In x [log_line "/a" "0.1"; log_line "/a" "0.3";
                     log_line "/b" "0.2"])
    by (eapply Permutation_in; [symmetry; exact Hperm | simpl; auto]).
  assert (Hy : In y [log_line "/a" "0.1"; log_line "/a" "0.3";
                     log_line "/b" "0.2"])
    by (eapply Permutation_in; [symmetry; exact Hperm | simpl; auto]).
  assert (Hz : In z [log_line "/a" "0.1"; log_line "/a" "0.3";
                     log_line "/b" "0.2"])
    by (eapply Permutation_in; [symmetry; exact Hperm | simpl; auto]).
  assert (H1 : In (log_line "/a" "0.1") [x; y; z])
    by (eapply Permutation_in; [exact Hperm | simpl; auto]).
  assert (H2 : In (log_line "/a" "0.3") [x; y; z])
    by (eapply Permutation_in; [exact Hperm | simpl; auto]).
  assert (H3 : In (log_line "/b" "0.2") [x; y; z])
    by (eapply Permutation_in; [exact Hperm | simpl; auto]).
  clear Hperm Hlen.
  destruct Hx as [<- | [<- | [<- | []]]];
    destruct Hy as [<- | [<- | [<- | []]]];
    destruct Hz as [<- | [<- | [<- | []]]];
    try (exfalso; clear - H1; vm_compute in H1;
         repeat (destruct H1 as [H1 | H1]; [discriminate H1 |]); exact H1);
    try (exfalso; clear - H2; vm_compute in H2;
         repeat (destruct H2 as [H2 | H2]; [discriminate H2 |]); exact H2);
    try (exfalso; clear - H3; vm_compute in H3;
         repeat (destruct H3 as [H3 | H3]; [discriminate H3 |]); exact H3);
    clear H1 H2 H3;
    destruct impl;
    (eexists _, _; split; [vm_compute; reflexivity |];
     repeat split; vm_compute; reflexivity).
Qed.

Lemma three_line_report_witness :
  exists ea eb,
    report Py.SumCompensated
      [log_line "/b" "0.2"; log_line "/a" "0.3"; log_line "/a" "0.1"]
      None 10 = Ok [ea; eb]
    /\ url ea = "/a" /\ count ea = 2
    /\ count_perc ea = decimal "66.667"
    /\ time_sum ea = decimal "0.4"
    /\ time_avg ea = decimal "0.2"
    /\ time_max ea = decimal "0.3"
    /\ time_med ea = decimal "0.2"
    /\ url eb = "/b" /\ count eb = 1
    /\ count_perc eb = decimal "33.333"
    /\ time_sum eb = decimal "0.2".
Proof.
  apply three_line_report.
  apply Permutation_sym.
  apply perm_trans with
    [log_line "/a" "0.3"; log_line "/b" "0.2"; log_line "/a" "0.1"].
  - apply perm_swap.
  - apply perm_trans with
      [log_line "/a" "0.3"; log_line "/a" "0.1"; log_line "/b" "0.2"].
    + apply perm_skip. apply perm_swap.
    + apply perm_swap.
Defined.

(** * [process_line] *)

(** The line whose request is [GET] followed by a blank and nothing else
    gives a record with the empty path: whatever lines count as valid,
    either a valid line has an empty path or an invalid line gives a
    record. *)
Lemma parser_contract_fails : ~ exists valid, parser_contract valid.
Proof.
  intros (valid & Hvalid & Hinvalid).
  set (line :=
    ("1.1.1.1 - - [t] " ++ quoted "GET " ++ " 200 1 " ++ quoted "-" ++ " "
     ++ quoted "-" ++ " " ++ quoted "-" ++ " " ++ quoted "-" ++ " "
     ++ quoted "-" ++ " 0.1")%string).
  assert (E : process_line line = Ok (Some (EmptyString, decimal "0.1")))
    by (vm_compute; reflexivity).
  assert (Hnv : ~ valid line).
  { intro Hv. destruct (Hvalid line Hv) as (path & d & Hp & Hne & _).
    rewrite E in Hp. inversion Hp; subst. apply Hne. reflexivity. }
  specialize (Hinvalid line Hnv). rewrite E in Hinvalid. discriminate.
Qed.

(** * [find_last_log_file] on a name that ends in a newline *)

(** C6. The pattern ends in [$], which also matches before a newline at
    the end of the name: a directory whose only entry is
    [nginx-access-ui.log-20230101] followed by a newline gives that entry,
    though its name is not [nginx-access-ui.log-] with eight digits and an
    optional [.gz]. *)
Theorem find_last_log_file_accepts_trailing_newline :
  let name := ("nginx-access-ui.log-20230101" ++ newline)%string in
  name <> "nginx-access-ui.log-20230101"
  /\ name <> "nginx-access-ui.log-20230101.gz"
  /\ find_last_log_file true [name] "./logs"
     = Some {| file_path := ("./logs/nginx-access-ui.log-20230101"
                             ++ newline)%string;
               log_date := {| year := 2023; month := 1; day := 1 |} |}.
Proof.
  cbv zeta. split; [vm_compute; discriminate |].
  split; [vm_compute; discriminate | vm_compute; reflexivity].
Qed.

(** * Rounding errors of the binary64 operations *)

Module Rounding.

Import FloatFacts.

Lemma pow2_pos (k : Z) : 0 <= k -> 0 < 2 ^ k.
Proof. intro H. apply Z.pow_pos_nonneg; lia. Qed.

Lemma pow2_split (a b : Z) : 0 <= a -> 0 <= b -> 2 ^ (a + b) = 2 ^ a * 2 ^ b.
Proof. intros. apply Z.pow_add_r; assumption. Qed.

Lemma div_pow2_bounds (m n : Z) :
  0 <= m -> 0 <= n -> m / 2 ^ n * 2 ^ n <= m < (m / 2 ^ n + 1) * 2 ^ n.
Proof.
  intros Hm Hn. pose proof (pow2_pos n Hn) as Hp.
  pose proof (Z.div_mod m (2 ^ n) ltac:(lia)) as Hdm.
  pose proof (Z.mod_pos_bound m (2 ^ n) Hp) as Hmod.
  nia.
Qed.

(** A mantissa of at least 53 bits, whose value is in the normal range, is
    rounded to a finite float within [2 ^ -50] of it in relative terms. The
    error is measured at the scale of the exponent [e] of the input. *)
Lemma binary_round_aux_normal (s : bool) (m e : Z) (l : location) :
  0 < m -> 53 <= Zdigits2 m -> -1021 <= Zdigits2 m + e <= 1023 ->
  exists m' e',
    binary_round_aux prec emax s m e l = S754_finite s m' e'
    /\ e <= e' <= e + (Zdigits2 m - 53) + 1
    /\ Z.abs (Zpos m' * 2 ^ (e' - e) - m) * 2 ^ 50 <= m.
Proof.
  intros Hm Hdig HD.
  unfold binary_round_aux.
  pose proof (shr_fexp_m_e m e l ltac:(lia)) as [H1 H1e].
  destruct (shr_fexp prec emax m e l) as [mrs' e1] eqn:E1.
  simpl in H1, H1e.
  set (n1 := Zdigits2 m - 53).
  assert (Hn1 : Z.max 0 (fexp prec emax (Zdigits2 m + e) - e) = n1)
    by (rewrite fexp_eq; subst n1; lia).
  rewrite Hn1 in H1, H1e.
  set (m1 := shr_m mrs') in *.
  assert (Hd1 : Zdigits2 m1 = 53).
  { rewrite H1, Zdigits2_div_pow2; subst n1; lia. }
  assert (Hm1 : 0 < m1).
  { assert (0 <= m1)
      by (rewrite H1; apply Z.div_pos; [lia | apply pow2_pos; subst n1; lia]).
    destruct (Z.eq_dec m1 0) as [E0 | E0]; [| lia].
    rewrite E0 in Hd1. discriminate. }
  set (m2 := round_nearest_even m1 (loc_of_shr_record mrs')).
  pose proof (round_nearest_even_range m1 (loc_of_shr_record mrs')) as Hr.
  fold m2 in Hr.
  assert (Hd2 : 53 <= Zdigits2 m2 <= 54).
  { split.
    - rewrite <- Hd1. apply Zdigits2_le; lia.
    - pose proof (Zdigits2_succ_le m1 m2 ltac:(lia) ltac:(lia)). lia. }
  pose proof (shr_fexp_m_e m2 e1 loc_Exact ltac:(lia)) as [H2 H2e].
  destruct (shr_fexp prec emax m2 e1 loc_Exact) as [mrs'' e3] eqn:E2.
  simpl in H2, H2e.
  set (n2 := Zdigits2 m2 - 53).
  assert (Hn2 : Z.max 0 (fexp prec emax (Zdigits2 m2 + e1) - e1) = n2)
    by (rewrite fexp_eq; subst n2 n1; lia).
  rewrite Hn2 in H2, H2e.
  set (m3 := shr_m mrs'') in *.
  assert (Hd3 : Zdigits2 m3 = 53).
  { rewrite H2, Zdigits2_div_pow2; subst n2; lia. }
  assert (Hm3 : 0 < m3).
  { assert (0 <= m3)
      by (rewrite H2; apply Z.div_pos; [lia | apply pow2_pos; subst n2; lia]).
    destruct (Z.eq_dec m3 0) as [E0 | E0]; [| lia].
    rewrite E0 in Hd3. discriminate. }
  destruct m3 as [| p | p] eqn:Em3; try lia.
  change (emax - prec) with 971.
  destruct (Z.leb_spec e3 971) as [_ | Hbad]; [| subst n1 n2; lia].
  exists p, e3. split; [reflexivity |].
  split; [subst n1 n2; lia |].
  (* the error *)
  assert (Hn1' : 0 <= n1) by (subst n1; lia).
  assert (Hn2' : 0 <= n2 <= 1) by (subst n2; lia).
  replace (e3 - e) with (n1 + n2) by lia.
  pose proof (div_pow2_bounds m n1 ltac:(lia) Hn1') as Hb1.
  rewrite <- H1 in Hb1.
  pose proof (div_pow2_bounds m2 n2 ltac:(lia) ltac:(lia)) as Hb2.
  rewrite <- H2 in Hb2.
  pose proof (pow2_pos n1 Hn1') as Hp1.
  pose proof (Zdigits2_bounds m Hm) as [Hlo _].
  replace (Zdigits2 m - 1) with (n1 + 52) in Hlo by (subst n1; lia).
  rewrite pow2_split in Hlo by lia.
  rewrite pow2_split by lia.
  assert (Hp2 : 2 ^ n2 = 1 \/ 2 ^ n2 = 2).
  { assert (n2 = 0 \/ n2 = 1) as [-> | ->] by lia; [left | right]; reflexivity. }
  change (2 ^ 52) with 4503599627370496 in Hlo.
  change (2 ^ 50) with 1125899906842624.
  destruct Hp2 as [Hp2 | Hp2]; rewrite Hp2 in *; nia.
Qed.

(** The structure of a rounding in general: the mantissa is cut by
    [n1 = fexp D - e] bits, moved up by at most one, and cut by one more bit
    when the carry gave it a 54th. *)
Lemma binary_round_aux_struct (s : bool) (m e : Z) (l : location) :
  0 <= m ->
  e <= fexp prec emax (Zdigits2 m + e) ->
  Zdigits2 m + e <= 1023 ->
  exists m3 n2,
    let n1 := fexp prec emax (Zdigits2 m + e) - e in
    0 <= n2 <= 1 /\ 0 <= m3
    /\ binary_round_aux prec emax s m e l
       = match m3 with
         | Z0 => S754_zero s
         | Zpos p => S754_finite s p (e + n1 + n2)
         | Zneg _ => S754_nan
         end
    /\ m - 3 * 2 ^ n1 < m3 * 2 ^ (n1 + n2) <= m + 2 ^ n1
    /\ (l = loc_Exact -> n1 = 0 -> m3 = m /\ n2 = 0).
Proof.
  intros Hm He HD. cbv zeta.
  set (D := Zdigits2 m + e) in *.
  set (n1 := fexp prec emax D - e).
  assert (Hn1 : 0 <= n1) by (subst n1; lia).
  unfold binary_round_aux.
  pose proof (shr_fexp_m_e m e l ltac:(lia)) as [H1 H1e].
  fold D in H1, H1e.
  replace (Z.max 0 (fexp prec emax D - e)) with n1 in H1, H1e
    by (subst n1; lia).
  assert (Hexact : l = loc_Exact -> n1 = 0 ->
            round_nearest_even (shr_m (fst (shr_fexp prec emax m e l)))
              (loc_of_shr_record (fst (shr_fexp prec emax m e l))) = m).
  { intros -> Hz. unfold shr_fexp. fold D.
    replace (fexp prec emax D - e) with 0 by (subst n1; lia).
    reflexivity. }
  destruct (shr_fexp prec emax m e l) as [mrs' e1] eqn:E1.
  simpl in H1, H1e, Hexact.
  set (m1 := shr_m mrs') in *.
  pose proof (pow2_pos n1 Hn1) as Hp1.
  assert (Hm1 : 0 <= m1) by (rewrite H1; apply Z.div_pos; lia).
  set (m2 := round_nearest_even m1 (loc_of_shr_record mrs')) in *.
  pose proof (round_nearest_even_range m1 (loc_of_shr_record mrs')) as Hr.
  fold m2 in Hr.
  pose proof (shr_fexp_m_e m2 e1 loc_Exact ltac:(lia)) as [H2 H2e].
  set (n2 := Z.max 0 (fexp prec emax (Zdigits2 m2 + e1) - e1)) in *.
  assert (Hd1 : Zdigits2 m1 <= Z.max 0 (Zdigits2 m - n1))
    by (rewrite H1; apply Zdigits2_div_pow2_le; lia).
  pose proof (Zdigits2_succ_le m1 m2 Hm1 ltac:(lia)) as Hd2.
  pose proof (Zdigits2_nonneg m2) as Hd2'.
  assert (He1 : e1 = fexp prec emax D) by (subst n1; lia).
  assert (Hn2 : 0 <= n2 <= 1).
  { subst n2. rewrite He1. rewrite !fexp_eq in *. subst D. lia. }
  destruct (shr_fexp prec emax m2 e1 loc_Exact) as [mrs'' e3] eqn:E2.
  simpl in H2, H2e.
  set (m3 := shr_m mrs'') in *.
  pose proof (pow2_pos n2 ltac:(lia)) as Hp2.
  assert (Hm3 : 0 <= m3) by (rewrite H2; apply Z.div_pos; lia).
  exists m3, n2. split; [exact Hn2 |]. split; [exact Hm3 |].
  split.
  { destruct m3 as [| p | p]; try reflexivity.
    change (emax - prec) with 971.
    assert (e3 <= 971) by (rewrite H2e, He1, fexp_eq; subst D; lia).
    destruct (Z.leb_spec e3 971); [| lia].
    rewrite H2e, H1e. reflexivity. }
  split.
  - pose proof (div_pow2_bounds m n1 ltac:(lia) Hn1) as Hb1.
    rewrite <- H1 in Hb1.
    pose proof (div_pow2_bounds m2 n2 ltac:(lia) ltac:(lia)) as Hb2.
    rewrite <- H2 in Hb2.
    rewrite pow2_split by lia.
    assert (Hp2' : 2 ^ n2 = 1 \/ 2 ^ n2 = 2).
    { assert (n2 = 0 \/ n2 = 1) as [-> | ->] by lia; [left | right];
        reflexivity. }
    destruct Hp2' as [Hp2' | Hp2']; rewrite Hp2' in *; nia.
  - intros Hl Hz. specialize (Hexact Hl Hz).
    assert (Hm2 : m2 = m) by exact Hexact.
    assert (Hn2z : n2 = 0).
    { subst n2. rewrite Hm2, H1e, Hz, Z.add_0_r. fold D. subst n1. lia. }
    split; [| exact Hn2z].
    rewrite H2, Hn2z, Hm2. apply Z.div_1_r.
Qed.

(** ** The operations, in units of [2 ^ -1074] *)

Lemma units_finite (s : bool) (m : positive) (e : Z) :
  units (S754_finite s m e) = (if s then -1 else 1) * (Zpos m * 2 ^ (e + 1074)).
Proof. reflexivity. Qed.

(** [binary_round] of an exact value with exponent at least [-1074]: only a
    relative error. *)
Lemma binary_round_units (s : bool) (p : positive) (ez : Z) :
  -1074 <= ez -> Zdigits2 (Zpos p) + ez <= 1023 ->
  exists m' e',
    binary_round prec emax s p ez = S754_finite s m' e'
    /\ -1074 <= e'
    /\ Z.abs (Zpos m' * 2 ^ (e' + 1074) - Zpos p * 2 ^ (ez + 1074)) * 2 ^ 50
       <= Zpos p * 2 ^ (ez + 1074).
Proof.
  intros Hez HD. unfold binary_round.
  change (Z.pos (digits2_pos p)) with (Zdigits2 (Zpos p)).
  set (D := Zdigits2 (Zpos p) + ez) in *.
  pose proof (shl_align_spec p ez (fexp prec emax D)) as Hsh.
  destruct (shl_align p ez (fexp prec emax D)) as [mz e0].
  destruct Hsh as (Hle & Hmz & He0).
  assert (Hfexp : fexp prec emax D = Z.max (D - 53) (-1074)) by apply fexp_eq.
  assert (Hdz : Zdigits2 (Zpos mz) + e0 = D).
  { rewrite Hmz, Zdigits2_mul_pow2 by lia. subst D. lia. }
  pose proof (Zdigits2_pos (Zpos p) ltac:(lia)) as Hdp.
  destruct (binary_round_aux_struct s (Zpos mz) e0 loc_Exact ltac:(lia)
              ltac:(rewrite Hdz; lia) ltac:(rewrite Hdz; lia))
    as (m3 & n2 & Hn2 & Hm3 & Hres & Herr & Hex).
  cbv zeta in *. rewrite Hdz in *.
  pose proof (binary_round_aux_nonzero s (Zpos mz) e0 loc_Exact ltac:(lia)
                ltac:(rewrite Hdz; subst D; lia)) as Hnz.
  rewrite Hres in Hnz |- *.
  destruct m3 as [| q | q]; try discriminate; try lia.
  set (n1 := fexp prec emax D - e0) in *.
  exists q, (e0 + n1 + n2). split; [reflexivity |].
  split; [subst n1; lia |].
  assert (Hn1 : 0 <= n1) by (subst n1; lia).
  assert (He0' : -1074 <= e0) by lia.
  replace (e0 + n1 + n2 + 1074) with ((n1 + n2) + (e0 + 1074)) by lia.
  replace (ez + 1074) with ((ez - e0) + (e0 + 1074)) by lia.
  rewrite (pow2_split (n1 + n2)), (pow2_split (ez - e0)) by lia.
  rewrite !Z.mul_assoc, <- Hmz.
  pose proof (pow2_pos (e0 + 1074) ltac:(lia)) as Hpe.
  set (R := Zpos q * 2 ^ (n1 + n2)) in *.
  assert (Hcore : Z.abs (R - Zpos mz) * 2 ^ 50 <= Zpos mz).
  { destruct (Z.eq_dec n1 0) as [Hz | Hnz1].
    - destruct (Hex eq_refl Hz) as [Hq ->]. subst R.
      rewrite Hz, Hq. change (2 ^ (0 + 0)) with 1.
      rewrite Z.mul_1_r, Z.sub_diag. simpl. lia.
    - assert (He0z : e0 = ez) by lia.
      assert (Hmzp : Zpos mz = Zpos p)
        by (rewrite Hmz, He0z, Z.sub_diag; simpl; lia).
      assert (Hn1v : n1 = Zdigits2 (Zpos p) - 53) by (subst n1 D; lia).
      pose proof (Zdigits2_bounds (Zpos p) ltac:(lia)) as [Hlo _].
      replace (Zdigits2 (Zpos p) - 1) with (n1 + 52) in Hlo by lia.
      rewrite pow2_split in Hlo by lia.
      pose proof (pow2_pos n1 Hn1) as Hp1.
      change (2 ^ 52) with 4503599627370496 in Hlo.
      change (2 ^ 50) with 1125899906842624.
      rewrite Hmzp in *. lia. }
  replace (R * 2 ^ (e0 + 1074) - Zpos mz * 2 ^ (e0 + 1074))
    with ((R - Zpos mz) * 2 ^ (e0 + 1074)) by ring.
  rewrite Z.abs_mul, (Z.abs_eq (2 ^ (e0 + 1074))) by lia.
  nia.
Qed.

(** [binary_normalize] of an exact integer value. *)
Lemma binary_normalize_units (M ez : Z) :
  -1074 <= ez -> Z.abs M * 2 ^ (ez + 1074) < 2 ^ 2097 ->
  let F := binary_normalize prec emax M ez false in
  fin F /\ Z.abs (units F - M * 2 ^ (ez + 1074)) * 2 ^ 50
           <= Z.abs (M * 2 ^ (ez + 1074)).
Proof.
  intros Hez Hbound. cbv zeta.
  pose proof (pow2_pos (ez + 1074) ltac:(lia)) as Hpe.
  destruct M as [| p | p]; unfold binary_normalize.
  - simpl. split; [exact I | lia].
  - assert (HD : Zdigits2 (Zpos p) + ez <= 1023).
    { simpl Z.abs in Hbound.
      assert (Hez' : ez + 1074 < 2097).
      { apply (Z.pow_lt_mono_r_iff 2); [lia | lia |]. nia. }
      assert (Zdigits2 (Zpos p) <= 1023 - ez); [| lia].
      apply Zdigits2_le_iff; [lia | lia |].
      apply Z.mul_lt_mono_pos_r with (2 ^ (ez + 1074)); [assumption |].
      rewrite <- pow2_split by lia.
      replace (1023 - ez + (ez + 1074)) with 2097 by lia.
      exact Hbound. }
    destruct (binary_round_units false p ez Hez HD) as (m' & e' & -> & He' & Herr).
    split; [exact He' |].
    rewrite units_finite, Z.mul_1_l.
    rewrite (Z.abs_eq (Zpos p * _)) by lia. exact Herr.
  - assert (HD : Zdigits2 (Zpos p) + ez <= 1023).
    { simpl Z.abs in Hbound.
      assert (Hez' : ez + 1074 < 2097).
      { apply (Z.pow_lt_mono_r_iff 2); [lia | lia |]. nia. }
      assert (Zdigits2 (Zpos p) <= 1023 - ez); [| lia].
      apply Zdigits2_le_iff; [lia | lia |].
      apply Z.mul_lt_mono_pos_r with (2 ^ (ez + 1074)); [assumption |].
      rewrite <- pow2_split by lia.
      replace (1023 - ez + (ez + 1074)) with 2097 by lia.
      exact Hbound. }
    destruct (binary_round_units true p ez Hez HD) as (m' & e' & -> & He' & Herr).
    split; [exact He' |].
    rewrite units_finite.
    change (Z.neg p) with (- Z.pos p). rewrite Z.mul_opp_l.
    set (X := Z.pos m' * 2 ^ (e' + 1074)) in *.
    set (Y := Z.pos p * 2 ^ (ez + 1074)) in *.
    assert (0 < Y) by (subst Y; lia).
    lia.
Qed.

Lemma shl_align_units (m : positive) (e ez : Z) :
  ez <= e -> -1074 <= ez ->
  Zpos (fst (shl_align m e ez)) * 2 ^ (ez + 1074) = Zpos m * 2 ^ (e + 1074).
Proof.
  intros Hle Hez. pose proof (shl_align_spec m e ez) as H.
  destruct (shl_align m e ez) as [mz e0]. destruct H as (_ & Hmz & He0).
  simpl fst. rewrite Hmz. replace e0 with ez in * by lia.
  rewrite <- Z.mul_assoc, <- pow2_split by lia. f_equal. f_equal. lia.
Qed.

Lemma cond_Zopp_units (s : bool) (z k : Z) :
  cond_Zopp s z * k = (if s then -1 else 1) * (z * k).
Proof. destruct s; unfold cond_Zopp; ring. Qed.

(** The sum of two finite floats: a relative error of at most [2 ^ -50],
    as long as the exact sum is below [2 ^ 1023]. *)
Lemma add_units (a b : float) :
  fin a -> fin b -> Z.abs (units a + units b) < 2 ^ 2097 ->
  fin (add a b)
  /\ Z.abs (units (add a b) - (units a + units b)) * 2 ^ 50
     <= Z.abs (units a + units b).
Proof.
  intros Ha Hb Hbound.
  destruct a as [sa | sa | | sa ma ea]; try contradiction;
    destruct b as [sb | sb | | sb mb eb]; try contradiction;
    unfold add; cbn [SFadd].
  - destruct sa, sb; simpl; split; try exact I; lia.
  - split; [exact Hb |]. cbn [units].
    replace (_ - _) with 0 by ring. simpl. lia.
  - split; [exact Ha |]. cbn [units].
    replace (_ - _) with 0 by ring. simpl. lia.
  - unfold fin, ok in Ha, Hb.
    set (ez := Z.min ea eb).
    set (M := cond_Zopp sa (Z.pos (fst (shl_align ma ea ez)))
              + cond_Zopp sb (Z.pos (fst (shl_align mb eb ez)))).
    assert (HM : M * 2 ^ (ez + 1074)
                 = units (S754_finite sa ma ea) + units (S754_finite sb mb eb)).
    { subst M. rewrite Z.mul_add_distr_r, !cond_Zopp_units.
      rewrite !shl_align_units by (subst ez; lia). reflexivity. }
    rewrite <- HM in *.
    apply binary_normalize_units; [subst ez; lia |].
    pose proof (pow2_pos (ez + 1074) ltac:(subst ez; lia)) as Hpe.
    rewrite Z.abs_mul, (Z.abs_eq (2 ^ (ez + 1074))) in Hbound by lia.
    exact Hbound.
Qed.

Lemma sub_units (a b : float) :
  fin a -> fin b -> Z.abs (units a - units b) < 2 ^ 2097 ->
  fin (sub a b)
  /\ Z.abs (units (sub a b) - (units a - units b)) * 2 ^ 50
     <= Z.abs (units a - units b).
Proof.
  intros Ha Hb Hbound.
  destruct a as [sa | sa | | sa ma ea]; try contradiction;
    destruct b as [sb | sb | | sb mb eb]; try contradiction;
    unfold sub; cbn [SFsub].
  - destruct sa, sb; simpl; split; try exact I; lia.
  - split; [exact Hb |]. cbn [units].
    set (X := Z.pos mb * 2 ^ (eb + 1074)).
    destruct sb; cbn [negb]; lia.
  - split; [exact Ha |]. cbn [units].
    replace (_ - _) with 0 by ring. simpl. lia.
  - unfold fin, ok in Ha, Hb.
    set (ez := Z.min ea eb).
    set (M := cond_Zopp sa (Z.pos (fst (shl_align ma ea ez)))
              - cond_Zopp sb (Z.pos (fst (shl_align mb eb ez)))).
    assert (HM : M * 2 ^ (ez + 1074)
                 = units (S754_finite sa ma ea) - units (S754_finite sb mb eb)).
    { subst M. rewrite Z.mul_sub_distr_r, !cond_Zopp_units.
      rewrite !shl_align_units by (subst ez; lia). reflexivity. }
    rewrite <- HM in *.
    apply binary_normalize_units; [subst ez; lia |].
    pose proof (pow2_pos (ez + 1074) ltac:(subst ez; lia)) as Hpe.
    rewrite Z.abs_mul, (Z.abs_eq (2 ^ (ez + 1074))) in Hbound by lia.
    exact Hbound.
Qed.

(** The rounding of a non-negative mantissa, with the result read in units:
    [units F * 2 ^ a = R * 2 ^ b], where [R] is the result at the scale of
    the input exponent [e] and one of [a], [b] is zero. The error [R - m] is
    relative for a normal result and at most three units for a subnormal
    one. *)
Lemma binary_round_aux_scaled (m e : Z) (l : location) :
  0 <= m ->
  e <= fexp prec emax (Zdigits2 m + e) ->
  Zdigits2 m + e <= 1023 ->
  let F := binary_round_aux prec emax false m e l in
  let a := Z.max 0 (- 1074 - e) in
  let b := Z.max 0 (e + 1074) in
  exists R,
    0 <= R /\ fin F /\ 0 <= units F
    /\ units F * 2 ^ a = R * 2 ^ b
    /\ ((53 <= Zdigits2 m /\ Z.abs (R - m) * 2 ^ 52 <= 3 * m)
        \/ (e <= -1074 /\ Z.abs (R - m) <= 3 * 2 ^ a)).
Proof.
  intros Hm He HD. cbv zeta.
  destruct (binary_round_aux_struct false m e l Hm He HD)
    as (m3 & n2 & Hn2 & Hm3 & Hres & Herr & _).
  cbv zeta in *.
  set (D := Zdigits2 m + e) in *.
  set (n1 := fexp prec emax D - e) in *.
  assert (Hn1 : 0 <= n1) by (subst n1; lia).
  pose proof (fexp_eq D) as Hfexp.
  set (a := Z.max 0 (- 1074 - e)). set (b := Z.max 0 (e + 1074)).
  pose proof (pow2_pos n1 Hn1) as Hp1.
  pose proof (pow2_pos (n1 + n2) ltac:(lia)) as Hp12.
  exists (m3 * 2 ^ (n1 + n2)).
  split; [nia |].
  rewrite Hres.
  split; [| split; [| split]].
  - destruct m3 as [| p | p]; try lia; [exact I |].
    unfold fin, ok. subst n1. lia.
  - destruct m3 as [| p | p]; try lia; [reflexivity |].
    rewrite units_finite.
    pose proof (pow2_pos (e + n1 + n2 + 1074) ltac:(subst n1; lia)). lia.
  - destruct m3 as [| p | p]; try lia; [reflexivity |].
    rewrite units_finite, Z.mul_1_l.
    rewrite <- !Z.mul_assoc, <- !pow2_split by (subst a b n1; lia).
    f_equal. f_equal. subst a b. lia.
  - destruct (Z_le_gt_dec (-1074) (D - 53)) as [Hnorm | Hsub].
    + left.
      assert (Hn1v : n1 = Zdigits2 m - 53) by (subst n1 D; lia).
      assert (Hmpos : 0 < m).
      { destruct (Z.eq_dec m 0) as [-> | ?]; [| lia]. simpl in Hn1v. lia. }
      split; [lia |].
      pose proof (Zdigits2_bounds m Hmpos) as [Hlo _].
      replace (Zdigits2 m - 1) with (n1 + 52) in Hlo by lia.
      rewrite pow2_split in Hlo by lia.
      change (2 ^ 52) with 4503599627370496 in *. lia.
    + right. assert (Ha : a = n1) by (subst a n1; lia).
      split; [subst n1; lia |]. rewrite Ha. lia.
Qed.

(** ** Division *)

Lemma SFdiv_core_spec (m1 m2 : positive) (e1 e2 : Z) :
  let '(q, e', l) := SFdiv_core_binary prec emax (Zpos m1) e1 (Zpos m2) e2 in
  let D0 := Zdigits2 (Zpos m1) + e1 - (Zdigits2 (Zpos m2) + e2) in
  e' = Z.min (fexp prec emax D0) (e1 - e2)
  /\ q = (Zpos m1 * 2 ^ (e1 - e2 - e')) / Zpos m2.
Proof.
  unfold SFdiv_core_binary.
  set (D0 := Zdigits2 (Z.pos m1) + e1 - (Zdigits2 (Z.pos m2) + e2)).
  set (e' := Z.min (fexp prec emax D0) (e1 - e2)).
  assert (He : 0 <= e1 - e2 - e') by (subst e'; lia).
  assert (Hm :
    match e1 - e2 - e' with
    | 0 => Z.pos m1
    | Z.pos _ => Z.shiftl (Z.pos m1) (e1 - e2 - e')
    | Z.neg _ => 0
    end = Zpos m1 * 2 ^ (e1 - e2 - e')).
  { destruct (e1 - e2 - e') as [| p | p] eqn:E; try lia.
    rewrite Z.shiftl_mul_pow2 by lia. reflexivity. }
  rewrite Hm.
  destruct (Z.div_eucl (Z.pos m1 * 2 ^ (e1 - e2 - e')) (Z.pos m2))
    as [q r] eqn:E.
  split; [reflexivity |].
  unfold Z.div. rewrite E. reflexivity.
Qed.

(** The digits of a quotient. *)
Lemma quotient_digits (n d k : Z) :
  0 < n -> 0 < d -> 0 <= k ->
  let q := (n * 2 ^ k) / d in
  0 <= q
  /\ Zdigits2 q <= Z.max 0 (Zdigits2 n + k - Zdigits2 d + 1)
  /\ (0 <= Zdigits2 n + k - Zdigits2 d - 1 ->
      Zdigits2 n + k - Zdigits2 d <= Zdigits2 q).
Proof.
  intros Hn Hd Hk q.
  pose proof (pow2_pos k Hk) as Hpk.
  pose proof (Zdigits2_bounds n Hn) as [Hnlo Hnhi].
  pose proof (Zdigits2_bounds d Hd) as [Hdlo Hdhi].
  pose proof (Zdigits2_pos n Hn) as Hdn.
  pose proof (Zdigits2_pos d Hd) as Hdd.
  set (dn := Zdigits2 n) in *. set (dd := Zdigits2 d) in *.
  assert (Hq0 : 0 <= q) by (subst q; apply Z.div_pos; nia).
  split; [exact Hq0 |]. split.
  - apply Zdigits2_le_iff; [assumption | lia |].
    subst q. apply Z.div_lt_upper_bound; [lia |].
    destruct (Z_le_gt_dec 0 (dn + k - dd + 1)) as [Hge | Hlt].
    + rewrite Z.max_r by lia.
      apply Z.lt_le_trans with (2 ^ dn * 2 ^ k); [nia |].
      apply Z.le_trans with (2 ^ (dd - 1) * 2 ^ (dn + k - dd + 1));
        [| apply Z.mul_le_mono_nonneg_r; [apply Z.pow_nonneg; lia | lia]].
      rewrite <- !pow2_split by lia. apply Z.pow_le_mono_r; lia.
    + rewrite Z.max_l by lia. change (2 ^ 0) with 1. rewrite Z.mul_1_r.
      apply Z.lt_le_trans with (2 ^ dn * 2 ^ k); [nia |].
      rewrite <- pow2_split by lia.
      apply Z.le_trans with (2 ^ (dd - 1)); [| lia].
      apply Z.pow_le_mono_r; lia.
  - intro Hge.
    assert (Hlow : 2 ^ (dn + k - dd - 1) <= q).
    { subst q. apply Z.div_le_lower_bound; [lia |].
      apply Z.le_trans with (2 ^ dd * 2 ^ (dn + k - dd - 1)).
      - apply Z.mul_le_mono_nonneg_r; [apply Z.pow_nonneg; lia | lia].
      - rewrite <- pow2_split by lia.
        replace (dd + (dn + k - dd - 1)) with ((dn - 1) + k) by lia.
        rewrite pow2_split by lia. nia. }
    pose proof (pow2_pos (dn + k - dd - 1) Hge) as Hpp.
    rewrite (Zdigits2_log2 q) by lia.
    pose proof (Z.log2_le_mono _ _ Hlow) as Hl.
    rewrite Z.log2_pow2 in Hl by lia. lia.
Qed.

(** The error of a rounded quotient, from the error of rounding the
    integer quotient. *)
Lemma quotient_error_split (R q d N rem : Z) :
  N = d * q + rem -> 0 <= rem -> 0 < d ->
  Z.abs (R * d - N) <= Z.abs (R - q) * d + rem.
Proof.
  intros HN Hrem Hd.
  replace (R * d - N) with ((R - q) * d - rem) by lia.
  pose proof (Z.abs_mul (R - q) d) as Hm.
  rewrite (Z.abs_eq d) in Hm by lia. lia.
Qed.

Lemma quotient_error_normal (R q d N rem : Z) :
  N = d * q + rem -> 0 <= rem < d -> 2 ^ 52 <= q ->
  Z.abs (R - q) * 2 ^ 52 <= 3 * q ->
  Z.abs (R * d - N) * 2 ^ 50 <= N.
Proof.
  intros HN Hrem Hq Herr.
  pose proof (quotient_error_split R q d N rem HN ltac:(lia) ltac:(lia))
    as Hsplit.
  change (2 ^ 52) with 4503599627370496 in *.
  change (2 ^ 50) with 1125899906842624.
  assert (H2 : Z.abs (R - q) * 4503599627370496 * d <= 3 * q * d)
    by (apply Z.mul_le_mono_nonneg_r; [lia | exact Herr]).
  assert (H3 : rem * 4503599627370496 <= d * q)
    by (apply Z.mul_le_mono_nonneg; lia).
  lia.
Qed.

Lemma quotient_error_subnormal (R q d N rem P : Z) :
  N = d * q + rem -> 0 <= rem < d -> 1 <= P ->
  Z.abs (R - q) <= 3 * P ->
  Z.abs (R * d - N) <= 4 * d * P.
Proof.
  intros HN Hrem HP Herr.
  pose proof (quotient_error_split R q d N rem HN ltac:(lia) ltac:(lia))
    as Hsplit.
  assert (H2 : Z.abs (R - q) * d <= 3 * P * d)
    by (apply Z.mul_le_mono_nonneg_r; [lia | exact Herr]).
  assert (H3 : d * 1 <= d * P) by (apply Z.mul_le_mono_nonneg_l; lia).
  lia.
Qed.

(** The rounded quotient of two mantissas, at the scale of the exponent
    that the division core chooses. *)
Lemma quotient_scaled (m1 m2 : positive) (e1 e2 : Z) :
  Zdigits2 (Zpos m1) + e1 - (Zdigits2 (Zpos m2) + e2) <= 1022 ->
  let '(q, e', l) := SFdiv_core_binary prec emax (Zpos m1) e1 (Zpos m2) e2 in
  let F := binary_round_aux prec emax false q e' l in
  let s := e1 - e2 - e' in
  let a := Z.max 0 (- 1074 - e') in
  let b := Z.max 0 (e' + 1074) in
  exists R,
    0 <= s /\ fin F /\ 0 <= units F
    /\ units F * 2 ^ a = R * 2 ^ b
    /\ (Z.abs (R * Zpos m2 - Zpos m1 * 2 ^ s) * 2 ^ 50 <= Zpos m1 * 2 ^ s
        \/ (e' <= -1074
            /\ Z.abs (R * Zpos m2 - Zpos m1 * 2 ^ s) <= 4 * Zpos m2 * 2 ^ a)).
Proof.
  intro HD0.
  pose proof (SFdiv_core_spec m1 m2 e1 e2) as Hcore.
  destruct (SFdiv_core_binary prec emax (Z.pos m1) e1 (Z.pos m2) e2)
    as [[q e'] l]. cbv zeta in *.
  set (D0 := Zdigits2 (Z.pos m1) + e1 - (Zdigits2 (Z.pos m2) + e2)) in *.
  destruct Hcore as [He' Hq].
  set (s := e1 - e2 - e') in *.
  assert (Hs : 0 <= s) by (subst s; lia).
  pose proof (fexp_eq D0) as HfD0.
  destruct (quotient_digits (Zpos m1) (Zpos m2) s ltac:(lia) ltac:(lia) Hs)
    as (Hq0 & Hqhi & Hqlo).
  cbv zeta in *. rewrite <- Hq in *.
  pose proof (fexp_eq (Zdigits2 q + e')) as Hfq.
  pose proof (Zdigits2_nonneg q) as Hdq.
  assert (HHe : e' <= fexp prec emax (Zdigits2 q + e')).
  { destruct (Z_le_gt_dec (-1074) (D0 - 53)) as [Hnorm | Hsub].
    - assert (0 <= Zdigits2 (Z.pos m1) + s - Zdigits2 (Z.pos m2) - 1)
        by (subst s D0; lia).
      specialize (Hqlo ltac:(assumption)). subst s D0. lia.
    - lia. }
  assert (HDq : Zdigits2 q + e' <= 1023) by (subst s D0; lia).
  destruct (binary_round_aux_scaled q e' l Hq0 HHe HDq)
    as (R & HR & Hfin & Hun & Hscale & Hcases).
  cbv zeta in *.
  exists R. split; [exact Hs |]. split; [exact Hfin |].
  split; [exact Hun |]. split; [exact Hscale |].
  pose proof (pow2_pos s Hs) as Hps.
  pose proof (Z.div_mod (Zpos m1 * 2 ^ s) (Zpos m2) ltac:(lia)) as Hdm.
  pose proof (Z.mod_pos_bound (Zpos m1 * 2 ^ s) (Zpos m2) ltac:(lia)) as Hmod.
  rewrite <- Hq in Hdm.
  set (rem := (Z.pos m1 * 2 ^ s) mod Z.pos m2) in *.
  set (N := Z.pos m1 * 2 ^ s) in *.
  destruct Hcases as [[Hd53 Herr] | [Hsub Herr]].
  - left.
    assert (Hqbig : 2 ^ 52 <= q).
    { assert (0 < q).
      { destruct (Z.eq_dec q 0) as [-> | ?]; [simpl in Hd53; lia | lia]. }
      pose proof (Zdigits2_bounds q ltac:(lia)) as [Hlo _].
      eapply Z.le_trans; [| exact Hlo]. apply Z.pow_le_mono_r; lia. }
    exact (quotient_error_normal R q (Z.pos m2) N rem Hdm Hmod Hqbig Herr).
  - right. split; [exact Hsub |].
    assert (Hpa : 1 <= 2 ^ Z.max 0 (-1074 - e')).
    { change 1 with (2 ^ 0). apply Z.pow_le_mono_r; lia. }
    exact (quotient_error_subnormal R q (Z.pos m2) N rem _ Hdm Hmod Hpa Herr).
Qed.

Lemma abs_scale_le (X Y A C bound : Z) :
  0 < A -> 0 <= C ->
  X * A = Y * C ->
  Z.abs Y * C <= bound * A ->
  Z.abs X <= bound.
Proof.
  intros HA HC Heq Hle.
  assert (H : Z.abs X * A <= bound * A).
  { rewrite <- (Z.abs_eq A) at 1 by lia. rewrite <- Z.abs_mul, Heq.
    rewrite Z.abs_mul, (Z.abs_eq C) by lia. exact Hle. }
  nia.
Qed.

(** The quotient of two positive finite floats, in units: a relative error
    of [2 ^ -50] and at most four units. *)
Lemma div_units (ma mb : positive) (ea eb : Z) :
  -1074 <= ea -> -1074 <= eb ->
  Zdigits2 (Zpos ma) + ea - (Zdigits2 (Zpos mb) + eb) <= 1022 ->
  let a := S754_finite false ma ea in
  let b := S754_finite false mb eb in
  let F := SFdiv prec emax a b in
  fin F /\ 0 <= units F
  /\ Z.abs (units F * units b - units a * unit_one) * 2 ^ 50
     <= units a * unit_one + 2 ^ 52 * units b.
Proof.
  intros Hea Heb HD0. cbv zeta. cbn [SFdiv xorb].
  pose proof (quotient_scaled ma mb ea eb HD0) as H.
  destruct (SFdiv_core_binary prec emax (Z.pos ma) ea (Z.pos mb) eb)
    as [[q e'] l]. cbv zeta in H.
  destruct H as (R & Hs & Hfin & Hun & Hscale & Hcases).
  split; [exact Hfin |]. split; [exact Hun |].
  rewrite !units_finite, !Z.mul_1_l. unfold unit_one.
  set (F := binary_round_aux prec emax false q e' l) in *.
  set (s := ea - eb - e') in *.
  set (a := Z.max 0 (-1074 - e')) in *.
  set (b := Z.max 0 (e' + 1074)) in *.
  set (Pb := 2 ^ (eb + 1074)).
  pose proof (pow2_pos a ltac:(subst a; lia)) as Hpa.
  pose proof (pow2_pos b ltac:(subst b; lia)) as Hpb.
  pose proof (pow2_pos (eb + 1074) ltac:(lia)) as HPb. fold Pb in HPb.
  pose proof (pow2_pos s Hs) as Hps.
  assert (Hid : 2 ^ (ea + 1074) * 2 ^ 1074 * 2 ^ a = 2 ^ s * (2 ^ b * Pb)).
  { subst Pb. rewrite <- !pow2_split by (subst a b s; lia).
    f_equal. subst a b s. lia. }
  assert (Heq : (units F * (Z.pos mb * Pb)
                 - Z.pos ma * 2 ^ (ea + 1074) * 2 ^ 1074) * 2 ^ a
                = (R * Z.pos mb - Z.pos ma * 2 ^ s) * (2 ^ b * Pb)).
  { transitivity (units F * 2 ^ a * (Z.pos mb * Pb)
                  - Z.pos ma * (2 ^ (ea + 1074) * 2 ^ 1074 * 2 ^ a));
      [ring |]. rewrite Hscale, Hid. ring. }
  set (X := units F * (Z.pos mb * Pb)
            - Z.pos ma * 2 ^ (ea + 1074) * 2 ^ 1074) in *.
  set (Y := R * Z.pos mb - Z.pos ma * 2 ^ s) in *.
  set (UA := Z.pos ma * 2 ^ (ea + 1074) * 2 ^ 1074).
  assert (HUA : UA * 2 ^ a = Z.pos ma * 2 ^ s * (2 ^ b * Pb)).
  { subst UA.
    transitivity (Z.pos ma * (2 ^ s * (2 ^ b * Pb))); [| ring].
    rewrite <- Hid. ring. }
  assert (HUApos : 0 <= UA).
  { subst UA. pose proof (pow2_pos (ea + 1074) ltac:(lia)).
    pose proof (pow2_pos 1074 ltac:(lia)). nia. }
  destruct Hcases as [Hnorm | [Hsub Hsubb]].
  - assert (Z.abs X * 2 ^ 50 <= UA); [| nia].
    rewrite <- (Z.abs_eq (2 ^ 50)) by lia. rewrite <- Z.abs_mul.
    apply (abs_scale_le (X * 2 ^ 50) (Y * 2 ^ 50) (2 ^ a) (2 ^ b * Pb));
      [lia | nia | nia |].
    rewrite HUA. rewrite Z.abs_mul, (Z.abs_eq (2 ^ 50)) by lia.
    apply Z.mul_le_mono_nonneg_r; [nia | exact Hnorm].
  - assert (Hb0 : 2 ^ b = 1) by (subst b; rewrite Z.max_l by lia; reflexivity).
    assert (Z.abs X <= 4 * (Z.pos mb * Pb)).
    { apply (abs_scale_le X Y (2 ^ a) (2 ^ b * Pb)); [lia | nia | exact Heq |].
      rewrite Hb0. nia. }
    change (2 ^ 52) with 4503599627370496.
    change (2 ^ 50) with 1125899906842624. nia.
Qed.

(** The quotient of two positive ints, in units. *)
Lemma of_ratio_units (n d : positive) :
  Zdigits2 (Zpos n) - Zdigits2 (Zpos d) <= 1022 ->
  let F := of_ratio false n d in
  fin F /\ 0 <= units F
  /\ Z.abs (units F * Zpos d - Zpos n * unit_one) * 2 ^ 50
     <= Zpos n * unit_one + 2 ^ 52 * Zpos d.
Proof.
  intro HD0. cbv zeta. unfold of_ratio.
  pose proof (quotient_scaled n d 0 0 ltac:(lia)) as H.
  destruct (SFdiv_core_binary prec emax (Z.pos n) 0 (Z.pos d) 0)
    as [[q e'] l]. cbv zeta in H.
  destruct H as (R & Hs & Hfin & Hun & Hscale & Hcases).
  split; [exact Hfin |]. split; [exact Hun |].
  unfold unit_one.
  set (F := binary_round_aux prec emax false q e' l) in *.
  set (s := 0 - 0 - e') in *.
  set (a := Z.max 0 (-1074 - e')) in *.
  set (b := Z.max 0 (e' + 1074)) in *.
  pose proof (pow2_pos a ltac:(subst a; lia)) as Hpa.
  pose proof (pow2_pos b ltac:(subst b; lia)) as Hpb.
  pose proof (pow2_pos s Hs) as Hps.
  assert (Hid : 2 ^ 1074 * 2 ^ a = 2 ^ s * 2 ^ b).
  { rewrite <- !pow2_split by (subst a b s; lia). f_equal. subst a b s. lia. }
  assert (Heq : (units F * Z.pos d - Z.pos n * 2 ^ 1074) * 2 ^ a
                = (R * Z.pos d - Z.pos n * 2 ^ s) * 2 ^ b).
  { transitivity (units F * 2 ^ a * Z.pos d - Z.pos n * (2 ^ 1074 * 2 ^ a));
      [ring |]. rewrite Hscale, Hid. ring. }
  set (X := units F * Z.pos d - Z.pos n * 2 ^ 1074) in *.
  set (Y := R * Z.pos d - Z.pos n * 2 ^ s) in *.
  set (UA := Z.pos n * 2 ^ 1074).
  assert (HUA : UA * 2 ^ a = Z.pos n * 2 ^ s * 2 ^ b).
  { subst UA.
    transitivity (Z.pos n * (2 ^ s * 2 ^ b)); [| ring].
    rewrite <- Hid. ring. }
  assert (HUApos : 0 <= UA).
  { subst UA. pose proof (pow2_pos 1074 ltac:(lia)). nia. }
  destruct Hcases as [Hnorm | [Hsub Hsubb]].
  - assert (Z.abs X * 2 ^ 50 <= UA); [| nia].
    rewrite <- (Z.abs_eq (2 ^ 50)) by lia. rewrite <- Z.abs_mul.
    apply (abs_scale_le (X * 2 ^ 50) (Y * 2 ^ 50) (2 ^ a) (2 ^ b));
      [lia | lia | nia |].
    rewrite HUA. rewrite Z.abs_mul, (Z.abs_eq (2 ^ 50)) by lia.
    apply Z.mul_le_mono_nonneg_r; [lia | exact Hnorm].
  - assert (Hb0 : 2 ^ b = 1) by (subst b; rewrite Z.max_l by lia; reflexivity).
    assert (Z.abs X <= 4 * Z.pos d).
    { apply (abs_scale_le X Y (2 ^ a) (2 ^ b)); [lia | lia | exact Heq |].
      rewrite Hb0. nia. }
    change (2 ^ 52) with 4503599627370496.
    change (2 ^ 50) with 1125899906842624. nia.
Qed.

(** ** Multiplication by 100 and [round(x, 3)] *)

Lemma of_int_100 : of_int 100 = Ok (S754_finite false 7036874417766400 (-46)).
Proof. vm_compute. reflexivity. Qed.

Lemma mul_int_100_units (q : float) :
  fin q -> 0 <= units q -> units q < 2 ^ 2090 ->
  exists p,
    mul_int q 100 = Ok p /\ fin p /\ 0 <= units p
    /\ Z.abs (units p - 100 * units q) * 2 ^ 52
       <= 300 * units q + 3 * 2 ^ 52.
Proof.
  intros Hfin Hq0 Hqb. unfold mul_int. rewrite of_int_100. cbn [bind].
  destruct q as [sq | sq | | sq mq eq]; try contradiction.
  - exists (S754_zero (xorb sq false)). split; [reflexivity |].
    split; [exact I |]. simpl. lia.
  - unfold fin, ok in Hfin.
    pose proof (pow2_pos (eq + 1074) ltac:(lia)) as Hpq.
    assert (sq = false).
    { destruct sq; [| reflexivity]. rewrite units_finite in Hq0. lia. }
    subst sq. rewrite units_finite, Z.mul_1_l in *.
    unfold mul. cbn [SFmul xorb].
    set (m100 := 7036874417766400%positive).
    set (M := Z.pos (mq * m100)). set (e := eq + -46).
    assert (HM : M = Zpos mq * (100 * 2 ^ 46)) by (subst M m100; lia).
    assert (HdM : Zdigits2 M = Zdigits2 (100 * 2 ^ 46 * Zpos mq) /\ True)
      by (split; [f_equal; lia | exact I]).
    assert (Hdlo : 53 <= Zdigits2 M).
    { change 53 with (Zdigits2 (Zpos m100)). apply Zdigits2_le; subst M; nia. }
    assert (Hdhi : Zdigits2 M <= Zdigits2 (Zpos mq) + 53).
    { apply Zdigits2_le_iff; [subst M; lia |
        pose proof (Zdigits2_pos (Zpos mq)); lia |].
      pose proof (Zdigits2_bounds (Zpos mq) ltac:(lia)) as [_ Hhi].
      rewrite pow2_split by (pose proof (Zdigits2_pos (Zpos mq)); lia).
      rewrite HM. change (2 ^ 53) with 9007199254740992.
      change (100 * 2 ^ 46) with 7036874417766400. nia. }
    assert (Hdq : Zdigits2 (Zpos mq) + eq + 1074 <= 2090).
    { replace (Zdigits2 (Z.pos mq) + eq + 1074)
        with (Zdigits2 (Z.pos mq) + (eq + 1074)) by lia.
      rewrite <- Zdigits2_mul_pow2 by lia.
      apply Zdigits2_le_iff; [lia | lia | exact Hqb]. }
    pose proof (fexp_eq (Zdigits2 M + e)) as Hf.
    destruct (binary_round_aux_scaled M e loc_Exact ltac:(subst M; lia)
                ltac:(subst e; lia) ltac:(subst e; lia))
      as (R & HR & HfinF & Hun & Hscale & Hcases).
    cbv zeta in *.
    set (F := binary_round_aux prec emax false M e loc_Exact) in *.
    exists F. split; [reflexivity |]. split; [exact HfinF |].
    split; [exact Hun |].
    set (a := Z.max 0 (-1074 - e)) in *. set (b := Z.max 0 (e + 1074)) in *.
    pose proof (pow2_pos a ltac:(subst a; lia)) as Hpa.
    pose proof (pow2_pos b ltac:(subst b; lia)) as Hpb.
    set (uq := Z.pos mq * 2 ^ (eq + 1074)) in *.
    assert (Hex : 100 * uq * 2 ^ a = M * 2 ^ b).
    { rewrite HM. subst uq.
      transitivity (Z.pos mq * 100 * (2 ^ (eq + 1074) * 2 ^ a)); [ring |].
      transitivity (Z.pos mq * 100 * (2 ^ 46 * 2 ^ b)); [| ring].
      rewrite <- !pow2_split by (subst a b e; lia).
      f_equal. f_equal. subst a b e. lia. }
    assert (Heq : (units F - 100 * uq) * 2 ^ a = (R - M) * 2 ^ b).
    { transitivity (units F * 2 ^ a - 100 * uq * 2 ^ a); [ring |].
      rewrite Hscale, Hex. ring. }
    destruct Hcases as [[_ Hnorm] | [Hsub Hsubb]].
    + assert (Z.abs (units F - 100 * uq) * 2 ^ 52 <= 300 * uq); [| lia].
      rewrite <- (Z.abs_eq (2 ^ 52)) by lia. rewrite <- Z.abs_mul.
      apply (abs_scale_le _ ((R - M) * 2 ^ 52) (2 ^ a) (2 ^ b));
        [lia | lia | nia |].
      rewrite Z.abs_mul, (Z.abs_eq (2 ^ 52)) by lia.
      replace (300 * uq * 2 ^ a) with (3 * M * 2 ^ b) by lia.
      apply Z.mul_le_mono_nonneg_r; [lia | exact Hnorm].
    + assert (Hb0 : 2 ^ b = 1)
        by (subst b; rewrite Z.max_l by lia; reflexivity).
      assert (Z.abs (units F - 100 * uq) <= 3).
      { apply (abs_scale_le _ (R - M) (2 ^ a) (2 ^ b));
          [lia | lia | exact Heq |]. rewrite Hb0. lia. }
      change (2 ^ 52) with 4503599627370496. lia.
Qed.

Lemma round_half_even_spec (n d : Z) :
  0 <= n -> 0 < d ->
  0 <= round_half_even n d
  /\ Z.abs (2 * round_half_even n d * d - 2 * n) <= d.
Proof.
  intros Hn Hd. unfold round_half_even.
  pose proof (Z.div_mod n d ltac:(lia)) as Hdm.
  pose proof (Z.mod_pos_bound n d Hd) as Hmod.
  assert (Hq : 0 <= n / d) by (apply Z.div_pos; lia).
  destruct (Z.compare_spec (2 * (n mod d)) d) as [E | E | E].
  - destruct (Z.even (n / d)); split; nia.
  - split; nia.
  - split; nia.
Qed.

(** [round(p, 3)] of a float that is [>= 0]: the nearest multiple [k] of a
    thousandth, then the float nearest to it. *)
Lemma round3_units (p : float) :
  fin p -> 0 <= units p -> units p <= 2 ^ 950 * unit_one ->
  exists r k,
    round p 3 = Ok r /\ fin r /\ 0 <= units r /\ 0 <= k
    /\ Z.abs (2 * k * unit_one - 2000 * units p) <= unit_one
    /\ Z.abs (units r * 1000 - k * unit_one) * 2 ^ 50
       <= k * unit_one + 2 ^ 62.
Proof.
  intros Hfin Hp0 Hpb. unfold unit_one in *.
  pose proof (pow2_pos 1074 ltac:(lia)) as HU.
  set (U := 2 ^ 1074) in *.
  destruct p as [sp | sp | | sp m e]; try contradiction.
  - exists (S754_zero sp), 0. simpl units.
    repeat split; try lia; try exact I.
  - unfold fin, ok in Hfin.
    pose proof (pow2_pos (e + 1074) ltac:(lia)) as Hpe.
    assert (sp = false).
    { destruct sp; [| reflexivity]. rewrite units_finite in Hp0. lia. }
    subst sp. rewrite units_finite, Z.mul_1_l in *.
    set (up := Z.pos m * 2 ^ (e + 1074)) in *.
    unfold round. change (10 ^ 3) with 1000.
    set (k := match e with
              | Z.neg k0 => round_half_even (Z.pos m * 1000) (2 ^ Z.pos k0)
              | _ => Z.pos m * 2 ^ e * 1000
              end).
    assert (Hk : 0 <= k /\ Z.abs (2 * k * U - 2000 * up) <= U).
    { subst k. destruct e as [| pe | ne].
      - subst up. change (2 ^ (0 + 1074)) with U. change (2 ^ 0) with 1.
        split; [lia |]. replace (_ - _) with 0 by ring. simpl. lia.
      - assert (HUe : 2 ^ (Z.pos pe + 1074) = 2 ^ Z.pos pe * U)
          by (subst U; apply pow2_split; lia).
        pose proof (pow2_pos (Z.pos pe) ltac:(lia)).
        subst up. rewrite HUe. split; [nia |].
        replace (_ - _) with 0 by ring. simpl. lia.
      - pose proof (pow2_pos (Z.pos ne) ltac:(lia)) as Hpn.
        destruct (round_half_even_spec (Z.pos m * 1000) (2 ^ Z.pos ne)
                    ltac:(lia) Hpn) as [Hk0 Hk1].
        split; [exact Hk0 |].
        set (k := round_half_even (Z.pos m * 1000) (2 ^ Z.pos ne)) in *.
        assert (HUe : U = 2 ^ Z.pos ne * 2 ^ (Z.neg ne + 1074)).
        { subst U. rewrite <- pow2_split by lia. f_equal. lia. }
        apply (abs_scale_le _ (2 * k * 2 ^ Z.pos ne - 2 * (Z.pos m * 1000))
                 1 (2 ^ (Z.neg ne + 1074))); [lia | lia | |].
        + subst up. rewrite HUe. ring.
        + rewrite Z.mul_1_r, HUe.
          apply Z.mul_le_mono_nonneg_r; [lia | exact Hk1]. }
    destruct Hk as [Hk0 Hk1].
    destruct k as [| kp | kp] eqn:Ek; try lia.
    + exists (S754_zero false), 0. split; [reflexivity |].
      simpl units. repeat split; try lia; try exact I.
    + assert (Hkb : Z.pos kp < 2 ^ 970).
      { pose proof (pow2_pos 950 ltac:(lia)) as HP.
        replace (2 ^ 970) with (2 ^ 950 * 2 ^ 20)
          by (rewrite <- pow2_split by lia; reflexivity).
        change (2 ^ 20) with 1048576.
        set (P := 2 ^ 950) in *. clearbody P.
        assert (H2k : 2 * Z.pos kp <= 2000 * P + 1).
        { apply (Z.mul_le_mono_pos_r _ _ U HU).
          replace ((2000 * P + 1) * U) with (2000 * (P * U) + U) by ring.
          set (PU := P * U) in *. clearbody PU. lia. }
        lia. }
      assert (Hdk : Zdigits2 (Z.pos kp) <= 970)
        by (apply Zdigits2_le_iff; lia).
      destruct (of_ratio_units kp 1000 ltac:(simpl Zdigits2 in *; lia))
        as (HfinF & HunF & HerrF).
      set (F := of_ratio false kp 1000) in *.
      assert (Hninf : is_infinity F = false)
        by (destruct F; try contradiction; reflexivity).
      rewrite Hninf.
      exists F, (Z.pos kp). split; [reflexivity |].
      split; [exact HfinF |]. split; [exact HunF |]. split; [lia |].
      split; [exact Hk1 |].
      unfold unit_one in HerrF. fold U in HerrF.
      change (2 ^ 62) with (2 ^ 52 * 1024).
      change (2 ^ 52) with 4503599627370496 in *. lia.
Qed.

End Rounding.

(** * The error of the sums *)

Module Sums.

Import FloatFacts Rounding.

Lemma plausible_good (t : float) : plausible t = true -> good t.
Proof.
  destruct t as [s | s | | s m e]; try discriminate.
  - intros _. split; [exact I | simpl; lia].
  - destruct s; [discriminate |]. unfold plausible. intro H.
    apply Bool.andb_true_iff in H. destruct H as [He HD].
    apply Z.leb_le in He, HD. split; [exact He |].
    pose proof (pow2_pos (e + 1074) ltac:(lia)) as Hp.
    rewrite units_finite, Z.mul_1_l.
    split; [lia |].
    apply Z.lt_le_incl. apply Zdigits2_le_iff; [lia | lia |].
    rewrite Zdigits2_mul_pow2 by lia. lia.
Qed.

Lemma total_units_nonneg (data : list float) :
  Forall good data -> 0 <= total_units data.
Proof.
  induction 1 as [| x data [_ Hx] _ IH]; simpl; lia.
Qed.

Lemma total_units_bound (data : list float) :
  Forall good data ->
  total_units data <= Z.of_nat (List.length data) * 2 ^ 1974.
Proof.
  induction 1 as [| x data [_ Hx] _ IH]; [simpl; lia |].
  cbn [total_units fold_right List.length]. fold (total_units data).
  rewrite Nat2Z.inj_succ. lia.
Qed.

Lemma small_of_scaled (E j Sn c : Z) :
  0 <= Sn -> 0 <= j <= 2 ^ 30 -> 0 <= c <= 2 ^ 10 ->
  E * 2 ^ 50 <= j * (c * Sn) -> 2 * E <= Sn.
Proof.
  intros HS Hj Hc H.
  assert (j * (c * Sn) <= 2 ^ 40 * Sn).
  { replace (j * (c * Sn)) with ((j * c) * Sn) by ring.
    apply Z.mul_le_mono_nonneg_r; [lia |].
    change (2 ^ 40) with (2 ^ 30 * 2 ^ 10). nia. }
  change (2 ^ 50) with (2 ^ 40 * 1024) in H.
  assert (0 < 2 ^ 40) by (apply pow2_pos; lia). nia.
Qed.

(** The left fold of [add], after [j] steps that reached [Sj] within
    [j * 3 * Sn / 2 ^ 50], where [Sn] is the exact sum of everything. *)
Lemma fold_add_error (data : list float) :
  forall (acc : float) (j Sj Sn : Z),
    fin acc -> 0 <= units acc ->
    Forall good data ->
    0 <= j -> j + Z.of_nat (List.length data) <= 2 ^ 30 ->
    0 <= Sj -> Sj + total_units data = Sn -> Sn <= 2 ^ 2010 ->
    Z.abs (units acc - Sj) * 2 ^ 50 <= j * (3 * Sn) ->
    let r := fold_left add data acc in
    fin r /\ 0 <= units r
    /\ Z.abs (units r - Sn) * 2 ^ 50
       <= (j + Z.of_nat (List.length data)) * (3 * Sn).
Proof.
  induction data as [| x data IH];
    intros acc j Sj Sn Hfin Hacc Hgood Hj Hlen HSj Hsum HSn Herr.
  - simpl in *. replace Sn with Sj by lia.
    rewrite Z.add_0_r. replace Sj with Sn in * by lia. auto.
  - inversion Hgood as [| ? ? [Hfx Hx] Hgood']; subst.
    cbn [total_units fold_right] in *. fold (total_units data) in *.
    pose proof (total_units_nonneg data Hgood') as Hrest.
    cbn [fold_left List.length] in *. rewrite Nat2Z.inj_succ in *.
    set (Sn := Sj + (units x + total_units data)) in *.
    assert (HSn0 : 0 <= Sn) by (subst Sn; lia).
    assert (HE : 2 * Z.abs (units acc - Sj) <= Sn).
    { apply (small_of_scaled _ j Sn 3); try lia. }
    assert (Hb : Z.abs (units acc + units x) < 2 ^ 2097).
    { assert (2 ^ 2010 * 4 <= 2 ^ 2097)
        by (change (2 ^ 2097) with (2 ^ 2010 * 2 ^ 87);
            pose proof (pow2_pos 2010 ltac:(lia)); lia).
      lia. }
    destruct (add_units acc x Hfin Hfx Hb) as [Hf1 He1].
    set (acc' := add acc x) in *.
    assert (Hacc' : 0 <= units acc') by lia.
    replace (j + Z.succ (Z.of_nat (List.length data)))
      with ((j + 1) + Z.of_nat (List.length data)) by lia.
    apply (IH acc' (j + 1) (Sj + units x) Sn); try assumption; lia.
Qed.

(** One step of the compensated sum: the new correction term is small. *)
Lemma cs_add_step (hi lo x : float) (Sn : Z) :
  fin hi -> fin lo -> fin x ->
  0 <= units hi -> 0 <= units x ->
  units hi + units x <= 2 * Sn -> Sn <= 2 ^ 2010 ->
  2 * Z.abs (units lo) <= Sn ->
  let '(hi', lo') := Py.cs_add (hi, lo) x in
  hi' = add hi x /\ fin lo'
  /\ Z.abs (units lo') * 2 ^ 50 <= Z.abs (units lo) * 2 ^ 50 + 13 * Sn.
Proof.
  intros Hfh Hfl Hfx Hh Hx Hsum HSn Hlo.
  assert (HSn0 : 0 <= Sn) by lia.
  assert (Hbig : 2 ^ 2010 * 16 <= 2 ^ 2097)
    by (change (2 ^ 2097) with (2 ^ 2010 * 2 ^ 87);
        pose proof (pow2_pos 2010 ltac:(lia)); lia).
  unfold Py.cs_add.
  destruct (add_units hi x Hfh Hfx ltac:(lia)) as [Hft Het].
  set (t := add hi x) in *.
  change (2 ^ 50) with 1125899906842624 in *.
  destruct (leb (abs x) (abs hi)).
  - destruct (sub_units hi t Hfh Hft ltac:(lia)) as [Hfd Hed].
    set (d := sub hi t) in *.
    change (2 ^ 50) with 1125899906842624 in *.
    destruct (add_units d x Hfd Hfx ltac:(lia)) as [Hfi Hei].
    set (inc := add d x) in *.
    change (2 ^ 50) with 1125899906842624 in *.
    destruct (add_units lo inc Hfl Hfi ltac:(lia)) as [Hfl' Hel'].
    change (2 ^ 50) with 1125899906842624 in *.
    split; [reflexivity |]. split; [exact Hfl' |]. lia.
  - destruct (sub_units x t Hfx Hft ltac:(lia)) as [Hfd Hed].
    set (d := sub x t) in *.
    change (2 ^ 50) with 1125899906842624 in *.
    destruct (add_units d hi Hfd Hfh ltac:(lia)) as [Hfi Hei].
    set (inc := add d hi) in *.
    change (2 ^ 50) with 1125899906842624 in *.
    destruct (add_units lo inc Hfl Hfi ltac:(lia)) as [Hfl' Hel'].
    change (2 ^ 50) with 1125899906842624 in *.
    split; [reflexivity |]. split; [exact Hfl' |]. lia.
Qed.

Lemma fold_cs_add_error (data : list float) :
  forall (hi lo : float) (j Sj Sn : Z),
    fin hi -> 0 <= units hi -> fin lo ->
    Forall good data ->
    0 <= j -> j + Z.of_nat (List.length data) <= 2 ^ 30 ->
    0 <= Sj -> Sj + total_units data = Sn -> Sn <= 2 ^ 2010 ->
    Z.abs (units hi - Sj) * 2 ^ 50 <= j * (3 * Sn) ->
    Z.abs (units lo) * 2 ^ 50 <= j * (13 * Sn) ->
    let '(hi', lo') := fold_left Py.cs_add data (hi, lo) in
    fin hi' /\ 0 <= units hi' /\ fin lo'
    /\ Z.abs (units hi' - Sn) * 2 ^ 50
       <= (j + Z.of_nat (List.length data)) * (3 * Sn)
    /\ Z.abs (units lo') * 2 ^ 50
       <= (j + Z.of_nat (List.length data)) * (13 * Sn).
Proof.
  induction data as [| x data IH];
    intros hi lo j Sj Sn Hfh Hh Hfl Hgood Hj Hlen HSj Hsum HSn Herr Hlo.
  - simpl in *. rewrite Z.add_0_r. replace Sj with Sn in * by lia. auto.
  - inversion Hgood as [| ? ? [Hfx Hx] Hgood']; subst.
    cbn [total_units fold_right] in *. fold (total_units data) in *.
    pose proof (total_units_nonneg data Hgood') as Hrest.
    cbn [fold_left List.length] in *. rewrite Nat2Z.inj_succ in *.
    set (Sn := Sj + (units x + total_units data)) in *.
    assert (HSn0 : 0 <= Sn) by (subst Sn; lia).
    assert (HE : 2 * Z.abs (units hi - Sj) <= Sn)
      by (apply (small_of_scaled _ j Sn 3); lia).
    assert (HL : 2 * Z.abs (units lo) <= Sn)
      by (apply (small_of_scaled _ j Sn 13); lia).
    pose proof (cs_add_step hi lo x Sn Hfh Hfl Hfx Hh ltac:(lia)
                  ltac:(lia) HSn HL) as Hstep.
    destruct (Py.cs_add (hi, lo) x) as [hi' lo'].
    destruct Hstep as (-> & Hfl' & Hlo').
    assert (Hb : Z.abs (units hi + units x) < 2 ^ 2097).
    { assert (2 ^ 2010 * 4 <= 2 ^ 2097)
        by (change (2 ^ 2097) with (2 ^ 2010 * 2 ^ 87);
            pose proof (pow2_pos 2010 ltac:(lia)); lia).
      lia. }
    destruct (add_units hi x Hfh Hfx Hb) as [Hf1 He1].
    set (hi' := add hi x) in *.
    assert (Hhi' : 0 <= units hi') by lia.
    replace (j + Z.succ (Z.of_nat (List.length data)))
      with ((j + 1) + Z.of_nat (List.length data)) by lia.
    apply (IH hi' lo' (j + 1) (Sj + units x) Sn); try assumption; lia.
Qed.

(** [sum] of at most [2 ^ 30] request times: within [(16 n + 3) / 2 ^ 50]
    of the exact sum, in relative terms, for either algorithm. *)
Lemma sum_error (impl : Py.sum_impl) (data : list float) :
  Forall good data ->
  Z.of_nat (List.length data) <= 2 ^ 30 ->
  let s := Py.sum impl data in
  let S := total_units data in
  fin s /\ 0 <= units s
  /\ Z.abs (units s - S) * 2 ^ 50
     <= (16 * Z.of_nat (List.length data) + 3) * S.
Proof.
  intros Hgood Hlen. cbv zeta.
  pose proof (total_units_nonneg data Hgood) as HS0.
  pose proof (total_units_bound data Hgood) as HSb.
  assert (HSn : total_units data <= 2 ^ 2010).
  { eapply Z.le_trans; [exact HSb |].
    change (2 ^ 2010) with (2 ^ 36 * 2 ^ 1974).
    apply Z.mul_le_mono_nonneg_r; [apply Z.pow_nonneg; lia |].
    change (2 ^ 30) with 1073741824 in Hlen.
    change (2 ^ 36) with 68719476736. lia. }
  set (S := total_units data) in *.
  set (n := Z.of_nat (List.length data)) in *.
  assert (Hn0 : 0 <= n) by (subst n; lia).
  destruct impl; unfold Py.sum.
  - destruct (fold_add_error data zero 0 0 S I ltac:(simpl; lia) Hgood
                ltac:(lia) ltac:(lia) ltac:(lia) ltac:(subst S; lia) HSn
                ltac:(simpl; lia)) as (Hf & Hu & He).
    rewrite Z.add_0_l in He. fold n in He.
    split; [exact Hf |]. split; [exact Hu |].
    replace ((16 * n + 3) * S) with (n * (3 * S) + (13 * n + 3) * S) by ring.
    assert (0 <= (13 * n + 3) * S) by nia. lia.
  - destruct data as [| x data].
    + simpl. split; [exact I |]. split; lia.
    + inversion Hgood as [| ? ? [Hfx Hx] Hgood']; subst.
      cbn [List.length] in n. subst n. rewrite Nat2Z.inj_succ in *.
      assert (Hadd : fin (add zero x) /\ units (add zero x) = units x).
      { destruct x as [sx | sx | | sx mx ex]; try contradiction.
        - destruct sx; split; try exact I; reflexivity.
        - split; [exact Hfx | reflexivity]. }
      destruct Hadd as [Hfa Hua].
      cbn [total_units fold_right] in S. fold (total_units data) in S.
      pose proof (total_units_nonneg data Hgood') as Hrest.
      pose proof (fold_cs_add_error data (add zero x) zero 1 (units x) S
                    Hfa ltac:(lia) I Hgood' ltac:(lia) ltac:(lia) ltac:(lia)
                    ltac:(subst S; lia) HSn
                    ltac:(rewrite Hua, Z.sub_diag; change (Z.abs 0) with 0;
                          lia)
                    ltac:(change (Z.abs (units zero)) with 0; lia)) as Hfold.
      destruct (fold_left Py.cs_add data (add zero x, zero)) as [hi lo].
      destruct Hfold as (Hfh & Hh & Hfl & Heh & Hel).
      set (n := Z.of_nat (List.length data)) in *. clearbody n.
      assert (HS0' : 0 <= S) by (subst S; lia).
      assert (HEh : 2 * Z.abs (units hi - S) <= S)
        by (apply (small_of_scaled _ (1 + n) S 3); lia).
      assert (HEl : 2 * Z.abs (units lo) <= S)
        by (apply (small_of_scaled _ (1 + n) S 13); lia).
      unfold Py.cs_to_double.
      replace (Z.succ n) with (1 + n) by lia.
      replace ((16 * (1 + n) + 3) * S)
        with ((1 + n) * (3 * S) + (1 + n) * (13 * S) + 3 * S) by ring.
      assert (0 <= (1 + n) * (13 * S)) by nia.
      destruct (truthy lo && is_finite lo) eqn:Et.
      * assert (Hb : Z.abs (units hi + units lo) < 2 ^ 2097).
        { assert (2 ^ 2010 * 4 <= 2 ^ 2097)
            by (change (2 ^ 2097) with (2 ^ 2010 * 2 ^ 87);
                pose proof (pow2_pos 2010 ltac:(lia)); lia).
          lia. }
        destruct (add_units hi lo Hfh Hfl Hb) as [Hfr Her].
        change (2 ^ 50) with 1125899906842624 in *.
        split; [exact Hfr |]. split; lia.
      * change (2 ^ 50) with 1125899906842624 in *.
        split; [exact Hfh |]. split; lia.
Qed.

End Sums.
(** * [process_line] on the lines of the documented format *)

Module LineFacts.

Import ReFacts.

(** ** The engine, step by step

    Each lemma says which alternative the engine takes for one piece of
    the pattern, given that the rest of the pattern accepts what follows. *)

Section Steps.
Context {R : Type}.
Implicit Types (k : string -> captures -> option R) (x : R).

Lemma all_chars_impl (p q : ascii -> bool) (s : string) :
  (forall a, p a = true -> q a = true) ->
  all_chars p s = true -> all_chars q s = true.
Proof.
  intro H. induction s as [| a s IH]; cbn [all_chars]; [reflexivity |].
  intro Hs. apply Bool.andb_true_iff in Hs. destruct Hs as [Ha Hs].
  rewrite (H a Ha), (IH Hs). reflexivity.
Qed.

Lemma starts_outside_app (p : ascii -> bool) (w rest : string) :
  not_empty w = true ->
  all_chars (fun a => negb (p a)) w = true ->
  starts_outside p (w ++ rest).
Proof.
  destruct w as [| a w]; [discriminate |]. intros _ H.
  cbn [all_chars] in H. apply Bool.andb_true_iff in H. destruct H as [Ha _].
  cbn [append starts_outside]. apply Bool.negb_true_iff. exact Ha.
Qed.

Lemma star_greedy_all (c : cclass) (w rest : string)
    (k : string -> option R) x :
  all_chars (cclass_matches c) w = true ->
  starts_outside (cclass_matches c) rest ->
  k rest = Some x -> star_greedy c (w ++ rest) k = Some x.
Proof.
  intros Hw Hr Hk. induction w as [| a w IH]; cbn [append].
  - destruct rest as [| b rest]; cbn [star_greedy]; [exact Hk |].
    cbn [starts_outside] in Hr. rewrite Hr. exact Hk.
  - cbn [all_chars] in Hw. apply Bool.andb_true_iff in Hw.
    destruct Hw as [Ha Hw]. cbn [star_greedy]. rewrite Ha, (IH Hw).
    reflexivity.
Qed.

Lemma upto_all (n : nat) (c : cclass) (w rest : string)
    (k : string -> option R) x :
  all_chars (cclass_matches c) w = true ->
  (String.length w <= n)%nat ->
  starts_outside (cclass_matches c) rest ->
  k rest = Some x -> upto n c (w ++ rest) k = Some x.
Proof.
  revert w. induction n as [| n IH]; intros w Hw Hl Hr Hk.
  - destruct w; [| cbn [String.length] in Hl; lia]. exact Hk.
  - destruct w as [| a w]; cbn [append upto].
    + destruct rest as [| b rest]; [exact Hk |].
      cbn [starts_outside] in Hr. rewrite Hr. exact Hk.
    + cbn [all_chars] in Hw. apply Bool.andb_true_iff in Hw.
      destruct Hw as [Ha Hw]. cbn [String.length] in Hl.
      rewrite Ha, (IH w Hw ltac:(lia) Hr Hk). reflexivity.
Qed.

Lemma star_lazy_field (p : ascii -> bool) (w rest : string)
    (k : string -> option R) x :
  all_chars p w = true ->
  (forall a, p a = true -> cclass_matches Any a = true) ->
  (forall a s, p a = true -> k (String a s) = None) ->
  k rest = Some x -> star_lazy Any (w ++ rest) k = Some x.
Proof.
  intros Hw Hany Hfail Hk. induction w as [| a w IH]; cbn [append].
  - destruct rest as [| b rest]; cbn [star_lazy]; rewrite Hk; reflexivity.
  - cbn [all_chars] in Hw. apply Bool.andb_true_iff in Hw.
    destruct Hw as [Ha Hw]. cbn [star_lazy].
    rewrite (Hfail a _ Ha), (Hany a Ha). exact (IH Hw).
Qed.

Lemma star_greedy_last (c : cclass) (rest : string)
    (k : string -> option R) :
  (forall w1 w2, rest = (w1 ++ w2)%string -> w1 <> EmptyString ->
                 k w2 = None) ->
  star_greedy c rest k = k rest.
Proof.
  induction rest as [| a rest IH]; intro Hfail; cbn [star_greedy];
    [reflexivity |].
  destruct (cclass_matches c a); [| reflexivity].
  rewrite IH.
  - rewrite (Hfail (String a EmptyString) rest eq_refl ltac:(discriminate)).
    reflexivity.
  - intros w1 w2 -> Hne.
    apply (Hfail (String a w1) w2 eq_refl). discriminate.
Qed.

Lemma star_greedy_longest (c : cclass) (w rest : string)
    (k : string -> option R) x :
  all_chars (cclass_matches c) w = true ->
  (forall w1 w2, rest = (w1 ++ w2)%string -> w1 <> EmptyString ->
                 k w2 = None) ->
  k rest = Some x -> star_greedy c (w ++ rest) k = Some x.
Proof.
  intros Hw Hfail Hk. induction w as [| a w IH]; cbn [append].
  - rewrite (star_greedy_last c rest k Hfail). exact Hk.
  - cbn [all_chars] in Hw. apply Bool.andb_true_iff in Hw.
    destruct Hw as [Ha Hw]. cbn [star_greedy]. rewrite Ha, (IH Hw).
    reflexivity.
Qed.

(** *** In a sequence *)

Lemma cat_group (name : string) (r r' : regex) (rs : list regex)
    (s : string) (caps : captures) k x :
  run r s caps
    (fun s' caps' =>
       run (Cat (r' :: rs)) s' ((name, consumed s s') :: caps') k) = Some x ->
  run (Cat (Group name r :: r' :: rs)) s caps k = Some x.
Proof. intro H. exact H. Qed.

Lemma cat_chr (c : cclass) (r' : regex) (rs : list regex) (a : ascii)
    (rest : string) (caps : captures) k x :
  cclass_matches c a = true ->
  run (Cat (r' :: rs)) rest caps k = Some x ->
  run (Cat (Chr c :: r' :: rs)) (String a rest) caps k = Some x.
Proof.
  intros Ha H. change (run (Chr c) (String a rest) caps
                         (fun s' caps' => run (Cat (r' :: rs)) s' caps' k)
                       = Some x).
  cbn [run]. rewrite Ha. exact H.
Qed.

Lemma cat_chr_fails (c : cclass) (r' : regex) (rs : list regex) (a : ascii)
    (rest : string) (caps : captures) k :
  cclass_matches c a = false ->
  run (Cat (Chr c :: r' :: rs)) (String a rest) caps k = None.
Proof.
  intro Ha. change (run (Chr c) (String a rest) caps
                      (fun s' caps' => run (Cat (r' :: rs)) s' caps' k)
                    = None).
  cbn [run]. rewrite Ha. reflexivity.
Qed.

Lemma cat_plus (c : cclass) (r' : regex) (rs : list regex) (w rest : string)
    (caps : captures) k x :
  not_empty w = true -> all_chars (cclass_matches c) w = true ->
  starts_outside (cclass_matches c) rest ->
  run (Cat (r' :: rs)) rest caps k = Some x ->
  run (Cat (Plus c true :: r' :: rs)) (w ++ rest) caps k = Some x.
Proof.
  intros Hne Hw Hr H. destruct w as [| a w]; [discriminate |].
  cbn [all_chars] in Hw. apply Bool.andb_true_iff in Hw.
  destruct Hw as [Ha Hw].
  change (run (Chr c) (String a (w ++ rest)) caps
            (fun s1 caps1 =>
               star_greedy c s1
                 (fun s' => run (Cat (r' :: rs)) s' caps1 k)) = Some x).
  cbn [run]. rewrite Ha.
  apply star_greedy_all; assumption.
Qed.

Lemma cat_plus_fails (c : cclass) (g : bool) (r' : regex) (rs : list regex)
    (a : ascii) (rest : string) (caps : captures) k :
  cclass_matches c a = false ->
  run (Cat (Plus c g :: r' :: rs)) (String a rest) caps k = None.
Proof.
  intro Ha.
  change (run (Chr c) (String a rest) caps
            (fun s1 caps1 =>
               run (Star c g) s1 caps1
                 (fun s' caps' => run (Cat (r' :: rs)) s' caps' k)) = None).
  cbn [run]. rewrite Ha. reflexivity.
Qed.

Lemma cat_lazy (p : ascii -> bool) (name : string) (r' : regex)
    (rs : list regex) (w rest : string) (caps : captures) k x :
  all_chars p w = true ->
  (forall a, p a = true -> cclass_matches Any a = true) ->
  (forall a s caps', p a = true ->
                     run (Cat (r' :: rs)) (String a s) caps' k = None) ->
  run (Cat (r' :: rs)) rest ((name, w) :: caps) k = Some x ->
  run (Cat (Group name (Star Any false) :: r' :: rs)) (w ++ rest) caps k
  = Some x.
Proof.
  intros Hw Hany Hfail H.
  change (star_lazy Any (w ++ rest)
            (fun s' =>
               run (Cat (r' :: rs)) s'
                 ((name, consumed (w ++ rest) s') :: caps) k) = Some x).
  apply (star_lazy_field p); try assumption.
  - intros a s Ha. apply Hfail. exact Ha.
  - rewrite consumed_append. exact H.
Qed.

Lemma cat_str (w : string) (r' : regex) (rs : list regex) (rest : string)
    (caps : captures) k x :
  run (Cat (r' :: rs)) rest caps k = Some x ->
  run (Cat (Str w :: r' :: rs)) (w ++ rest) caps k = Some x.
Proof.
  intro H.
  change (run (Str w) (w ++ rest) caps
            (fun s' caps' => run (Cat (r' :: rs)) s' caps' k) = Some x).
  induction w as [| a w IH]; cbn [Str append run]; [exact H |].
  cbn [cclass_matches]. rewrite Ascii.eqb_refl. exact IH.
Qed.

(** One to three digits before something that is no digit. *)
Lemma octet_parts (o : string) :
  octet o = true ->
  exists a w, o = String a w /\ is_digit a = true
              /\ all_chars (cclass_matches Digit) w = true
              /\ (String.length w <= 2)%nat.
Proof.
  unfold octet. intro H.
  apply Bool.andb_true_iff in H. destruct H as [H Hl].
  apply Bool.andb_true_iff in H. destruct H as [Hne Hd].
  destruct o as [| a w]; [discriminate |].
  cbn [all_digits] in Hd. apply Bool.andb_true_iff in Hd.
  destruct Hd as [Ha Hw]. apply Nat.leb_le in Hl. cbn [String.length] in Hl.
  exists a, w. split; [reflexivity |]. split; [exact Ha |].
  split; [| lia].
  clear - Hw. induction w as [| b w IH]; [reflexivity |].
  cbn [all_digits] in Hw. apply Bool.andb_true_iff in Hw.
  destruct Hw as [Hb Hw]. cbn [all_chars cclass_matches].
  rewrite Hb, (IH Hw). reflexivity.
Qed.

Lemma cat_octet (r' : regex) (rs : list regex) (o rest : string)
    (caps : captures) k x :
  octet o = true ->
  starts_outside is_digit rest ->
  run (Cat (r' :: rs)) rest caps k = Some x ->
  run (Cat (Chr Digit :: Upto 2 Digit :: r' :: rs)) (o ++ rest) caps k
  = Some x.
Proof.
  intros Ho Hr H. destruct (octet_parts o Ho) as (a & w & -> & Ha & Hw & Hl).
  change (run (Chr Digit) (String a (w ++ rest)) caps
            (fun s1 caps1 =>
               upto 2 Digit s1
                 (fun s' => run (Cat (r' :: rs)) s' caps1 k)) = Some x).
  cbn [run cclass_matches]. rewrite Ha.
  apply upto_all; assumption.
Qed.

Lemma last_octet (o rest : string) (caps : captures) k x :
  octet o = true ->
  starts_outside is_digit rest ->
  k rest caps = Some x ->
  run (Cat [Chr Digit; Upto 2 Digit]) (o ++ rest) caps k = Some x.
Proof.
  intros Ho Hr H. destruct (octet_parts o Ho) as (a & w & -> & Ha & Hw & Hl).
  change (run (Chr Digit) (String a (w ++ rest)) caps
            (fun s1 caps1 => upto 2 Digit s1 (fun s' => k s' caps1))
          = Some x).
  cbn [run cclass_matches]. rewrite Ha.
  apply upto_all; assumption.
Qed.

(** *** Double quotes *)

Lemma count_quotes_app (a b : string) :
  count_quotes (a ++ b) = (count_quotes a + count_quotes b)%nat.
Proof.
  induction a as [| c a IH]; cbn [append count_quotes]; [reflexivity |].
  rewrite IH. lia.
Qed.

Lemma count_quotes_none (p : ascii -> bool) (s : string) :
  (forall a, p a = true -> Ascii.eqb a dquote = false) ->
  all_chars p s = true -> count_quotes s = 0%nat.
Proof.
  intro H. induction s as [| a s IH]; cbn [all_chars count_quotes];
    [reflexivity |].
  intro Hs. apply Bool.andb_true_iff in Hs. destruct Hs as [Ha Hs].
  rewrite (H a Ha), (IH Hs). reflexivity.
Qed.

Lemma matches_quotes (r : regex) (s : string) (caps : captures)
    (s' : string) (caps' : captures) :
  matches r s caps s' caps' ->
  (min_quotes r + count_quotes s' <= count_quotes s)%nat.
Proof.
  induction 1 as [ s caps | c a s caps Ha | c g s caps
                 | c g a s s' caps Ha Hm IH | n c s caps
                 | n c a s s' caps Ha Hm IH
                 | r1 r2 s caps s1 caps1 s2 caps2 Hm1 IH1 Hm2 IH2
                 | r s caps s' caps' Hm IH | r s caps
                 | name r s caps s' caps' Hm IH | caps | caps ];
    cbn [min_quotes count_quotes] in *; try lia.
  destruct c as [| | | l]; cbn [cclass_matches] in Ha; try lia.
  apply Ascii.eqb_eq in Ha. subst a. destruct (Ascii.eqb l dquote); lia.
Qed.

Lemma too_few_quotes (r : regex) (s : string) (caps : captures) k :
  (count_quotes s < min_quotes r)%nat -> run r s caps k = None.
Proof.
  intro H. destruct (run r s caps k) as [x |] eqn:E; [| reflexivity].
  apply run_sound in E. destruct E as (s' & caps' & Hm & _).
  apply matches_quotes in Hm. lia.
Qed.

Lemma cat_greedy (name : string) (r' : regex) (rs : list regex)
    (w rest : string) (caps : captures) k x :
  all_chars (cclass_matches Any) w = true ->
  (forall w1 w2 caps', rest = (w1 ++ w2)%string -> w1 <> EmptyString ->
                       run (Cat (r' :: rs)) w2 caps' k = None) ->
  run (Cat (r' :: rs)) rest ((name, w) :: caps) k = Some x ->
  run (Cat (Group name (Star Any true) :: r' :: rs)) (w ++ rest) caps k
  = Some x.
Proof.
  intros Hw Hfail H.
  change (star_greedy Any (w ++ rest)
            (fun s' =>
               run (Cat (r' :: rs)) s'
                 ((name, consumed (w ++ rest) s') :: caps) k) = Some x).
  apply star_greedy_longest; try assumption.
  - intros w1 w2 E Hne. exact (Hfail w1 w2 _ E Hne).
  - rewrite consumed_append. exact H.
Qed.

Lemma cat_opt_skip (r r' : regex) (rs : list regex) (s : string)
    (caps : captures) k x :
  run r s caps (fun s' caps' => run (Cat (r' :: rs)) s' caps' k) = None ->
  run (Cat (r' :: rs)) s caps k = Some x ->
  run (Cat (Opt r :: r' :: rs)) s caps k = Some x.
Proof.
  intros Hr H.
  change (match run r s caps
                  (fun s' caps' => run (Cat (r' :: rs)) s' caps' k) with
          | Some y => Some y
          | None => run (Cat (r' :: rs)) s caps k
          end = Some x).
  rewrite Hr. exact H.
Qed.

Lemma cat_opt_take (r r' : regex) (rs : list regex) (s : string)
    (caps : captures) k x :
  run r s caps (fun s' caps' => run (Cat (r' :: rs)) s' caps' k) = Some x ->
  run (Cat (Opt r :: r' :: rs)) s caps k = Some x.
Proof.
  intro Hr.
  change (match run r s caps
                  (fun s' caps' => run (Cat (r' :: rs)) s' caps' k) with
          | Some y => Some y
          | None => run (Cat (r' :: rs)) s caps k
          end = Some x).
  rewrite Hr. reflexivity.
Qed.

Lemma cat_opt_fails (r r' : regex) (rs : list regex) (s : string)
    (caps : captures) k :
  run r s caps (fun s' caps' => run (Cat (r' :: rs)) s' caps' k) = None ->
  run (Cat (r' :: rs)) s caps k = None ->
  run (Cat (Opt r :: r' :: rs)) s caps k = None.
Proof.
  intros Hr H.
  change (match run r s caps
                  (fun s' caps' => run (Cat (r' :: rs)) s' caps' k) with
          | Some y => Some y
          | None => run (Cat (r' :: rs)) s caps k
          end = None).
  rewrite Hr. exact H.
Qed.

(** A group that starts with blanks does not match before another
    character. *)
Lemma group_plus_fails (name : string) (c : cclass) (g : bool) (r1 : regex)
    (rs1 : list regex) (a : ascii) (rest : string) (caps : captures) k :
  cclass_matches c a = false ->
  run (Group name (Cat (Plus c g :: r1 :: rs1))) (String a rest) caps k
  = None.
Proof.
  intro Ha.
  change (run (Cat (Plus c g :: r1 :: rs1)) (String a rest) caps
            (fun s' caps' =>
               k s' ((name, consumed (String a rest) s') :: caps')) = None).
  apply cat_plus_fails. exact Ha.
Qed.

Lemma group_run (name : string) (r : regex) (s : string) (caps : captures)
    k x :
  run r s caps (fun s' caps' => k s' ((name, consumed s s') :: caps'))
  = Some x ->
  run (Group name r) s caps k = Some x.
Proof. intro H. exact H. Qed.

Lemma last_group (name : string) (r : regex) (s : string) (caps : captures)
    k x :
  run r s caps (fun s' caps' => k s' ((name, consumed s s') :: caps'))
  = Some x ->
  run (Cat [Group name r]) s caps k = Some x.
Proof. intro H. exact H. Qed.

Lemma last_greedy (w rest : string) (caps : captures) k x :
  all_chars (cclass_matches Any) w = true ->
  (forall w1 w2, rest = (w1 ++ w2)%string -> w1 <> EmptyString ->
                 k w2 caps = None) ->
  k rest caps = Some x ->
  run (Cat [Star Any true]) (w ++ rest) caps k = Some x.
Proof.
  intros Hw Hfail H.
  change (star_greedy Any (w ++ rest) (fun s' => k s' caps) = Some x).
  apply star_greedy_longest; assumption.
Qed.

End Steps.

(** ** Characters *)

Lemma space_not_any (a : ascii) :
  is_space a = false -> cclass_matches Any a = true.
Proof.
  intro H. cbn [cclass_matches].
  destruct (Ascii.eqb a "010") eqn:E; [| reflexivity].
  apply Ascii.eqb_eq in E. subst a. discriminate H.
Qed.

Lemma token_char_facts (a : ascii) :
  token_char a = true ->
  is_space a = false /\ Ascii.eqb a dquote = false
  /\ cclass_matches Any a = true.
Proof.
  unfold token_char. intro H. apply Bool.andb_true_iff in H.
  destruct H as [H1 H2]. apply Bool.negb_true_iff in H1, H2.
  split; [exact H1 |]. split; [exact H2 |]. apply space_not_any. exact H1.
Qed.

Lemma quoted_char_facts (a : ascii) :
  quoted_char a = true ->
  Ascii.eqb a dquote = false /\ cclass_matches Any a = true.
Proof.
  unfold quoted_char. intro H. apply Bool.andb_true_iff in H.
  destruct H as [H1 H2]. apply Bool.negb_true_iff in H2.
  split; [exact H2 | exact H1].
Qed.

Lemma bracketed_char_facts (a : ascii) :
  bracketed_char a = true ->
  Ascii.eqb a "]" = false /\ cclass_matches Any a = true.
Proof.
  unfold bracketed_char. intro H. apply Bool.andb_true_iff in H.
  destruct H as [H1 H2]. apply Bool.negb_true_iff in H2.
  split; [exact H2 | exact H1].
Qed.

Lemma digit_facts (a : ascii) :
  is_digit a = true ->
  is_space a = false /\ Ascii.eqb a dquote = false
  /\ Ascii.eqb a "." = false.
Proof.
  destruct a as [[] [] [] [] [] [] [] []]; vm_compute; intro H;
    try discriminate H; repeat split.
Qed.

Lemma space_facts (a : ascii) :
  is_space a = true -> is_digit a = false /\ Ascii.eqb a dquote = false.
Proof.
  destruct a as [[] [] [] [] [] [] [] []]; vm_compute; intro H;
    try discriminate H; repeat split.
Qed.

(** ** Fields *)

Lemma token_facts (w : string) :
  token w = true ->
  not_empty w = true /\ all_chars token_char w = true
  /\ all_chars (fun a => negb (is_space a)) w = true
  /\ count_quotes w = 0%nat.
Proof.
  unfold token. intro H. apply Bool.andb_true_iff in H. destruct H as [Hn H].
  split; [exact Hn |]. split; [exact H |]. split.
  - apply (all_chars_impl token_char); [| exact H].
    intros a Ha. apply token_char_facts in Ha. destruct Ha as (Ha & _).
    rewrite Ha. reflexivity.
  - apply (count_quotes_none token_char); [| exact H].
    intros a Ha. apply token_char_facts in Ha. tauto.
Qed.

Lemma blanks_facts (w : string) :
  blanks w = true ->
  not_empty w = true /\ all_chars (cclass_matches Space) w = true
  /\ all_chars (fun a => negb (is_digit a)) w = true
  /\ count_quotes w = 0%nat.
Proof.
  unfold blanks. intro H. apply Bool.andb_true_iff in H. destruct H as [Hn H].
  split; [exact Hn |]. split; [exact H |]. split.
  - apply (all_chars_impl is_space); [| exact H].
    intros a Ha. apply space_facts in Ha. destruct Ha as (Ha & _).
    rewrite Ha. reflexivity.
  - apply (count_quotes_none is_space); [| exact H].
    intros a Ha. apply space_facts in Ha. tauto.
Qed.

Lemma quoted_facts (w : string) :
  quoted_text w = true ->
  all_chars (cclass_matches Any) w = true /\ count_quotes w = 0%nat.
Proof.
  unfold quoted_text. intro H. split.
  - apply (all_chars_impl quoted_char); [| exact H].
    intros a Ha. apply quoted_char_facts in Ha. tauto.
  - apply (count_quotes_none quoted_char); [| exact H].
    intros a Ha. apply quoted_char_facts in Ha. tauto.
Qed.

Lemma digits_facts (w : string) :
  all_digits w = true ->
  all_chars (cclass_matches Digit) w = true /\ count_quotes w = 0%nat.
Proof.
  induction w as [| a w IH]; cbn [all_digits all_chars count_quotes];
    [split; reflexivity |].
  intro H. apply Bool.andb_true_iff in H. destruct H as [Ha Hw].
  destruct (IH Hw) as [IH1 IH2]. cbn [cclass_matches]. rewrite Ha, IH1, IH2.
  destruct (digit_facts a Ha) as (_ & Hq & _). rewrite Hq.
  split; reflexivity.
Qed.

Lemma decimal_facts (w : string) :
  decimal_text w ->
  count_quotes w = 0%nat
  /\ forall rest, starts_outside is_space (w ++ rest).
Proof.
  intros (a & ds & ds' & Ha & Hds & Hds' & Hw).
  destruct (digit_facts a Ha) as (Hs & Hq & _).
  destruct (digits_facts ds Hds) as (_ & Hc).
  destruct (digits_facts ds' Hds') as (_ & Hc').
  split.
  - destruct Hw as [-> | ->]; cbn [count_quotes];
      rewrite Hq, count_quotes_app; cbn [count_quotes];
      rewrite Hc, Hc'; reflexivity.
  - intro rest. destruct Hw as [-> | ->]; cbn [append starts_outside];
      exact Hs.
Qed.

(** ** The last group *)

Lemma request_time_run {R : Type} (w ending : string) (caps : captures)
    (k : string -> captures -> option R) (x : R) :
  decimal_text w ->
  ending = EmptyString \/ ending = newline ->
  k ending caps = Some x ->
  run request_time_pattern (w ++ ending) caps k = Some x.
Proof.
  intros (a & ds & ds' & Ha & Hds & Hds' & Hw) Hend Hk.
  destruct (digits_facts ds Hds) as (Hd & _).
  destruct (digits_facts ds' Hds') as (Hd' & _).
  assert (Hout : starts_outside is_digit ending)
    by (destruct Hend as [-> | ->]; [exact I | reflexivity]).
  unfold request_time_pattern. destruct Hw as [-> | ->].
  - apply (cat_plus Digit _ _ (String a (ds ++ ds')) ending).
    + reflexivity.
    + cbn [all_chars cclass_matches]. rewrite Ha.
      apply digits_facts. apply all_digits_append; assumption.
    + exact Hout.
    + destruct Hend as [-> | ->]; exact Hk.
  - replace (String a (ds ++ String "." ds') ++ ending)%string
      with (String a ds ++ String "." (ds' ++ ending))%string
      by (cbn [append]; rewrite append_assoc; reflexivity).
    apply (cat_plus Digit _ _ (String a ds) (String "." (ds' ++ ending))).
    + reflexivity.
    + cbn [all_chars cclass_matches]. rewrite Ha. exact Hd.
    + reflexivity.
    + apply cat_opt_take.
      change (star_greedy Digit (ds' ++ ending) (fun s' => k s' caps)
              = Some x).
      apply star_greedy_all; assumption.
Qed.

(** ** The match of a documented line *)

Lemma suffix_quotes (a : ascii) (rest w1 w2 : string) :
  String a rest = (w1 ++ w2)%string -> w1 <> EmptyString ->
  (count_quotes w2 <= count_quotes rest)%nat.
Proof.
  intros E Hne. destruct w1 as [| b w1]; [contradiction |].
  cbn [append] in E. injection E as _ ->. rewrite count_quotes_app. lia.
Qed.

Lemma documented_match (f : Fields.t) (gap : nat -> string)
    (ending : string) :
  documented f -> (forall i, blanks (gap i) = true) ->
  ending = EmptyString \/ ending = newline ->
  exists caps,
    match_ NGINX_LOG_FORMAT_REGEXP (documented_line f gap ++ ending)
    = Some caps
    /\ group caps "path" = Some (Fields.path f)
    /\ group caps "request_time" = Some (Fields.request_time f).
Proof.
  destruct f as [[[[o1 o2] o3] o4] user realip tl method path ver status
                   bytes referer agent xff rid rb time].
  unfold documented, documented_line.
  cbn [Fields.octets Fields.remote_user Fields.http_x_real_ip
       Fields.time_local Fields.request_method Fields.path
       Fields.request_version Fields.status Fields.body_bytes_sent
       Fields.http_referer Fields.user_agent Fields.http_x_forwarded_for
       Fields.http_X_REQUEST_ID Fields.http_X_RB_USER Fields.request_time].
  intros ((Ho1 & Ho2 & Ho3 & Ho4) & Huser & Hrealip & Htl & Hmethod & Hpath
          & Hver & Hstatus & Hbytes & Hreferer & Hagent & Hxff & Hrid & Hrb
          & Htime) Hgap Hend.
  assert (Hg : forall i,
             not_empty (gap i) = true
             /\ all_chars (cclass_matches Space) (gap i) = true
             /\ all_chars (fun a => negb (is_digit a)) (gap i) = true
             /\ count_quotes (gap i) = 0%nat)
    by (intro i; apply blanks_facts; apply Hgap).
  destruct (token_facts user Huser) as (Hu1 & Hu2 & Hu3 & Hu4).
  destruct (token_facts realip Hrealip) as (Hr1 & Hr2 & Hr3 & Hr4).
  destruct (token_facts method Hmethod) as (Hm1 & Hm2 & Hm3 & Hm4).
  destruct (token_facts path Hpath) as (Hp1 & Hp2 & Hp3 & Hp4).
  destruct (token_facts status Hstatus) as (Hs1 & Hs2 & Hs3 & Hs4).
  destruct (token_facts bytes Hbytes) as (Hb1 & Hb2 & Hb3 & Hb4).
  destruct (quoted_facts referer Hreferer) as (Hre1 & Hre2).
  destruct (quoted_facts agent Hagent) as (Hag1 & Hag2).
  destruct (quoted_facts xff Hxff) as (Hx1 & Hx2).
  destruct (quoted_facts rid Hrid) as (Hri1 & Hri2).
  destruct (quoted_facts rb Hrb) as (Hrb1 & Hrb2).
  destruct (decimal_facts time Htime) as (Ht1 & Ht2).
  assert (He : count_quotes ending = 0%nat)
    by (destruct Hend as [-> | ->]; reflexivity).
  assert (Hfail_blank :
            forall (a : ascii), token_char a = true ->
                                cclass_matches Space a = false)
    by (intros a Ha; apply token_char_facts in Ha; tauto).
  assert (Hfail_quote :
            forall (a : ascii), quoted_char a = true ->
                                cclass_matches (Lit dquote) a = false)
    by (intros a Ha; apply quoted_char_facts in Ha; tauto).
  assert (Hany_token :
            forall a, token_char a = true -> cclass_matches Any a = true)
    by (intros a Ha; apply token_char_facts in Ha; tauto).
  assert (Hany_quoted :
            forall a, quoted_char a = true -> cclass_matches Any a = true)
    by (intros a Ha; apply quoted_char_facts in Ha; tauto).
  (* from the end of the request to the end of the line *)
  assert (Htail :
    forall caps,
      run
        (Cat
           [Chr (Lit dquote); Plus Space true;
            Group "status" (Star Any false); Plus Space true;
            Group "body_bytes_sent" (Star Any false); Plus Space true;
            Chr (Lit dquote); Group "http_referer" (Star Any false);
            Chr (Lit dquote); Plus Space true;
            Chr (Lit dquote); Group "user_agent" (Star Any false);
            Chr (Lit dquote); Plus Space true;
            Chr (Lit dquote); Group "http_x_forwarded_for" (Star Any false);
            Chr (Lit dquote); Plus Space true;
            Chr (Lit dquote); Group "http_X_REQUEST_ID" (Star Any false);
            Chr (Lit dquote); Plus Space true;
            Chr (Lit dquote); Group "http_X_RB_USER" (Star Any true);
            Chr (Lit dquote); Plus Space true;
            Group "request_time" request_time_pattern])
        (String dquote
           (gap 6%nat ++ status ++ gap 7%nat ++ bytes ++ gap 8%nat
            ++ String dquote
                 (referer
                  ++ String dquote
                       (gap 9%nat
                        ++ String dquote
                             (agent
                              ++ String dquote
                                   (gap 10%nat
                                    ++ String dquote
                                         (xff
                                          ++ String dquote
                                               (gap 11%nat
                                                ++ String dquote
                                                     (rid
                                                      ++ String dquote
                                                           (gap 12%nat
                                                            ++ String dquote
                                                                 (rb
                                                                  ++ String dquote
                                                                       (gap 13%nat ++ time ++ ending))))))))))))
        caps (fun _ caps' => Some caps')
      = Some (("request_time", time) :: ("http_X_RB_USER", rb)
              :: ("http_X_REQUEST_ID", rid) :: ("http_x_forwarded_for", xff)
              :: ("user_agent", agent) :: ("http_referer", referer)
              :: ("body_bytes_sent", bytes) :: ("status", status) :: caps)).
  { intro caps.
    apply cat_chr; [reflexivity |].
    apply cat_plus;
      [apply Hg | apply Hg | exact (starts_outside_app is_space _ _ Hs1 Hs3) |].
    apply (cat_lazy token_char);
      [exact Hs2 | exact Hany_token
       | intros a s c Ha; apply cat_plus_fails; exact (Hfail_blank a Ha) |].
    apply cat_plus;
      [apply Hg | apply Hg | exact (starts_outside_app is_space _ _ Hb1 Hb3) |].
    apply (cat_lazy token_char);
      [exact Hb2 | exact Hany_token
       | intros a s c Ha; apply cat_plus_fails; exact (Hfail_blank a Ha) |].
    apply cat_plus; [apply Hg | apply Hg | reflexivity |].
    apply cat_chr; [reflexivity |].
    apply (cat_lazy quoted_char);
      [exact Hreferer | exact Hany_quoted
       | intros a s c Ha; apply cat_chr_fails; exact (Hfail_quote a Ha) |].
    apply cat_chr; [reflexivity |].
    apply cat_plus; [apply Hg | apply Hg | reflexivity |].
    apply cat_chr; [reflexivity |].
    apply (cat_lazy quoted_char);
      [exact Hagent | exact Hany_quoted
       | intros a s c Ha; apply cat_chr_fails; exact (Hfail_quote a Ha) |].
    apply cat_chr; [reflexivity |].
    apply cat_plus; [apply Hg | apply Hg | reflexivity |].
    apply cat_chr; [reflexivity |].
    apply (cat_lazy quoted_char);
      [exact Hxff | exact Hany_quoted
       | intros a s c Ha; apply cat_chr_fails; exact (Hfail_quote a Ha) |].
    apply cat_chr; [reflexivity |].
    apply cat_plus; [apply Hg | apply Hg | reflexivity |].
    apply cat_chr; [reflexivity |].
    apply (cat_lazy quoted_char);
      [exact Hrid | exact Hany_quoted
       | intros a s c Ha; apply cat_chr_fails; exact (Hfail_quote a Ha) |].
    apply cat_chr; [reflexivity |].
    apply cat_plus; [apply Hg | apply Hg | reflexivity |].
    apply cat_chr; [reflexivity |].
    apply cat_greedy; [exact Hrb1 | |].
    { intros w1 w2 c E Hne. apply too_few_quotes.
      pose proof (suffix_quotes _ _ _ _ E Hne) as Hq.
      rewrite !count_quotes_app in Hq.
      rewrite (proj2 (proj2 (proj2 (Hg 13%nat)))), Ht1, He in Hq.
      apply Nat.le_lt_trans with 0%nat; [exact Hq |].
      vm_compute. lia. }
    apply cat_chr; [reflexivity |].
    apply cat_plus; [apply Hg | apply Hg | apply Ht2 |].
    apply last_group. apply request_time_run; [exact Htime | exact Hend |].
    rewrite consumed_append. reflexivity. }
  assert (Htail_quotes :
            forall w1 w2,
              String dquote
                (gap 6%nat ++ status ++ gap 7%nat ++ bytes ++ gap 8%nat
                 ++ String dquote
                      (referer
                       ++ String dquote
                            (gap 9%nat
                             ++ String dquote
                                  (agent
                                   ++ String dquote
                                        (gap 10%nat
                                         ++ String dquote
                                              (xff
                                               ++ String dquote
                                                    (gap 11%nat
                                                     ++ String dquote
                                                          (rid
                                                           ++ String dquote
                                                                (gap 12%nat
                                                                 ++ String dquote
                                                                      (rb
                                                                       ++ String dquote
                                                                            (gap 13%nat ++ time ++ ending)))))))))))
              = (w1 ++ w2)%string ->
              w1 <> EmptyString -> (count_quotes w2 <= 10)%nat).
  { intros w1 w2 E Hne. pose proof (suffix_quotes _ _ _ _ E Hne) as Hq.
    repeat (rewrite count_quotes_app in Hq || cbn [count_quotes] in Hq).
    rewrite !(proj2 (proj2 (proj2 (Hg _)))) in Hq.
    rewrite Hs4, Hb4, Hre2, Hag2, Hx2, Hri2, Hrb2, Ht1, He in Hq.
    change (Ascii.eqb dquote dquote) with true in Hq. cbn in Hq. exact Hq. }
  assert (Hfail_bracket :
            forall (a : ascii), bracketed_char a = true ->
                                cclass_matches (Lit "]") a = false)
    by (intros a Ha; apply bracketed_char_facts in Ha; tauto).
  assert (Hany_bracketed :
            forall a, bracketed_char a = true -> cclass_matches Any a = true)
    by (intros a Ha; apply bracketed_char_facts in Ha; tauto).
  assert (Hfail_quote' :
            forall (a : ascii), token_char a = true ->
                                cclass_matches (Lit dquote) a = false)
    by (intros a Ha; apply token_char_facts in Ha; tauto).
  unfold quoted.
  destruct ver as [v |];
    repeat (progress (rewrite ?append_assoc; cbn [append]));
    unfold match_, NGINX_LOG_FORMAT_REGEXP, line_fields; cbn [app];
    eexists.
  - destruct (quoted_facts v Hver) as (Hv1 & _). split.
    + apply cat_group;
     apply cat_octet; [exact Ho1 | reflexivity |];
     apply cat_chr; [reflexivity |];
     apply cat_octet; [exact Ho2 | reflexivity |];
     apply cat_chr; [reflexivity |];
     apply cat_octet; [exact Ho3 | reflexivity |];
     apply cat_chr; [reflexivity |];
     apply last_octet; [exact Ho4 | apply starts_outside_app; apply Hg |];
     cbv beta;
     apply cat_plus;
       [apply Hg | apply Hg
        | exact (starts_outside_app is_space _ _ Hu1 Hu3) |];
     apply (cat_lazy token_char);
       [exact Hu2 | exact Hany_token
        | intros a s c Ha; apply cat_plus_fails; exact (Hfail_blank a Ha) |];
     apply cat_plus;
       [apply Hg | apply Hg
        | exact (starts_outside_app is_space _ _ Hr1 Hr3) |];
     apply (cat_lazy token_char);
       [exact Hr2 | exact Hany_token
        | intros a s c Ha; apply cat_plus_fails; exact (Hfail_blank a Ha) |];
     apply cat_plus; [apply Hg | apply Hg | reflexivity |];
     apply cat_chr; [reflexivity |];
     apply (cat_lazy bracketed_char);
       [exact Htl | exact Hany_bracketed
        | intros a s c Ha; apply cat_chr_fails; exact (Hfail_bracket a Ha) |];
     apply cat_chr; [reflexivity |];
     apply cat_plus; [apply Hg | apply Hg | reflexivity |];
     apply cat_chr; [reflexivity |];
     apply (cat_lazy token_char);
       [exact Hm2 | exact Hany_token
        | intros a s c Ha; apply cat_plus_fails; exact (Hfail_blank a Ha) |];
     apply cat_plus;
       [apply Hg | apply Hg
        | exact (starts_outside_app is_space _ _ Hp1 Hp3) |];
     apply (cat_lazy token_char);
       [exact Hp2 | exact Hany_token
        | intros a s c Ha; apply cat_opt_fails;
          [apply group_plus_fails; exact (Hfail_blank a Ha)
          | apply cat_chr_fails; exact (Hfail_quote' a Ha)] |].
      apply cat_opt_take. apply group_run.
      apply cat_plus; [apply Hg | apply Hg | reflexivity |].
      match goal with
      | |- run _ (String _ (String _ (String _ (String _ (String _ ?rest)))))
             _ _ = _ =>
          apply (cat_str "HTTP/" _ _ rest)
      end.
      apply last_greedy; [exact Hv1 | | apply Htail].
      intros w1 w2 E Hne. apply too_few_quotes.
      apply Nat.le_lt_trans with 10%nat;
        [exact (Htail_quotes w1 w2 E Hne) | vm_compute; lia].
    + split; reflexivity.
  - split.
    + apply cat_group;
     apply cat_octet; [exact Ho1 | reflexivity |];
     apply cat_chr; [reflexivity |];
     apply cat_octet; [exact Ho2 | reflexivity |];
     apply cat_chr; [reflexivity |];
     apply cat_octet; [exact Ho3 | reflexivity |];
     apply cat_chr; [reflexivity |];
     apply last_octet; [exact Ho4 | apply starts_outside_app; apply Hg |];
     cbv beta;
     apply cat_plus;
       [apply Hg | apply Hg
        | exact (starts_outside_app is_space _ _ Hu1 Hu3) |];
     apply (cat_lazy token_char);
       [exact Hu2 | exact Hany_token
        | intros a s c Ha; apply cat_plus_fails; exact (Hfail_blank a Ha) |];
     apply cat_plus;
       [apply Hg | apply Hg
        | exact (starts_outside_app is_space _ _ Hr1 Hr3) |];
     apply (cat_lazy token_char);
       [exact Hr2 | exact Hany_token
        | intros a s c Ha; apply cat_plus_fails; exact (Hfail_blank a Ha) |];
     apply cat_plus; [apply Hg | apply Hg | reflexivity |];
     apply cat_chr; [reflexivity |];
     apply (cat_lazy bracketed_char);
       [exact Htl | exact Hany_bracketed
        | intros a s c Ha; apply cat_chr_fails; exact (Hfail_bracket a Ha) |];
     apply cat_chr; [reflexivity |];
     apply cat_plus; [apply Hg | apply Hg | reflexivity |];
     apply cat_chr; [reflexivity |];
     apply (cat_lazy token_char);
       [exact Hm2 | exact Hany_token
        | intros a s c Ha; apply cat_plus_fails; exact (Hfail_blank a Ha) |];
     apply cat_plus;
       [apply Hg | apply Hg
        | exact (starts_outside_app is_space _ _ Hp1 Hp3) |];
     apply (cat_lazy token_char);
       [exact Hp2 | exact Hany_token
        | intros a s c Ha; apply cat_opt_fails;
          [apply group_plus_fails; exact (Hfail_blank a Ha)
          | apply cat_chr_fails; exact (Hfail_quote' a Ha)] |].
      apply cat_opt_skip; [apply group_plus_fails; reflexivity | apply Htail].
    + split; reflexivity.
Qed.

End LineFacts.

(** C5. For every line, [process_line] returns a record exactly when
    [NGINX_LOG_FORMAT_REGEXP] matches at the start of the line: the path of
    the record is the text of the group [path] of that match and its request
    time is [float] of the text of the group [request_time], a decimal
    number, so that it is [>= 0]. It returns [None] for every other line,
    and it raises nothing. For every line of the documented format, with
    any blanks between the fields and with or without the line end, the
    record holds the path token of the request, which is not empty, and the
    float of the request time. *)
Theorem process_line_total (line : string) :
  (matches_at_start NGINX_LOG_FORMAT_REGEXP line ->
   exists caps path text duration,
     match_ NGINX_LOG_FORMAT_REGEXP line = Some caps
     /\ group caps "path" = Some path
     /\ group caps "request_time" = Some text
     /\ decimal_text text
     /\ float_of_str text = Ok duration
     /\ nonneg duration = true
     /\ process_line line = Ok (Some (path, duration)))
  /\ (~ matches_at_start NGINX_LOG_FORMAT_REGEXP line ->
      process_line line = Ok None)
  /\ (exists r, process_line line = Ok r)
  /\ (forall (f : Fields.t) (gap : nat -> string) (ending : string),
        documented f -> (forall i, blanks (gap i) = true) ->
        ending = EmptyString \/ ending = newline ->
        line = (documented_line f gap ++ ending)%string ->
        exists duration,
          float_of_str (Fields.request_time f) = Ok duration
          /\ nonneg duration = true
          /\ Fields.path f <> EmptyString
          /\ process_line line = Ok (Some (Fields.path f, duration))).
Proof.
  split; [| split; [| split]].
  - intro Hm. apply ReFacts.match_some_iff in Hm.
    destruct (match_ NGINX_LOG_FORMAT_REGEXP line) as [caps |] eqn:E;
      [| contradiction].
    destruct (ReFacts.match_sound _ _ _ E) as (s' & Hs).
    apply ReFacts.matches_line_captures in Hs.
    destruct Hs as (u & t & Hu & Ht & Hdec).
    destruct (ReFacts.float_of_str_decimal t Hdec) as (d & Hd & Hnn).
    exists caps, u, t, d. split; [reflexivity |].
    repeat (split; [assumption |]).
    unfold process_line. rewrite E, Hu, Ht, Hd. reflexivity.
  - intro Hn. destruct (process_line_cases line) as [[E _] | (u & t & _ & _ & Hm)];
      [exact E | contradiction].
  - destruct (process_line_cases line) as [[E _] | (u & t & E & _)]; eauto.
  - intros f gap ending Hdoc Hgap Hend ->.
    destruct (LineFacts.documented_match f gap ending Hdoc Hgap Hend)
      as (caps & E & Hu & Ht).
    assert (Hdec : decimal_text (Fields.request_time f))
      by (unfold documented in Hdoc; tauto).
    assert (Hpath : token (Fields.path f) = true)
      by (unfold documented in Hdoc; tauto).
    destruct (ReFacts.float_of_str_decimal _ Hdec) as (d & Hd & Hnn).
    exists d. split; [exact Hd |]. split; [exact Hnn |]. split.
    + intro Hp. rewrite Hp in Hpath. discriminate Hpath.
    + unfold process_line. rewrite E, Hu, Ht, Hd. reflexivity.
Qed.

Lemma process_line_total_witness :
  exists duration,
    float_of_str "0.1" = Ok duration
    /\ nonneg duration = true
    /\ "/a" <> EmptyString
    /\ process_line (log_line "/a" "0.1") = Ok (Some ("/a", duration)).
Proof.
  apply (proj2 (proj2 (proj2 (process_line_total (log_line "/a" "0.1"))))
           {| Fields.octets := ("1", "196", "116", "32");
              Fields.remote_user := "-";
              Fields.http_x_real_ip := "-";
              Fields.time_local := "29/Jun/2017:03:50:22 +0300";
              Fields.request_method := "GET";
              Fields.path := "/a";
              Fields.request_version := Some "1.1";
              Fields.status := "200";
              Fields.body_bytes_sent := "927";
              Fields.http_referer := "-";
              Fields.user_agent := "Lynx/2.8.8dev.9 libwww-FM/2.14";
              Fields.http_x_forwarded_for := "-";
              Fields.http_X_REQUEST_ID := "1498697422-2190034393-4708-9752759";
              Fields.http_X_RB_USER := "dc7161be3";
              Fields.request_time := "0.1" |}
           (fun i => if Nat.eqb i 1 then "  " else " ")
           newline).
  - unfold documented. cbn.
    split; [repeat split |]. repeat (split; [reflexivity |]).
    exists "0"%char, EmptyString, "1". repeat (split; [reflexivity |]).
    right. reflexivity.
  - intro i. destruct (Nat.eqb i 1); reflexivity.
  - right. reflexivity.
  - reflexivity.
Defined.
(** * The shares add up *)

Module Shares.

Import FloatFacts Rounding Sums.

Lemma unit_one_large : 2 ^ 100 <= unit_one.
Proof. unfold unit_one. apply Z.pow_le_mono_r; lia. Qed.

(** [round(q * 100, 3)] is within 0.0005 (and a little) of [100 q]. *)
Lemma percent_units (q : float) :
  fin q -> 0 <= units q -> units q <= 4 * unit_one ->
  exists r,
    percent q = Ok r /\ fin r /\ 0 <= units r
    /\ Z.abs (units r - 100 * units q) * (1000 * 2 ^ 20)
       <= unit_one * (2 ^ 19 + 1).
Proof.
  intros Hf Hq Hq4.
  pose proof unit_one_large as HU.
  assert (HU' : 4 * unit_one < 2 ^ 2090).
  { unfold unit_one. change 4 with (2 ^ 2). rewrite <- Z.pow_add_r by lia.
    apply Z.pow_lt_mono_r; lia. }
  destruct (mul_int_100_units q Hf Hq ltac:(lia))
    as (p & Hp & Hfp & Hp0 & Hpe).
  change (2 ^ 100) with 1267650600228229401496703205376 in HU.
  change (2 ^ 52) with 4503599627370496 in Hpe.
  assert (Hpb : units p <= 2 ^ 950 * unit_one).
  { apply (Z.le_trans _ (2 ^ 20 * unit_one));
      [change (2 ^ 20) with 1048576; lia |].
    apply Z.mul_le_mono_nonneg_r; [lia | apply Z.pow_le_mono_r; lia]. }
  destruct (round3_units p Hfp Hp0 Hpb)
    as (r & k & Hr & Hfr & Hr0 & Hk0 & Hk1 & Hk2).
  exists r. unfold percent. rewrite Hp. cbn [bind].
  split; [exact Hr |]. split; [exact Hfr |]. split; [exact Hr0 |].
  change (2 ^ 50) with 1125899906842624 in Hk2.
  change (2 ^ 62) with 4611686018427387904 in Hk2.
  change (2 ^ 20) with 1048576 in *. change (2 ^ 19) with 524288.
  set (U := unit_one) in *. clearbody U.
  replace (2 * k * U) with (2 * (k * U)) in Hk1 by ring.
  set (W := k * U) in *. clearbody W.
  lia.
Qed.

(** One share: the quotient [q] of [n] by [d], correctly rounded, is
    reported within [1 / 1900] of [100 n / d]. *)
Lemma share_entry (q r : float) (n d : Z) :
  0 < d -> 0 <= n <= 2 * d ->
  fin q -> 0 <= units q ->
  Z.abs (units q * d - n * unit_one) * 2 ^ 50
  <= n * unit_one + 2 ^ 52 * d ->
  percent q = Ok r ->
  fin r /\ 0 <= units r
  /\ Z.abs (d * units r - 100 * n * unit_one) * 1900 <= d * unit_one.
Proof.
  intros Hd Hn Hf Hq0 Hq Hr.
  pose proof unit_one_large as HU.
  change (2 ^ 100) with 1267650600228229401496703205376 in HU.
  change (2 ^ 50) with 1125899906842624 in Hq.
  change (2 ^ 52) with 4503599627370496 in Hq.
  set (U := unit_one) in *.
  assert (HnU : 0 <= n * U <= 2 * (d * U)) by nia.
  assert (HdU : d * 1267650600228229401496703205376 <= d * U) by nia.
  assert (Hq4 : units q <= 4 * U).
  { assert (units q * d <= 4 * U * d); [| nia].
    replace (4 * U * d) with (4 * (d * U)) by ring.
    set (X := units q * d) in *. set (Y := n * U) in *.
    set (Z := d * U) in *. lia. }
  destruct (percent_units q Hf Hq0 Hq4) as (r' & Hr' & Hfr & Hr0 & He).
  rewrite Hr in Hr'. injection Hr' as <-.
  split; [exact Hfr |]. split; [exact Hr0 |].
  fold U in He. change (2 ^ 20) with 1048576 in He.
  change (2 ^ 19) with 524288 in He.
  assert (Ha : Z.abs (d * units r - 100 * (units q * d)) * 1048576000
               <= d * U * 524289).
  { replace (d * units r - 100 * (units q * d))
      with (d * (units r - 100 * units q)) by ring.
    rewrite Z.abs_mul, (Z.abs_eq d) by lia.
    replace (d * U * 524289) with (d * (U * 524289)) by ring.
    rewrite <- Z.mul_assoc. apply Z.mul_le_mono_nonneg_l; [lia | exact He]. }
  replace (100 * n * U) with (100 * (n * U)) by ring.
  set (X := units q * d) in *. set (Y := n * U) in *.
  set (Z := d * U) in *. set (V := d * units r) in *.
  clearbody X Y Z V. lia.
Qed.

(** ** Sums over the dictionary *)

Lemma total_units_app (l1 l2 : list float) :
  total_units (l1 ++ l2) = total_units l1 + total_units l2.
Proof.
  unfold total_units.
  induction l1 as [| x l1 IH]; cbn [app fold_right]; lia.
Qed.

Lemma total_units_perm (l l' : list float) :
  Permutation l l' -> total_units l = total_units l'.
Proof.
  unfold total_units. induction 1; cbn [fold_right]; lia.
Qed.

Lemma total_units_concat (ls : list (list float)) :
  total_units (List.concat ls) = sum_of (map total_units ls).
Proof.
  induction ls as [| l ls IH]; [reflexivity |].
  cbn [List.concat map sum_of fold_right]. rewrite total_units_app, IH.
  reflexivity.
Qed.

Lemma length_concat_sum (ls : list (list float)) :
  Z.of_nat (List.length (List.concat ls))
  = sum_of (map (fun l => Z.of_nat (List.length l)) ls).
Proof.
  induction ls as [| l ls IH]; [reflexivity |].
  cbn [List.concat map sum_of fold_right]. rewrite length_app, Nat2Z.inj_add, IH.
  reflexivity.
Qed.

(** The lists of the dictionary hold the request times of the records,
    each once. *)
Lemma concat_setdefault_append (u : string) (t : float) (d : stats_dict) :
  Permutation (List.concat (map snd (setdefault_append u t d)))
              (t :: List.concat (map snd d)).
Proof.
  induction d as [| [k v] d IH]; [reflexivity |].
  cbn [setdefault_append]. destruct (String.eqb k u).
  - cbn [map snd List.concat]. rewrite <- app_assoc.
    symmetry. apply Permutation_middle.
  - cbn [map snd List.concat].
    rewrite (Permutation_app_head v IH).
    symmetry. apply Permutation_middle.
Qed.

Lemma statistics_values (stream : list parsed_line) :
  Permutation (List.concat (map snd (statistics (loop stream))))
              (map snd (records stream)).
Proof.
  induction stream as [| line stream IH] using rev_ind; [reflexivity |].
  rewrite Loop.loop_snoc, Loop.records_app, map_app.
  destruct line as [[u t] |]; cbn [loop_step statistics records map snd].
  - rewrite concat_setdefault_append, IH. apply Permutation_cons_append.
  - rewrite app_nil_r. exact IH.
Qed.

Lemma statistics_nonempty (stream : list parsed_line) :
  records stream <> [] -> statistics (loop stream) <> [].
Proof.
  intros Hr Hs. pose proof (statistics_values stream) as Hp.
  rewrite Hs in Hp. apply Permutation_nil in Hp.
  destruct (records stream); [contradiction | discriminate].
Qed.

(** ** Shares of a common denominator *)

Lemma shares_within {A B : Type} (num : A -> Z) (share : B -> float) (D : Z)
    (items : list A) (values : list B) :
  Forall2 (fun a b =>
             fin (share b)
             /\ Z.abs (D * units (share b) - 100 * num a * unit_one) * 1900
                <= D * unit_one) items values ->
  Forall fin (map share values)
  /\ Z.abs (D * total_units (map share values)
            - 100 * unit_one * sum_of (map num items)) * 1900
     <= D * unit_one * Z.of_nat (List.length values).
Proof.
  induction 1 as [| a b items values [Hf Hb] _ [IHf IH]].
  - split; [constructor |]. cbn [map total_units sum_of fold_right List.length].
    replace (D * 0 - 100 * unit_one * 0) with 0 by ring. simpl. lia.
  - split; [constructor; assumption |].
    cbn [map total_units sum_of fold_right List.length].
    fold (total_units (map share values)). fold (sum_of (map num items)).
    rewrite Nat2Z.inj_succ.
    set (U := unit_one) in *. clearbody U.
    set (T := total_units (map share values)) in *. clearbody T.
    set (Sn := sum_of (map num items)) in *. clearbody Sn.
    set (n := Z.of_nat (List.length values)) in *. clearbody n.
    lia.
Qed.

Lemma within_tolerance_of (D Sn : Z) (shares : list float) :
  0 < D -> shares <> [] -> Forall fin shares ->
  Z.abs (D * total_units shares - 100 * unit_one * Sn) * 1900
  <= D * unit_one * Z.of_nat (List.length shares) ->
  Z.abs (Sn - D) * 2 ^ 14 <= D ->
  within_tolerance shares.
Proof.
  intros HD Hne Hfin H1 H2. split; [exact Hfin |].
  pose proof unit_one_large as HU.
  change (2 ^ 100) with 1267650600228229401496703205376 in HU.
  change (2 ^ 14) with 16384 in H2.
  assert (Hm : 1 <= Z.of_nat (List.length shares))
    by (destruct shares; [contradiction | simpl; lia]).
  set (U := unit_one) in *. clearbody U.
  set (T := total_units shares) in *. clearbody T.
  set (m := Z.of_nat (List.length shares)) in *. clearbody m.
  assert (HV : U * (Z.abs (Sn - D) * 16384) <= U * D)
    by (apply Z.mul_le_mono_nonneg_l; lia).
  assert (HUm : D * U * 1 <= D * U * m)
    by (apply Z.mul_le_mono_nonneg_l; [apply Z.mul_nonneg_nonneg |]; lia).
  assert (HDE : D * Z.abs (T - 100 * U)
                <= Z.abs (D * T - 100 * U * Sn) + 100 * (U * Z.abs (Sn - D))).
  { rewrite <- (Z.abs_eq D) at 1 by lia. rewrite <- Z.abs_mul.
    rewrite <- (Z.abs_eq U) at 3 by lia. rewrite <- Z.abs_mul.
    replace (D * (T - 100 * U))
      with ((D * T - 100 * U * Sn) + 100 * (U * (Sn - D))) by ring.
    set (X := D * T - 100 * U * Sn). set (Y := U * (Sn - D)). lia. }
  assert (Hc : D * (Z.abs (T - 100 * U) * 100) <= D * (U * m)).
  { set (E := Z.abs (T - 100 * U)) in *.
    set (X := Z.abs (D * T - 100 * U * Sn)) in *.
    set (V := U * Z.abs (Sn - D)) in *.
    replace (U * (Z.abs (Sn - D) * 16384)) with (V * 16384) in HV
      by (subst V; ring).
    replace (D * (E * 100)) with (D * E * 100) by ring.
    replace (D * (U * m)) with (D * U * m) by ring.
    replace (U * D) with (D * U) in HV by ring.
    assert (0 <= X) by (subst X; lia).
    assert (0 <= V) by (subst V; apply Z.mul_nonneg_nonneg; lia).
    set (DE := D * E) in *. set (DUm := D * U * m) in *.
    set (DU := D * U) in *. clearbody DE DUm DU X V. lia. }
  apply Z.mul_le_mono_pos_l in Hc; [exact Hc | exact HD].
Qed.

(** ** One entry *)

Lemma count_share (c N : Z) (r : float) :
  0 < c <= N ->
  (q <- int_truediv c N ;; percent q) = Ok r ->
  fin r
  /\ Z.abs (N * units r - 100 * c * unit_one) * 1900 <= N * unit_one.
Proof.
  intros Hc H. apply Raises.bind_ok in H. destruct H as (q & Hq & Hr).
  destruct c as [| n | n]; try lia. destruct N as [| d | d]; try lia.
  cbn [int_truediv] in Hq.
  assert (Hdig : Zdigits2 (Zpos n) - Zdigits2 (Zpos d) <= 1022).
  { pose proof (Zdigits2_le (Zpos n) (Zpos d) ltac:(lia) ltac:(lia)). lia. }
  destruct (of_ratio_units n d Hdig) as (Hf & H0 & He).
  destruct (is_infinity (of_ratio false n d)); [discriminate |].
  injection Hq as <-.
  destruct (share_entry _ r (Zpos n) (Zpos d) ltac:(lia) ltac:(lia)
              Hf H0 He Hr) as (Hfr & _ & Hb).
  split; assumption.
Qed.

Lemma positive_float (T : float) :
  fin T -> 0 <= units T -> is_zero T = false ->
  exists m e, T = S754_finite false m e /\ -1074 <= e /\ 0 < units T.
Proof.
  intros Hf H0 Hz. destruct T as [b | b | | b m e]; try contradiction;
    try discriminate.
  unfold fin, ok in Hf.
  pose proof (pow2_pos (e + 1074) ltac:(lia)) as Hp.
  rewrite units_finite in *.
  destruct b; [lia |]. exists m, e. repeat split; try assumption; lia.
Qed.

Lemma latency_share (s T r : float) :
  fin s -> 0 <= units s -> fin T -> 0 < units T ->
  units s <= 2 * units T ->
  (q <- truediv s T ;; percent q) = Ok r ->
  fin r
  /\ Z.abs (units T * units r - 100 * units s * unit_one) * 1900
     <= units T * unit_one.
Proof.
  intros Hfs Hs Hft Ht Hst H.
  apply Raises.bind_ok in H. destruct H as (q & Hq & Hr).
  unfold truediv in Hq.
  destruct (is_zero T) eqn:Ez; [discriminate |]. injection Hq as <-.
  destruct (positive_float T Hft ltac:(lia) Ez) as (mt & et & -> & Het & _).
  destruct s as [bs | bs | | bs ms es]; try contradiction.
  - change (SFdiv prec emax (S754_zero bs) (S754_finite false mt et))
      with (S754_zero (xorb bs false)) in Hr.
    change (units (S754_zero bs)) with 0.
    set (d := units (S754_finite false mt et)) in *.
    assert (He0 : Z.abs (units (S754_zero (xorb bs false)) * d
                         - 0 * unit_one) * 2 ^ 50
                  <= 0 * unit_one + 2 ^ 52 * d).
    { change (units (S754_zero (xorb bs false))) with 0.
      replace (0 * d - 0 * unit_one) with 0 by ring.
      change (Z.abs 0) with 0. lia. }
    destruct (share_entry (S754_zero (xorb bs false)) r 0 d Ht ltac:(lia) I
                ltac:(change (units (S754_zero (xorb bs false))) with 0; lia)
                He0 Hr)
      as (Hfr & _ & Hb).
    split; assumption.
  - unfold fin, ok in Hfs.
    assert (bs = false).
    { destruct bs; [| reflexivity]. rewrite units_finite in Hs.
      pose proof (pow2_pos (es + 1074) ltac:(lia)). lia. }
    subst bs.
    assert (HD0 : Zdigits2 (Zpos ms) + es - (Zdigits2 (Zpos mt) + et) <= 1022).
    { rewrite !units_finite, !Z.mul_1_l in Hst.
      pose proof (pow2_pos (es + 1074) ltac:(lia)) as Hps.
      pose proof (pow2_pos (et + 1074) ltac:(lia)) as Hpt.
      replace (2 * (Z.pos mt * 2 ^ (et + 1074)))
        with (Z.pos mt * 2 ^ (et + 1074 + 1)) in Hst
        by (rewrite (pow2_split (et + 1074) 1) by lia;
            change (2 ^ 1) with 2; ring).
      apply Zdigits2_le in Hst; [| lia].
      rewrite !Zdigits2_mul_pow2 in Hst by lia. lia. }
    destruct (div_units ms mt es et Hfs Het HD0) as (Hfq & Hq0 & He).
    destruct (share_entry _ r (units (S754_finite false ms es))
                (units (S754_finite false mt et)) Ht ltac:(lia)
                Hfq Hq0 He Hr) as (Hfr & _ & Hb).
    split; assumption.
Qed.

(** ** All entries *)

Lemma sums_error (impl : Py.sum_impl) (items : stats_dict) :
  Forall (fun a => Forall good (snd a)
                   /\ Z.of_nat (List.length (snd a)) <= 2 ^ 30) items ->
  0 <= total_units (List.concat (map snd items))
  /\ Z.abs (sum_of (map (fun a => units (Py.sum impl (snd a))) items)
            - total_units (List.concat (map snd items))) * 2 ^ 50
     <= (16 * 2 ^ 30 + 3) * total_units (List.concat (map snd items)).
Proof.
  induction 1 as [| [u data] items [Hg Hl] _ [IH0 IH]].
  - cbn [map List.concat sum_of fold_right total_units].
    change (Z.abs (0 - 0)) with 0. lia.
  - cbn [map snd List.concat sum_of fold_right] in *.
    fold (sum_of (map (fun a => units (Py.sum impl (snd a))) items)).
    rewrite total_units_app.
    pose proof (sum_error impl data Hg Hl) as He. cbv zeta in He.
    destruct He as (_ & _ & He).
    pose proof (total_units_nonneg data Hg) as HS.
    assert (Hc : (16 * Z.of_nat (List.length data) + 3) * total_units data
                 <= (16 * 2 ^ 30 + 3) * total_units data)
      by (apply Z.mul_le_mono_nonneg_r; lia).
    change (2 ^ 30) with 1073741824 in *.
    change (2 ^ 50) with 1125899906842624 in *.
    split; [lia |].
    set (Si := total_units data) in *. clearbody Si.
    set (Sr := total_units (List.concat (map snd items))) in *. clearbody Sr.
    set (W := (16 * Z.of_nat (List.length data) + 3) * Si) in *. clearbody W.
    lia.
Qed.

Lemma total_units_filter (f : string * float -> bool)
    (l : list (string * float)) :
  Forall good (map snd l) ->
  total_units (map snd (filter f l)) <= total_units (map snd l).
Proof.
  unfold total_units.
  induction l as [| r l IH]; intro Hg; [cbn; lia |].
  inversion Hg as [| ? ? [_ Hr] Hg']; subst. specialize (IH Hg').
  cbn [filter map fold_right]. destruct (f r); cbn [map fold_right]; lia.
Qed.

Lemma records_good (stream : list parsed_line) :
  (forall u t, In (u, t) (records stream) -> plausible t = true) ->
  Forall good (map snd (records stream)).
Proof.
  intro H. rewrite Forall_forall. intros t Ht.
  apply in_map_iff in Ht. destruct Ht as ([u t'] & <- & Hin).
  apply plausible_good. exact (H u t' Hin).
Qed.

Lemma samples_good (stream : list parsed_line) (u : string) :
  (forall v t, In (v, t) (records stream) -> plausible t = true) ->
  Forall good (samples stream u).
Proof.
  intro H. unfold samples. rewrite Forall_forall. intros t Ht.
  apply in_map_iff in Ht. destruct Ht as ([v t'] & <- & Hin).
  apply filter_In in Hin. destruct Hin as [Hin _].
  apply plausible_good. exact (H v t' Hin).
Qed.

(** What is known of every item of [statistics] after the loop. *)
Lemma statistics_items_good (stream : list parsed_line) :
  (forall u t, In (u, t) (records stream) -> plausible t = true) ->
  Forall (fun a =>
            Forall good (snd a) /\ snd a <> []
            /\ Z.of_nat (List.length (snd a)) <= parsed_lines stream
            /\ total_units (snd a)
               <= total_units (map snd (records stream)))
    (statistics (loop stream)).
Proof.
  intro H. rewrite Forall_forall. intros [u data] Hin.
  apply Enrich.statistics_items in Hin. destruct Hin as [-> Hne].
  cbn [snd]. split; [apply samples_good; exact H |].
  split; [exact Hne |]. split.
  - unfold parsed_lines. apply Nat2Z.inj_le. apply Division.samples_length_le.
  - apply total_units_filter. apply records_good. exact H.
Qed.

Lemma Forall2_and_l {A B : Type} (R : A -> B -> Prop) (P : A -> Prop)
    (l : list A) (l' : list B) :
  Forall2 R l l' -> Forall P l -> Forall2 (fun a b => P a /\ R a b) l l'.
Proof.
  induction 1 as [| a b l l' Hab _ IH]; intro HP; [constructor |].
  inversion HP; subst. constructor; [split; assumption | apply IH; assumption].
Qed.

End Shares.
(** * The shares of a report *)

Module ShareSum.

Lemma shares_of_report (impl : Py.sum_impl) (stream : list parsed_line)
    (errors_limit : option float) (values : list entry) :
  (forall u t, In (u, t) (records stream) -> plausible t = true) ->
  parsed_lines stream <= 2 ^ 30 ->
  records stream <> [] ->
  calculate_statistics impl stream errors_limit = Ok values ->
  values <> []
  /\ within_tolerance (map count_perc values)
  /\ within_tolerance (map time_perc values).
Proof.
  intros Hplausible Hsize Hrecords Hok.
  pose proof (Enrich.calculate_statistics_entries _ _ _ _ Hok) as Hent.
  pose proof (Shares.statistics_nonempty stream Hrecords) as Hitems.
  pose proof (Shares.statistics_items_good stream Hplausible) as Hgood.
  pose proof (Shares.statistics_values stream) as Hperm.
  pose proof (Shares.Forall2_and_l _ _ _ _ Hent Hgood) as Hall.
  assert (Hvalues : values <> []).
  { intros ->. inversion Hent as [Hnil |]. symmetry in Hnil. contradiction. }
  assert (Hmap : forall f : entry -> float, map f values <> []).
  { intro f. destruct values; [contradiction | discriminate]. }
  assert (HN : 0 < parsed_lines stream).
  { unfold parsed_lines. destruct (records stream);
      [contradiction | simpl; lia]. }
  split; [exact Hvalues |]. split.
  - destruct (Shares.shares_within
                (fun a : string * list float => Z.of_nat (List.length (snd a)))
                count_perc (parsed_lines stream)
                (statistics (loop stream)) values) as [Hf Hb].
    { eapply Forall2_impl; [| exact Hall].
      intros [u data] e [(Hg & Hne & Hl & _) He]. cbn [snd] in *.
      apply Enrich.enrich_fields in He. destruct He as (_ & Hc & Hcp & _).
      rewrite Hc in Hcp. apply Shares.count_share; [| exact Hcp].
      split; [destruct data; [contradiction | simpl; lia] | exact Hl]. }
    apply (Shares.within_tolerance_of (parsed_lines stream)
             (sum_of (map (fun a : string * list float =>
                             Z.of_nat (List.length (snd a)))
                        (statistics (loop stream)))));
      try assumption; [apply Hmap | rewrite length_map; exact Hb |].
    rewrite <- (map_map snd (fun l : list float => Z.of_nat (List.length l))).
    rewrite <- Shares.length_concat_sum, (Permutation_length Hperm), length_map.
    fold (parsed_lines stream). rewrite Z.sub_diag. simpl. lia.
  - pose proof (Sums.sum_error Py.SumLeftFold (map snd (records stream))
                  (Shares.records_good stream Hplausible)
                  ltac:(rewrite length_map; exact Hsize)) as HT.
    cbv zeta in HT. rewrite length_map in HT.
    change (Py.sum Py.SumLeftFold (map snd (records stream)))
      with (total_latency stream) in HT.
    fold (parsed_lines stream) in HT.
    destruct HT as (HfT & HT0 & HTe).
    pose proof (Sums.total_units_nonneg _
                  (Shares.records_good stream Hplausible)) as HS0.
    assert (HTc : Z.abs (units (total_latency stream)
                         - total_units (map snd (records stream))) * 2 ^ 50
                  <= (16 * 2 ^ 30 + 3)
                     * total_units (map snd (records stream))).
    { eapply Z.le_trans; [exact HTe |].
      apply Z.mul_le_mono_nonneg_r; lia. }
    clear HTe.
    assert (HTpos : 0 < units (total_latency stream)).
    { destruct Hent as [| [u data] e items' values' He _]; [contradiction |].
      apply Enrich.enrich_fields in He. destruct He as (_ & _ & _ & _ & Htp & _).
      apply Raises.bind_ok in Htp. destruct Htp as (q & Hq & _).
      unfold truediv in Hq.
      destruct (is_zero (total_latency stream)) eqn:Ez; [discriminate |].
      destruct (Shares.positive_float _ HfT HT0 Ez) as (_ & _ & _ & _ & H).
      exact H. }
    pose proof (Shares.sums_error impl (statistics (loop stream))) as Hsum.
    rewrite (Shares.total_units_perm _ _ Hperm) in Hsum.
    destruct Hsum as [_ Hsum].
    { eapply Forall_impl; [| exact Hgood].
      intros a (Hg & _ & Hl & _). split; [exact Hg | lia]. }
    destruct (Shares.shares_within
                (fun a : string * list float => units (Py.sum impl (snd a)))
                time_perc (units (total_latency stream))
                (statistics (loop stream)) values) as [Hf Hb].
    { eapply Forall2_impl; [| exact Hall].
      intros [u data] e [(Hg & Hne & Hl & Hle) He]. cbn [snd] in *.
      apply Enrich.enrich_fields in He.
      destruct He as (_ & _ & _ & _ & Htp & _).
      pose proof (Sums.sum_error impl data Hg ltac:(lia)) as Hs.
      cbv zeta in Hs. destruct Hs as (Hfs & Hs0 & Hse).
      pose proof (Sums.total_units_nonneg data Hg) as HSi.
      apply Shares.latency_share; try assumption.
      assert (Hc : (16 * Z.of_nat (List.length data) + 3) * total_units data
                   <= (16 * 2 ^ 30 + 3) * total_units data)
        by (apply Z.mul_le_mono_nonneg_r; lia).
      change (2 ^ 30) with 1073741824 in *.
      change (2 ^ 50) with 1125899906842624 in *.
      set (W := (16 * Z.of_nat (List.length data) + 3) * total_units data) in *.
      clearbody W. lia. }
    apply (Shares.within_tolerance_of (units (total_latency stream))
             (sum_of (map (fun a : string * list float =>
                             units (Py.sum impl (snd a)))
                        (statistics (loop stream)))));
      try assumption; [apply Hmap | rewrite length_map; exact Hb |].
    change (2 ^ 30) with 1073741824 in *.
    change (2 ^ 50) with 1125899906842624 in *.
    change (2 ^ 14) with 16384. lia.
Qed.

End ShareSum.

(** X1. When [calculate_statistics] returns a report for at least one and
    at most [2 ^ 30] parsed records whose request times are zero or finite
    and below [2 ^ 900], the report is not empty, the [count_perc] of its
    entries add up to 100 within 0.01 for each entry, and so do the
    [time_perc]. The sums are exact sums of the reported binary64 values. *)
Theorem shares_sum_to_100 (impl : Py.sum_impl) (stream : list parsed_line)
    (errors_limit : option float) (values : list entry)
    (Hplausible : forall u t, In (u, t) (records stream) -> plausible t = true)
    (Hsize : parsed_lines stream <= 2 ^ 30)
    (Hrecords : records stream <> [])
    (Hok : calculate_statistics impl stream errors_limit = Ok values) :
  values <> []
  /\ within_tolerance (map count_perc values)
  /\ within_tolerance (map time_perc values).
Proof.
  exact (ShareSum.shares_of_report impl stream errors_limit values
           Hplausible Hsize Hrecords Hok).
Qed.


Lemma shares_sum_to_100_witness :
  let stream :=
    [Some ("/a", decimal "0.1"); None; Some ("/b", decimal "0.2");
     Some ("/a", decimal "0.3")] in
  exists values,
    calculate_statistics Py.SumLeftFold stream None = Ok values
    /\ within_tolerance (map count_perc values)
    /\ within_tolerance (map time_perc values).
Proof.
  eexists. split; [vm_compute; reflexivity |].
  match goal with
  | |- within_tolerance (map count_perc ?v) /\ _ =>
      exact (proj2 (shares_sum_to_100 Py.SumLeftFold
               [Some ("/a", decimal "0.1"); None; Some ("/b", decimal "0.2");
                Some ("/a", decimal "0.3")] None v
               ltac:(intros u t H; vm_compute in H;
                     repeat (destruct H as [H | H];
                             [inversion H; reflexivity |]);
                     contradiction)
               ltac:(vm_compute; discriminate)
               ltac:(discriminate)
               ltac:(vm_compute; reflexivity)))
  end.
Defined.



(** * The entries of a report *)

Module Entries.

Lemma existsb_filter_other (u a : string) (l : list string) :
  String.eqb u a = false ->
  existsb (String.eqb u) (filter (fun v => negb (String.eqb v a)) l)
  = existsb (String.eqb u) l.
Proof.
  intro Hua. induction l as [| v l IH]; [reflexivity |].
  cbn [filter existsb]. destruct (String.eqb v a) eqn:Eva; cbn [negb existsb].
  - apply String.eqb_eq in Eva. subst v. rewrite Hua, IH. reflexivity.
  - rewrite IH. reflexivity.
Qed.

Lemma first_occurrences_snoc (l : list string) (u : string) :
  first_occurrences (l ++ [u])
  = if existsb (String.eqb u) (first_occurrences l)
    then first_occurrences l
    else first_occurrences l ++ [u].
Proof.
  induction l as [| a l IH]; [reflexivity |].
  cbn [app first_occurrences existsb]. rewrite IH.
  destruct (String.eqb u a) eqn:Eua.
  - apply String.eqb_eq in Eua. subst a. cbn [orb].
    destruct (existsb (String.eqb u) (first_occurrences l)); [reflexivity |].
    rewrite filter_app. cbn [filter]. rewrite String.eqb_refl. cbn [negb].
    rewrite app_nil_r. reflexivity.
  - cbn [orb]. rewrite (existsb_filter_other u a _ Eua).
    destruct (existsb (String.eqb u) (first_occurrences l)); [reflexivity |].
    rewrite filter_app. cbn [filter]. rewrite Eua. reflexivity.
Qed.

(** The keys of [statistics] are the urls of the records, each at the place
    of its first appearance. *)
Lemma statistics_keys (stream : list parsed_line) :
  map fst (statistics (loop stream))
  = first_occurrences (map fst (records stream)).
Proof.
  induction stream as [| line stream IH] using rev_ind; [reflexivity |].
  rewrite Loop.loop_snoc, Loop.records_app, map_app.
  destruct line as [[u t] |]; cbn [loop_step statistics records map fst].
  - rewrite Loop.keys_setdefault_append, IH, first_occurrences_snoc.
    reflexivity.
  - rewrite app_nil_r. exact IH.
Qed.

Lemma entries_urls (impl : Py.sum_impl) (all_count : Z) (all_time_sum : float)
    (items : stats_dict) (values : list entry) :
  Forall2 (fun item e => enrich impl all_count all_time_sum item = Ok e)
    items values ->
  map url values = map fst items
  /\ map count values = map (fun a => Z.of_nat (List.length (snd a))) items.
Proof.
  induction 1 as [| [u data] e items values He _ [IH1 IH2]];
    [split; reflexivity |].
  apply Enrich.enrich_fields in He. destruct He as (Hu & Hc & _).
  cbn [map fst snd]. rewrite Hu, Hc, IH1, IH2. split; reflexivity.
Qed.

Lemma sum_of_ones (l : list Z) :
  Forall (fun c => 1 <= c) l -> Z.of_nat (List.length l) <= sum_of l.
Proof.
  induction 1 as [| c l Hc _ IH]; cbn [List.length sum_of fold_right] in *;
    [lia |].
  fold (sum_of l). rewrite Nat2Z.inj_succ. unfold sum_of in IH. unfold sum_of.
  lia.
Qed.

Lemma records_of_records (stream : list parsed_line) :
  records (map Some (records stream)) = records stream.
Proof.
  induction (records stream) as [| r l IH]; [reflexivity |].
  cbn [map records]. rewrite IH. reflexivity.
Qed.

(** The loop reads nothing of a line that did not parse but that it is a
    line. *)
Lemma loop_skips_unparsed (stream : list parsed_line) :
  forall st1 st2 : loop_state,
    processed st1 = processed st2 ->
    processed_request_time st1 = processed_request_time st2 ->
    statistics st1 = statistics st2 ->
    let a := fold_left loop_step stream st1 in
    let b := fold_left loop_step (map Some (records stream)) st2 in
    processed a = processed b
    /\ processed_request_time a = processed_request_time b
    /\ statistics a = statistics b.
Proof.
  induction stream as [| [[u t] |] stream IH]; intros st1 st2 Hp Ht Hs.
  - repeat split; assumption.
  - cbn [records map fold_left]. apply IH; cbn [loop_step processed
      processed_request_time statistics]; congruence.
  - cbn [records fold_left]. apply IH; cbn [loop_step processed
      processed_request_time statistics]; assumption.
Qed.

End Entries.

(** The entries of a report come in the order in which their urls first
    appear in the log, one entry for each url. *)
Theorem entries_in_order_of_first_appearance (impl : Py.sum_impl)
    (stream : list parsed_line) (errors_limit : option float)
    (values : list entry) :
  calculate_statistics impl stream errors_limit = Ok values ->
  map url values = first_occurrences (map fst (records stream)).
Proof.
  intro Hok.
  pose proof (Enrich.calculate_statistics_entries _ _ _ _ Hok) as Hent.
  destruct (Entries.entries_urls _ _ _ _ _ Hent) as [Hu _].
  rewrite Hu. apply Entries.statistics_keys.
Qed.

Lemma entries_in_order_of_first_appearance_witness :
  let stream :=
    [Some ("/b", decimal "0.2"); None; Some ("/a", decimal "0.1");
     Some ("/b", decimal "0.3"); Some ("/c", decimal "0.1");
     Some ("/a", decimal "0.5")] in
  exists values,
    calculate_statistics Py.SumLeftFold stream None = Ok values
    /\ map url values = ["/b"; "/a"; "/c"].
Proof.
  eexists. split; [vm_compute; reflexivity |].
  match goal with
  | |- map url ?v = _ =>
      exact (entries_in_order_of_first_appearance Py.SumLeftFold
               [Some ("/b", decimal "0.2"); None; Some ("/a", decimal "0.1");
                Some ("/b", decimal "0.3"); Some ("/c", decimal "0.1");
                Some ("/a", decimal "0.5")] None v
               ltac:(vm_compute; reflexivity))
  end.
Defined.

(** The counts of the entries of a report add up to the number of lines
    that parsed; every entry counts at least one line, so there are at most
    as many entries as parsed lines. *)
Theorem counts_add_up_to_parsed_lines (impl : Py.sum_impl)
    (stream : list parsed_line) (errors_limit : option float)
    (values : list entry) :
  calculate_statistics impl stream errors_limit = Ok values ->
  sum_of (map count values) = parsed_lines stream
  /\ Forall (fun e => 1 <= count e) values
  /\ Z.of_nat (List.length values) <= parsed_lines stream.
Proof.
  intro Hok.
  pose proof (Enrich.calculate_statistics_entries _ _ _ _ Hok) as Hent.
  destruct (Entries.entries_urls _ _ _ _ _ Hent) as [_ Hc].
  destruct (Loop.loop_statistics_wf stream) as [_ Hne].
  assert (Hsum : sum_of (map count values) = parsed_lines stream).
  { rewrite Hc.
    rewrite <- (map_map snd (fun l : list float => Z.of_nat (List.length l))).
    rewrite <- Shares.length_concat_sum.
    rewrite (Permutation_length (Shares.statistics_values stream)), length_map.
    reflexivity. }
  assert (Hpos : Forall (fun c => 1 <= c) (map count values)).
  { rewrite Hc. rewrite Forall_map. eapply Forall_impl; [| exact Hne].
    intros [u data] Hd. cbn [snd] in *.
    destruct data; [contradiction | simpl; lia]. }
  split; [exact Hsum |]. split.
  - rewrite Forall_map in Hpos. exact Hpos.
  - rewrite <- Hsum, <- (length_map count). apply Entries.sum_of_ones.
    exact Hpos.
Qed.

Lemma counts_add_up_to_parsed_lines_witness :
  let stream :=
    [Some ("/b", decimal "0.2"); None; Some ("/a", decimal "0.1");
     Some ("/b", decimal "0.3")] in
  exists values,
    calculate_statistics Py.SumCompensated stream None = Ok values
    /\ sum_of (map count values) = 3.
Proof.
  eexists. split; [vm_compute; reflexivity |].
  match goal with
  | |- sum_of (map count ?v) = _ =>
      exact (proj1 (counts_add_up_to_parsed_lines Py.SumCompensated
               [Some ("/b", decimal "0.2"); None; Some ("/a", decimal "0.1");
                Some ("/b", decimal "0.3")] None v
               ltac:(vm_compute; reflexivity)))
  end.
Defined.

(** Without an errors limit, the lines that did not parse change nothing:
    the result is that of the parsed records alone. With a limit, a report
    that is returned is the report of the parsed records. *)
Theorem unparsed_lines_are_ignored (impl : Py.sum_impl)
    (stream : list parsed_line) :
  calculate_statistics impl stream None
  = calculate_statistics impl (map Some (records stream)) None
  /\ forall errors_limit values,
       calculate_statistics impl stream errors_limit = Ok values ->
       calculate_statistics impl (map Some (records stream)) None = Ok values.
Proof.
  pose proof (Entries.loop_skips_unparsed stream loop_init loop_init
                eq_refl eq_refl eq_refl) as H.
  cbv zeta in H. fold (loop stream) in H.
  fold (loop (map Some (records stream))) in H.
  destruct H as (Hp & Ht & Hs).
  assert (Hnone : calculate_statistics impl stream None
                  = calculate_statistics impl (map Some (records stream)) None).
  { unfold calculate_statistics. cbn [errors_gate bind].
    rewrite Hp, Ht, Hs. reflexivity. }
  split; [exact Hnone |].
  intros errors_limit values Hok. rewrite <- Hnone.
  unfold calculate_statistics in *. cbn [errors_gate bind].
  apply Raises.bind_ok in Hok. destruct Hok as ([] & _ & Hok). exact Hok.
Qed.
(** * The entries that are reported *)

Module Top.

Lemma StronglySorted_app_cross {A : Type} (R : A -> A -> Prop)
    (l1 l2 : list A) :
  StronglySorted R (l1 ++ l2) ->
  forall a b, In a l1 -> In b l2 -> R a b.
Proof.
  induction l1 as [| x l1 IH]; intros Hs a b Ha Hb; [contradiction |].
  cbn [app] in Hs. inversion Hs as [| ? ? Hs' Hx]; subst.
  destruct Ha as [<- | Ha].
  - rewrite Forall_forall in Hx. apply Hx. apply in_or_app. right. exact Hb.
  - exact (IH Hs' a b Ha Hb).
Qed.

Lemma slice_to_split {A : Type} (l : list A) (n : Z) :
  exists rest,
    l = Py.slice_to l n ++ rest
    /\ List.length (Py.slice_to l n)
       = (if (n <? 0)%Z then List.length l - Z.to_nat (- n)
          else Nat.min (Z.to_nat n) (List.length l))%nat.
Proof.
  unfold Py.slice_to. destruct (Z.ltb_spec n 0) as [Hn | Hn].
  - exists (skipn (Z.to_nat (Z.of_nat (List.length l) + n)) l).
    split; [symmetry; apply firstn_skipn |].
    rewrite length_firstn. lia.
  - exists (skipn (Z.to_nat n) l).
    split; [symmetry; apply firstn_skipn |].
    apply length_firstn.
Qed.

End Top.

(** The entries handed to the renderer are the largest: no entry that is
    left out has a greater [time_sum] than one that is reported. For
    [REPORT_SIZE >= 0] they are [REPORT_SIZE] entries, or all when there are
    fewer; a negative [REPORT_SIZE] leaves out that many of the smallest, and
    [REPORT_SIZE = 0] gives an empty report. *)
Theorem top_statistics_keeps_the_largest (values : list entry)
    (report_size : Z) :
  Forall (fun e => is_nan (time_sum e) = false) values ->
  exists rest,
    Permutation (top_statistics values report_size ++ rest) values
    /\ (forall a b, In a (top_statistics values report_size) -> In b rest ->
          ltb (time_sum a) (time_sum b) = false)
    /\ List.length (top_statistics values report_size)
       = (if (report_size <? 0)%Z
          then List.length values - Z.to_nat (- report_size)
          else Nat.min (Z.to_nat report_size) (List.length values))%nat.
Proof.
  intro Hnn. unfold top_statistics.
  set (ranked := Py.sorted (fun x y => ltb (time_sum x) (time_sum y))
                   values true).
  assert (Hperm : Permutation ranked values) by apply Order.sorted_perm.
  assert (Hsorted : StronglySorted
                      (fun a b => ltb (time_sum a) (time_sum b) = false)
                      ranked).
  { apply (Order.sorted_reverse_descending
             (fun x y => ltb (time_sum x) (time_sum y))
             (fun e => is_nan (time_sum e) = false)); [| | exact Hnn].
    - intros a b Ha Hb. apply Order.ltb_asym; assumption.
    - intros a b c Ha Hb Hc. apply Order.ltb_negtrans; assumption. }
  destruct (Top.slice_to_split ranked report_size) as (rest & Hsplit & Hlen).
  exists rest. split; [rewrite <- Hsplit; exact Hperm |]. split.
  - rewrite Hsplit in Hsorted. exact (Top.StronglySorted_app_cross _ _ _ Hsorted).
  - rewrite Hlen, (Permutation_length Hperm). reflexivity.
Qed.

Lemma top_statistics_keeps_the_largest_witness :
  let e (u : string) (t : string) :=
    {| url := u; count := 1; count_perc := decimal "25.0";
       time_sum := decimal t; time_perc := decimal "25.0";
       time_avg := decimal t; time_max := decimal t;
       time_med := decimal t |} in
  let values := [e "/a" "0.2"; e "/b" "0.9"; e "/c" "0.1"; e "/d" "0.5"] in
  map url (top_statistics values 2) = ["/b"; "/d"]
  /\ map url (top_statistics values (-1)) = ["/b"; "/d"; "/a"]
  /\ exists rest,
       Permutation (top_statistics values 2 ++ rest) values
       /\ forall a b, In a (top_statistics values 2) -> In b rest ->
            ltb (time_sum a) (time_sum b) = false.
Proof.
  split; [vm_compute; reflexivity |]. split; [vm_compute; reflexivity |].
  destruct (top_statistics_keeps_the_largest
              (let e (u : string) (t : string) :=
                 {| url := u; count := 1; count_perc := decimal "25.0";
                    time_sum := decimal t; time_perc := decimal "25.0";
                    time_avg := decimal t; time_max := decimal t;
                    time_med := decimal t |} in
               [e "/a" "0.2"; e "/b" "0.9"; e "/c" "0.1"; e "/d" "0.5"]) 2
              ltac:(repeat constructor)) as (rest & Hp & Hc & _).
  exists rest. split; [exact Hp | exact Hc].
Defined.
(** * The log files that are considered *)

Module Names.

Import ReFacts.

Lemma matches_Str (w s : string) (caps : captures) (s' : string)
    (caps' : captures) :
  matches (Str w) s caps s' caps' <-> s = (w ++ s')%string /\ caps' = caps.
Proof.
  revert s. induction w as [| a w IH]; intro s; cbn [Str]; split.
  - intro H. inversion H; subst. split; reflexivity.
  - intros [-> ->]. constructor.
  - intro H. inversion H as [| | | | | | ? ? ? ? s1 caps1 ? ? H1 H2 | | | | |];
      subst.
    inversion H1; subst.
    match goal with
    | Hc : cclass_matches (Lit a) _ = true |- _ =>
        cbn [cclass_matches] in Hc; apply Ascii.eqb_eq in Hc; subst
    end.
    apply IH in H2. destruct H2 as [-> ->]. split; reflexivity.
  - intros [-> ->]. cbn [append].
    apply (M_Seq _ _ _ _ (w ++ s')%string caps).
    + constructor. cbn [cclass_matches]. apply Ascii.eqb_refl.
    + apply IH. split; reflexivity.
Qed.

Lemma matches_Rep_digits (n : nat) (s : string) (caps : captures)
    (s' : string) (caps' : captures) :
  matches (Rep n Digit) s caps s' caps'
  <-> exists ds, s = (ds ++ s')%string /\ String.length ds = n
                 /\ all_digits ds = true /\ caps' = caps.
Proof.
  revert s. induction n as [| n IH]; intro s; cbn [Rep]; split.
  - intro H. inversion H; subst. exists EmptyString.
    repeat split; reflexivity.
  - intros (ds & -> & Hl & _ & ->). destruct ds; [| discriminate].
    constructor.
  - intro H. inversion H as [| | | | | | ? ? ? ? s1 caps1 ? ? H1 H2 | | | | |];
      subst.
    inversion H1 as [| c a s0 caps0 Hc | | | | | | | | | |]; subst.
    apply IH in H2. destruct H2 as (ds & -> & Hl & Hd & ->).
    exists (String a ds). cbn [append String.length all_digits].
    cbn [cclass_matches] in Hc. rewrite Hc, Hd, Hl.
    repeat split; reflexivity.
  - intros (ds & -> & Hl & Hd & ->). destruct ds as [| a ds]; [discriminate |].
    cbn [String.length all_digits append] in *.
    apply Bool.andb_true_iff in Hd. destruct Hd as [Ha Hd].
    apply (M_Seq _ _ _ _ (ds ++ s')%string caps).
    + constructor. exact Ha.
    + apply IH. exists ds. repeat split; [lia | exact Hd].
Qed.

Lemma append_inj_length (a a' b b' : string) :
  (a ++ b = a' ++ b')%string -> String.length a = String.length a' ->
  a = a' /\ b = b'.
Proof.
  revert a'. induction a as [| x a IH]; intros [| x' a'] H Hl;
    try discriminate.
  - split; [reflexivity | exact H].
  - cbn [append String.length] in *. injection H as -> H.
    destruct (IH a' H ltac:(lia)) as [-> ->]. split; reflexivity.
Qed.

(** What a match of [FILE_NAME_REGEXP] at the start of a name says of the
    name. *)
Lemma file_name_shape (name s' : string) (caps : captures) :
  matches FILE_NAME_REGEXP name [] s' caps ->
  exists digits gz nl,
    name = ("nginx-access-ui.log-" ++ digits ++ gz ++ nl)%string
    /\ String.length digits = 8%nat /\ all_digits digits = true
    /\ (gz = "" \/ gz = ".gz") /\ (nl = "" \/ nl = newline)
    /\ group caps "date" = Some digits.
Proof.
  unfold FILE_NAME_REGEXP. cbn [Cat]. intro H.
  inversion H as [| | | | | | ? ? ? ? s1 c1 ? ? H1 H2 | | | | |]; subst.
  apply (proj1 (matches_Str "nginx-access-ui" _ _ _ _)) in H1. destruct H1 as [-> ->].
  inversion H2 as [| | | | | | ? ? ? ? s2 c2 ? ? H3 H4 | | | | |]; subst.
  inversion H3 as [| c a s0 caps0 Hc | | | | | | | | | |]; subst.
  cbn [cclass_matches] in Hc. apply Ascii.eqb_eq in Hc. subst a.
  inversion H4 as [| | | | | | ? ? ? ? s3 c3 ? ? H5 H6 | | | | |]; subst.
  apply (proj1 (matches_Str "log-" _ _ _ _)) in H5. destruct H5 as [-> ->].
  inversion H6 as [| | | | | | ? ? ? ? s4 c4 ? ? H7 H8 | | | | |]; subst.
  inversion H7 as [| | | | | | | | | nm r0 s0 caps0 s5 caps5 H9 |  |]; subst.
  apply (proj1 (matches_Rep_digits 8 _ _ _ _)) in H9. destruct H9 as (ds & -> & Hl & Hd & ->).
  rewrite consumed_append in H8.
  inversion H8 as [| | | | | | ? ? ? ? s6 c6 ? ? H10 H11 | | | | |]; subst.
  exists ds.
  inversion H10 as [| | | | | | | r0 s0 caps0 s7 caps7 H12 | | | |]; subst.
  - inversion H12 as [| | | | | | | | | nm r0 s0 caps0 s8 caps8 H13 |  |];
      subst.
    inversion H13 as [| | | | | | ? ? ? ? s9 c9 ? ? H14 H15 | | | | |]; subst.
    inversion H14 as [| c a s0 caps0 Hc | | | | | | | | | |]; subst.
    cbn [cclass_matches] in Hc. apply Ascii.eqb_eq in Hc. subst a.
    apply (proj1 (matches_Str "gz" _ _ _ _)) in H15. destruct H15 as [-> ->].
    exists ".gz".
    inversion H11; subst; [exists "" | exists newline];
      (split; [reflexivity |]); repeat split; auto.
  - exists "".
    inversion H11; subst; [exists "" | exists newline];
      (split; [reflexivity |]); repeat split; auto.
Qed.

(** Every name of that shape is matched. *)
Lemma file_name_matches (digits gz nl : string) :
  String.length digits = 8%nat -> all_digits digits = true ->
  gz = "" \/ gz = ".gz" -> nl = "" \/ nl = newline ->
  matches_at_start FILE_NAME_REGEXP
    ("nginx-access-ui.log-" ++ digits ++ gz ++ nl)%string.
Proof.
  intros Hl Hd Hgz Hnl. unfold matches_at_start, FILE_NAME_REGEXP. cbn [Cat].
  exists nl.
  assert (Heol : forall caps, matches Eol nl caps nl caps)
    by (intro caps; destruct Hnl as [-> | ->]; constructor).
  assert (Hopt : exists caps',
             matches (Opt (Group "2" (Seq (Chr (Lit "."%char)) (Str "gz"))))
               (gz ++ nl)%string [("date", digits)] nl caps').
  { destruct Hgz as [-> | ->].
    - eexists. apply M_Opt_none.
    - eexists. apply M_Opt_some. apply M_Group.
      apply (M_Seq _ _ _ _ ("gz" ++ nl)%string [("date", digits)]).
      + constructor. reflexivity.
      + apply matches_Str. split; reflexivity. }
  destruct Hopt as (caps' & Hopt). exists caps'.
  apply (M_Seq _ _ _ _ (".log-" ++ digits ++ gz ++ nl)%string []);
    [apply matches_Str; split; reflexivity |].
  apply (M_Seq _ _ _ _ ("log-" ++ digits ++ gz ++ nl)%string []);
    [constructor; reflexivity |].
  apply (M_Seq _ _ _ _ (digits ++ gz ++ nl)%string []);
    [apply matches_Str; split; reflexivity |].
  apply (M_Seq _ _ _ _ (gz ++ nl)%string [("date", digits)]).
  - replace [("date", digits)]
      with [("date", consumed (digits ++ gz ++ nl)%string (gz ++ nl)%string)]
      by (rewrite consumed_append; reflexivity).
    apply M_Group. apply matches_Rep_digits. exists digits.
    repeat split; assumption.
  - apply (M_Seq _ _ _ _ nl caps'); [exact Hopt | apply Heol].
Qed.

Lemma date_gtb_antisym (a b : date) :
  date_gtb a b = false -> date_gtb b a = false -> a = b.
Proof.
  destruct a as [ya ma da], b as [yb mb db]. unfold date_gtb. cbn [year month day].
  intros H1 H2.
  destruct (Z.ltb_spec yb ya), (Z.ltb_spec ya yb); try discriminate;
    cbn [orb] in *; try lia.
  assert (ya = yb) by lia. subst yb. rewrite Z.eqb_refl in *. cbn [andb] in *.
  destruct (Z.ltb_spec mb ma), (Z.ltb_spec ma mb); try discriminate;
    cbn [orb] in *; try lia.
  assert (ma = mb) by lia. subst mb. rewrite Z.eqb_refl in *. cbn [andb] in *.
  destruct (Z.ltb_spec db da), (Z.ltb_spec da db); try discriminate; try lia.
  assert (da = db) by lia. subst db. reflexivity.
Qed.

Lemma date_gtb_asym (a b : date) :
  date_gtb a b = true -> date_gtb b a = false.
Proof.
  intro H. destruct (date_gtb b a) eqn:E; [| reflexivity].
  pose proof (LogFile.date_gtb_trans _ _ _ H E) as Hc.
  rewrite LogFile.date_gtb_irrefl in Hc. discriminate.
Qed.

(** The date of the entry that the scan holds is not before the date of any
    name. *)
Lemma first_greatest_bound (dir_path : string) (names : list string)
    (info : LogInfo) :
  first_greatest dir_path names info ->
  forall n d, In n names -> candidate_date n = Some d ->
    date_gtb d (log_date info) = false.
Proof.
  intros (before & name & after & -> & Hname & _ & Hb & Ha) n d Hin Hd.
  apply in_app_or in Hin. destruct Hin as [Hin | [<- | Hin]].
  - apply date_gtb_asym. exact (Hb n d Hin Hd).
  - rewrite Hname in Hd. injection Hd as <-. apply LogFile.date_gtb_irrefl.
  - exact (Ha n d Hin Hd).
Qed.

Lemma first_greatest_member (dir_path : string) (names : list string)
    (info : LogInfo) :
  first_greatest dir_path names info ->
  exists name, In name names /\ candidate_date name = Some (log_date info).
Proof.
  intros (before & name & after & -> & Hname & _). exists name.
  split; [apply in_or_app; right; left; reflexivity | exact Hname].
Qed.

End Names.

(** The names that [find_last_log_file] considers are those made of
    [nginx-access-ui.log-], eight digits that [strptime] reads as a date,
    an optional [.gz] and, as [$] allows, an optional newline at the very
    end; the date is read from the eight digits. *)
Theorem candidate_date_iff (name : string) (d : date) :
  candidate_date name = Some d
  <-> exists digits gz nl,
        name = ("nginx-access-ui.log-" ++ digits ++ gz ++ nl)%string
        /\ String.length digits = 8%nat /\ all_digits digits = true
        /\ (gz = "" \/ gz = ".gz") /\ (nl = "" \/ nl = newline)
        /\ strptime_Ymd digits = Some d.
Proof.
  unfold candidate_date. split.
  - destruct (match_ FILE_NAME_REGEXP name) as [caps |] eqn:Em;
      [| discriminate].
    apply ReFacts.match_sound in Em. destruct Em as (s' & Hm).
    apply Names.file_name_shape in Hm.
    destruct Hm as (digits & gz & nl & Hn & Hl & Hd & Hgz & Hnl & Hg).
    rewrite Hg. intro Hs. exists digits, gz, nl. repeat split; assumption.
  - intros (digits & gz & nl & -> & Hl & Hd & Hgz & Hnl & Hs).
    pose proof (Names.file_name_matches digits gz nl Hl Hd Hgz Hnl) as Hm.
    apply ReFacts.match_some_iff in Hm.
    destruct (match_ FILE_NAME_REGEXP _) as [caps |] eqn:Em; [| congruence].
    apply ReFacts.match_sound in Em. destruct Em as (s' & Hm').
    apply Names.file_name_shape in Hm'.
    destruct Hm' as (digits' & gz' & nl' & Hn & Hl' & _ & _ & _ & Hg).
    apply Names.append_inj_length in Hn; [| reflexivity].
    destruct Hn as [_ Hn].
    apply Names.append_inj_length in Hn; [| congruence].
    destruct Hn as [-> _]. rewrite Hg. exact Hs.
Qed.

(** [find_last_log_file] returns [None] exactly when the path is not a
    directory or no name of the listing is that of a dated log file (an
    empty directory is one case). *)
Theorem find_last_log_file_none_iff_no_candidate (isdir : bool)
    (listdir : list string) (dir_path : string) :
  find_last_log_file isdir listdir dir_path = None
  <-> isdir = false \/ forall n, In n listdir -> candidate_date n = None.
Proof.
  apply LogFile.find_last_log_file_none_iff.
Qed.

(** The date that [find_last_log_file] returns does not depend on the
    order in which [os.listdir] lists the directory. *)
Theorem find_last_log_file_date_ignores_listing_order (isdir : bool)
    (listdir listdir' : list string) (dir_path : string) :
  Permutation listdir listdir' ->
  option_map log_date (find_last_log_file isdir listdir dir_path)
  = option_map log_date (find_last_log_file isdir listdir' dir_path).
Proof.
  intro Hperm. unfold find_last_log_file.
  destruct isdir; [| reflexivity]. cbn [negb].
  pose proof (LogFile.scan_invariant dir_path listdir) as H1.
  pose proof (LogFile.scan_invariant dir_path listdir') as H2.
  destruct (fold_left (scan_step dir_path) listdir None) as [i1 |],
           (fold_left (scan_step dir_path) listdir' None) as [i2 |];
    cbn [option_map].
  - f_equal.
    destruct (Names.first_greatest_member _ _ _ H1) as (n1 & Hin1 & Hd1).
    destruct (Names.first_greatest_member _ _ _ H2) as (n2 & Hin2 & Hd2).
    apply Names.date_gtb_antisym.
    + apply (Names.first_greatest_bound _ _ _ H2 n1);
        [exact (Permutation_in _ Hperm Hin1) | exact Hd1].
    + apply (Names.first_greatest_bound _ _ _ H1 n2);
        [exact (Permutation_in _ (Permutation_sym Hperm) Hin2) | exact Hd2].
  - destruct (Names.first_greatest_member _ _ _ H1) as (n1 & Hin1 & Hd1).
    rewrite (H2 n1 (Permutation_in _ Hperm Hin1)) in Hd1. discriminate.
  - destruct (Names.first_greatest_member _ _ _ H2) as (n2 & Hin2 & Hd2).
    rewrite (H1 n2 (Permutation_in _ (Permutation_sym Hperm) Hin2)) in Hd2.
    discriminate.
  - reflexivity.
Qed.

Lemma find_last_log_file_date_ignores_listing_order_witness :
  let listdir :=
    [ "nginx-access-ui.log-20230101"; "nginx-access-ui.log-20230215.gz";
      "notes.txt"; "nginx-access-ui.log-20230215" ] in
  option_map log_date (find_last_log_file true listdir "./logs")
  = option_map log_date (find_last_log_file true (rev listdir) "./logs")
  /\ option_map file_path (find_last_log_file true listdir "./logs")
     <> option_map file_path (find_last_log_file true (rev listdir) "./logs").
Proof.
  split.
  - exact (find_last_log_file_date_ignores_listing_order true
             [ "nginx-access-ui.log-20230101";
               "nginx-access-ui.log-20230215.gz";
               "notes.txt"; "nginx-access-ui.log-20230215" ]
             (rev [ "nginx-access-ui.log-20230101";
                    "nginx-access-ui.log-20230215.gz";
                    "notes.txt"; "nginx-access-ui.log-20230215" ])
             "./logs" (Permutation_rev _)).
  - vm_compute. discriminate.
Defined.
(** * Reading the log and writing the report *)

Module Render.

Lemma substitute_no_dollar (mapping : string -> option string)
    (pre s : string) :
  no_dollar pre = true ->
  substitute mapping 0 (pre ++ s) = (pre ++ substitute mapping 0 s)%string.
Proof.
  induction pre as [| a pre IH]; intro H; [reflexivity |].
  cbn [no_dollar] in H. apply Bool.andb_true_iff in H. destruct H as [Ha Hp].
  apply Bool.negb_true_iff in Ha.
  cbn [append substitute]. rewrite Ha, (IH Hp). reflexivity.
Qed.

Lemma substitute_skip (mapping : string -> option string) (w s : string) :
  substitute mapping (String.length w) (w ++ s) = substitute mapping 0 s.
Proof.
  induction w as [| a w IH]; [destruct s; reflexivity |].
  cbn [String.length append substitute]. exact IH.
Qed.

Lemma substitute_dollar (mapping : string -> option string) (s : string) :
  substitute mapping 0 (String "$"%char s)
  = (fst (placeholder mapping s)
     ++ substitute mapping (snd (placeholder mapping s)) s)%string.
Proof.
  cbn [substitute]. change (Ascii.eqb "$"%char "$"%char) with true.
  cbv iota. destruct (placeholder mapping s). reflexivity.
Qed.

Lemma span_id_stop (s : string) :
  ends_a_name s = true -> span_id s = (EmptyString, s).
Proof.
  destruct s as [| a s]; [reflexivity |]. cbn [ends_a_name span_id].
  intro H. apply Bool.negb_true_iff in H. rewrite H. reflexivity.
Qed.

Lemma span_id_app (name rest : string) :
  forallb is_id_char (list_ascii_of_string name) = true ->
  ends_a_name rest = true ->
  span_id (name ++ rest) = (name, rest).
Proof.
  intros Hn Hr. induction name as [| a name IH]; [apply span_id_stop, Hr |].
  cbn [list_ascii_of_string forallb] in Hn.
  apply Bool.andb_true_iff in Hn. destruct Hn as [Ha Hn].
  cbn [append span_id]. rewrite Ha, (IH Hn). reflexivity.
Qed.

(** A name of the template that the mapping holds. *)
Lemma substitute_named (mapping : string -> option string)
    (a : ascii) (name rest value : string) :
  is_id_start a = true ->
  forallb is_id_char (list_ascii_of_string name) = true ->
  ends_a_name rest = true ->
  mapping (String a name) = Some value ->
  substitute mapping 0 (String "$"%char (String a name ++ rest))
  = (value ++ substitute mapping 0 rest)%string.
Proof.
  intros Ha Hn Hr Hm.
  assert (Hs : span_id (String a name ++ rest) = (String a name, rest)).
  { apply span_id_app; [| exact Hr]. cbn [list_ascii_of_string forallb].
    unfold is_id_char at 1. rewrite Ha, Hn. reflexivity. }
  assert (Hd : Ascii.eqb a "$"%char = false).
  { destruct (Ascii.eqb_spec a "$"%char) as [-> |]; [discriminate |].
    reflexivity. }
  assert (Hp : placeholder mapping (String a name ++ rest)
               = (value, String.length (String a name))).
  { unfold placeholder. cbn [append]. rewrite Hd, Ha.
    change (String a (name ++ rest)) with (String a name ++ rest)%string.
    rewrite Hs. cbn [fst]. rewrite Hm. reflexivity. }
  rewrite substitute_dollar, Hp. cbn [fst snd].
  rewrite substitute_skip. reflexivity.
Qed.

Lemma digit_char_value (a : ascii) :
  is_digit a = true -> digit_char (digit_value a) = a.
Proof.
  unfold is_digit, digit_char, digit_value. intro H.
  apply Bool.andb_true_iff in H. destruct H as [H1 H2].
  apply Nat.leb_le in H1, H2.
  replace (48 + Z.to_nat (Z.of_nat (nat_of_ascii a) - 48))%nat
    with (nat_of_ascii a) by lia.
  apply ascii_nat_embedding.
Qed.

Lemma digit_value_range (a : ascii) :
  is_digit a = true -> 0 <= digit_value a <= 9.
Proof.
  unfold is_digit, digit_value. intro H.
  apply Bool.andb_true_iff in H. destruct H as [H1 H2].
  apply Nat.leb_le in H1, H2. lia.
Qed.

End Render.

(** What [render_template] writes for a template. A template without [$]
    is written as it is. In [$table_json] and [${table_json}] the text of
    the statistics stands for the placeholder, and it is not read again for
    placeholders; [$$] gives one [$]. *)
Theorem render_template_text (table_json pre post : string) :
  no_dollar pre = true ->
  render_template pre table_json = pre
  /\ (ends_a_name post = true ->
      render_template (pre ++ "$table_json" ++ post) table_json
      = (pre ++ table_json ++ render_template post table_json)%string)
  /\ render_template (pre ++ "${table_json}" ++ post) table_json
     = (pre ++ table_json ++ render_template post table_json)%string
  /\ render_template (pre ++ "$$" ++ post) table_json
     = (pre ++ "$" ++ render_template post table_json)%string.
Proof.
  intro Hpre. unfold render_template, safe_substitute.
  set (mapping := fun name : string =>
                    if String.eqb name "table_json" then Some table_json
                    else None).
  split; [| split; [| split]].
  - rewrite <- (ReFacts.append_nil_r pre) at 1.
    rewrite (Render.substitute_no_dollar mapping pre "" Hpre).
    apply ReFacts.append_nil_r.
  - intro Hpost. rewrite (Render.substitute_no_dollar _ _ _ Hpre). f_equal.
    apply (Render.substitute_named mapping "t"%char "able_json" post);
      try reflexivity; try assumption.
  - rewrite (Render.substitute_no_dollar _ _ _ Hpre). reflexivity.
  - rewrite (Render.substitute_no_dollar _ _ _ Hpre). reflexivity.
Qed.

Lemma render_template_text_witness :
  render_template "var table = $table_json; // $$ and ${other}"
    "[{1: $table_json}]"
  = "var table = [{1: $table_json}]; // $ and ${other}".
Proof.
  destruct (render_template_text "[{1: $table_json}]" "var table = "
              "; // $$ and ${other}" eq_refl) as (_ & H & _).
  exact (H eq_refl).
Defined.
(** * The name of the report *)

Module ReportName.

Lemma digits_of_four (v1 v2 v3 v4 : Z) :
  0 <= v1 <= 9 -> 0 <= v2 <= 9 -> 0 <= v3 <= 9 -> 0 <= v4 <= 9 ->
  let y := 10 * (10 * (10 * (10 * 0 + v1) + v2) + v3) + v4 in
  y / 1000 = v1 /\ y / 100 mod 10 = v2 /\ y / 10 mod 10 = v3
  /\ y mod 10 = v4.
Proof.
  intros H1 H2 H3 H4 y. subst y.
  assert (E1 : (10 * (10 * (10 * (10 * 0 + v1) + v2) + v3) + v4) / 1000 = v1)
    by (symmetry; apply (Z.div_unique _ 1000 v1 (100 * v2 + 10 * v3 + v4));
        lia).
  assert (E2 : (10 * (10 * (10 * (10 * 0 + v1) + v2) + v3) + v4) / 100
               = 10 * v1 + v2)
    by (symmetry; apply (Z.div_unique _ 100 _ (10 * v3 + v4)); lia).
  assert (E3 : (10 * (10 * (10 * (10 * 0 + v1) + v2) + v3) + v4) / 10
               = 100 * v1 + 10 * v2 + v3)
    by (symmetry; apply (Z.div_unique _ 10 _ v4); lia).
  rewrite E1, E2, E3. split; [reflexivity |].
  split; [symmetry; apply (Z.mod_unique _ 10 v1 v2); lia |].
  split; [symmetry; apply (Z.mod_unique _ 10 (10 * v1 + v2) v3); lia |].
  symmetry. apply (Z.mod_unique _ 10 (100 * v1 + 10 * v2 + v3) v4); lia.
Qed.

Lemma digits_of_two (v1 v2 : Z) :
  0 <= v1 <= 9 -> 0 <= v2 <= 9 ->
  let m := 10 * (10 * 0 + v1) + v2 in
  m / 10 = v1 /\ m mod 10 = v2.
Proof.
  intros H1 H2 m. subst m. split.
  - symmetry. apply (Z.div_unique _ 10 v1 v2); lia.
  - symmetry. apply (Z.mod_unique _ 10 v1 v2); lia.
Qed.

(** A string of eight digits, by its characters. *)
Lemma eight_digits (s : string) :
  (String.length s =? 8)%nat && all_digits s = true ->
  exists c1 c2 c3 c4 c5 c6 c7 c8,
    s = String c1 (String c2 (String c3 (String c4 (String c5 (String c6
          (String c7 (String c8 EmptyString)))))))
    /\ is_digit c1 = true /\ is_digit c2 = true /\ is_digit c3 = true
    /\ is_digit c4 = true /\ is_digit c5 = true /\ is_digit c6 = true
    /\ is_digit c7 = true /\ is_digit c8 = true.
Proof.
  intro H. apply Bool.andb_true_iff in H. destruct H as [Hl Hd].
  apply Nat.eqb_eq in Hl.
  destruct s as [| c1 [| c2 [| c3 [| c4 [| c5 [| c6 [| c7 [| c8 [| c9 r]]]]]]]]];
    try discriminate.
  exists c1, c2, c3, c4, c5, c6, c7, c8. split; [reflexivity |].
  cbn [all_digits] in Hd.
  repeat (apply Bool.andb_true_iff in Hd; destruct Hd as [? Hd]).
  repeat split; assumption.
Qed.

Lemma number_four (c1 c2 c3 c4 : ascii) :
  is_digit c1 = true -> is_digit c2 = true -> is_digit c3 = true ->
  is_digit c4 = true ->
  number (String c1 (String c2 (String c3 (String c4 EmptyString))))
  = 10 * (10 * (10 * (10 * 0 + digit_value c1) + digit_value c2)
          + digit_value c3) + digit_value c4.
Proof.
  intros H1 H2 H3 H4. unfold number. cbn [read_digits].
  rewrite H1, H2, H3, H4. reflexivity.
Qed.

Lemma number_two (c1 c2 : ascii) :
  is_digit c1 = true -> is_digit c2 = true ->
  number (String c1 (String c2 EmptyString))
  = 10 * (10 * 0 + digit_value c1) + digit_value c2.
Proof.
  intros H1 H2. unfold number. cbn [read_digits].
  rewrite H1, H2. reflexivity.
Qed.

End ReportName.

(** X11. The report is named after the date in the name of the log file:
    for eight ASCII digits [YYYYMMDD] that [strptime] read as the date, the
    name is [report-YYYY.MM.DD.html] with these digits, when the year has
    four digits or the C library pads it to four. (Other Unicode digits,
    which the pattern and [strptime] accept as well, are written by
    [strftime] as ASCII digits; they are not covered.) *)
Theorem report_file_name_of_log_date (pad : bool) (digits : string)
    (d : date) :
  all_digits digits = true ->
  strptime_Ymd digits = Some d ->
  pad = true \/ 1000 <= year d ->
  report_file_name pad d
  = ("report-" ++ substring 0 4 digits ++ "." ++ substring 4 2 digits
     ++ "." ++ substring 6 2 digits ++ ".html")%string.
Proof.
  unfold strptime_Ymd. intros _ H Hy.
  destruct ((String.length digits =? 8)%nat && all_digits digits) eqn:E;
    [| discriminate].
  destruct (ReportName.eight_digits digits E)
    as (c1 & c2 & c3 & c4 & c5 & c6 & c7 & c8 & -> & Hc1 & Hc2 & Hc3 & Hc4
        & Hc5 & Hc6 & Hc7 & Hc8).
  clear E. cbn [substring] in *.
  rewrite (ReportName.number_four c1 c2 c3 c4 Hc1 Hc2 Hc3 Hc4) in H.
  rewrite (ReportName.number_two c5 c6 Hc5 Hc6) in H.
  rewrite (ReportName.number_two c7 c8 Hc7 Hc8) in H.
  pose proof (ReportName.digits_of_four _ _ _ _
                (Render.digit_value_range c1 Hc1)
                (Render.digit_value_range c2 Hc2)
                (Render.digit_value_range c3 Hc3)
                (Render.digit_value_range c4 Hc4)) as HY.
  pose proof (ReportName.digits_of_two _ _
                (Render.digit_value_range c5 Hc5)
                (Render.digit_value_range c6 Hc6)) as HM.
  pose proof (ReportName.digits_of_two _ _
                (Render.digit_value_range c7 Hc7)
                (Render.digit_value_range c8 Hc8)) as HD.
  cbv zeta in HY, HM, HD.
  remember (10 * (10 * (10 * (10 * 0 + digit_value c1) + digit_value c2)
                  + digit_value c3) + digit_value c4) as y eqn:Ey.
  remember (10 * (10 * 0 + digit_value c5) + digit_value c6) as m eqn:Em.
  remember (10 * (10 * 0 + digit_value c7) + digit_value c8) as dd eqn:Ed.
  clear Ey Em Ed.
  destruct HY as (Y1 & Y2 & Y3 & Y4). destruct HM as (M1 & M2).
  destruct HD as (D1 & D2).
  match type of H with
  | (if ?c then _ else _) = _ => destruct c; [| discriminate]
  end.
  injection H as <-. unfold report_file_name, strftime_dotted.
  cbn [year month day] in *.
  unfold strftime_Y, two_digits.
  rewrite Y1, Y2, Y3, Y4, M1, M2, D1, D2.
  replace (pad || (1000 <=? y)) with true.
  2:{ symmetry. apply Bool.orb_true_iff. destruct Hy as [-> | Hy];
        [left; reflexivity | right; apply Z.leb_le; exact Hy]. }
  rewrite !Render.digit_char_value by assumption.
  reflexivity.
Qed.

Lemma report_file_name_of_log_date_witness :
  candidate_date "nginx-access-ui.log-20170630.gz"
  = Some {| year := 2017; month := 6; day := 30 |}
  /\ forall pad,
       report_file_name pad {| year := 2017; month := 6; day := 30 |}
       = "report-2017.06.30.html".
Proof.
  split; [vm_compute; reflexivity |]. intro pad.
  assert (Hy : 1000 <= year {| year := 2017; month := 6; day := 30 |})
    by (vm_compute; discriminate).
  exact (report_file_name_of_log_date pad "20170630"
           {| year := 2017; month := 6; day := 30 |} eq_refl eq_refl
           (or_intror Hy)).
Defined.
(** * No exception but the two of the description *)

Module Total.

Import FloatFacts Rounding Sums Shares.

Lemma round_ok (x : float) : moderate x -> exists r, round x 3 = Ok r.
Proof.
  intros (Hf & H0 & Hb).
  destruct (round3_units x Hf H0) as (r & k & Hr & _).
  - eapply Z.le_trans; [exact Hb |]. unfold unit_one.
    rewrite <- pow2_split by lia. apply Z.pow_le_mono_r; lia.
  - exists r. exact Hr.
Qed.

Lemma good_moderate (x : float) : good x -> moderate x.
Proof.
  intros (Hf & H0 & Hb). split; [exact Hf |]. split; [exact H0 |].
  eapply Z.le_trans; [exact Hb |]. apply Z.pow_le_mono_r; lia.
Qed.

(** The quotient of a float that is [>= 0] by a positive float. *)
Lemma div_ok (s d : float) :
  fin s -> 0 <= units s -> fin d -> 0 < units d ->
  units s <= 2 ^ 1021 * units d ->
  let q := SFdiv prec emax s d in
  fin q /\ 0 <= units q
  /\ Z.abs (units q * units d - units s * unit_one) * 2 ^ 50
     <= units s * unit_one + 2 ^ 52 * units d.
Proof.
  intros Hfs Hs Hfd Hd Hsd. cbv zeta.
  destruct d as [bd | bd | | bd md ed]; try contradiction;
    [simpl in Hd; lia |].
  unfold fin, ok in Hfd.
  pose proof (pow2_pos (ed + 1074) ltac:(lia)) as Hpd.
  assert (bd = false)
    by (destruct bd; [rewrite units_finite in Hd; lia | reflexivity]).
  subst bd.
  destruct s as [bs | bs | | bs ms es]; try contradiction.
  - change (SFdiv prec emax (S754_zero bs) (S754_finite false md ed))
      with (S754_zero (xorb bs false)).
    change (units (S754_zero (xorb bs false))) with 0.
    change (units (S754_zero bs)) with 0.
    split; [exact I |]. split; [lia |].
    replace (0 * units (S754_finite false md ed) - 0 * unit_one) with 0
      by ring.
    change (Z.abs 0) with 0. lia.
  - unfold fin, ok in Hfs.
    pose proof (pow2_pos (es + 1074) ltac:(lia)) as Hps.
    assert (bs = false)
      by (destruct bs; [rewrite units_finite in Hs; lia | reflexivity]).
    subst bs.
    apply div_units; try assumption.
    rewrite !units_finite, !Z.mul_1_l in Hsd.
    replace (2 ^ 1021 * (Z.pos md * 2 ^ (ed + 1074)))
      with (Z.pos md * 2 ^ (ed + 1074 + 1021)) in Hsd
      by (rewrite (pow2_split (ed + 1074) 1021) by lia; ring).
    apply Zdigits2_le in Hsd; [| lia].
    rewrite !Zdigits2_mul_pow2 in Hsd by lia. lia.
Qed.

(** A quotient by a float of at least one half is at most four times the
    dividend, and four units. *)
Lemma quotient_bound (uq us ud U : Z) :
  0 <= us -> 0 < ud -> 0 < U -> U <= 2 * ud ->
  Z.abs (uq * ud - us * U) * 2 ^ 50 <= us * U + 2 ^ 52 * ud ->
  uq <= 4 * us + 4.
Proof.
  intros Hs Hd HU HUd He.
  change (2 ^ 50) with 1125899906842624 in He.
  change (2 ^ 52) with 4503599627370496 in He.
  assert (H1 : us * U <= us * (2 * ud))
    by (apply Z.mul_le_mono_nonneg_l; lia).
  assert (H2 : uq * 1125899906842624 * ud
               <= (2 * us * 1125899906842625 + 4503599627370496) * ud).
  { replace (uq * 1125899906842624 * ud)
      with (uq * ud * 1125899906842624) by ring.
    replace ((2 * us * 1125899906842625 + 4503599627370496) * ud)
      with (us * (2 * ud) * 1125899906842625 + 4503599627370496 * ud)
      by ring.
    set (A := uq * ud) in *. set (B := us * U) in *.
    set (C := us * (2 * ud)) in *. clearbody A B C. lia. }
  apply Z.mul_le_mono_pos_r in H2; [lia | exact Hd].
Qed.

(** [float(c)] for a count. *)
Lemma of_int_count (c : Z) :
  0 < c <= 2 ^ 30 ->
  exists f, of_int c = Ok f /\ fin f
            /\ unit_one <= 2 * units f /\ units f <= 2 * c * unit_one.
Proof.
  intro Hc. unfold of_int.
  pose proof unit_one_large as HU.
  assert (Hb : Z.abs c * 2 ^ (0 + 1074) < 2 ^ 2097).
  { rewrite Z.abs_eq by lia. change (0 + 1074) with 1074.
    apply (Z.le_lt_trans _ (2 ^ 30 * 2 ^ 1074)).
    - apply Z.mul_le_mono_nonneg_r; [apply Z.pow_nonneg; lia | lia].
    - rewrite <- pow2_split by lia. apply Z.pow_lt_mono_r; lia. }
  pose proof (binary_normalize_units c 0 ltac:(lia) Hb) as H.
  cbv zeta in H. destruct H as [Hf He].
  change (2 ^ (0 + 1074)) with unit_one in He.
  set (F := binary_normalize prec emax c 0 false) in *.
  assert (Hi : is_infinity F = false)
    by (destruct F; try contradiction; reflexivity).
  rewrite Hi. exists F. split; [reflexivity |]. split; [exact Hf |].
  change (2 ^ 50) with 1125899906842624 in He.
  change (2 ^ 100) with 1267650600228229401496703205376 in HU.
  assert (HcU : unit_one * 1 <= c * unit_one)
    by (rewrite (Z.mul_comm c); apply Z.mul_le_mono_nonneg_l; lia).
  set (U := unit_one) in *.
  replace (2 * c * U) with (2 * (c * U)) by ring.
  set (W := c * U) in *. clearbody W U.
  rewrite (Z.abs_eq W) in He by lia. lia.
Qed.

(** [2 ^ 2000], by name: the sizes below are small multiples of it. *)
Lemma big_pow_facts :
  2 ^ 1974 <= 2 ^ 2000 /\ 2 ^ 30 * 2 ^ 1974 = 16 * 2 ^ 2000
  /\ 2 ^ 2020 = 1048576 * 2 ^ 2000 /\ 0 < 2 ^ 2000
  /\ 1048576 * 2 ^ 2000 <= 2 ^ 1020 * unit_one.
Proof.
  split; [apply Z.pow_le_mono_r; lia |].
  split.
  { rewrite <- pow2_split by lia. change 16 with (2 ^ 4).
    rewrite <- pow2_split by lia. reflexivity. }
  split.
  { change 1048576 with (2 ^ 20). rewrite <- pow2_split by lia.
    reflexivity. }
  split; [apply pow2_pos; lia |].
  unfold unit_one. change 1048576 with (2 ^ 20).
  rewrite <- !pow2_split by lia. apply Z.pow_le_mono_r; lia.
Qed.

(** The sum of at most [2 ^ 30] request times. *)
Lemma sum_small (impl : Py.sum_impl) (data : list float) :
  Forall good data -> Z.of_nat (List.length data) <= 2 ^ 30 ->
  let s := Py.sum impl data in
  fin s /\ 0 <= units s /\ units s <= 32 * 2 ^ 2000
  /\ units s <= 2 * total_units data.
Proof.
  intros Hg Hl. cbv zeta.
  pose proof (sum_error impl data Hg Hl) as H. cbv zeta in H.
  destruct H as (Hf & H0 & He).
  pose proof (total_units_nonneg data Hg) as HS0.
  pose proof (total_units_bound data Hg) as HSb.
  destruct big_pow_facts as (_ & HP & _).
  assert (HS : total_units data <= 16 * 2 ^ 2000).
  { rewrite <- HP. eapply Z.le_trans; [exact HSb |].
    apply Z.mul_le_mono_nonneg_r; [apply Z.pow_nonneg; lia | exact Hl]. }
  assert (Hc : (16 * Z.of_nat (List.length data) + 3) * total_units data
               <= (16 * 2 ^ 30 + 3) * total_units data)
    by (apply Z.mul_le_mono_nonneg_r; lia).
  change (2 ^ 30) with 1073741824 in Hc.
  change (2 ^ 50) with 1125899906842624 in He.
  set (S := total_units data) in *. clearbody S.
  set (W := (16 * Z.of_nat (List.length data) + 3) * S) in *. clearbody W.
  set (P := 2 ^ 2000) in *. clearbody P.
  split; [exact Hf |]. split; [exact H0 |]. split; lia.
Qed.

(** The share of a count, before the percent. *)
Lemma count_quotient (c N : Z) :
  0 < c <= N ->
  exists q, int_truediv c N = Ok q /\ fin q /\ 0 <= units q
            /\ units q <= 4 * unit_one.
Proof.
  intro Hc. destruct c as [| n | n]; try lia. destruct N as [| d | d]; try lia.
  cbn [int_truediv].
  assert (Hdig : Zdigits2 (Zpos n) - Zdigits2 (Zpos d) <= 1022).
  { pose proof (Zdigits2_le (Zpos n) (Zpos d) ltac:(lia) ltac:(lia)). lia. }
  destruct (of_ratio_units n d Hdig) as (Hf & H0 & He).
  set (q := of_ratio false n d) in *.
  assert (Hi : is_infinity q = false)
    by (destruct q; try contradiction; reflexivity).
  rewrite Hi. exists q. split; [reflexivity |]. split; [exact Hf |].
  split; [exact H0 |].
  pose proof unit_one_large as HU.
  change (2 ^ 100) with 1267650600228229401496703205376 in HU.
  change (2 ^ 50) with 1125899906842624 in He.
  change (2 ^ 52) with 4503599627370496 in He.
  set (U := unit_one) in *.
  assert (HnU : Z.pos n * U <= Z.pos d * U)
    by (apply Z.mul_le_mono_nonneg_r; lia).
  assert (HnU0 : 0 <= Z.pos n * U) by (apply Z.mul_nonneg_nonneg; lia).
  assert (H2 : units q * 1125899906842624 * Z.pos d
               <= (U * 1125899906842625 + 4503599627370496) * Z.pos d).
  { replace (units q * 1125899906842624 * Z.pos d)
      with (units q * Z.pos d * 1125899906842624) by ring.
    replace ((U * 1125899906842625 + 4503599627370496) * Z.pos d)
      with (Z.pos d * U * 1125899906842625 + 4503599627370496 * Z.pos d)
      by ring.
    set (A := units q * Z.pos d) in *. set (B := Z.pos n * U) in *.
    set (C := Z.pos d * U) in *. clearbody A B C. lia. }
  apply Z.mul_le_mono_pos_r in H2; [| lia]. clearbody U. lia.
Qed.

Lemma truediv_ok (s d : float) :
  0 < units d -> truediv s d = Ok (SFdiv prec emax s d).
Proof.
  intro Hd. unfold truediv.
  destruct d; try reflexivity. simpl in Hd. lia.
Qed.

(** A quotient of at most two is at most four. *)
Lemma share_quotient_bound (uq us ud : Z) :
  0 <= us <= 2 * ud -> 0 < ud ->
  Z.abs (uq * ud - us * unit_one) * 2 ^ 50
  <= us * unit_one + 2 ^ 52 * ud ->
  uq <= 4 * unit_one.
Proof.
  intros Hs Hd He.
  pose proof unit_one_large as HU.
  change (2 ^ 100) with 1267650600228229401496703205376 in HU.
  change (2 ^ 50) with 1125899906842624 in He.
  change (2 ^ 52) with 4503599627370496 in He.
  set (U := unit_one) in *. clearbody U.
  assert (HsU : us * U <= 2 * ud * U)
    by (apply Z.mul_le_mono_nonneg_r; lia).
  assert (HsU0 : 0 <= us * U) by (apply Z.mul_nonneg_nonneg; lia).
  assert (H2 : uq * 1125899906842624 * ud
               <= (2 * U * 1125899906842625 + 4503599627370496) * ud).
  { replace (uq * 1125899906842624 * ud)
      with (uq * ud * 1125899906842624) by ring.
    replace ((2 * U * 1125899906842625 + 4503599627370496) * ud)
      with (2 * ud * U * 1125899906842625 + 4503599627370496 * ud) by ring.
    set (A := uq * ud) in *. set (B := us * U) in *.
    set (C := 2 * ud * U) in *. clearbody A B C. lia. }
  apply Z.mul_le_mono_pos_r in H2; [| lia]. lia.
Qed.

(** The sum of a part of the request times is at most twice the running
    total of all of them. *)
Lemma part_sum_le (impl : Py.sum_impl) (data all : list float) :
  Forall good data -> Forall good all ->
  Z.of_nat (List.length data) <= 2 ^ 30 ->
  Z.of_nat (List.length all) <= 2 ^ 30 ->
  total_units data <= total_units all ->
  units (Py.sum impl data) <= 2 * units (Py.sum Py.SumLeftFold all).
Proof.
  intros Hgd Hga Hld Hla Hle.
  pose proof (sum_error impl data Hgd Hld) as H1. cbv zeta in H1.
  pose proof (sum_error Py.SumLeftFold all Hga Hla) as H2. cbv zeta in H2.
  destruct H1 as (_ & _ & He1). destruct H2 as (_ & _ & He2).
  pose proof (total_units_nonneg data Hgd) as HS1.
  pose proof (total_units_nonneg all Hga) as HS2.
  assert (Hc1 : (16 * Z.of_nat (List.length data) + 3) * total_units data
                <= (16 * 2 ^ 30 + 3) * total_units data)
    by (apply Z.mul_le_mono_nonneg_r; lia).
  assert (Hc2 : (16 * Z.of_nat (List.length all) + 3) * total_units all
                <= (16 * 2 ^ 30 + 3) * total_units all)
    by (apply Z.mul_le_mono_nonneg_r; lia).
  change (2 ^ 30) with 1073741824 in Hc1, Hc2.
  change (2 ^ 50) with 1125899906842624 in He1, He2.
  set (W1 := (16 * Z.of_nat (List.length data) + 3) * total_units data) in *.
  set (W2 := (16 * Z.of_nat (List.length all) + 3) * total_units all) in *.
  clearbody W1 W2. lia.
Qed.

Lemma nth_good (l : list float) (i : nat) :
  Forall good l -> (i < List.length l)%nat -> good (nth i l zero).
Proof.
  intros Hg Hi. rewrite Forall_forall in Hg. apply Hg. apply nth_In. exact Hi.
Qed.

Lemma units_two :
  units (S754_finite false 4503599627370496 (-51)) = 2 * unit_one.
Proof. vm_compute. reflexivity. Qed.

(** The median of request times is a float of moderate size. *)
Lemma median_ok (data : list float) :
  Forall good data -> data <> [] ->
  exists m, Py.median data = Ok m /\ moderate m.
Proof.
  intros Hg Hne. unfold Py.median, Py.sorted.
  set (ordered := Py.sort ltb data).
  assert (Hlen : List.length ordered = List.length data)
    by apply Raises.sort_length.
  assert (Hgo : Forall good ordered).
  { eapply Permutation_Forall; [| exact Hg].
    symmetry. apply Order.sort_perm. }
  assert (Hpos : (0 < List.length ordered)%nat)
    by (rewrite Hlen; destruct data; [contradiction | simpl; lia]).
  destruct (List.length ordered) as [| n'] eqn:En; [lia |].
  rewrite <- En in *.
  assert (Hi : (Nat.div (List.length ordered) 2 < List.length ordered)%nat)
    by (apply Nat.div_lt; lia).
  destruct (Nat.odd (List.length ordered)).
  - eexists. split; [reflexivity |]. apply good_moderate.
    apply nth_good; assumption.
  - set (i := Nat.div (List.length ordered) 2) in *.
    destruct (nth_good ordered (i - 1) Hgo ltac:(lia)) as (Hfa & Ha0 & Hab).
    destruct (nth_good ordered i Hgo Hi) as (Hfb & Hb0 & Hbb).
    set (a := nth (i - 1) ordered zero) in *.
    set (b := nth i ordered zero) in *.
    destruct big_pow_facts as (HP1 & _ & HP3 & HP0 & HPU).
    assert (Hsum : Z.abs (units a + units b) < 2 ^ 2097).
    { rewrite Z.abs_eq by lia.
      apply (Z.le_lt_trans _ (2 * 2 ^ 1974)); [lia |].
      change 2 with (2 ^ 1) at 1. rewrite <- pow2_split by lia.
      apply Z.pow_lt_mono_r; lia. }
    destruct (add_units a b Hfa Hfb Hsum) as (Hfx & Hex).
    set (x := add a b) in *.
    rewrite (Z.abs_eq (units a + units b)) in Hex by lia.
    change (2 ^ 50) with 1125899906842624 in Hex.
    rewrite Raises.truediv_int_2.
    pose proof units_two as H2.
    set (two := S754_finite false 4503599627370496 (-51)) in *.
    pose proof unit_one_large as HU.
    change (2 ^ 100) with 1267650600228229401496703205376 in HU.
    assert (HQ : 2 ^ 1021 = 2 * 2 ^ 1020)
      by (change 1021 with (Z.succ 1020); apply Z.pow_succ_r; lia).
    assert (HQU : 2 ^ 1020 * unit_one * 1 <= 2 ^ 1020 * unit_one * 2) by lia.
    destruct (div_ok x two Hfx ltac:(lia) ltac:(unfold fin, ok, two; lia)
                ltac:(lia)) as (Hfq & Hq0 & Heq).
    { rewrite H2, HQ.
      replace (2 * 2 ^ 1020 * (2 * unit_one))
        with (4 * (2 ^ 1020 * unit_one)) by ring.
      set (QU := 2 ^ 1020 * unit_one) in *.
      set (P := 2 ^ 2000) in *. set (G := 2 ^ 1974) in *.
      clearbody QU P G. lia. }
    pose proof (quotient_bound (units (SFdiv prec emax x two)) (units x)
                  (units two) unit_one ltac:(lia) ltac:(lia)
                  ltac:(lia) ltac:(lia) Heq) as Hqb.
    eexists. split; [reflexivity |]. split; [exact Hfq |].
    split; [exact Hq0 |]. rewrite HP3.
    set (P := 2 ^ 2000) in *. set (G := 2 ^ 1974) in *.
    clearbody P G. lia.
Qed.

Lemma max_good (data : list float) :
  Forall good data -> data <> [] ->
  exists m, Py.max data = Ok m /\ good m.
Proof.
  intros Hg Hne. destruct data as [| x rest]; [contradiction |].
  inversion Hg as [| ? ? Hx Hrest]; subst. cbn [Py.max].
  eexists. split; [reflexivity |].
  clear Hg Hne. revert x Hx.
  induction Hrest as [| y rest Hy _ IH]; intros x Hx; cbn [fold_left].
  - exact Hx.
  - apply IH. destruct (ltb x y); assumption.
Qed.

(** Every operation of the enrichment of one item returns. *)
Lemma enrich_ok (impl : Py.sum_impl) (N : Z) (T : float) (u : string)
    (data : list float) :
  fin T -> 0 < units T ->
  Forall good data -> data <> [] ->
  Z.of_nat (List.length data) <= N -> N <= 2 ^ 30 ->
  units (Py.sum impl data) <= 2 * units T ->
  exists e, enrich impl N T (u, data) = Ok e.
Proof.
  intros HfT HT Hg Hne HcN HN HsT.
  assert (Hc : 0 < Z.of_nat (List.length data))
    by (destruct data; [contradiction | cbn [List.length]; lia]).
  pose proof unit_one_large as HU.
  change (2 ^ 100) with 1267650600228229401496703205376 in HU.
  destruct big_pow_facts as (_ & _ & HP3 & HP0 & HPU).
  assert (HQ : 2 ^ 1021 = 2 * 2 ^ 1020)
    by (change 1021 with (Z.succ 1020); apply Z.pow_succ_r; lia).
  assert (HQ1 : 1 <= 2 ^ 1020)
    by (change 1 with (2 ^ 0); apply Z.pow_le_mono_r; lia).
  (* the share of the count *)
  destruct (count_quotient _ N (conj Hc HcN)) as (q1 & E1 & Hfq1 & Hq10 & Hq1b).
  destruct (percent_units q1 Hfq1 Hq10 Hq1b) as (r1 & Ep1 & _).
  unfold percent in Ep1. apply Raises.bind_ok in Ep1.
  destruct Ep1 as (p1 & Em1 & Er1).
  (* the sum and its share *)
  destruct (sum_small impl data Hg ltac:(lia)) as (Hfs & Hs0 & Hsb & _).
  pose proof (truediv_ok (Py.sum impl data) T HT) as E2.
  assert (HsT' : units (Py.sum impl data) <= 2 ^ 1021 * units T).
  { rewrite HQ.
    assert (units T * 1 <= units T * 2 ^ 1020)
      by (apply Z.mul_le_mono_nonneg_l; lia).
    set (QT := units T * 2 ^ 1020) in *.
    replace (2 * 2 ^ 1020 * units T) with (2 * QT) by (unfold QT; ring).
    clearbody QT. lia. }
  destruct (div_ok (Py.sum impl data) T Hfs Hs0 HfT HT HsT')
    as (Hfq2 & Hq20 & Heq2).
  pose proof (share_quotient_bound _ _ _ (conj Hs0 HsT) HT Heq2) as Hq2b.
  destruct (percent_units _ Hfq2 Hq20 Hq2b) as (r2 & Ep2 & _).
  unfold percent in Ep2. apply Raises.bind_ok in Ep2.
  destruct Ep2 as (p2 & Em2 & Er2).
  (* the mean *)
  destruct (of_int_count (Z.of_nat (List.length data)) ltac:(lia))
    as (f & Ef & Hff & Hf1 & _).
  assert (Hf0 : 0 < units f) by lia.
  assert (E3 : truediv_int (Py.sum impl data) (Z.of_nat (List.length data))
               = Ok (SFdiv prec emax (Py.sum impl data) f)).
  { unfold truediv_int. rewrite Ef. cbn [bind]. apply truediv_ok. exact Hf0. }
  assert (Hsf : units (Py.sum impl data) <= 2 ^ 1021 * units f).
  { rewrite HQ.
    assert (2 ^ 1020 * unit_one <= 2 ^ 1020 * (2 * units f))
      by (apply Z.mul_le_mono_nonneg_l; lia).
    replace (2 * 2 ^ 1020 * units f) with (2 ^ 1020 * (2 * units f)) by ring.
    set (A := 2 ^ 1020 * (2 * units f)) in *.
    set (B := 2 ^ 1020 * unit_one) in *.
    set (P := 2 ^ 2000) in *. clearbody A B P. lia. }
  destruct (div_ok (Py.sum impl data) f Hfs Hs0 Hff Hf0 Hsf)
    as (Hfq3 & Hq30 & Heq3).
  pose proof (quotient_bound (units (SFdiv prec emax (Py.sum impl data) f))
                (units (Py.sum impl data)) (units f) unit_one
                Hs0 Hf0 ltac:(lia) Hf1 Heq3) as Hq3b.
  assert (Hms : moderate (Py.sum impl data)).
  { split; [exact Hfs |]. split; [exact Hs0 |]. rewrite HP3.
    set (P := 2 ^ 2000) in *. clearbody P. lia. }
  assert (Hmq : moderate (SFdiv prec emax (Py.sum impl data) f)).
  { split; [exact Hfq3 |]. split; [exact Hq30 |]. rewrite HP3.
    set (P := 2 ^ 2000) in *. clearbody P. lia. }
  destruct (round_ok _ Hms) as (rs & Ers).
  destruct (round_ok _ Hmq) as (ra & Era).
  (* the maximum and the median *)
  destruct (max_good data Hg Hne) as (m & Emax & Hgm).
  destruct (round_ok m (good_moderate m Hgm)) as (rm & Erm).
  destruct (median_ok data Hg Hne) as (d & Emed & Hmd).
  destruct (round_ok d Hmd) as (rd & Erd).
  unfold enrich. cbv zeta.
  rewrite E1. cbn [bind]. rewrite E2. cbn [bind]. rewrite E3. cbn [bind].
  rewrite Emax. cbn [bind]. rewrite Emed. cbn [bind].
  rewrite Em1. cbn [bind]. rewrite Er1. cbn [bind].
  rewrite Ers. cbn [bind]. rewrite Em2. cbn [bind]. rewrite Er2. cbn [bind].
  rewrite Era. cbn [bind]. rewrite Erm. cbn [bind]. rewrite Erd. cbn [bind].
  eexists. reflexivity.
Qed.

Lemma enrich_all_ok (impl : Py.sum_impl) (N : Z) (T : float)
    (items : stats_dict) :
  fin T -> 0 < units T -> N <= 2 ^ 30 ->
  Forall (fun a => Forall good (snd a) /\ snd a <> []
                   /\ Z.of_nat (List.length (snd a)) <= N
                   /\ units (Py.sum impl (snd a)) <= 2 * units T) items ->
  exists values, enrich_all impl N T items = Ok values.
Proof.
  intros HfT HT HN. induction 1 as [| [u data] items H _ [values IH]].
  - exists []. reflexivity.
  - cbn [snd] in H. destruct H as (Hg & Hne & Hl & Hs).
    destruct (enrich_ok impl N T u data HfT HT Hg Hne Hl HN Hs) as (e & He).
    cbn [enrich_all]. rewrite He. cbn [bind]. rewrite IH. cbn [bind].
    eexists. reflexivity.
Qed.

(** The errors gate lets a run through that has no limit or no line that
    failed to parse. *)
Lemma errors_gate_passes (stream : list parsed_line)
    (errors_limit : option float) :
  errors_limit = None \/ ~ In None stream ->
  errors_gate errors_limit (loop stream) = Ok tt.
Proof.
  intro H. unfold errors_gate.
  destruct errors_limit as [limit |]; [| reflexivity].
  destruct H as [H | H]; [discriminate |].
  destruct (Loop.loop_state_spec stream) as (Ht & Hp & _).
  rewrite Ht, Hp. apply Raises.records_all_iff in H. rewrite H.
  rewrite Z.sub_diag.
  destruct (Z.of_nat (List.length stream)) as [| n | n]; reflexivity.
Qed.

Lemma total_units_member (l : list float) (x : float) :
  Forall good l -> In x l -> units x <= total_units l.
Proof.
  induction 1 as [| y l (_ & Hy & _) Hl IH]; intros Hin; [contradiction |].
  pose proof (total_units_nonneg l Hl) as H0.
  cbn [total_units fold_right]. fold (total_units l).
  destruct Hin as [-> | Hin]; [lia |]. specialize (IH Hin). lia.
Qed.

(** The running total of request times that are not all zero is not
    zero. *)
Lemma total_positive (l : list float) (x : float) :
  Forall good l -> Z.of_nat (List.length l) <= 2 ^ 30 ->
  In x l -> 0 < units x ->
  0 < units (Py.sum Py.SumLeftFold l).
Proof.
  intros Hg Hl Hin Hx.
  pose proof (total_units_member l x Hg Hin) as Hm.
  pose proof (sum_error Py.SumLeftFold l Hg Hl) as H. cbv zeta in H.
  destruct H as (_ & _ & He).
  assert (Hc : (16 * Z.of_nat (List.length l) + 3) * total_units l
               <= (16 * 2 ^ 30 + 3) * total_units l)
    by (apply Z.mul_le_mono_nonneg_r; lia).
  change (2 ^ 30) with 1073741824 in Hc.
  change (2 ^ 50) with 1125899906842624 in He.
  set (W := (16 * Z.of_nat (List.length l) + 3) * total_units l) in *.
  clearbody W. lia.
Qed.

Lemma calculate_statistics_ok (impl : Py.sum_impl)
    (stream : list parsed_line) (errors_limit : option float) :
  errors_limit = None \/ ~ In None stream ->
  (forall u t, In (u, t) (records stream) -> plausible t = true) ->
  parsed_lines stream <= 2 ^ 30 ->
  records stream = []
  \/ (exists u t, In (u, t) (records stream) /\ is_zero t = false) ->
  exists values, calculate_statistics impl stream errors_limit = Ok values.
Proof.
  intros Hgate Hplausible Hsize Htotal.
  unfold calculate_statistics. cbv zeta.
  rewrite (errors_gate_passes stream errors_limit Hgate). cbn [bind].
  destruct (Loop.loop_state_spec stream) as (_ & Hp & Hl & _).
  rewrite Hp, Hl. fold (parsed_lines stream).
  pose proof (records_good stream Hplausible) as Hga.
  assert (Hla : Z.of_nat (List.length (map snd (records stream))) <= 2 ^ 30)
    by (rewrite length_map; exact Hsize).
  pose proof (statistics_items_good stream Hplausible) as Hi.
  destruct Htotal as [Hnil | (u0 & t0 & Hin0 & Hnz)].
  - assert (Hs : statistics (loop stream) = []).
    { pose proof (statistics_values stream) as Hperm.
      rewrite Hnil in Hperm. cbn [map] in Hperm.
      apply Permutation_sym, Permutation_nil in Hperm.
      destruct (statistics (loop stream)) as [| [u data] items];
        [reflexivity |].
      inversion Hi as [| ? ? (_ & Hne & _) _]; subst.
      cbn [map snd List.concat] in Hperm.
      destruct data; [contradiction | discriminate]. }
    rewrite Hs. exists []. reflexivity.
  - pose proof (sum_error Py.SumLeftFold _ Hga Hla) as HT.
    cbv zeta in HT. destruct HT as (HfT & _ & _).
    destruct (plausible_good t0 (Hplausible u0 t0 Hin0)) as (Hft0 & Ht0 & _).
    destruct (positive_float t0 Hft0 Ht0 Hnz) as (_ & _ & _ & _ & Ht0p).
    assert (HTp : 0 < units (Py.sum Py.SumLeftFold (map snd (records stream)))).
    { apply (total_positive _ t0); try assumption.
      apply in_map_iff. exists (u0, t0). split; [reflexivity | exact Hin0]. }
    change (Py.sum Py.SumLeftFold (map snd (records stream)))
      with (total_latency stream) in HfT, HTp.
    apply enrich_all_ok; try assumption.
    eapply Forall_impl; [| exact Hi].
    intros [u data] (Hg & Hne & Hlen & Htu). cbn [snd] in *.
    split; [exact Hg |]. split; [exact Hne |]. split; [exact Hlen |].
    change (total_latency stream)
      with (Py.sum Py.SumLeftFold (map snd (records stream))).
    apply part_sum_le; try assumption. lia.
Qed.

End Total.

(** X12. [calculate_statistics] returns a report, raising nothing, when
    the errors limit is [None] or every line parsed, the request times are
    zero or finite and below [2^900], at most [2^30] lines parsed, and some
    parsed request time is not zero (or no line parsed at all, which gives
    the empty report). *)
Theorem calculate_statistics_returns (impl : Py.sum_impl)
    (stream : list parsed_line) (errors_limit : option float)
    (Hgate : errors_limit = None \/ ~ In None stream)
    (Hplausible : forall u t, In (u, t) (records stream) -> plausible t = true)
    (Hsize : parsed_lines stream <= 2 ^ 30)
    (Hnonzero : records stream = []
                \/ exists u t, In (u, t) (records stream)
                               /\ is_zero t = false) :
  exists values, calculate_statistics impl stream errors_limit = Ok values.
Proof.
  exact (Total.calculate_statistics_ok impl stream errors_limit
           Hgate Hplausible Hsize Hnonzero).
Qed.

Lemma calculate_statistics_returns_witness :
  exists values,
    calculate_statistics Py.SumCompensated
      [Some ("/a", decimal "0.1"); None; Some ("/b", decimal "0.2");
       Some ("/a", decimal "0.3")] None = Ok values.
Proof.
  assert (Hplausible :
            forall u t,
              In (u, t)
                 (records [Some ("/a", decimal "0.1"); None;
                           Some ("/b", decimal "0.2");
                           Some ("/a", decimal "0.3")]) ->
              plausible t = true).
  { intros u t H; vm_compute in H.
    repeat (destruct H as [H | H]; [inversion H; reflexivity |]).
    contradiction. }
  assert (Hsize :
            parsed_lines [Some ("/a", decimal "0.1"); None;
                          Some ("/b", decimal "0.2");
                          Some ("/a", decimal "0.3")] <= 2 ^ 30)
    by (vm_compute; discriminate).
  assert (Hnonzero :
            exists u t,
              In (u, t)
                 (records [Some ("/a", decimal "0.1"); None;
                           Some ("/b", decimal "0.2");
                           Some ("/a", decimal "0.3")])
              /\ is_zero t = false).
  { exists "/a", (decimal "0.1"). split; [left; reflexivity |].
    vm_compute. reflexivity. }
  exact (calculate_statistics_returns Py.SumCompensated
           [Some ("/a", decimal "0.1"); None; Some ("/b", decimal "0.2");
            Some ("/a", decimal "0.3")] None
           (or_introl eq_refl) Hplausible Hsize (or_intror Hnonzero)).
Defined.
(** * From the lines of the log to the report *)

Module Pipeline.

Import FloatFacts Rounding Sums Shares ReFacts.

(** ** The float of a short decimal text *)

Lemma quotient_le (uq us ud U : Z) :
  0 <= us * U -> 1 <= ud ->
  Z.abs (uq * ud - us * U) * 2 ^ 50 <= us * U + 2 ^ 52 * ud ->
  uq <= 2 * (us * U) + 4.
Proof.
  intros HA Hd He.
  change (2 ^ 50) with 1125899906842624 in He.
  change (2 ^ 52) with 4503599627370496 in He.
  set (A := us * U) in *. clearbody A.
  assert (HB : A * 1 <= A * ud) by (apply Z.mul_le_mono_nonneg_l; lia).
  assert (H2 : uq * 1125899906842624 * ud
               <= (A * 1125899906842625 + 4503599627370496) * ud).
  { replace (uq * 1125899906842624 * ud)
      with (uq * ud * 1125899906842624) by ring.
    replace ((A * 1125899906842625 + 4503599627370496) * ud)
      with (A * ud * 1125899906842625 + 4503599627370496 * ud) by ring.
    set (B := A * ud) in *. set (C := uq * ud) in *. clearbody B C. lia. }
  apply Z.mul_le_mono_pos_r in H2; [| lia]. lia.
Qed.

Lemma plausible_of_units (f : float) :
  fin f -> 0 <= units f -> units f < 2 ^ 1974 -> plausible f = true.
Proof.
  destruct f as [s | s | | s m e]; try contradiction; [reflexivity |].
  unfold fin, ok. intros He H0 Hb. rewrite units_finite in H0, Hb.
  pose proof (pow2_pos (e + 1074) ltac:(lia)) as Hp.
  assert (Hm : 0 < Z.pos m * 2 ^ (e + 1074)) by (apply Z.mul_pos_pos; lia).
  destruct s; [lia |]. rewrite Z.mul_1_l in Hb.
  apply (Zdigits2_le_iff (Z.pos m * 2 ^ (e + 1074)) 1974 ltac:(lia)
           ltac:(lia)) in Hb.
  rewrite Zdigits2_mul_pow2 in Hb by lia.
  unfold plausible. apply Bool.andb_true_iff. split; apply Z.leb_le; lia.
Qed.

(** The float nearest to a ratio below [2 ^ 897]. *)
Lemma ratio_plausible (p d : positive) :
  Z.pos p < 2 ^ 897 -> plausible (of_ratio false p d) = true.
Proof.
  intro Hp.
  assert (Hdig : Zdigits2 (Z.pos p) - Zdigits2 (Z.pos d) <= 1022).
  { pose proof (proj2 (Zdigits2_le_iff (Z.pos p) 897 ltac:(lia) ltac:(lia)) Hp).
    pose proof (Zdigits2_pos (Z.pos d) ltac:(lia)). lia. }
  destruct (of_ratio_units p d Hdig) as (Hf & H0 & He).
  pose proof unit_one_large as HU.
  change (2 ^ 100) with 1267650600228229401496703205376 in HU.
  assert (HpU : Z.pos p * unit_one <= (2 ^ 897 - 1) * unit_one)
    by (apply Z.mul_le_mono_nonneg_r; lia).
  pose proof (quotient_le (units (of_ratio false p d)) (Z.pos p) (Z.pos d)
                unit_one ltac:(lia) ltac:(lia) He) as Hq.
  apply plausible_of_units; [exact Hf | exact H0 |].
  assert (HQ : 2 ^ 1974 = 8 * (2 ^ 897 * unit_one)).
  { unfold unit_one. rewrite <- pow2_split by lia.
    change 8 with (2 ^ 3). rewrite <- pow2_split by lia. reflexivity. }
  rewrite HQ. rewrite Z.mul_sub_distr_r in HpU.
  set (Q := 2 ^ 897 * unit_one) in *. set (A := Z.pos p * unit_one) in *.
  clearbody Q A. lia.
Qed.

Lemma pow10_small (k : Z) : 0 <= k <= 270 -> 10 ^ k < 2 ^ 897.
Proof.
  intro Hk. apply (Z.le_lt_trans _ (10 ^ 270)).
  - apply Z.pow_le_mono_r; lia.
  - vm_compute. reflexivity.
Qed.

Lemma float_of_str_small (num : Z) (nf : nat) :
  0 <= num < 2 ^ 897 ->
  exists f,
    match num with
    | Z.pos p => Ok (of_ratio false p (Z.to_pos (10 ^ Z.of_nat nf)))
    | _ => Ok zero
    end = Ok f /\ plausible f = true.
Proof.
  intro H. destruct num as [| p | p]; try lia.
  - exists zero. split; reflexivity.
  - eexists. split; [reflexivity | apply ratio_plausible; lia].
Qed.

Lemma read_digits_app_bound (ds rest : string) (acc : Z) (n : nat) :
  all_digits ds = true -> 0 <= acc ->
  exists acc',
    0 <= acc' < (acc + 1) * 10 ^ Z.of_nat (String.length ds)
    /\ read_digits (ds ++ rest) acc n
       = read_digits rest acc' (String.length ds + n).
Proof.
  revert acc n. induction ds as [| a ds IH]; intros acc n Hd Hacc;
    cbn [read_digits String.append String.length].
  - exists acc. split; [change (10 ^ Z.of_nat 0) with 1; lia | reflexivity].
  - simpl in Hd. apply Bool.andb_true_iff in Hd. destruct Hd as [Ha Hd].
    rewrite Ha. pose proof (Render.digit_value_range a Ha) as Hv.
    destruct (IH (10 * acc + digit_value a) (S n) Hd ltac:(lia))
      as (acc' & Hacc' & E).
    exists acc'. split; [| rewrite E; f_equal; lia].
    rewrite Nat2Z.inj_succ, Z.pow_succ_r by lia.
    assert (HP : 0 < 10 ^ Z.of_nat (String.length ds))
      by (apply Z.pow_pos_nonneg; lia).
    assert (Hs : (10 * acc + digit_value a + 1)
                 * 10 ^ Z.of_nat (String.length ds)
                 <= 10 * (acc + 1) * 10 ^ Z.of_nat (String.length ds))
      by (apply Z.mul_le_mono_nonneg_r; lia).
    replace ((acc + 1) * (10 * 10 ^ Z.of_nat (String.length ds)))
      with (10 * (acc + 1) * 10 ^ Z.of_nat (String.length ds)) by ring.
    lia.
Qed.

Lemma read_digits_all_bound (ds : string) (acc : Z) (n : nat) :
  all_digits ds = true -> 0 <= acc ->
  exists acc',
    0 <= acc' < (acc + 1) * 10 ^ Z.of_nat (String.length ds)
    /\ read_digits ds acc n = (acc', (String.length ds + n)%nat, EmptyString).
Proof.
  intros Hd Hacc.
  destruct (read_digits_app_bound ds EmptyString acc n Hd Hacc)
    as (acc' & H & E).
  rewrite append_nil_r in E. exists acc'. split; [assumption | exact E].
Qed.

(** [float] of a decimal text of at most 270 characters is zero or a
    positive finite float below [2 ^ 900]. *)
Lemma float_of_str_plausible (s : string) :
  decimal_text s -> Z.of_nat (String.length s) <= 270 ->
  exists f, float_of_str s = Ok f /\ plausible f = true.
Proof.
  intros (a & ds & ds' & Ha & Hds & Hds' & [-> | ->]) Hlen;
    unfold float_of_str; cbn [String.length] in Hlen;
    rewrite length_append in Hlen; cbn [String.length] in Hlen;
    pose proof (Render.digit_value_range a Ha) as Hv.
  - cbn [read_digits]. rewrite Ha.
    destruct (read_digits_all_bound (ds ++ ds') (10 * 0 + digit_value a) 1
                (all_digits_append _ _ Hds Hds') ltac:(lia))
      as (i & Hi & E).
    rewrite E. rewrite Nat.add_comm. cbn [Nat.add].
    cbn [read_digits].
    apply float_of_str_small.
    rewrite length_append in Hi.
    set (k := Z.of_nat (String.length ds + String.length ds')) in *.
    assert (Hk : 0 <= k) by (unfold k; lia).
    pose proof (pow10_small (k + 1) ltac:(unfold k; lia)) as Hb.
    rewrite Z.pow_add_r in Hb by lia. change (10 ^ 1) with 10 in Hb.
    assert (HP : 0 < 10 ^ k) by (apply Z.pow_pos_nonneg; lia).
    assert (Hs : (10 * 0 + digit_value a + 1) * 10 ^ k <= 10 * 10 ^ k)
      by (apply Z.mul_le_mono_nonneg_r; lia).
    lia.
  - cbn [read_digits]. rewrite Ha.
    destruct (read_digits_app_bound ds (String "." ds')
                (10 * 0 + digit_value a) 1 Hds ltac:(lia)) as (i & Hi & E).
    rewrite E. cbn [read_digits].
    replace (is_digit ".") with false by reflexivity.
    rewrite Nat.add_comm. cbn [Nat.add].
    replace (Ascii.eqb "." ".") with true by reflexivity.
    destruct (read_digits_all_bound ds' i 0 Hds' ltac:(lia))
      as (num & Hnum & E').
    rewrite E'. apply float_of_str_small.
    set (k := Z.of_nat (String.length ds)) in *.
    set (k' := Z.of_nat (String.length ds')) in *.
    assert (Hk : 0 <= k) by (unfold k; lia).
    assert (Hk' : 0 <= k') by (unfold k'; lia).
    pose proof (pow10_small (k + 1 + k') ltac:(unfold k, k'; lia)) as Hb.
    rewrite !Z.pow_add_r in Hb by lia. change (10 ^ 1) with 10 in Hb.
    assert (HP : 0 < 10 ^ k) by (apply Z.pow_pos_nonneg; lia).
    assert (HP' : 0 < 10 ^ k') by (apply Z.pow_pos_nonneg; lia).
    assert (Hs : (10 * 0 + digit_value a + 1) * 10 ^ k <= 10 * 10 ^ k)
      by (apply Z.mul_le_mono_nonneg_r; lia).
    assert (Hs' : (i + 1) * 10 ^ k' <= 10 ^ k * 10 * 10 ^ k')
      by (apply Z.mul_le_mono_nonneg_r; lia).
    lia.
Qed.

(** ** [process_line] *)

Lemma process_line_plausible (line digits : string) :
  request_time_text line = Some digits ->
  Z.of_nat (String.length digits) <= 270 ->
  exists u t, process_line line = Ok (Some (u, t)) /\ plausible t = true.
Proof.
  unfold request_time_text, process_line.
  destruct (match_ NGINX_LOG_FORMAT_REGEXP line) as [caps |] eqn:E;
    [| discriminate].
  intros Hg Hlen.
  apply match_sound in E. destruct E as (s' & E).
  apply matches_line_captures in E.
  destruct E as (u & t & Hu & Ht & Hdec).
  rewrite Hu, Ht. rewrite Ht in Hg. injection Hg as ->.
  destruct (float_of_str_plausible digits Hdec Hlen) as (f & -> & Hf).
  cbn [bind]. eauto.
Qed.

Lemma process_line_text (line u : string) (t : float) :
  process_line line = Ok (Some (u, t)) ->
  exists digits, request_time_text line = Some digits.
Proof.
  unfold request_time_text, process_line.
  destruct (match_ NGINX_LOG_FORMAT_REGEXP line) as [caps |];
    [| discriminate].
  destruct (group caps "path"); [| discriminate].
  destruct (group caps "request_time") as [digits |]; [| discriminate].
  eauto.
Qed.

(** ** [parse_log] *)

Lemma parse_log_items (lines : list string) :
  exists stream,
    parse_log lines = Ok stream
    /\ Forall2 (fun line item => process_line line = Ok item) lines stream.
Proof.
  induction lines as [| line lines (stream & IH & Hall)].
  - exists []. split; [reflexivity | constructor].
  - cbn [parse_log].
    destruct (process_line_cases line) as [[E _] | (u & t & E & _)];
      rewrite E, IH; cbn [bind]; eexists; (split; [reflexivity |]);
      constructor; assumption.
Qed.

Lemma items_record (lines : list string) (stream : list parsed_line) :
  Forall2 (fun line item => process_line line = Ok item) lines stream ->
  forall u t, In (u, t) (records stream) ->
  exists line, In line lines /\ process_line line = Ok (Some (u, t)).
Proof.
  induction 1 as [| line item lines stream E _ IH]; intros u t Hin;
    [contradiction |].
  destruct item as [[u' t'] |]; cbn [records] in Hin.
  - destruct Hin as [Heq | Hin].
    + inversion Heq; subst. exists line. split; [left; reflexivity | exact E].
    + destruct (IH u t Hin) as (l & Hl & El). exists l.
      split; [right; exact Hl | exact El].
  - destruct (IH u t Hin) as (l & Hl & El). exists l.
    split; [right; exact Hl | exact El].
Qed.

Lemma record_of_line (lines : list string) (stream : list parsed_line) :
  Forall2 (fun line item => process_line line = Ok item) lines stream ->
  forall line u t, In line lines -> process_line line = Ok (Some (u, t)) ->
  In (u, t) (records stream).
Proof.
  induction 1 as [| l item lines stream E _ IH]; intros line u t Hin Hp;
    [contradiction |].
  destruct Hin as [-> | Hin].
  - rewrite Hp in E. inversion E; subst. cbn [records]. left. reflexivity.
  - specialize (IH line u t Hin Hp).
    destruct item as [[u' t'] |]; cbn [records]; [right |]; exact IH.
Qed.

Lemma no_record_of_lines (lines : list string) (stream : list parsed_line) :
  Forall2 (fun line item => process_line line = Ok item) lines stream ->
  (forall line, In line lines -> process_line line = Ok None) ->
  records stream = [].
Proof.
  induction 1 as [| l item lines stream E _ IH]; intro Hn; [reflexivity |].
  rewrite (Hn l (or_introl eq_refl)) in E. inversion E; subst.
  cbn [records]. apply IH. intros line Hin. apply Hn. right. exact Hin.
Qed.

Lemma all_lines_parsed (lines : list string) (stream : list parsed_line) :
  Forall2 (fun line item => process_line line = Ok item) lines stream ->
  (forall line, In line lines -> process_line line <> Ok None) ->
  ~ In None stream.
Proof.
  induction 1 as [| l item lines stream E _ IH]; intros Hn Hin;
    [contradiction |].
  destruct Hin as [-> | Hin].
  - exact (Hn l (or_introl eq_refl) E).
  - apply IH; [| exact Hin]. intros line Hl. apply Hn. right. exact Hl.
Qed.

Lemma report_ok (impl : Py.sum_impl) (lines : list string)
    (errors_limit : option float) (report_size : Z) :
  errors_limit = None
  \/ (forall line, In line lines -> process_line line <> Ok None) ->
  Z.of_nat (List.length lines) <= 2 ^ 30 ->
  (forall line digits,
     In line lines -> request_time_text line = Some digits ->
     Z.of_nat (String.length digits) <= 270) ->
  (forall line, In line lines -> process_line line = Ok None)
  \/ (exists line u t,
        In line lines /\ process_line line = Ok (Some (u, t))
        /\ is_zero t = false) ->
  exists stream values,
    parse_log lines = Ok stream
    /\ calculate_statistics impl stream errors_limit = Ok values
    /\ report impl lines errors_limit report_size
       = Ok (top_statistics values report_size).
Proof.
  intros Hgate Hsize Hshort Hnz.
  destruct (parse_log_items lines) as (stream & Hparse & Hitems).
  assert (Hgate' : errors_limit = None \/ ~ In None stream).
  { destruct Hgate as [Hgate | Hgate]; [left; exact Hgate | right].
    exact (all_lines_parsed lines stream Hitems Hgate). }
  assert (Hplausible :
            forall u t, In (u, t) (records stream) -> plausible t = true).
  { intros u t Hin.
    destruct (items_record lines stream Hitems u t Hin) as (line & Hl & E).
    destruct (process_line_text line u t E) as (digits & Hd).
    destruct (process_line_plausible line digits Hd (Hshort line digits Hl Hd))
      as (u' & t' & E' & Hp).
    rewrite E in E'. inversion E'; subst. exact Hp. }
  assert (Hlen : parsed_lines stream <= 2 ^ 30).
  { unfold parsed_lines.
    pose proof (Loop.records_length_le stream) as Hle.
    pose proof (Forall2_length Hitems) as Hl. lia. }
  assert (Hnz' : records stream = []
                 \/ exists u t, In (u, t) (records stream)
                                /\ is_zero t = false).
  { destruct Hnz as [Hn | (line & u & t & Hin & E & Hz)].
    - left. exact (no_record_of_lines lines stream Hitems Hn).
    - right. exists u, t. split; [| exact Hz].
      exact (record_of_line lines stream Hitems line u t Hin E). }
  destruct (Total.calculate_statistics_ok impl stream errors_limit
              Hgate' Hplausible Hlen Hnz') as (values & Hv).
  exists stream, values. split; [exact Hparse |]. split; [exact Hv |].
  unfold report. rewrite Hparse. cbn [bind]. rewrite Hv. reflexivity.
Qed.

End Pipeline.

(** X13. A line whose request time, as the pattern captures it, has at most
    270 characters gives a record, and its request time is zero or a
    positive finite float below [2 ^ 900]: [float] neither overflows to
    infinity nor gives a NaN or a negative number on it. *)
Theorem short_request_time_is_plausible (line digits : string)
    (Htext : request_time_text line = Some digits)
    (Hshort : Z.of_nat (String.length digits) <= 270) :
  exists u t, process_line line = Ok (Some (u, t)) /\ plausible t = true.
Proof. exact (Pipeline.process_line_plausible line digits Htext Hshort). Qed.

Lemma short_request_time_is_plausible_witness :
  exists u t,
    process_line (log_line "/a" "0.125") = Ok (Some (u, t))
    /\ plausible t = true.
Proof.
  assert (Htext : request_time_text (log_line "/a" "0.125") = Some "0.125")
    by (vm_compute; reflexivity).
  assert (Hshort : Z.of_nat (String.length "0.125") <= 270)
    by (vm_compute; discriminate).
  exact (short_request_time_is_plausible (log_line "/a" "0.125") "0.125"
           Htext Hshort).
Defined.

(** X14. From reading the log file to the list for the template. When
    the file is read without an exception, has at most [2^30] lines with
    request times of at most 270 characters, the errors limit is [None] or
    every line matches the pattern, no line matches at all or some request
    time is not zero, and [REPORT_SIZE] is an int, a boolean or [None], then
    [calculate_statistics] and the ranking of [main] return without
    raising; for an int [REPORT_SIZE] the list is the ranking of the values
    cut at it. When reading the file raises, that exception leaves
    [calculate_statistics]; a [REPORT_SIZE] that is no integer makes the
    slice raise [TypeError] once the statistics are there. *)
Theorem report_returns (impl : Py.sum_impl) (r : Reading.t)
    (errors_limit : option float) (report_size : config_value) :
  (Reading.failure r = None ->
   report_size <> COther ->
   (errors_limit = None
    \/ forall line, In line (Reading.lines_read r) ->
                    process_line line <> Ok None) ->
   Z.of_nat (List.length (Reading.lines_read r)) <= 2 ^ 30 ->
   (forall line digits,
      In line (Reading.lines_read r) ->
      request_time_text line = Some digits ->
      Z.of_nat (String.length digits) <= 270) ->
   ((forall line, In line (Reading.lines_read r) ->
                  process_line line = Ok None)
    \/ exists line u t,
         In line (Reading.lines_read r)
         /\ process_line line = Ok (Some (u, t)) /\ is_zero t = false) ->
   exists stream values top,
     parse_log (Reading.lines_read r) = Ok stream
     /\ calculate_statistics impl stream errors_limit = Ok values
     /\ main_top_statistics impl r errors_limit report_size = Ok top
     /\ forall n, report_size = CInt n -> top = top_statistics values n)
  /\ (forall e, Reading.failure r = Some e ->
                calculate_statistics_of impl r errors_limit = Raise e
                /\ main_top_statistics impl r errors_limit report_size
                   = Raise e)
  /\ (forall values,
        calculate_statistics_of impl r errors_limit = Ok values ->
        report_size = COther ->
        main_top_statistics impl r errors_limit report_size
        = Raise TypeError).
Proof.
  split; [| split].
  - intros Hread Hint Hgate Hsize Hshort Hnonzero.
    destruct (Pipeline.report_ok impl (Reading.lines_read r) errors_limit 0
                Hgate Hsize Hshort Hnonzero)
      as (stream & values & Hparse & Hv & _).
    assert (Hc : calculate_statistics_of impl r errors_limit = Ok values).
    { unfold calculate_statistics_of. rewrite Hparse, Hread. exact Hv. }
    unfold main_top_statistics. rewrite Hc. cbn [bind].
    destruct report_size as [| b | n |]; [| | | contradiction];
      eexists stream, values, _;
      (split; [exact Hparse |]); (split; [exact Hv |]);
      (split; [reflexivity |]); intros m Hm; try discriminate Hm.
    injection Hm as ->. reflexivity.
  - intros e He.
    assert (Hc : calculate_statistics_of impl r errors_limit = Raise e).
    { unfold calculate_statistics_of.
      destruct (Pipeline.parse_log_items (Reading.lines_read r))
        as (stream & -> & _).
      rewrite He. reflexivity. }
    split; [exact Hc |]. unfold main_top_statistics. rewrite Hc. reflexivity.
  - intros values Hc ->. unfold main_top_statistics. rewrite Hc. reflexivity.
Qed.

Lemma report_returns_witness :
  exists stream values top,
    parse_log [log_line "/a" "0.125"; "-"; log_line "/b" "2"] = Ok stream
    /\ calculate_statistics Py.SumLeftFold stream None = Ok values
    /\ main_top_statistics Py.SumLeftFold
         {| Reading.lines_read :=
              [log_line "/a" "0.125"; "-"; log_line "/b" "2"];
            Reading.failure := None |}
         None (CInt 10)
       = Ok top
    /\ forall n, CInt 10 = CInt n -> top = top_statistics values n.
Proof.
  assert (Hsize :
            Z.of_nat (List.length
                        [log_line "/a" "0.125"; "-"; log_line "/b" "2"])
            <= 2 ^ 30)
    by (vm_compute; discriminate).
  assert (Hshort :
            forall line digits,
              In line [log_line "/a" "0.125"; "-"; log_line "/b" "2"] ->
              request_time_text line = Some digits ->
              Z.of_nat (String.length digits) <= 270).
  { intros line digits [<- | [<- | [<- | []]]] H; vm_compute in H;
      inversion H; vm_compute; discriminate. }
  assert (Hnonzero :
            exists line u t,
              In line [log_line "/a" "0.125"; "-"; log_line "/b" "2"]
              /\ process_line line = Ok (Some (u, t))
              /\ is_zero t = false).
  { exists (log_line "/a" "0.125"), "/a", (decimal "0.125").
    split; [left; reflexivity |]. split; vm_compute; reflexivity. }
  assert (Hint : CInt 10 <> COther) by discriminate.
  exact (proj1 (report_returns Py.SumLeftFold
                  {| Reading.lines_read :=
                       [log_line "/a" "0.125"; "-"; log_line "/b" "2"];
                     Reading.failure := None |}
                  None (CInt 10))
           eq_refl Hint (or_introl eq_refl) Hsize Hshort
           (or_intror Hnonzero)).
Defined.
(** * The opener that [parse_log] takes for the file of [find_last_log_file] *)

Module Opener.

Import ReFacts.

Lemma substring_skip (x y : string) (n k : nat) :
  substring (String.length x + n) k (x ++ y) = substring n k y.
Proof. induction x as [| c x IH]; [reflexivity | exact IH]. Qed.

Lemma endswith_app (x y suffix : string) :
  (String.length suffix <= String.length y)%nat ->
  endswith (x ++ y) suffix = endswith y suffix.
Proof.
  intro H. unfold endswith. cbv zeta. rewrite length_append.
  replace (String.length suffix <=? String.length x + String.length y)%nat
    with true by (symmetry; apply Nat.leb_le; lia).
  replace (String.length suffix <=? String.length y)%nat
    with true by (symmetry; apply Nat.leb_le; lia).
  replace (String.length x + String.length y - String.length suffix)%nat
    with (String.length x + (String.length y - String.length suffix))%nat
    by lia.
  rewrite substring_skip. reflexivity.
Qed.

(** [os.path.join] puts something in front of a name that does not start
    with a slash. *)
Lemma path_join_name (dir_path name : string) :
  String.prefix "/" name = false ->
  exists front, path_join dir_path name = (front ++ name)%string.
Proof.
  intro H. unfold path_join. rewrite H.
  destruct ((String.length dir_path =? 0)%nat || ends_with_slash dir_path).
  - exists dir_path. reflexivity.
  - exists (dir_path ++ "/")%string. rewrite append_assoc. reflexivity.
Qed.

(** Among the names of the shape that [FILE_NAME_REGEXP] accepts, those
    that end with [.gz] have the suffix and no newline after it. *)
Lemma gz_name (digits gz nl : string) :
  String.length digits = 8%nat -> all_digits digits = true ->
  gz = "" \/ gz = ".gz" -> nl = "" \/ nl = newline ->
  endswith ("nginx-access-ui.log-" ++ digits ++ gz ++ nl) ".gz" = true ->
  gz = ".gz" /\ nl = "".
Proof.
  intros Hl Hd Hgz Hnl.
  destruct digits as [| c1 [| c2 [| c3 [| c4 [| c5 [| c6 [| c7 [| c8 [|]]]]]]]]];
    try discriminate Hl.
  cbn [all_digits] in Hd.
  apply Bool.andb_true_iff in Hd. destruct Hd as [_ Hd].
  apply Bool.andb_true_iff in Hd. destruct Hd as [_ Hd].
  apply Bool.andb_true_iff in Hd. destruct Hd as [_ Hd].
  apply Bool.andb_true_iff in Hd. destruct Hd as [_ Hd].
  apply Bool.andb_true_iff in Hd. destruct Hd as [_ Hd].
  apply Bool.andb_true_iff in Hd. destruct Hd as [H6 Hd].
  apply Bool.andb_true_iff in Hd. destruct Hd as [H7 _].
  destruct Hgz as [-> | ->], Hnl as [-> | ->]; intro Hend.
  - exfalso. destruct c6 as [[] [] [] [] [] [] [] []];
      vm_compute in H6; try discriminate H6;
      vm_compute in Hend; discriminate Hend.
  - exfalso. destruct c7 as [[] [] [] [] [] [] [] []];
      vm_compute in H7; try discriminate H7;
      vm_compute in Hend; discriminate Hend.
  - split; reflexivity.
  - exfalso. vm_compute in Hend. discriminate Hend.
Qed.

Lemma candidate_shape (name : string) (d : date) :
  candidate_date name = Some d ->
  exists digits gz nl,
    name = ("nginx-access-ui.log-" ++ digits ++ gz ++ nl)%string
    /\ String.length digits = 8%nat /\ all_digits digits = true
    /\ (gz = "" \/ gz = ".gz") /\ (nl = "" \/ nl = newline).
Proof.
  unfold candidate_date.
  destruct (match_ FILE_NAME_REGEXP name) as [caps |] eqn:Em;
    [| discriminate].
  apply match_sound in Em. destruct Em as (s' & Hm).
  apply Names.file_name_shape in Hm.
  destruct Hm as (digits & gz & nl & Hn & Hl & Hd & Hgz & Hnl & _).
  intros _. exists digits, gz, nl. repeat split; assumption.
Qed.

End Opener.

(** X15. [parse_log] reads the file that [find_last_log_file] names through
    [gzip] exactly when the name of the file is [nginx-access-ui.log-],
    digits and [.gz] at the very end, whatever the directory path is. A
    candidate whose name goes on with a newline after [.gz] is read as
    plain text. *)
Theorem gzip_exactly_for_gz_names (dir_path name : string) (d : date)
    (Hcandidate : candidate_date name = Some d) :
  opens_with_gzip (path_join dir_path name) = true
  <-> exists digits,
        name = ("nginx-access-ui.log-" ++ digits ++ ".gz")%string.
Proof.
  destruct (Opener.candidate_shape name d Hcandidate)
    as (digits & gz & nl & Hn & Hl & Hd & Hgz & Hnl).
  assert (Hp : String.prefix "/" name = false) by (rewrite Hn; reflexivity).
  destruct (Opener.path_join_name dir_path name Hp) as (front & ->).
  assert (Hlen : (String.length ".gz" <= String.length name)%nat).
  { rewrite Hn, ReFacts.length_append. cbn [String.length]. lia. }
  unfold opens_with_gzip. rewrite (Opener.endswith_app front name ".gz" Hlen).
  split.
  - intro H. rewrite Hn in H.
    destruct (Opener.gz_name digits gz nl Hl Hd Hgz Hnl H) as [-> ->].
    exists digits. rewrite Hn. reflexivity.
  - intros (digits' & ->).
    rewrite <- ReFacts.append_assoc.
    rewrite Opener.endswith_app by (cbn [String.length]; lia).
    reflexivity.
Qed.

Lemma gzip_exactly_for_gz_names_witness :
  opens_with_gzip (path_join "./logs" "nginx-access-ui.log-20170630.gz") = true
  <-> exists digits,
        "nginx-access-ui.log-20170630.gz"
        = ("nginx-access-ui.log-" ++ digits ++ ".gz")%string.
Proof.
  assert (Hcandidate :
            candidate_date "nginx-access-ui.log-20170630.gz"
            = Some {| year := 2017; month := 6; day := 30 |})
    by (vm_compute; reflexivity).
  exact (gzip_exactly_for_gz_names "./logs" "nginx-access-ui.log-20170630.gz"
           {| year := 2017; month := 6; day := 30 |} Hcandidate).
Defined.
